(* ===== verification/_CoqProject ===== *)
-Q . S2P
Prelude.v
DataStream.v
Utils.v
Dom.v
StunMessage.v
StunCodec.v
QMap.v
StunTransaction.v
TurnAllocation.v
IceComponent.v
IceFacts.v
IceGathering.v
IceReports.v
IceConnection.v
StreamManagement.v
StreamSession.v
IqManager.v
ClientSession.v
Socks.v
TrustStorage.v
AtmManager.v
Base64.v
XmlCodec.v
SaslXml.v
SaslMechanism.v
DigestMd5.v
SaslClient.v
SaslManager.v
StreamElements.v
StreamSocket.v
Stanza.v
DataForm.v
TransferIq.v
Presence.v
IqHandling.v
BlockingManager.v
RosterIq.v
Uri.v
MovedManager.v
RosterManager.v
RosterSession.v
TransferJob.v
TransferManager.v
TransferSession.v
IncomingClient.v
Hashing.v
