(* ===== verification/Prelude.v ===== *)
(** * QXmpp: a verification development of the core of the XMPP library

    QXmpp is a C++/Qt library for XMPP clients and servers. Its sources are
    under src/src/: base (data classes, XML, STUN and ICE, SOCKS5, SASL), client
    (the stream to a server and its managers), server (the streams a server
    accepts) and omemo. The development models the code that decides: codecs,
    protocol state machines, queues, caches and their interplay. Qt's sockets,
    timers, XML lexer, hashes and random numbers are parameters, or events and
    outputs of a model.

    ** How the program's parts and the files correspond

    A file models the sources its own header names. An object is a record of
    its members, named as in the code; a method is a function of that record;
    signals, packets and log entries are appended to a list of outputs; a
    single-shot timer is an optional interval; an asynchronous continuation is
    an event. An operation the code can leave by a null dereference returns an
    option.

    - Values. [DataStream] (byte arrays, QDataStream), [QMap] (ordered maps),
      [Utils] (QXmppUtils.cpp), [Base64], [Dom] (elements, XmlWriter.h, the
      helpers of QXmppUtils_p.h) and [XmlCodec] (the law of a parser and
      writer, and the segments that prove it).
    - Connectivity (QXmppStun.cpp). [StunMessage] and [StunCodec] are the
      messages; [StunTransaction] retransmits them; [TurnAllocation] is the
      client of a relay; [IceComponent], with [IceFacts], [IceGathering] and
      [IceReports], checks pairs of candidates with both; [IceConnection]
      owns the components. [Socks] (QXmppSocks.cpp) is the bytestream
      handshake.
    - The stream. [StreamSocket] (Stream.cpp) cuts text into elements,
      [StreamElements] are the elements of the stream itself,
      [StreamManagement] (QXmppStreamManagement.cpp) counts and stores
      stanzas, [StreamSession] composes two of them over a connection that
      breaks, [IqManager] matches responses with requests through it, and
      [ClientSession] (QXmppOutgoingClient.cpp) negotiates a session with
      both. [IncomingClient] (QXmppIncomingClient.cpp) is the server's end.
    - Authentication. [SaslXml] the elements, [SaslMechanism] the choice of a
      mechanism, [DigestMd5] its messages, [SaslClient] both sides of each
      mechanism (QXmppSasl.cpp), [SaslManager] the client's negotiation
      (QXmppSaslManager.cpp); [IncomingClient] uses the server sides.
    - Stanzas. [Stanza] (QXmppStanza.cpp, QXmppIq.cpp, QXmppElement.cpp) are
      errors and IQs, whose content is a class that each kind of IQ implements;
      [DataForm] (QXmppDataForm.cpp) are forms, [TransferIq] the IQs of file
      transfers and [Presence] (QXmppPresence.cpp) presences; [IqHandling]
      (QXmppIqHandling.h) dispatches the requests a client gets.
    - Contacts. [RosterIq] the roster's elements, [RosterManager]
      (QXmppRosterManager.cpp) the copy of the roster a client keeps and
      [RosterSession] that copy against a server over sessions;
      [MovedManager] (QXmppMovedManager.cpp) the accounts of contacts that
      moved, with [Uri] (QXmppUri.cpp); [BlockingManager]
      (QXmppBlockingManager.cpp) the block list.
    - File transfers (QXmppTransferManager.cpp). [TransferJob] are the jobs, over
      a class of devices, [TransferManager] finds the job a stanza is for and
      [TransferSession] runs two managers against each other. [Hashing]
      (QXmppHashing.cpp) computes and checks the hashes of shared files in a
      pool of threads.
    - Trust. [TrustStorage] is the interface of a storage of trust levels, a
      class with its laws, and the memory storages as its instances;
      [AtmManager] (QXmppTrustManager.cpp, QXmppAtmManager.cpp) is proved
      against the interface only.

    ** What the theorems show

    - Round trips: what a component writes it reads back (STUN messages, channel
      data, SASL, stream management and file transfer elements, mechanism names, digest
      messages, presences, URIs), so the two sides of a connection agree on what
      was said.
    - Invariants over every run of events: pairs and gathering states of ICE,
      the timers of a TURN allocation, one result per authentication and per
      request, trust decisions that follow from what authenticated keys said
      (by key id, and by sender where key ids are not claimed by others), the
      digests of a file for every interleaving of the threads that compute
      them, and the files reported as received.
    - Refinements and equivalences: stream management is a queue whose stanzas
      arrive exactly once across lost connections; a client's roster is the
      server's at the point the stream has reached; parsing does not depend on
      the chunks of the network while the slots leave the socket alone; CRC-32 is its bitwise reference.
    - Termination and liveness: the attribute loop, postponed trust decisions,
      the retransmissions of a transaction, complete log-ins.
    - Safety: responses are matched with their sender, wrong keys and passwords
      are rejected, the address of a server's client names a user that was
      checked or no account; only an account's own server changes its roster and
      block list; a moved contact is believed only after the old account has
      confirmed it in answer to the request.
    - Theorems that state how the code behaves where it fails its purpose: they
      prove concrete runs, and are the findings of the development.

    ** Bounds and fuel

    Machine integers are Z with the wrap-around of their width ([uwrap],
    [iwrap]). Recursion that is not structural runs on fuel that is the length
    of its input (attributes of a STUN message, digest messages, socket data) or
    the number of postponed decisions plus two (ATM); theorems prove that this
    is enough.

    ** Not modelled

    Sockets, TLS, DNS, timers as real time, the XML lexer, cryptography and
    random numbers (parameters of the model); logging, setters and getters;
    media, HTTP and the double ratchet, which are other libraries.
    Continuations that call back into the object that runs them are left out
    where a file says so. *)
From Stdlib Require Export Ascii ZArith Lia.
From stdpp Require Export base tactics list numbers gmap strings pretty option sorting.

#[global] Open Scope Z_scope.

(** ** Automation *)

Create HintDb qx discriminated.
#[export] Hint Constants Opaque : qx.
Create Rewrite HintDb qx_simpl.

(** Case analysis on every test the goal or a hypothesis still branches on. *)
Ltac qx_case :=
  match goal with
  | |- context [if decide ?P then _ else _] => destruct (decide P)
  | H : context [if decide ?P then _ else _] |- _ => destruct (decide P)
  | |- context [if ?b then _ else _] => destruct b eqn:?
  | H : context [if ?b then _ else _] |- _ => destruct b eqn:?
  | |- context [match ?o with Some _ => _ | None => _ end] => destruct o eqn:?
  | H : context [match ?o with Some _ => _ | None => _ end] |- _ =>
      destruct o eqn:?
  end.

(** Boolean tests of the code turned into the propositions they decide. *)
Ltac bools :=
  repeat match goal with
  | H : (_ && _)%bool = true |- _ => apply andb_prop in H as [? ?]
  | H : (_ || _)%bool = false |- _ => apply orb_false_iff in H as [? ?]
  | H : negb _ = true |- _ => apply negb_true_iff in H
  | H : negb _ = false |- _ => apply negb_false_iff in H
  | H : (_ =? _) = true |- _ => apply Z.eqb_eq in H
  | H : (_ =? _) = false |- _ => apply Z.eqb_neq in H
  | H : (_ <? _) = true |- _ => apply Z.ltb_lt in H
  | H : (_ <? _) = false |- _ => apply Z.ltb_ge in H
  | H : (_ <=? _) = true |- _ => apply Z.leb_le in H
  | H : (_ <=? _) = false |- _ => apply Z.leb_gt in H
  | H : bool_decide _ = true |- _ => apply bool_decide_eq_true in H
  | H : bool_decide _ = false |- _ => apply bool_decide_eq_false in H
  end.

(** ** Record update

    [Eta R] lists the projections of a record once; [upd p f r] is then the
    record [r] with the field [p] replaced by [f (p r)], written
    [r <| p := v |>]. *)

Class Eta (R : Type) := eta_rec : R -> R.
Class Upd {R A : Type} (p : R -> A) := upd : (A -> A) -> R -> R.
Arguments upd {R A} p {_} _ _ /.

Ltac build_upd R p :=
  let e := constr:(_ : Eta R) in
  let e' := eval red in e in
  match eval pattern p in e' with
  | ?F _ =>
      let t := eval cbv beta in (fun g => F (fun r => g (p r))) in exact t
  end.
#[export] Hint Extern 1 (@Upd ?R ?A ?p) => build_upd R p : typeclass_instances.

Declare Scope upd_scope.
Notation "r <| p := v |>" := (upd p (fun _ => v) r)
  (at level 1, left associativity, format "r  <| p  :=  v |>") : upd_scope.
Notation "r <| p ::= f |>" := (upd p f r)
  (at level 1, left associativity, format "r  <| p  ::=  f |>") : upd_scope.
#[global] Open Scope upd_scope.

(** ** Machine integers

    A value of an unsigned [w]-bit C++ type is a [Z] in [0, 2^w); a signed one
    a [Z] in [-2^(w-1), 2^(w-1)). [u*] and [i*] are the conversions to the
    type, which wrap around. *)

Definition uwrap (w x : Z) : Z := x mod 2 ^ w.
Definition iwrap (w x : Z) : Z :=
  let u := uwrap w x in if u <? 2 ^ (w - 1) then u else u - 2 ^ w.

Definition u8 := uwrap 8.
Definition u16 := uwrap 16.
Definition u32 := uwrap 32.
Definition u64 := uwrap 64.
Definition i8 := iwrap 8.
Definition i16 := iwrap 16.
Definition i32 := iwrap 32.

Lemma uwrap_range w x : 0 <= w -> 0 <= uwrap w x < 2 ^ w.
Proof. intros. apply Z.mod_pos_bound. by apply Z.pow_pos_nonneg. Qed.

Lemma uwrap_small w x : 0 <= x < 2 ^ w -> uwrap w x = x.
Proof. intros. by apply Z.mod_small. Qed.

Lemma iwrap_range w x : 0 < w -> - 2 ^ (w - 1) <= iwrap w x < 2 ^ (w - 1).
Proof.
  intros Hw. unfold iwrap. pose proof (uwrap_range w x ltac:(lia)).
  replace (2 ^ w) with (2 * 2 ^ (w - 1)) in *
    by (rewrite <-Z.pow_succ_r by lia; f_equal; lia).
  destruct (Z.ltb_spec (uwrap w x) (2 ^ (w - 1))); lia.
Qed.

Lemma iwrap_small w x : 0 < w -> - 2 ^ (w - 1) <= x < 2 ^ (w - 1) -> iwrap w x = x.
Proof.
  intros Hw Hx. unfold iwrap, uwrap.
  replace (2 ^ w) with (2 * 2 ^ (w - 1)) in *
    by (rewrite <-Z.pow_succ_r by lia; f_equal; lia).
  set (h := 2 ^ (w - 1)) in *.
  destruct (Z.neg_nonneg_cases x).
  - replace (x mod (2 * h)) with (x + 2 * h)
      by (apply Z.mod_unique with (-1); lia).
    destruct (Z.ltb_spec (x + 2 * h) h); lia.
  - rewrite (Z.mod_small x) by lia.
    destruct (Z.ltb_spec x h); lia.
Qed.

(** [uwrap] and [iwrap] are the identity on values that already fit; the side
    condition is left to [lia] on concrete bounds. *)
Ltac wrap_small :=
  repeat match goal with
  | |- context [uwrap ?w ?x] => rewrite (uwrap_small w x) by lia
  | |- context [iwrap ?w ?x] => rewrite (iwrap_small w x) by lia
  end.

(** ** Lists *)

Section Lists.
Context {A : Type}.

Lemma take_app_exact (l k : list A) : take (length l) (l ++ k) = l.
Proof. by rewrite take_app_length. Qed.

Lemma drop_app_exact (l k : list A) : drop (length l) (l ++ k) = k.
Proof. by rewrite drop_app_length. Qed.

Lemma take_app_eq n (l k : list A) : n = length l -> take n (l ++ k) = l.
Proof. intros ->. apply take_app_exact. Qed.

Lemma drop_app_eq n (l k : list A) : n = length l -> drop n (l ++ k) = k.
Proof. intros ->. apply drop_app_exact. Qed.
Lemma filter_all (P : A -> Prop) `{forall x, Decision (P x)} (l : list A) :
  Forall P l -> filter P l = l.
Proof. induction 1; [done|]. rewrite filter_cons_True by done. congruence. Qed.

Lemma filter_none (P : A -> Prop) `{forall x, Decision (P x)} (l : list A) :
  Forall (fun x => ~ P x) l -> filter P l = [].
Proof. induction 1; [done|]. by rewrite filter_cons_False. Qed.

Lemma elem_of_concat (x : A) (ls : list (list A)) :
  x ∈ concat ls <-> exists l, l ∈ ls /\ x ∈ l.
Proof. rewrite list_elem_of_In, in_concat. by setoid_rewrite list_elem_of_In. Qed.

Lemma Forall_weaken (P Q : A -> Prop) (l : list A) :
  Forall P l -> (forall x, P x -> Q x) -> Forall Q l.
Proof. intros. by eapply Forall_impl. Qed.
End Lists.

(** ** Texts *)

Lemma append_cons c (a b : string) : String c a +:+ b = String c (a +:+ b).
Proof. done. Qed.
Lemma text_app_assoc (a b c : string) : (a +:+ b) +:+ c = a +:+ (b +:+ c).
Proof. induction a as [|x a IH]; [done|]. by rewrite !append_cons, IH. Qed.
Lemma text_app_nil (a : string) : a +:+ "" = a.
Proof. induction a as [|x a IH]; [done|]. by rewrite append_cons, IH. Qed.
Lemma text_app_length (a b : string) :
  String.length (a +:+ b) = (String.length a + String.length b)%nat.
Proof. induction a as [|x a IH]; [done|]. rewrite append_cons. simpl. by rewrite IH. Qed.
Lemma concat_cons (x : string) (l : list string) :
  String.concat "" (x :: l) = x +:+ String.concat "" l.
Proof. destruct l; [|done]. simpl. by rewrite text_app_nil. Qed.
