(* ===== verification/DataStream.v ===== *)
(** * Byte arrays and binary streams

    QByteArray is a list of bytes, each a [Z] in [0, 256). This file has the
    big-endian integers of QDataStream, the reading side of a QDataStream over
    a byte array, with its behaviour at the end of the data (a short integer
    read yields 0 and consumes what is left, a short raw read fills a prefix),
    and the round-trip lemmas the codecs share. *)
From S2P Require Import Prelude.

Abbreviation bytes := (list Z).

Definition byte_ok (b : Z) : Prop := 0 <= b < 256.
Definition bytes_ok (l : bytes) : Prop := Forall byte_ok l.

#[export] Instance byte_ok_dec b : Decision (byte_ok b).
Proof. unfold byte_ok. apply _. Defined.
#[export] Instance bytes_ok_dec l : Decision (bytes_ok l).
Proof. unfold bytes_ok. apply _. Defined.

(** QByteArray::size(). *)
Definition len {A} (l : list A) : Z := Z.of_nat (length l).

Lemma len_nil {A} : len (@nil A) = 0.
Proof. done. Qed.
Lemma len_cons {A} (x : A) l : len (x :: l) = 1 + len l.
Proof. unfold len. simpl length. lia. Qed.
Lemma len_app {A} (l k : list A) : len (l ++ k) = len l + len k.
Proof. unfold len. rewrite length_app. lia. Qed.
Lemma len_nonneg {A} (l : list A) : 0 <= len l.
Proof. unfold len. lia. Qed.
Lemma len_replicate {A} n (x : A) : len (replicate n x) = Z.of_nat n.
Proof. unfold len. by rewrite length_replicate. Qed.
Lemma len_zero {A} (l : list A) : len l = 0 -> l = [].
Proof. destruct l; [done|]. rewrite len_cons. pose proof (len_nonneg l). lia. Qed.
#[export] Hint Rewrite @len_nil @len_cons @len_app @len_replicate : qx_simpl.
#[export] Hint Resolve len_nonneg : qx.

Ltac len_simpl := autorewrite with qx_simpl in *.

(** left(n), mid(n) and mid(n, k) of QByteArray for [0 <= n]. *)
Definition left {A} (n : Z) (l : list A) : list A := take (Z.to_nat n) l.
Definition mid {A} (n : Z) (l : list A) : list A := drop (Z.to_nat n) l.

Lemma left_app {A} (l k : list A) n : n = len l -> left n (l ++ k) = l.
Proof. intros ->. apply take_app_eq. unfold len. lia. Qed.
Lemma mid_app {A} (l k : list A) n : n = len l -> mid n (l ++ k) = k.
Proof. intros ->. apply drop_app_eq. unfold len. lia. Qed.
Lemma left_all {A} (l : list A) n : len l <= n -> left n l = l.
Proof. intros. apply take_ge. unfold len in *. lia. Qed.
Lemma len_left {A} (l : list A) n : 0 <= n -> len (left n l) = Z.min n (len l).
Proof. intros. unfold len, left. rewrite length_take. lia. Qed.
Lemma len_mid {A} (l : list A) n : 0 <= n -> len (mid n l) = Z.max 0 (len l - n).
Proof. intros. unfold len, mid. rewrite length_drop. lia. Qed.

(** ** Big-endian integers *)

(** [be n x] is what [stream << x] writes for an [n]-byte unsigned integer. *)
Fixpoint be (n : nat) (x : Z) : bytes :=
  match n with
  | O => []
  | S n' => (x / 256 ^ Z.of_nat n') mod 256 :: be n' x
  end.

Definition be_step (acc b : Z) : Z := acc * 256 + b.
Definition be_dec (l : bytes) : Z := foldl be_step 0 l.

Lemma length_be n x : length (be n x) = n.
Proof. induction n; simpl; congruence. Qed.
Lemma len_be n x : len (be n x) = Z.of_nat n.
Proof. unfold len. by rewrite length_be. Qed.
#[export] Hint Rewrite len_be : qx_simpl.

Lemma be_ok n x : bytes_ok (be n x).
Proof.
  induction n; simpl; constructor; [|done].
  unfold byte_ok. apply Z.mod_pos_bound. lia.
Qed.
#[export] Hint Resolve be_ok : qx.

Lemma foldl_be acc l : foldl be_step acc l = acc * 256 ^ len l + be_dec l.
Proof.
  unfold be_dec. revert acc. induction l as [|b l IH]; intros acc; simpl.
  - rewrite len_nil. lia.
  - rewrite IH, (IH (be_step 0 b)), len_cons, Z.add_comm.
    rewrite (Z.add_comm 1), Z.pow_add_r by (auto using len_nonneg with lia).
    unfold be_step. lia.
Qed.

Lemma be_dec_cons b l : be_dec (b :: l) = b * 256 ^ len l + be_dec l.
Proof. unfold be_dec at 1. simpl. rewrite foldl_be. unfold be_step. lia. Qed.

Lemma be_dec_be n x : be_dec (be n x) = x mod 256 ^ Z.of_nat n.
Proof.
  induction n as [|n IH]; [by rewrite Z.mod_1_r|].
  simpl be. rewrite be_dec_cons, IH, len_be, Nat2Z.inj_succ, Z.pow_succ_r by lia.
  rewrite (Z.mul_comm 256), Z.rem_mul_r by lia. lia.
Qed.

Lemma be_dec_be_small n x : 0 <= x < 256 ^ Z.of_nat n -> be_dec (be n x) = x.
Proof. intros. by rewrite be_dec_be, Z.mod_small. Qed.

Lemma be_dec_range l : bytes_ok l -> 0 <= be_dec l < 256 ^ len l.
Proof.
  induction 1 as [|b l Hb Hl IH]; [by cbn|].
  rewrite be_dec_cons, len_cons, Z.pow_add_r by (auto using len_nonneg with lia).
  unfold byte_ok in Hb. nia.
Qed.

Lemma be_S n x : be (S n) x = (x / 256 ^ Z.of_nat n) mod 256 :: be n x.
Proof. done. Qed.

Lemma be_shift n x k : 0 <= k -> be n (k * 256 ^ Z.of_nat n + x) = be n x.
Proof.
  revert x k. induction n as [|n IH]; intros x k Hk; [done|].
  rewrite !be_S, Nat2Z.inj_succ, Z.pow_succ_r by lia.
  replace (k * (256 * 256 ^ Z.of_nat n) + x) with (k * 256 * 256 ^ Z.of_nat n + x) by lia.
  rewrite IH by lia. f_equal. rewrite Z.div_add_l, Z.add_comm, Z.mod_add by lia. done.
Qed.

(** The bytes of an integer read and written again. *)
Lemma be_be_dec l : bytes_ok l -> be (length l) (be_dec l) = l.
Proof.
  induction 1 as [|b l Hb Hl IH]; [done|]. cbn [length]. rewrite be_S, be_dec_cons.
  pose proof (be_dec_range l Hl). unfold byte_ok, len in *. rewrite be_shift, IH by lia. f_equal.
  rewrite Z.div_add_l, (Z.div_small (be_dec l)), Z.add_0_r by lia. by apply Z.mod_small.
Qed.

Lemma be_1 b : byte_ok b -> be 1 b = [b].
Proof. intros Hb. rewrite be_S. change (256 ^ Z.of_nat 0) with 1. rewrite Z.div_1_r. by rewrite Z.mod_small. Qed.

(** [quint8], [quint16] and [quint32] written to a stream. *)
Definition w8 (x : Z) : bytes := be 1 x.
Definition w16 (x : Z) : bytes := be 2 x.
Definition w32 (x : Z) : bytes := be 4 x.

(** ** Reading *)

(** The unread bytes of a QDataStream, and whether its status is still Ok. *)
Record ReadStream := mkReadStream { rs_rest : bytes; rs_ok : bool }.
#[export] Instance eta_ReadStream : Eta ReadStream :=
  fun r => mkReadStream (rs_rest r) (rs_ok r).

Definition open_stream (b : bytes) : ReadStream := mkReadStream b true.

(** QDataStream::readBlock: up to [n] bytes, ReadPastEnd when there are fewer. *)
Definition readBlock (n : Z) (s : ReadStream) : bytes * ReadStream :=
  (left n (rs_rest s),
   mkReadStream (mid n (rs_rest s)) (rs_ok s && (n <=? len (rs_rest s)))).

(** [stream >> x] for an [n]-byte unsigned [x]: 0 when the read is short. *)
Definition readUInt (n : nat) (s : ReadStream) : Z * ReadStream :=
  let '(b, s') := readBlock (Z.of_nat n) s in
  (if len b =? Z.of_nat n then be_dec b else 0, s').

(** [stream.readRawData(buf.data(), buf.size())]: overwrites a prefix of [buf]. *)
Definition readRawData (buf : bytes) (s : ReadStream) : bytes * ReadStream :=
  let '(b, s') := readBlock (len buf) s in (b ++ mid (len b) buf, s').

Definition skipRawData (n : Z) (s : ReadStream) : ReadStream := (readBlock n s).2.

(** QByteArray::resize: the bytes it adds are unspecified, [junk i] at [i]. *)
Definition resize (junk : nat -> Z) (n : Z) (l : bytes) : bytes :=
  left n l ++ map junk (seq (length l) (Z.to_nat n - length l)).

Lemma len_resize junk n l : 0 <= n -> len (resize junk n l) = n.
Proof.
  intros. unfold resize. rewrite len_app, len_left by done.
  unfold len. rewrite length_map, length_seq. lia.
Qed.

Lemma readUInt_app n x rest ok :
  0 <= x < 256 ^ Z.of_nat n ->
  readUInt n (mkReadStream (be n x ++ rest) ok) = (x, mkReadStream rest ok).
Proof.
  intros Hx. unfold readUInt, readBlock. simpl.
  rewrite left_app, mid_app, len_be, Z.eqb_refl, be_dec_be_small
    by (done || by rewrite len_be).
  rewrite len_app, len_be. pose proof (len_nonneg rest).
  rewrite (proj2 (Z.leb_le _ _)) by lia. by rewrite andb_true_r.
Qed.

Lemma readRawData_app buf l rest ok :
  len buf = len l ->
  readRawData buf (mkReadStream (l ++ rest) ok) = (l, mkReadStream rest ok).
Proof.
  intros Hl. unfold readRawData, readBlock. simpl.
  rewrite left_app, mid_app by done.
  assert (mid (len l) buf = []) as ->.
  { apply len_zero. rewrite len_mid by auto using len_nonneg. lia. }
  rewrite app_nil_r, len_app. pose proof (len_nonneg rest).
  rewrite (proj2 (Z.leb_le _ _)) by lia. by rewrite andb_true_r.
Qed.

Lemma skipRawData_app n l rest ok :
  n = len l -> skipRawData n (mkReadStream (l ++ rest) ok) = mkReadStream rest ok.
Proof.
  intros ->. unfold skipRawData, readBlock. simpl. rewrite mid_app by done.
  rewrite len_app. pose proof (len_nonneg rest).
  rewrite (proj2 (Z.leb_le _ _)) by lia. by rewrite andb_true_r.
Qed.

Lemma skipRawData_zero rest ok : skipRawData 0 (mkReadStream rest ok) = mkReadStream rest ok.
Proof. apply (skipRawData_app 0 [] rest ok). done. Qed.

(** A read never gives back more than there was. *)
Lemma len_readBlock n s : 0 <= n ->
  len (rs_rest (readBlock n s).2) = Z.max 0 (len (rs_rest s) - n).
Proof. intros. simpl. by apply len_mid. Qed.

(** ** Strings

    The characters of a QString as the bytes of QString::toLatin1(). *)
Fixpoint latin1 (s : string) : bytes :=
  match s with
  | EmptyString => []
  | String c s' => Z.of_N (Ascii.N_of_ascii c) :: latin1 s'
  end.

Fixpoint fromLatin1 (l : bytes) : string :=
  match l with
  | [] => EmptyString
  | b :: l' => String (Ascii.ascii_of_N (Z.to_N b)) (fromLatin1 l')
  end.

Lemma fromLatin1_latin1 s : fromLatin1 (latin1 s) = s.
Proof.
  induction s as [|c s IH]; [done|]. simpl.
  by rewrite N2Z.id, Ascii.ascii_N_embedding, IH.
Qed.

Lemma latin1_ok s : bytes_ok (latin1 s).
Proof.
  induction s as [|c s IH]; constructor; [|done].
  unfold byte_ok. pose proof (Ascii.N_ascii_bounded c). lia.
Qed.
#[export] Hint Resolve latin1_ok : qx.

Lemma latin1_inj s t : latin1 s = latin1 t -> s = t.
Proof. intros H. by rewrite <-(fromLatin1_latin1 s), H, fromLatin1_latin1. Qed.

#[global] Arguments readBlock : simpl never.
#[global] Arguments readUInt : simpl never.
#[global] Arguments readRawData : simpl never.
#[global] Arguments skipRawData : simpl never.
#[global] Arguments be : simpl never.
#[global] Arguments len : simpl never.
