(* ===== verification/Utils.v ===== *)
(** * QXmppUtils (src/src/base/QXmppUtils.cpp)

    CRC-32, HMAC, JIDs, XEP-0082 time zone offsets, integer and boolean
    parsing, random numbers and stanza ids. QCryptographicHash, the random
    generator and QString's number parser are arguments. *)
From S2P Require Import Prelude DataStream.

(** ** CRC-32 *)
Module Crc32.
(** The table of the source. *)
Definition crctable : list Z := [
  0x00000000; 0x77073096; 0xee0e612c; 0x990951ba; 0x076dc419; 0x706af48f;
  0xe963a535; 0x9e6495a3; 0x0edb8832; 0x79dcb8a4; 0xe0d5e91e; 0x97d2d988;
  0x09b64c2b; 0x7eb17cbd; 0xe7b82d07; 0x90bf1d91; 0x1db71064; 0x6ab020f2;
  0xf3b97148; 0x84be41de; 0x1adad47d; 0x6ddde4eb; 0xf4d4b551; 0x83d385c7;
  0x136c9856; 0x646ba8c0; 0xfd62f97a; 0x8a65c9ec; 0x14015c4f; 0x63066cd9;
  0xfa0f3d63; 0x8d080df5; 0x3b6e20c8; 0x4c69105e; 0xd56041e4; 0xa2677172;
  0x3c03e4d1; 0x4b04d447; 0xd20d85fd; 0xa50ab56b; 0x35b5a8fa; 0x42b2986c;
  0xdbbbc9d6; 0xacbcf940; 0x32d86ce3; 0x45df5c75; 0xdcd60dcf; 0xabd13d59;
  0x26d930ac; 0x51de003a; 0xc8d75180; 0xbfd06116; 0x21b4f4b5; 0x56b3c423;
  0xcfba9599; 0xb8bda50f; 0x2802b89e; 0x5f058808; 0xc60cd9b2; 0xb10be924;
  0x2f6f7c87; 0x58684c11; 0xc1611dab; 0xb6662d3d; 0x76dc4190; 0x01db7106;
  0x98d220bc; 0xefd5102a; 0x71b18589; 0x06b6b51f; 0x9fbfe4a5; 0xe8b8d433;
  0x7807c9a2; 0x0f00f934; 0x9609a88e; 0xe10e9818; 0x7f6a0dbb; 0x086d3d2d;
  0x91646c97; 0xe6635c01; 0x6b6b51f4; 0x1c6c6162; 0x856530d8; 0xf262004e;
  0x6c0695ed; 0x1b01a57b; 0x8208f4c1; 0xf50fc457; 0x65b0d9c6; 0x12b7e950;
  0x8bbeb8ea; 0xfcb9887c; 0x62dd1ddf; 0x15da2d49; 0x8cd37cf3; 0xfbd44c65;
  0x4db26158; 0x3ab551ce; 0xa3bc0074; 0xd4bb30e2; 0x4adfa541; 0x3dd895d7;
  0xa4d1c46d; 0xd3d6f4fb; 0x4369e96a; 0x346ed9fc; 0xad678846; 0xda60b8d0;
  0x44042d73; 0x33031de5; 0xaa0a4c5f; 0xdd0d7cc9; 0x5005713c; 0x270241aa;
  0xbe0b1010; 0xc90c2086; 0x5768b525; 0x206f85b3; 0xb966d409; 0xce61e49f;
  0x5edef90e; 0x29d9c998; 0xb0d09822; 0xc7d7a8b4; 0x59b33d17; 0x2eb40d81;
  0xb7bd5c3b; 0xc0ba6cad; 0xedb88320; 0x9abfb3b6; 0x03b6e20c; 0x74b1d29a;
  0xead54739; 0x9dd277af; 0x04db2615; 0x73dc1683; 0xe3630b12; 0x94643b84;
  0x0d6d6a3e; 0x7a6a5aa8; 0xe40ecf0b; 0x9309ff9d; 0x0a00ae27; 0x7d079eb1;
  0xf00f9344; 0x8708a3d2; 0x1e01f268; 0x6906c2fe; 0xf762575d; 0x806567cb;
  0x196c3671; 0x6e6b06e7; 0xfed41b76; 0x89d32be0; 0x10da7a5a; 0x67dd4acc;
  0xf9b9df6f; 0x8ebeeff9; 0x17b7be43; 0x60b08ed5; 0xd6d6a3e8; 0xa1d1937e;
  0x38d8c2c4; 0x4fdff252; 0xd1bb67f1; 0xa6bc5767; 0x3fb506dd; 0x48b2364b;
  0xd80d2bda; 0xaf0a1b4c; 0x36034af6; 0x41047a60; 0xdf60efc3; 0xa867df55;
  0x316e8eef; 0x4669be79; 0xcb61b38c; 0xbc66831a; 0x256fd2a0; 0x5268e236;
  0xcc0c7795; 0xbb0b4703; 0x220216b9; 0x5505262f; 0xc5ba3bbe; 0xb2bd0b28;
  0x2bb45a92; 0x5cb36a04; 0xc2d7ffa7; 0xb5d0cf31; 0x2cd99e8b; 0x5bdeae1d;
  0x9b64c2b0; 0xec63f226; 0x756aa39c; 0x026d930a; 0x9c0906a9; 0xeb0e363f;
  0x72076785; 0x05005713; 0x95bf4a82; 0xe2b87a14; 0x7bb12bae; 0x0cb61b38;
  0x92d28e9b; 0xe5d5be0d; 0x7cdcefb7; 0x0bdbdf21; 0x86d3d2d4; 0xf1d4e242;
  0x68ddb3f8; 0x1fda836e; 0x81be16cd; 0xf6b9265b; 0x6fb077e1; 0x18b74777;
  0x88085ae6; 0xff0f6a70; 0x66063bca; 0x11010b5c; 0x8f659eff; 0xf862ae69;
  0x616bffd3; 0x166ccf45; 0xa00ae278; 0xd70dd2ee; 0x4e048354; 0x3903b3c2;
  0xa7672661; 0xd06016f7; 0x4969474d; 0x3e6e77db; 0xaed16a4a; 0xd9d65adc;
  0x40df0b66; 0x37d83bf0; 0xa9bcae53; 0xdebb9ec5; 0x47b2cf7f; 0x30b5ffe9;
  0xbdbdf21c; 0xcabac28a; 0x53b39330; 0x24b4a3a6; 0xbad03605; 0xcdd70693;
  0x54de5729; 0x23d967bf; 0xb3667a2e; 0xc4614ab8; 0x5d681b02; 0x2a6f2b94;
  0xb40bbe37; 0xc30c8ea1; 0x5a05df1b; 0x2d02ef8d  ].

(** [result = (result >> 8) ^ crctable[(result & 0xff) ^ n]]. *)
Definition crc_update (result n : Z) : Z :=
  Z.lxor (Z.shiftr result 8)
    (nth (Z.to_nat (Z.lxor (Z.land result 0xff) n)) crctable 0).

Definition generateCrc32 (input : bytes) : Z :=
  Z.lxor (foldl crc_update 0xffffffff input) 0xffffffff.

(** Reference: the reflected polynomial 0xEDB88320 divided out bit by bit. *)
Definition crc_bit (c : Z) : Z :=
  if Z.odd c then Z.lxor (Z.shiftr c 1) 0xedb88320 else Z.shiftr c 1.
Definition crc_bits (n : nat) (c : Z) : Z := Nat.iter n crc_bit c.
Definition crc_ref (input : bytes) : Z :=
  Z.lxor (foldl (fun c b => crc_bits 8 (Z.lxor c b)) 0xffffffff input) 0xffffffff.

Definition u32_ok (x : Z) : Prop := 0 <= x < 2 ^ 32.

Lemma land_255 x : Z.land x 0xff = x mod 256.
Proof. change 0xff with (Z.ones 8). by rewrite Z.land_ones by lia. Qed.

Lemma lxor_range w a b : 0 <= w ->
  0 <= a < 2 ^ w -> 0 <= b < 2 ^ w -> 0 <= Z.lxor a b < 2 ^ w.
Proof.
  intros Hw Ha Hb. assert (0 <= Z.lxor a b) as H0 by (apply Z.lxor_nonneg; lia).
  split; [done|]. destruct (Z.eq_dec (Z.lxor a b) 0) as [->|Hne]; [lia|].
  apply Z.log2_lt_pow2; [lia|].
  eapply Z.le_lt_trans; [apply Z.log2_lxor; lia|].
  destruct (Z.eq_dec w 0) as [->|]; [exfalso; assert (a = 0) by lia; assert (b = 0) by lia; subst; done|].
  apply Z.max_lub_lt;
    match goal with |- Z.log2 ?x < _ =>
      destruct (Z.eq_dec x 0) as [->|]; [simpl; lia | apply Z.log2_lt_pow2; lia]
    end.
Qed.

Lemma crc_bit_lxor a b : crc_bit (Z.lxor a b) = Z.lxor (crc_bit a) (crc_bit b).
Proof.
  unfold crc_bit. rewrite <-!Z.bit0_odd, Z.lxor_spec, !Z.bit0_odd, Z.shiftr_lxor.
  set (p := 0xedb88320). destruct (Z.odd a), (Z.odd b); simpl;
  apply Z.bits_inj'; intros n _; rewrite ?Z.lxor_spec;
  destruct (Z.testbit (Z.shiftr a 1) n), (Z.testbit (Z.shiftr b 1) n), (Z.testbit p n); done.
Qed.

Lemma crc_bits_lxor n a b :
  crc_bits n (Z.lxor a b) = Z.lxor (crc_bits n a) (crc_bits n b).
Proof.
  unfold crc_bits. induction n as [|n IH]; [done|].
  simpl. by rewrite IH, crc_bit_lxor.
Qed.

Lemma crc_bits_shiftl n y : crc_bits n (Z.shiftl y (Z.of_nat n)) = y.
Proof.
  unfold crc_bits. revert y. induction n as [|n IH]; intros y; [by rewrite Z.shiftl_0_r|].
  rewrite Nat.iter_succ_r. unfold crc_bit at 2.
  assert (Z.shiftl y (Z.of_nat (S n)) = 2 * Z.shiftl y (Z.of_nat n)) as ->.
  { rewrite !Z.shiftl_mul_pow2, Nat2Z.inj_succ, Z.pow_succ_r by lia. lia. }
  rewrite Z.odd_mul. simpl.
  replace (Z.shiftr (2 * Z.shiftl y (Z.of_nat n)) 1) with (Z.shiftl y (Z.of_nat n)).
  - apply IH.
  - rewrite Z.shiftr_div_pow2, Z.pow_1_r, (Z.mul_comm 2), Z.div_mul by lia. done.
Qed.

(** The table holds the eight-step remainder of every byte. *)
Lemma crctable_spec i : 0 <= i < 256 -> nth (Z.to_nat i) crctable 0 = crc_bits 8 i.
Proof.
  assert (forallb (fun n => nth n crctable 0 =? crc_bits 8 (Z.of_nat n)) (seq 0 256) = true)
    as H by (vm_compute; reflexivity).
  rewrite forallb_forall in H. intros Hi.
  specialize (H (Z.to_nat i) ltac:(apply in_seq; lia)).
  apply Z.eqb_eq in H. by rewrite Z2Nat.id in H by lia.
Qed.

(** A word is its low byte and the rest. *)
Lemma split_byte c : c = Z.lxor (c mod 256) (Z.shiftl (Z.shiftr c 8) 8).
Proof.
  rewrite <-land_255. apply Z.bits_inj'. intros n Hn.
  rewrite Z.lxor_spec, Z.land_spec. change 0xff with (Z.ones 8).
  rewrite Z.testbit_ones_nonneg, Z.shiftl_spec by lia.
  destruct (Z.ltb_spec n 8).
  - rewrite (Z.testbit_neg_r (Z.shiftr c 8)) by lia. by destruct (Z.testbit c n).
  - rewrite Z.shiftr_spec by lia. replace (n - 8 + 8) with n by lia.
    by destruct (Z.testbit c n).
Qed.

Lemma crc_bits_8_split c :
  crc_bits 8 c = Z.lxor (Z.shiftr c 8) (crc_bits 8 (c mod 256)).
Proof.
  rewrite (split_byte c) at 1. rewrite crc_bits_lxor.
  change 8 with (Z.of_nat 8) at 3. rewrite crc_bits_shiftl. apply Z.lxor_comm.
Qed.

Lemma crc_update_ref c b : byte_ok b -> crc_update c b = crc_bits 8 (Z.lxor c b).
Proof.
  intros Hb. unfold crc_update, byte_ok in *. rewrite crc_bits_8_split, land_255.
  assert (Z.lxor c b mod 256 = Z.lxor (c mod 256) b) as ->.
  { rewrite <-!land_255. apply Z.bits_inj'. intros n Hn.
    rewrite !Z.lxor_spec, !Z.land_spec, Z.lxor_spec. change 0xff with (Z.ones 8).
    rewrite Z.testbit_ones_nonneg by lia. destruct (Z.ltb_spec n 8); [by rewrite !andb_true_r|].
    rewrite !andb_false_r. symmetry. simpl.
    destruct (Z.eq_dec b 0) as [->|]; [apply Z.testbit_0_l|].
    apply Z.bits_above_log2; [lia|]. apply Z.log2_lt_pow2; [lia|].
    apply Z.lt_le_trans with (2 ^ 8); [lia|]. apply Z.pow_le_mono_r; lia. }
  assert (Z.shiftr (Z.lxor c b) 8 = Z.shiftr c 8) as ->.
  { rewrite Z.shiftr_lxor. rewrite (Z.shiftr_div_pow2 b), (Z.div_small b) by lia.
    apply Z.lxor_0_r. }
  rewrite crctable_spec; [done|].
  apply (lxor_range 8); [lia| |lia]. apply Z.mod_pos_bound. lia.
Qed.

(** [crc_bit] can be undone: bit 31 tells whether the polynomial was added. *)
Definition crc_unbit (c : Z) : Z :=
  if Z.testbit c 31 then 2 * Z.lxor c 0xedb88320 + 1 else 2 * c.

Lemma crc_bit_range c : u32_ok c -> u32_ok (crc_bit c).
Proof.
  unfold u32_ok, crc_bit. intros Hc.
  assert (0 <= Z.shiftr c 1 < 2 ^ 31).
  { rewrite Z.shiftr_div_pow2 by lia. split; [apply Z.div_pos; lia|].
    apply Z.div_lt_upper_bound; lia. }
  destruct (Z.odd c); [apply lxor_range|]; lia.
Qed.

Lemma crc_unbit_bit c : u32_ok c -> crc_unbit (crc_bit c) = c.
Proof.
  unfold u32_ok. intros Hc. unfold crc_unbit, crc_bit.
  assert (Z.testbit (Z.shiftr c 1) 31 = false) as Hb.
  { rewrite Z.shiftr_spec by lia. change (31 + 1) with 32.
    destruct (Z.eq_dec c 0) as [->|]; [apply Z.testbit_0_l|].
    apply Z.bits_above_log2; [lia|]. apply Z.log2_lt_pow2; lia. }
  pose proof (Z.div_mod c 2 ltac:(lia)) as Hd. rewrite Zmod_odd in Hd.
  destruct (Z.odd c); rewrite ?Z.lxor_spec, Hb; simpl.
  - rewrite Z.lxor_assoc, Z.lxor_nilpotent, Z.lxor_0_r.
    rewrite Z.shiftr_div_pow2, Z.pow_1_r by lia. lia.
  - rewrite Z.shiftr_div_pow2, Z.pow_1_r by lia. lia.
Qed.

Lemma crc_bits_inj n a b :
  u32_ok a -> u32_ok b -> crc_bits n a = crc_bits n b -> a = b.
Proof.
  unfold crc_bits. revert a b. induction n as [|n IH]; intros a b Ha Hb; [done|].
  rewrite !Nat.iter_succ_r. intros H. apply IH in H; auto using crc_bit_range.
  by rewrite <-(crc_unbit_bit a), <-(crc_unbit_bit b), H.
Qed.

Lemma crc_bits_range n a : u32_ok a -> u32_ok (crc_bits n a).
Proof. unfold crc_bits. induction n; simpl; auto using crc_bit_range. Qed.

Lemma byte_lxor_range c b : u32_ok c -> byte_ok b -> u32_ok (Z.lxor c b).
Proof. unfold u32_ok, byte_ok. intros. apply lxor_range; lia. Qed.

Lemma crc_fold_ref l c : bytes_ok l ->
  foldl crc_update c l = foldl (fun c b => crc_bits 8 (Z.lxor c b)) c l.
Proof.
  intros H. revert c. induction H as [|b l Hb Hl IH]; intros c; [done|].
  simpl. by rewrite crc_update_ref, IH.
Qed.

Lemma crc_fold_range l c : bytes_ok l -> u32_ok c -> u32_ok (foldl crc_update c l).
Proof.
  intros H. revert c. induction H as [|b l Hb Hl IH]; intros c Hc; [done|].
  simpl. apply IH. rewrite crc_update_ref by done.
  auto using crc_bits_range, byte_lxor_range.
Qed.

Lemma lxor_inj_r a b c : Z.lxor a c = Z.lxor b c -> a = b.
Proof.
  intros H. apply (f_equal (fun x => Z.lxor x c)) in H.
  by rewrite !Z.lxor_assoc, !Z.lxor_nilpotent, !Z.lxor_0_r in H.
Qed.

Lemma crc_fold_inj l a b : bytes_ok l -> u32_ok a -> u32_ok b ->
  foldl crc_update a l = foldl crc_update b l -> a = b.
Proof.
  intros H. revert a b. induction H as [|x l Hx Hl IH]; intros a b Ha Hb E; [done|].
  simpl in E. rewrite !crc_update_ref in E by done.
  apply IH in E; [|auto using crc_bits_range, byte_lxor_range..].
  apply crc_bits_inj in E; [|auto using byte_lxor_range..]. by apply lxor_inj_r in E.
Qed.

Lemma generateCrc32_range l : bytes_ok l -> u32_ok (generateCrc32 l).
Proof.
  intros. apply lxor_range; [lia| |lia]. apply crc_fold_range; [done|]. unfold u32_ok; lia.
Qed.
End Crc32.

(** ** HMAC *)
Module Hmac.
Section Hmac.
(** QCryptographicHash with the algorithm chosen by the caller. *)
Variable hash : bytes -> bytes.

(** [QByteArray(n, 0)]: empty for a negative count. *)
Definition zeros (n : Z) : bytes := replicate (Z.to_nat n) 0.

Definition generateHmac (key text : bytes) : bytes :=
  let B := 64 in
  let kpad := key ++ zeros (B - len key) in
  let ba := map (fun k => Z.lxor k 0x5c) (left B kpad) in
  let tmp := map (fun k => Z.lxor k 0x36) (left B kpad) in
  hash (ba ++ hash (tmp ++ text)).

(** RFC 2104: a key longer than the block is replaced by its digest. *)
Definition rfc2104 (key text : bytes) : bytes :=
  let k := if 64 <? len key then hash key else key in
  let kpad := k ++ zeros (64 - len k) in
  hash (map (fun k => Z.lxor k 0x5c) kpad ++ hash (map (fun k => Z.lxor k 0x36) kpad ++ text)).

Lemma zeros_nonpos n : n <= 0 -> zeros n = [].
Proof. intros. unfold zeros. by replace (Z.to_nat n) with 0%nat by lia. Qed.

Lemma len_zeros n : 0 <= n -> len (zeros n) = n.
Proof. intros. unfold zeros. rewrite len_replicate. lia. Qed.
End Hmac.
End Hmac.

(** ** JIDs *)
Module Jid.
(** QString::indexOf, -1 when the character does not occur. *)
Fixpoint indexOf (c : Ascii.ascii) (s : string) : Z :=
  match s with
  | EmptyString => -1
  | String a s' =>
      if decide (a = c) then 0
      else let p := indexOf c s' in if p <? 0 then -1 else 1 + p
  end.

(** QString::left and QString::mid for [0 <= n]. *)
Fixpoint str_left (n : nat) (s : string) : string :=
  match n, s with
  | S n', String a s' => String a (str_left n' s')
  | _, _ => EmptyString
  end.
Fixpoint str_mid (n : nat) (s : string) : string :=
  match n, s with
  | O, _ => s
  | S n', String _ s' => str_mid n' s'
  | S _, EmptyString => EmptyString
  end.

(** QString::split: empty parts are kept. *)
Fixpoint split (c : Ascii.ascii) (s : string) : list string :=
  match s with
  | EmptyString => [EmptyString]
  | String a s' =>
      if decide (a = c) then EmptyString :: split c s'
      else match split c s' with
           | p :: ps => String a p :: ps
           | [] => [String a EmptyString]
           end
  end.

Definition jidToBareJid (jid : string) : string :=
  let pos := indexOf "/"%char jid in
  if pos <? 0 then jid else str_left (Z.to_nat pos) jid.

Definition jidToResource (jid : string) : string :=
  let pos := indexOf "/"%char jid in
  if pos <? 0 then EmptyString else str_mid (Z.to_nat (pos + 1)) jid.

Definition jidToUser (jid : string) : string :=
  let pos := indexOf "@"%char jid in
  if pos <? 0 then EmptyString else str_left (Z.to_nat pos) jid.

Definition jidToDomain (jid : string) : string :=
  default EmptyString (last (split "@"%char (jidToBareJid jid))).

Fixpoint contains (c : Ascii.ascii) (s : string) : bool :=
  match s with
  | EmptyString => false
  | String a s' => bool_decide (a = c) || contains c s'
  end.

Lemma indexOf_none c s : contains c s = false -> indexOf c s = -1.
Proof.
  induction s as [|a s IH]; [done|]. simpl. intros H. bools.
  rewrite decide_False by done. by rewrite IH.
Qed.

Lemma indexOf_app c s t : contains c s = false ->
  indexOf c (s +:+ String c t) = Z.of_nat (String.length s).
Proof.
  induction s as [|a s IH]; intros H; [simpl; by rewrite decide_True|].
  change (String a s +:+ ?x) with (String a (s +:+ x)). simpl in *. bools.
  rewrite decide_False, IH by done.
  destruct (Z.ltb_spec (Z.of_nat (String.length s)) 0); lia.
Qed.

Lemma str_left_app s t : str_left (String.length s) (s +:+ t) = s.
Proof. induction s as [|a s IH]; [by destruct t|]. simpl. f_equal. apply IH. Qed.

Lemma str_mid_app s t : str_mid (String.length s) (s +:+ t) = t.
Proof. induction s as [|a s IH]; [done|]. simpl. apply IH. Qed.

Lemma contains_app c s t : contains c (s +:+ t) = contains c s || contains c t.
Proof.
  induction s as [|a s IH]; [done|].
  change (String a s +:+ t) with (String a (s +:+ t)). simpl. by rewrite IH, orb_assoc.
Qed.

Lemma split_none c s : contains c s = false -> split c s = [s].
Proof.
  induction s as [|a s IH]; [done|]. simpl. intros H. bools.
  by rewrite decide_False, IH.
Qed.

Lemma split_app c s t : contains c s = false -> split c (s +:+ String c t) = s :: split c t.
Proof.
  induction s as [|a s IH]; intros H; [simpl; by rewrite decide_True|].
  change (String a s +:+ ?x) with (String a (s +:+ x)). simpl in *. bools.
  by rewrite decide_False, IH.
Qed.

Lemma str_app_assoc (s t u : string) : (s +:+ t) +:+ u = s +:+ (t +:+ u).
Proof. induction s as [|a s IH]; [done|]. exact (f_equal (String a) IH). Qed.

Lemma bare_of_resource b r : contains "/"%char b = false ->
  jidToBareJid (b +:+ String "/" r) = b.
Proof.
  intros H. unfold jidToBareJid. rewrite indexOf_app by done.
  destruct (Z.ltb_spec (Z.of_nat (String.length b)) 0); [lia|].
  by rewrite Nat2Z.id, str_left_app.
Qed.

Lemma bare_of_bare b : contains "/"%char b = false -> jidToBareJid b = b.
Proof. intros H. unfold jidToBareJid. by rewrite indexOf_none. Qed.

Lemma bare_no_slash jid : contains "/"%char (jidToBareJid jid) = false.
Proof.
  unfold jidToBareJid. set (p := indexOf _ jid).
  destruct (Z.ltb_spec p 0) as [Hp|Hp].
  - subst p. revert Hp. induction jid as [|a s IH]; [done|]. simpl.
    case_decide; [lia|]. rewrite bool_decide_eq_false_2 by done.
    destruct (Z.ltb_spec (indexOf "/"%char s) 0); [by auto|lia].
  - subst p. revert Hp. induction jid as [|a s IH]; [simpl; lia|]. simpl.
    case_decide; [done|].
    destruct (Z.ltb_spec (indexOf "/"%char s) 0); [lia|]. intros _.
    rewrite Z2Nat.inj_add by lia. simpl.
    rewrite bool_decide_eq_false_2 by done. by apply IH.
Qed.
End Jid.

(** ** Time zone offsets (XEP-0082) *)
Module Timezone.
Definition digit (d : Z) : ascii := ascii_of_N (Z.to_N (48 + d)).
Definition two_digits (n : Z) : string :=
  String (digit (n / 10)) (String (digit (n mod 10)) EmptyString).

(** The value of a character matching [[0-9]]. *)
Definition digit_val (c : ascii) : option Z :=
  let n := Z.of_N (N_of_ascii c) - 48 in
  if (0 <=? n) && (n <=? 9) then Some n else None.

(** [QTime(0, 0, 0).addSecs(qAbs(secs)).toString("hh:mm")]; addSecs is modulo
    a day. *)
Definition timezoneOffsetToString (secs : Z) : string :=
  if secs =? 0 then "Z"
  else
    let tzoTime := Z.abs secs mod 86400 in
    (if secs <? 0 then "-" else "+") +:+
    two_digits (tzoTime / 3600) +:+ ":" +:+ two_digits (tzoTime / 60 mod 60).

(** [([+-])([0-9]{2}):([0-9]{2})] at the start of the string. *)
Definition match_offset (str : string) : option Z :=
  match str with
  | String sg (String h1 (String h2 (String co (String m1 (String m2 _))))) =>
      if (bool_decide (sg = "+"%char) || bool_decide (sg = "-"%char))
         && bool_decide (co = ":"%char)
      then
        match digit_val h1, digit_val h2, digit_val m1, digit_val m2 with
        | Some a, Some b, Some c, Some d =>
            let offset := (a * 10 + b) * 3600 + (c * 10 + d) * 60 in
            Some (if bool_decide (sg = "-"%char) then - offset else offset)
        | _, _, _, _ => None
        end
      else None
  | _ => None
  end.

Definition match_here (str : string) : option Z :=
  match str with
  | String c _ => if bool_decide (c = "Z"%char) then Some 0 else match_offset str
  | EmptyString => None
  end.

(** The regular expression is not anchored: the leftmost match counts. *)
Fixpoint timezoneOffsetFromString (str : string) : Z :=
  match match_here str with
  | Some off => off
  | None => match str with
            | EmptyString => 0
            | String _ str' => timezoneOffsetFromString str'
            end
  end.

Lemma digit_val_digit d : 0 <= d <= 9 -> digit_val (digit d) = Some d.
Proof.
  intros Hd.
  assert (forallb (fun n => bool_decide (digit_val (digit (Z.of_nat n)) = Some (Z.of_nat n)))
            (seq 0 10) = true) as H by (vm_compute; reflexivity).
  rewrite forallb_forall in H. specialize (H (Z.to_nat d) ltac:(apply in_seq; lia)).
  apply bool_decide_eq_true in H. by rewrite Z2Nat.id in H by lia.
Qed.

(** The two-digit fields the printer writes are read back. *)
Lemma match_offset_printed neg h m rest :
  0 <= h < 100 -> 0 <= m < 100 ->
  match_offset ((if neg : bool then "-" else "+") +:+
                two_digits h +:+ ":" +:+ two_digits m +:+ rest)
  = Some (if neg then - (h * 3600 + m * 60) else h * 3600 + m * 60).
Proof.
  intros Hh Hm. unfold two_digits.
  assert (forall n, 0 <= n < 100 -> 0 <= n / 10 <= 9 /\ 0 <= n mod 10 <= 9 /\
            n / 10 * 10 + n mod 10 = n) as Hd.
  { intros n Hn. pose proof (Z.div_mod n 10 ltac:(lia)).
    pose proof (Z.mod_pos_bound n 10 ltac:(lia)). lia. }
  destruct (Hd h Hh) as (? & ? & Eh), (Hd m Hm) as (? & ? & Em).
  destruct neg; simpl; rewrite !digit_val_digit by done; by rewrite Eh, Em.
Qed.
End Timezone.

(** ** Integers and booleans in text *)
Module Numbers.
Section Numbers.
(** The integer a text denotes for QStringView::toLongLong and its siblings,
    which report failure for a value outside their own type. *)
Variable toInteger : string -> option Z.

Inductive IntType := int8_t | uint8_t | int16_t | uint16_t | int32_t | uint32_t | int64_t | uint64_t.

Definition type_min (t : IntType) : Z :=
  match t with
  | int8_t => - 2 ^ 7 | int16_t => - 2 ^ 15 | int32_t => - 2 ^ 31 | int64_t => - 2 ^ 63
  | _ => 0
  end.
Definition type_max (t : IntType) : Z :=
  match t with
  | int8_t => 2 ^ 7 - 1 | int16_t => 2 ^ 15 - 1 | int32_t => 2 ^ 31 - 1 | int64_t => 2 ^ 63 - 1
  | uint8_t => 2 ^ 8 - 1 | uint16_t => 2 ^ 16 - 1 | uint32_t => 2 ^ 32 - 1 | uint64_t => 2 ^ 64 - 1
  end.

(** [str.toShort(&ok)] and so on: the value and [ok]. *)
Definition qt_to (t : IntType) (str : string) : Z * bool :=
  match toInteger str with
  | Some z => if (type_min t <=? z) && (z <=? type_max t) then (z, true) else (0, false)
  | None => (0, false)
  end.

Definition stringToInt (t : IntType) (str : string) : Z * bool :=
  match t with
  | int8_t =>
      let '(result, ok) := qt_to int16_t str in
      if ok && (result <=? type_max int8_t) && (type_min int8_t <=? result)
      then (result, ok) else (0, false)
  | uint8_t =>
      let '(result, ok) := qt_to uint16_t str in
      if ok && (result <=? type_max int8_t) then (result, ok) else (0, false)
  | _ => qt_to t str
  end.

Definition parseInt (t : IntType) (str : string) : option Z :=
  let '(result, ok) := stringToInt t str in if ok then Some result else None.

Definition parseBoolean (str : string) : option bool :=
  if decide (str = "1") then Some true
  else if decide (str = "true") then Some true
  else if decide (str = "0") then Some false
  else if decide (str = "false") then Some false
  else None.

Definition serializeBoolean (value : bool) : string := if value then "true" else "false".
End Numbers.
End Numbers.

(** ** Random integers and stanza ids *)
Module Random.
Definition RAND_MAX : Z := 2147483647.

(** One value of the generator (a quint32), divided as unsigned and stored
    in an int. *)
Definition draw (N g : Z) : Z := i32 (g / (RAND_MAX / N)).

(** The loop consumes generator values until one is accepted; [None] when
    the given values do not suffice. *)
Fixpoint generateRandomInteger (N : Z) (rnd : list Z) : option (Z * list Z) :=
  match rnd with
  | [] => None
  | g :: rnd' =>
      let val := draw N g in
      if N <=? val then generateRandomInteger N rnd' else Some (val, rnd')
  end.

Fixpoint generateRandomBytes (length : nat) (rnd : list Z) : option (bytes * list Z) :=
  match length with
  | O => Some ([], rnd)
  | S n =>
      '(b, rnd) ← generateRandomInteger 256 rnd;
      '(bs, rnd) ← generateRandomBytes n rnd;
      Some (b :: bs, rnd)
  end.

Definition somechars : string :=
  "1234567890abcdefghijklmnopqrstuvwxyzABCDEFGHIJKLMNOPQRSTUVWXYZ".

Fixpoint hash_chars (length : nat) (rnd : list Z) : option (string * list Z) :=
  match length with
  | O => Some (EmptyString, rnd)
  | S n =>
      '(i, rnd) ← generateRandomInteger (Z.of_nat (String.length somechars)) rnd;
      '(s, rnd) ← hash_chars n rnd;
      Some (String (default zero (String.get (Z.to_nat i) somechars)) s, rnd)
  end.

(** QUuid::createUuid() is an argument. *)
Definition generateStanzaHash (uuid : string) (length : nat) (rnd : list Z)
    : option (string * list Z) :=
  if decide (length = 36%nat) then Some (uuid, rnd) else hash_chars length rnd.

(** The counter is an int that wraps around. *)
Definition generateSequentialStanzaId (globalStanzaIdCounter : Z) : string * Z :=
  let c := i32 (globalStanzaIdCounter + 1) in ("qx" +:+ pretty c, c).

(** The ids of [n] consecutive calls. *)
Fixpoint stanza_ids (n : nat) (c : Z) : list string :=
  match n with
  | O => []
  | S n' => let '(id, c') := generateSequentialStanzaId c in id :: stanza_ids n' c'
  end.

Lemma draw_small N g : 0 < N <= RAND_MAX / 2 -> 0 <= g < 2 ^ 32 ->
  draw N g = g / (RAND_MAX / N) /\ 0 <= draw N g.
Proof.
  unfold RAND_MAX. change (2147483647 / 2) with 1073741823.
  intros HN Hg. unfold draw, RAND_MAX.
  assert (2 <= 2147483647 / N) by (apply Z.div_le_lower_bound; lia).
  generalize dependent (2147483647 / N). intros k Hk.
  assert (0 <= g / k) by (apply Z.div_pos; lia).
  assert (g / k < 2 ^ 31) by (apply Z.div_lt_upper_bound; nia).
  unfold i32. rewrite iwrap_small by (change (2 ^ (32 - 1)) with (2 ^ 31); lia). lia.
Qed.

Lemma generateRandomInteger_range N rnd v rnd' :
  0 < N <= RAND_MAX / 2 -> Forall (fun g => 0 <= g < 2 ^ 32) rnd ->
  generateRandomInteger N rnd = Some (v, rnd') ->
  0 <= v < N /\ Forall (fun g => 0 <= g < 2 ^ 32) rnd'.
Proof.
  intros HN H. induction H as [|g rnd Hg Hr IH]; [done|]. simpl.
  destruct (Z.leb_spec N (draw N g)); [done|]. intros [= <- <-].
  pose proof (draw_small N g HN Hg). split; [lia|done].
Qed.
End Random.

(** ** Properties *)

(** the table-driven CRC-32 of [QXmppUtils::generateCrc32] is the bit-by-bit
    CRC-32 with the reflected polynomial 0xEDB88320, on every byte array. *)
Theorem crc32_is_reference (input : bytes) :
  bytes_ok input -> Crc32.generateCrc32 input = Crc32.crc_ref input.
Proof. intros H. unfold Crc32.generateCrc32, Crc32.crc_ref. by rewrite Crc32.crc_fold_ref. Qed.

Lemma crc32_is_reference_witness :
  bytes_ok (latin1 "Hi There") /\
  Crc32.generateCrc32 (latin1 "Hi There") = Crc32.crc_ref (latin1 "Hi There").
Proof. split; [apply latin1_ok | apply (crc32_is_reference (latin1 "Hi There")), latin1_ok]. Defined.

(** The value the test suite expects. *)
Example crc32_hi_there : Crc32.generateCrc32 (latin1 "Hi There") = 0xDB143BBE.
Proof. vm_compute. reflexivity. Qed.

(** two byte arrays that differ in exactly one byte have different CRC-32
    values: the checksum detects every corruption of a single byte. *)
Theorem crc32_detects_byte (pre suf : bytes) (b b' : Z) :
  bytes_ok pre -> bytes_ok suf -> byte_ok b -> byte_ok b' -> b <> b' ->
  Crc32.generateCrc32 (pre ++ b :: suf) <> Crc32.generateCrc32 (pre ++ b' :: suf).
Proof.
  intros Hp Hs Hb Hb' Hne E. unfold Crc32.generateCrc32 in E.
  apply Crc32.lxor_inj_r in E. rewrite !foldl_app in E. simpl in E.
  set (c := foldl _ _ pre) in E.
  assert (Crc32.u32_ok c) by (apply Crc32.crc_fold_range; [done | unfold Crc32.u32_ok; lia]).
  rewrite !Crc32.crc_update_ref in E by done.
  apply Crc32.crc_fold_inj in E;
    [|auto using Crc32.crc_bits_range, Crc32.byte_lxor_range..].
  apply Crc32.crc_bits_inj in E; [|auto using Crc32.byte_lxor_range..].
  rewrite !(Z.lxor_comm c) in E. by apply Crc32.lxor_inj_r in E.
Qed.

Lemma crc32_detects_byte_witness :
  Crc32.generateCrc32 ([1; 2] ++ 3 :: [4]) <> Crc32.generateCrc32 ([1; 2] ++ 7 :: [4]).
Proof.
  apply (crc32_detects_byte [1; 2] [4] 3 7);
    [apply (bool_decide_unpack _); vm_compute; exact I
    |apply (bool_decide_unpack _); vm_compute; exact I | by vm_compute | by vm_compute | lia].
Defined.

(** for a key of at most 64 bytes [generateHmac] is the HMAC of RFC 2104 over
    the given hash. A longer key is cut to its first 64 bytes, where RFC 2104
    replaces it by its digest. *)
Theorem hmac_is_rfc2104_on_block_keys (hash : bytes -> bytes) (key text : bytes) :
  Hmac.generateHmac hash key text = Hmac.rfc2104 hash (left 64 key) text.
Proof.
  unfold Hmac.generateHmac, Hmac.rfc2104. pose proof (len_nonneg key).
  destruct (Z.le_gt_cases (len key) 64).
  - rewrite (left_all key) by lia. rewrite (proj2 (Z.ltb_ge _ _)) by lia.
    rewrite left_all; [done|]. rewrite len_app, Hmac.len_zeros by lia. lia.
  - assert (len (left 64 key) = 64) as Hl by (rewrite len_left by lia; lia).
    cbv zeta. rewrite Hl, Z.ltb_irrefl, Hl, !Hmac.zeros_nonpos by lia. by rewrite !app_nil_r.
Qed.

(** the four accessors take apart a full JID [user@domain/resource]; the
    resource may contain any character. *)
Theorem jid_parts (user domain resource : string) :
  Jid.contains "@" user = false -> Jid.contains "/" user = false ->
  Jid.contains "@" domain = false -> Jid.contains "/" domain = false ->
  let bare := user +:+ String "@" domain in
  let jid := bare +:+ String "/" resource in
  Jid.jidToBareJid jid = bare /\ Jid.jidToUser jid = user /\
  Jid.jidToDomain jid = domain /\ Jid.jidToResource jid = resource.
Proof.
  intros Hu Hu' Hd Hd' bare jid.
  assert (Jid.contains "/" bare = false) as Hb.
  { unfold bare. rewrite Jid.contains_app, Hu'. simpl. by rewrite Hd'. }
  assert (Jid.jidToBareJid jid = bare) as Hbare by by apply Jid.bare_of_resource.
  split_and!; [done| | |].
  - unfold Jid.jidToUser, jid, bare. rewrite Jid.str_app_assoc.
    change (String "@" domain +:+ String "/" resource)
      with (String "@" (domain +:+ String "/" resource)).
    rewrite Jid.indexOf_app by done. destruct (Z.ltb_spec (Z.of_nat (String.length user)) 0); [lia|].
    by rewrite Nat2Z.id, Jid.str_left_app.
  - unfold Jid.jidToDomain. rewrite Hbare. unfold bare.
    by rewrite Jid.split_app, (Jid.split_none _ domain).
  - unfold Jid.jidToResource, jid. rewrite Jid.indexOf_app by done.
    destruct (Z.ltb_spec (Z.of_nat (String.length bare)) 0); [lia|].
    replace (Z.to_nat (Z.of_nat (String.length bare) + 1)) with (S (String.length bare)) by lia.
    clear. induction bare as [|a s IH]; [done|]. exact IH.
Qed.

Lemma jid_parts_witness :
  Jid.jidToUser ("juliet" +:+ String "@" "example.com" +:+ String "/" "b@lcony/2") = "juliet" /\
  Jid.jidToDomain ("juliet" +:+ String "@" "example.com" +:+ String "/" "b@lcony/2") = "example.com".
Proof.
  destruct (jid_parts "juliet" "example.com" "b@lcony/2") as (_ & ? & ? & _);
    [reflexivity..|]. by split.
Defined.

(** [jidToUser] does not look at the bare JID: for a JID without a user part
    whose resource contains an at sign it returns the domain, a slash and the
    start of the resource, while the bare JID has no user. *)
Theorem jidToUser_reads_resource (domain r1 r2 : string) :
  Jid.contains "@" domain = false -> Jid.contains "/" domain = false ->
  Jid.contains "@" r1 = false ->
  let jid := domain +:+ String "/" (r1 +:+ String "@" r2) in
  Jid.jidToUser jid = domain +:+ String "/" r1 /\
  Jid.jidToUser (Jid.jidToBareJid jid) = EmptyString.
Proof.
  intros Hd Hd' Hr jid. split.
  - unfold Jid.jidToUser, jid.
    assert (domain +:+ String "/" (r1 +:+ String "@" r2)
            = (domain +:+ String "/" r1) +:+ String "@" r2) as ->
      by by rewrite Jid.str_app_assoc.
    rewrite Jid.indexOf_app by (rewrite Jid.contains_app, Hd; simpl; by rewrite Hr).
    destruct (Z.ltb_spec (Z.of_nat (String.length (domain +:+ String "/" r1))) 0); [lia|].
    by rewrite Nat2Z.id, Jid.str_left_app.
  - unfold jid. rewrite Jid.bare_of_resource by done.
    unfold Jid.jidToUser. by rewrite Jid.indexOf_none.
Qed.

Lemma jidToUser_reads_resource_witness :
  Jid.jidToUser ("conf.example" +:+ String "/" ("nick" +:+ String "@" "home"))
  = "conf.example" +:+ String "/" "nick".
Proof. destruct (jidToUser_reads_resource "conf.example" "nick" "home"); done. Defined.

(** reading back a printed time zone offset gives the offset modulo a day,
    without its seconds; in particular every whole-minute offset below a day
    survives the round trip. *)
Theorem timezone_roundtrip (secs : Z) :
  Timezone.timezoneOffsetFromString (Timezone.timezoneOffsetToString secs)
  = Z.sgn secs * (Z.abs secs mod 86400 / 60 * 60).
Proof.
  unfold Timezone.timezoneOffsetToString.
  destruct (Z.eqb_spec secs 0) as [->|Hne]; [done|].
  set (t := Z.abs secs mod 86400).
  assert (0 <= t < 86400) as Ht by (apply Z.mod_pos_bound; lia).
  assert (0 <= t / 3600 < 100) as Hh.
  { split; [apply Z.div_pos; lia | apply Z.div_lt_upper_bound; lia]. }
  assert (0 <= t / 60 mod 60 < 60) as Hm by (apply Z.mod_pos_bound; lia).
  assert (t / 3600 * 3600 + t / 60 mod 60 * 60 = t / 60 * 60) as E.
  { pose proof (Z.div_mod (t / 60) 60 ltac:(lia)).
    rewrite Z.div_div in * by lia. change (60 * 60) with 3600 in *. lia. }
  pose proof (Timezone.match_offset_printed (secs <? 0) (t / 3600) (t / 60 mod 60)
                EmptyString Hh ltac:(lia)) as Hm'.
  rewrite E in Hm'.
  destruct (Z.ltb_spec secs 0); simpl in *; rewrite Hm'.
  - rewrite Z.sgn_neg by lia. lia.
  - rewrite Z.sgn_pos by lia. lia.
Qed.

(** [parseInt] accepts exactly the integers of the requested type, except
    for uint8_t, where it also rejects 128 to 255. *)
Theorem parseInt_accepts (toInteger : string -> option Z) (t : Numbers.IntType)
    (str : string) (z : Z) :
  Numbers.parseInt toInteger t str = Some z <->
  toInteger str = Some z /\ Numbers.type_min t <= z <=
    match t with Numbers.uint8_t => 127 | _ => Numbers.type_max t end.
Proof.
  unfold Numbers.parseInt, Numbers.stringToInt, Numbers.qt_to.
  destruct t; simpl; destruct (toInteger str) as [x|]; simpl;
    (split; [intros Hp | intros [Ht Hr]]);
    repeat (qx_case; simplify_eq/=; bools); try split_and!; try done; try lia.
  all: try match goal with
    | H : (_ && _)%bool = false |- _ => apply andb_false_iff in H as [?|?]; bools; lia
    end.
Qed.

(** Below half of RAND_MAX, [generateRandomInteger] returns a value in
    [0, N), and each value of the range comes from exactly RAND_MAX / N of the
    generator's 2^32 values, so the result is uniform. *)
Theorem generateRandomInteger_uniform (N v : Z) :
  0 < N <= Random.RAND_MAX / 2 -> 0 <= v < N ->
  let k := Random.RAND_MAX / N in
  0 <= v * k /\ (v + 1) * k <= 2 ^ 32 /\
  (forall g, 0 <= g < 2 ^ 32 -> (Random.draw N g = v <-> v * k <= g < (v + 1) * k)) /\
  (forall rnd v' rnd', Forall (fun g => 0 <= g < 2 ^ 32) rnd ->
     Random.generateRandomInteger N rnd = Some (v', rnd') -> 0 <= v' < N).
Proof.
  intros HN Hv k.
  assert (0 < k).
  { unfold k, Random.RAND_MAX in *. change (2147483647 / 2) with 1073741823 in HN.
    assert (2 <= 2147483647 / N) by (apply Z.div_le_lower_bound; lia). lia. }
  assert (N * k <= Random.RAND_MAX) as Hk by (apply Z.mul_div_le; lia).
  unfold Random.RAND_MAX in Hk. split_and!; [lia|nia| |].
  - intros g Hg. destruct (Random.draw_small N g HN Hg) as [-> _]. fold k.
    split.
    + intros <-. pose proof (Z.div_mod g k ltac:(lia)).
      pose proof (Z.mod_pos_bound g k ltac:(lia)). nia.
    + intros. symmetry. apply Z.div_unique with (g - v * k); lia.
  - intros rnd v' rnd' Hr E. by eapply Random.generateRandomInteger_range in E as [? _].
Qed.

Lemma generateRandomInteger_uniform_witness :
  0 < 256 <= Random.RAND_MAX / 2 /\
  (Random.draw 256 8388607 = 1 <-> 1 * 8388607 <= 8388607 < 2 * 8388607).
Proof.
  split; [by vm_compute|].
  destruct (generateRandomInteger_uniform 256 1) as (_ & _ & H & _);
    [by vm_compute | lia |]. exact (H 8388607 ltac:(lia)).
Defined.

(** For N above half of RAND_MAX, still inside the asserted range, the
    conversion to int lets a negative number through. *)
Theorem generateRandomInteger_negative :
  exists N rnd v, 0 < N <= Random.RAND_MAX /\ Forall (fun g => 0 <= g < 2 ^ 32) rnd /\
    Random.generateRandomInteger N rnd = Some (v, []) /\ v < 0.
Proof.
  exists 1073741825, [4294967295], (-1).
  split_and!; [by vm_compute | by vm_compute | repeat constructor; by vm_compute | done | done].
Qed.

(** Consecutive sequential stanza ids are distinct until the 32-bit counter
    comes round. *)
Theorem stanza_ids_distinct (n : nat) (c : Z) :
  - 2 ^ 31 <= c -> c + Z.of_nat n < 2 ^ 31 -> NoDup (Random.stanza_ids n c).
Proof.
  intros Hc Hn.
  assert (forall n c, - 2 ^ 31 <= c -> c + Z.of_nat n < 2 ^ 31 ->
    Random.stanza_ids n c = (fun i => "qx" +:+ pretty i) <$> seqZ (c + 1) (Z.of_nat n)) as E.
  { clear. induction n as [|n IH]; intros c Hc Hn; [done|].
    rewrite seqZ_cons by lia. simpl. unfold Random.generateSequentialStanzaId.
    unfold i32. rewrite iwrap_small by (change (2 ^ (32 - 1)) with (2 ^ 31); lia). f_equal.
    rewrite IH by lia. f_equal. f_equal; lia. }
  rewrite E by done. apply NoDup_fmap_2; [|apply NoDup_seqZ].
  intros i j H. apply (inj pretty). by apply (inj (String.app "qx")) in H.
Qed.

Lemma stanza_ids_distinct_witness : NoDup (Random.stanza_ids 3 41).
Proof. apply (stanza_ids_distinct 3 41); lia. Defined.
