(* ===== verification/Dom.v ===== *)
(** * XML elements, their writer and parser helpers

    QDomElement as a tree with resolved name spaces, the DOM helpers of
    QXmppUtils.cpp, the element combinators of XmlWriter.h, the string tables
    of Enums.h, and QString's decimal numbers. QXmlStreamWriter followed by
    QDomDocument's parser is [serializeXml]: the tree an element is read back
    as. Prefixed names and attributes with a name space are not modelled. *)
From S2P Require Import Prelude Utils.

(** ** QDomElement *)

Inductive Dom :=
  | Elem (tag ns : string) (attrs : list (string * string)) (children : list Dom)
  | Text (s : string).

(** A null element: no XML element has an empty name. *)
Definition nullElement : Dom := Elem "" "" [] [].

Definition isElementNode (n : Dom) : bool := match n with Elem _ _ _ _ => true | _ => false end.
Definition tagName (el : Dom) : string := match el with Elem t _ _ _ => t | _ => "" end.
Definition namespaceURI (el : Dom) : string := match el with Elem _ n _ _ => n | _ => "" end.
Definition attributes (el : Dom) : list (string * string) :=
  match el with Elem _ _ a _ => a | _ => [] end.
Definition childNodes (el : Dom) : list Dom := match el with Elem _ _ _ c => c | _ => [] end.
Definition isNull (el : Dom) : bool := bool_decide (tagName el = "").

Fixpoint find_attr (name : string) (attrs : list (string * string)) : option string :=
  match attrs with
  | [] => None
  | (n, v) :: attrs' => if decide (n = name) then Some v else find_attr name attrs'
  end.
Definition hasAttribute (el : Dom) (name : string) : bool :=
  bool_decide (is_Some (find_attr name (attributes el))).
(** [el.attribute(name)]: the empty string when there is none. *)
Definition attribute (el : Dom) (name : string) : string :=
  default "" (find_attr name (attributes el)).

Definition elementXmlTag (el : Dom) : string * string := (tagName el, namespaceURI el).

(** The children firstChildElement and nextSiblingElement stop at. *)
Definition child_matches (tag xmlns : string) (n : Dom) : bool :=
  isElementNode n
  && (bool_decide (xmlns = "") || bool_decide (namespaceURI n = xmlns))
  && (bool_decide (tag = "") || bool_decide (tagName n = tag)).

Fixpoint first_matching (tag xmlns : string) (nodes : list Dom) : Dom :=
  match nodes with
  | [] => nullElement
  | n :: nodes' => if child_matches tag xmlns n then n else first_matching tag xmlns nodes'
  end.
Definition firstChildElement (el : Dom) (tag xmlns : string) : Dom :=
  first_matching tag xmlns (childNodes el).
Definition iterChildElements (el : Dom) (tag xmlns : string) : list Dom :=
  filter (fun n => child_matches tag xmlns n = true) (childNodes el).
Definition hasChild (el : Dom) (tag xmlns : string) : bool :=
  negb (isNull (firstChildElement el tag xmlns)).

Definition iqPayloadXmlTag (el : Dom) : string * string :=
  if decide (tagName el = "iq") then elementXmlTag (firstChildElement el "" "")
  else ("", "").

(** ** The writer *)

(** What a serialisable value writes inside an element. An element without a
    name space of its own inherits the one it is written in. *)
Inductive Item :=
  | WAttr (name value : string)
  | WElem (tag : string) (xmlns : option string) (items : list Item)
  | WChars (s : string).

Definition item_attr (i : Item) : option (string * string) :=
  match i with WAttr n v => Some (n, v) | _ => None end.

Fixpoint toDom (xmlns : string) (i : Item) : list Dom :=
  match i with
  | WAttr _ _ => []
  | WElem t x items =>
      let ns := default xmlns x in
      [Elem t ns (omap item_attr items) (concat (map (toDom ns) items))]
  | WChars s => [Text s]
  end.
Definition serializeXml (i : Item) : Dom := nth 0 (toDom "" i) nullElement.

Definition Element (XmlTag : string * string) (values : list (list Item)) : Item :=
  WElem XmlTag.1 (Some XmlTag.2) (concat values).
Definition Attribute (name value : string) : list Item := [WAttr name value].
(** StringSerializer<QString>::hasValue: not empty. *)
Definition OptionalAttribute (name value : string) : list Item :=
  if decide (value = "") then [] else [WAttr name value].
Definition OptionalBoolAttribute (name : string) (value defaultValue : bool) : list Item :=
  if eqb value defaultValue then [] else [WAttr name (if value then "true" else "false")].
Definition OptionalContent (condition : bool) (values : list (list Item)) : list Item :=
  if condition then concat values else [].
Definition Characters (s : string) : list Item := [WChars s].
Definition TextElement (XmlTag : string * string) (value : string) : list Item :=
  [Element XmlTag [if decide (value = "") then [] else Characters value]].
Definition OptionalTextElement (XmlTag : string * string) (value : string) : list Item :=
  if decide (value = "") then [] else TextElement XmlTag value.
Definition SingleAttributeElements (name attr : string) (values : list string) : list Item :=
  map (fun v => WElem name None [WAttr attr v]) values.

(** A type with the XmlTag, fromDom and toXml members the parsers and writers
    of the library are generic in. *)
Class XmlElement (T : Type) := {
  XmlTag : string * string;
  fromDom : Dom -> option T;
  toXml : T -> Item;
}.
Arguments XmlTag T {_}.

Definition isElement (T : Type) `{XmlElement T} (el : Dom) : bool :=
  bool_decide (elementXmlTag el = XmlTag T).

(** What a handler did with an element. *)
Inductive HandleElementResult := Accepted | Rejected | Finished.
#[export] Instance HandleElementResult_eq_dec : EqDecision HandleElementResult.
Proof. solve_decision. Defined.

(** ** Enums *)

Class EnumData (E : Type) := {
  enum_value : E -> Z;                   (* the underlying integer *)
  Values : list (E * string);
}.

Section Enums.
Context {E : Type} `{EnumData E}.

Fixpoint find_string (str : string) (values : list (E * string)) : option E :=
  match values with
  | [] => None
  | (e, s) :: values' => if decide (s = str) then Some e else find_string str values'
  end.
Definition fromString (str : string) : option E := find_string str Values.

Definition enum_offset : Z := match Values with (e, _) :: _ => enum_value e | [] => 0 end.
(** [Values.at(size_t(value) - offset)], size_t having 64 bits. *)
Definition toString (e : E) : string :=
  match Values !! Z.to_nat (uwrap 64 (enum_value e - enum_offset)) with
  | Some (_, s) => s
  | None => ""
  end.

Lemma find_string_spec e s values :
  NoDup values.*2 -> (e, s) ∈ values -> find_string s values = Some e.
Proof.
  induction values as [|[e' s'] values IH]; simpl; [by rewrite elem_of_nil|].
  rewrite NoDup_cons, elem_of_cons. intros [Hs Hnd] [?|Hin]; simplify_eq/=.
  - by rewrite decide_True.
  - rewrite decide_False; [auto|]. intros ->. apply Hs.
    by apply list_elem_of_fmap_2 with (f := snd) in Hin.
Qed.

(** The table read back: [index] is where [toString] looks. *)
Lemma enum_roundtrip e s :
  NoDup (Values (E := E)).*2 ->
  Values !! Z.to_nat (uwrap 64 (enum_value e - enum_offset)) = Some (e, s) ->
  fromString (toString e) = Some e.
Proof.
  intros Hnd Hl. unfold toString. rewrite Hl. unfold fromString.
  apply find_string_spec; [done|]. by apply list_elem_of_lookup_2 in Hl.
Qed.
End Enums.

(** ** Numbers *)

(** QString::number of a number that is not negative. *)
Definition number (n : Z) : string := pretty (Z.to_N n).

Fixpoint read_digits (s : string) (acc : Z) : option Z :=
  match s with
  | "" => Some acc
  | String c s' =>
      match Timezone.digit_val c with
      | Some d => read_digits s' (10 * acc + d)
      | None => None
      end
  end.

Definition is_space (c : ascii) : bool :=
  let n := Z.of_N (N_of_ascii c) in (n =? 32) || ((9 <=? n) && (n <=? 13)).
Fixpoint skip_spaces (s : string) : string :=
  match s with
  | String c s' => if is_space c then skip_spaces s' else s
  | "" => ""
  end.
Fixpoint trim_end (s : string) : string :=
  match s with
  | "" => ""
  | String c s' =>
      match trim_end s' with
      | "" => if is_space c then "" else String c ""
      | t => String c t
      end
  end.
Definition trimmed (s : string) : string := trim_end (skip_spaces s).

(** The integer a text denotes: white space around it, a sign, digits. *)
Definition toInteger (s : string) : option Z :=
  match trimmed s with
  | "" => None
  | String c s' =>
      if decide (c = "-"%char) then
        match s' with "" => None | _ => Z.opp <$> read_digits s' 0 end
      else if decide (c = "+"%char) then
        match s' with "" => None | _ => read_digits s' 0 end
      else read_digits (String c s') 0
  end.
Definition toUInt (s : string) : Z := (Numbers.qt_to toInteger Numbers.uint32_t s).1.
Definition toULongLong (s : string) : Z := (Numbers.qt_to toInteger Numbers.uint64_t s).1.

Lemma digit_val_pretty (x : N) :
  (x < 10)%N -> Timezone.digit_val (pretty_N_char x) = Some (Z.of_N x).
Proof.
  intros Hx. assert (x = 0 \/ x = 1 \/ x = 2 \/ x = 3 \/ x = 4 \/ x = 5 \/ x = 6 \/ x = 7
    \/ x = 8 \/ x = 9)%N as Hc by lia.
  repeat (destruct Hc as [->|Hc]; [reflexivity|]). by subst.
Qed.

Lemma read_digits_pretty (x : N) s :
  read_digits (pretty_N_go x s) 0 = read_digits s (Z.of_N x).
Proof.
  revert s. induction (N.lt_wf_0 x) as [x _ IH]. intros s.
  destruct (decide (x = 0)%N) as [->|Hx]; [by rewrite pretty_N_go_0|].
  rewrite pretty_N_go_step by lia. rewrite IH by (apply N.div_lt; lia). simpl.
  rewrite digit_val_pretty by (apply N.mod_upper_bound; lia). f_equal.
  rewrite (N.div_mod x 10) at 3 by lia. lia.
Qed.

(** Texts of digits only. *)
Fixpoint all_digits (s : string) : Prop :=
  match s with
  | "" => True
  | String c s' => is_Some (Timezone.digit_val c) /\ all_digits s'
  end.

Lemma digit_not_space c : is_Some (Timezone.digit_val c) -> is_space c = false.
Proof.
  intros [d Hd]. destruct (is_space c) eqn:Hs; [|done]. exfalso. revert d Hd Hs.
  destruct c as [[] [] [] [] [] [] [] []]; vm_compute; congruence.
Qed.

Lemma digit_not_sign c : is_Some (Timezone.digit_val c) -> c <> "-"%char /\ c <> "+"%char.
Proof. intros [d Hd]. split; intros ->; by vm_compute in Hd. Qed.

Lemma trim_end_digits s : all_digits s -> trim_end s = s.
Proof.
  induction s as [|c s IH]; [done|]. intros [Hc Hs]. simpl. rewrite IH by done.
  destruct s; [by rewrite digit_not_space|done].
Qed.

Lemma toInteger_digits s : s <> "" -> all_digits s -> toInteger s = read_digits s 0.
Proof.
  intros Hne Hs. unfold toInteger, trimmed. destruct s as [|c s]; [done|].
  pose proof (proj1 Hs) as Hc. simpl skip_spaces. rewrite (digit_not_space c Hc).
  rewrite trim_end_digits by done. destruct (digit_not_sign c Hc).
  by rewrite !decide_False.
Qed.

Lemma all_digits_pretty (x : N) s : all_digits s -> all_digits (pretty_N_go x s).
Proof.
  revert s. induction (N.lt_wf_0 x) as [x _ IH]. intros s Hs.
  destruct (decide (x = 0)%N) as [->|Hx]; [by rewrite pretty_N_go_0|].
  rewrite pretty_N_go_step by lia. apply IH; [apply N.div_lt; lia|].
  split; [|done]. rewrite digit_val_pretty by (apply N.mod_upper_bound; lia). by eexists.
Qed.

Lemma pretty_N_go_nonempty (x : N) s : s <> "" -> pretty_N_go x s <> "".
Proof.
  revert s. induction (N.lt_wf_0 x) as [x _ IH]. intros s Hs.
  destruct (decide (x = 0)%N) as [->|Hx]; [by rewrite pretty_N_go_0|].
  rewrite pretty_N_go_step by lia. apply IH; [apply N.div_lt; lia|done].
Qed.

Lemma number_digits n : number n <> "" /\ all_digits (number n).
Proof.
  unfold number, pretty, pretty_N. case_decide as Hn.
  - split; [done|]. simpl. split; [by eexists|done].
  - rewrite pretty_N_go_step by lia.
    split; [by apply pretty_N_go_nonempty|]. apply all_digits_pretty. split; [|done].
    rewrite digit_val_pretty by (apply N.mod_upper_bound; lia). by eexists.
Qed.

Lemma toInteger_number n : 0 <= n -> toInteger (number n) = Some n.
Proof.
  intros Hn. destruct (number_digits n). rewrite toInteger_digits by done.
  unfold number, pretty, pretty_N. case_decide as Hz.
  - simpl. f_equal. lia.
  - rewrite read_digits_pretty. simpl. f_equal. lia.
Qed.

Lemma toUInt_number n : 0 <= n < 2 ^ 32 -> toUInt (number n) = n.
Proof.
  intros Hn. unfold toUInt, Numbers.qt_to. rewrite toInteger_number by lia.
  cbn [Numbers.type_min Numbers.type_max].
  by rewrite (proj2 (Z.leb_le 0 n)), (proj2 (Z.leb_le n (2 ^ 32 - 1))) by lia.
Qed.

Lemma toULongLong_number n : 0 <= n < 2 ^ 64 -> toULongLong (number n) = n.
Proof.
  intros Hn. unfold toULongLong, Numbers.qt_to. rewrite toInteger_number by lia.
  cbn [Numbers.type_min Numbers.type_max].
  by rewrite (proj2 (Z.leb_le 0 n)), (proj2 (Z.leb_le n (2 ^ 64 - 1))) by lia.
Qed.

Lemma toUInt_range s : 0 <= toUInt s < 2 ^ 32.
Proof.
  unfold toUInt, Numbers.qt_to. destruct (toInteger s); [|simpl; lia].
  cbn [Numbers.type_min Numbers.type_max]. qx_case; simpl in *; [|lia]. bools. lia.
Qed.

(** ** Attributes written and read back *)

Lemma find_attr_app n a1 a2 : find_attr n (a1 ++ a2) =
  match find_attr n a1 with Some v => Some v | None => find_attr n a2 end.
Proof. induction a1 as [|[n' v'] a1 IH]; simpl; [done|]. by case_decide. Qed.

(** An optional attribute and its default: absent and empty are the same. *)
Lemma attr_optional n v :
  default "" (find_attr n (omap item_attr (OptionalAttribute n v))) = v.
Proof. unfold OptionalAttribute. case_decide; simpl; [done|]. by rewrite decide_True. Qed.
