(* ===== verification/StunMessage.v ===== *)
(** * STUN messages (src/src/base/QXmppStun.cpp, QXmppStun.h)

    QHostAddress, QXmppStunMessage with its setters, and the codec
    [encode] / [decode] / [peekType]. UTF-8 conversion, SHA-1 and the contents
    of the bytes QByteArray::resize adds are arguments. *)
From S2P Require Import Prelude DataStream Utils.

(** ** Addresses *)

(** QHostAddress: null, "any", an IPv4 address, or 16 bytes with a scope id. *)
Inductive QHostAddress :=
| AddrNull
| AddrAny
| AddrV4 (a : Z)
| AddrV6 (a6 : bytes) (scope : string).

#[export] Instance QHostAddress_eq_dec : EqDecision QHostAddress.
Proof. solve_decision. Defined.

Inductive Protocol := UnknownProtocol | AnyIPProtocol | IPv4Protocol | IPv6Protocol.

#[export] Instance Protocol_eq_dec : EqDecision Protocol.
Proof. solve_decision. Defined.

Definition protocol (a : QHostAddress) : Protocol :=
  match a with
  | AddrNull => UnknownProtocol
  | AddrAny => AnyIPProtocol
  | AddrV4 _ => IPv4Protocol
  | AddrV6 _ _ => IPv6Protocol
  end.

Definition isNull (a : QHostAddress) : bool := bool_decide (a = AddrNull).

Definition isIPv6LinkLocalAddress (addr : QHostAddress) : bool :=
  match addr with
  | AddrV6 a6 _ =>
      Z.land (Z.shiftl (default 0 (a6 !! 0%nat)) 8 + default 0 (a6 !! 1%nat)) 0xffc0 =? 0xfe80
  | _ => false
  end.

Definition isCompatibleAddress (a1 a2 : QHostAddress) : bool :=
  bool_decide (protocol a1 = protocol a2) &&
  Bool.eqb (isIPv6LinkLocalAddress a1) (isIPv6LinkLocalAddress a2).

(** ** Constants *)

Definition STUN_MAGIC : Z := 0x2112A442.
Definition STUN_HEADER : Z := 20.
Definition STUN_ID_SIZE : nat := 12.
Definition STUN_IPV4 : Z := 0x01.
Definition STUN_IPV6 : Z := 0x02.

Module AttributeType.
Definition MappedAddress := 0x0001.
Definition ChangeRequest := 0x0003.
Definition SourceAddress := 0x0004.
Definition ChangedAddress := 0x0005.
Definition Username := 0x0006.
Definition MessageIntegrity := 0x0008.
Definition ErrorCode := 0x0009.
Definition ChannelNumber := 0x000c.
Definition Lifetime := 0x000d.
Definition XorPeerAddress := 0x0012.
Definition DataAttr := 0x0013.
Definition Realm := 0x0014.
Definition Nonce := 0x0015.
Definition XorRelayedAddress := 0x0016.
Definition RequestedTransport := 0x0019.
Definition XorMappedAddress := 0x0020.
Definition ReservationToken := 0x0022.
Definition Priority := 0x0024.
Definition UseCandidate := 0x0025.
Definition Software := 0x8022.
Definition Fingerprint := 0x8028.
Definition IceControlled := 0x8029.
Definition IceControlling := 0x802a.
Definition OtherAddress := 0x802c.
End AttributeType.
Import AttributeType.

(** QXmppStunMessage::MethodType and ClassType. *)
Module Method.
Definition Binding := 0x1.
Definition SharedSecret := 0x2.
Definition Allocate := 0x3.
Definition Refresh := 0x4.
Definition Send := 0x6.
Definition Data := 0x7.
Definition CreatePermission := 0x8.
Definition ChannelBind := 0x9.
End Method.
Module MsgClass.
Definition Request := 0x000.
Definition Indication := 0x010.
Definition Response := 0x100.
Definition Error := 0x110.
End MsgClass.

(** ** The message *)

Record QXmppStunMessage := mkStunMessage {
  errorCode : Z;
  errorPhrase : string;
  iceControlling : bytes;
  iceControlled : bytes;
  changedHost : QHostAddress; changedPort : Z;
  mappedHost : QHostAddress; mappedPort : Z;
  otherHost : QHostAddress; otherPort : Z;
  sourceHost : QHostAddress; sourcePort : Z;
  xorMappedHost : QHostAddress; xorMappedPort : Z;
  xorPeerHost : QHostAddress; xorPeerPort : Z;
  xorRelayedHost : QHostAddress; xorRelayedPort : Z;
  useCandidate : bool;
  m_cookie : Z;
  m_id : bytes;
  m_type : Z;
  m_attributes : gset Z;
  m_changeRequest : Z;
  m_channelNumber : Z;
  m_data : bytes;
  m_lifetime : Z;
  m_nonce : bytes;
  m_priority : Z;
  m_realm : string;
  m_requestedTransport : Z;
  m_reservationToken : bytes;
  m_software : string;
  m_username : string
}.

#[export] Instance eta_QXmppStunMessage : Eta QXmppStunMessage := fun m =>
  mkStunMessage (errorCode m) (errorPhrase m) (iceControlling m) (iceControlled m)
    (changedHost m) (changedPort m) (mappedHost m) (mappedPort m) (otherHost m) (otherPort m)
    (sourceHost m) (sourcePort m) (xorMappedHost m) (xorMappedPort m)
    (xorPeerHost m) (xorPeerPort m) (xorRelayedHost m) (xorRelayedPort m)
    (useCandidate m) (m_cookie m) (m_id m) (m_type m) (m_attributes m) (m_changeRequest m)
    (m_channelNumber m) (m_data m) (m_lifetime m) (m_nonce m) (m_priority m) (m_realm m)
    (m_requestedTransport m) (m_reservationToken m) (m_software m) (m_username m).

(** The constructor leaves m_requestedTransport uninitialised: [uninit]. *)
Definition newStunMessage (uninit : Z) : QXmppStunMessage :=
  mkStunMessage 0 "" [] [] AddrNull 0 AddrNull 0 AddrNull 0 AddrNull 0 AddrNull 0
    AddrNull 0 AddrNull 0 false STUN_MAGIC (replicate STUN_ID_SIZE 0) 0 ∅ 0 0 [] 0 [] 0 ""
    uninit [] "" "".

Definition messageClass (m : QXmppStunMessage) : Z := Z.land (m_type m) 0x0110.
Definition messageMethod (m : QXmppStunMessage) : Z := Z.land (m_type m) 0x3eef.

Definition add_attribute (t : Z) (m : QXmppStunMessage) : QXmppStunMessage :=
  m <| m_attributes ::= fun s => {[t]} ∪ s |>.

Definition setId (id : bytes) (m : QXmppStunMessage) := m <| m_id := id |>.
Definition setType (type : Z) (m : QXmppStunMessage) := m <| m_type := type |>.
Definition setChangeRequest (v : Z) (m : QXmppStunMessage) :=
  add_attribute ChangeRequest (m <| m_changeRequest := v |>).
Definition setChannelNumber (v : Z) (m : QXmppStunMessage) :=
  add_attribute ChannelNumber (m <| m_channelNumber := v |>).
Definition setData (v : bytes) (m : QXmppStunMessage) :=
  add_attribute DataAttr (m <| m_data := v |>).
Definition setLifetime (v : Z) (m : QXmppStunMessage) :=
  add_attribute Lifetime (m <| m_lifetime := v |>).
Definition setNonce (v : bytes) (m : QXmppStunMessage) :=
  add_attribute Nonce (m <| m_nonce := v |>).
Definition setPriority (v : Z) (m : QXmppStunMessage) :=
  add_attribute Priority (m <| m_priority := v |>).
Definition setRealm (v : string) (m : QXmppStunMessage) :=
  add_attribute Realm (m <| m_realm := v |>).
Definition setRequestedTransport (v : Z) (m : QXmppStunMessage) :=
  add_attribute RequestedTransport (m <| m_requestedTransport := v |>).
Definition setReservationToken (junk : nat -> Z) (v : bytes) (m : QXmppStunMessage) :=
  add_attribute ReservationToken (m <| m_reservationToken := resize junk 8 v |>).
Definition setSoftware (v : string) (m : QXmppStunMessage) :=
  add_attribute Software (m <| m_software := v |>).
Definition setUsername (v : string) (m : QXmppStunMessage) :=
  add_attribute Username (m <| m_username := v |>).

(** [m_attributes.contains(t)]. *)
Definition has (t : Z) (m : QXmppStunMessage) : bool := bool_decide (t ∈ m_attributes m).

(** ** Codec *)

Section Codec.
Variable toUtf8 : string -> bytes.
Variable fromUtf8 : bytes -> string.
Variable sha1 : bytes -> bytes.
Variable junk : nat -> Z.

Definition generateHmacSha1 : bytes -> bytes -> bytes := Hmac.generateHmac sha1.

(** [addr[i] ^= xpad[i]] for the 16 bytes; [xpad] is the magic cookie
    followed by the 12 bytes of the transaction id. *)
Definition xor_ipv6 (xorId a6 : bytes) : bytes := zip_with Z.lxor a6 (w32 STUN_MAGIC ++ xorId).

Definition is_empty {A} (l : list A) : bool := match l with [] => true | _ => false end.

Definition encodeAddress (type : Z) (address : QHostAddress) (port : Z) (xorId : bytes) : bytes :=
  match address with
  | AddrV4 addr =>
      w16 type ++ w16 8 ++ w8 0 ++ w8 STUN_IPV4 ++
      (if is_empty xorId then w16 port ++ w32 addr
       else w16 (Z.lxor port (Z.shiftr STUN_MAGIC 16)) ++ w32 (Z.lxor addr STUN_MAGIC))
  | AddrV6 addr _ =>
      w16 type ++ w16 20 ++ w8 0 ++ w8 STUN_IPV6 ++
      (if is_empty xorId then w16 port ++ addr
       else w16 (Z.lxor port (Z.shiftr STUN_MAGIC 16)) ++ xor_ipv6 xorId addr)
  | _ => []
  end.

Definition addAddress (type : Z) (host : QHostAddress) (port : Z) (xorId : bytes) : bytes :=
  if negb (port =? 0) && negb (isNull host) &&
     (bool_decide (protocol host = IPv4Protocol) || bool_decide (protocol host = IPv6Protocol))
  then encodeAddress type host port xorId else [].

(** The padding to a multiple of four bytes. *)
Definition padding (n : Z) : bytes :=
  if n mod 4 =? 0 then [] else replicate (Z.to_nat (4 - n mod 4)) 0.

Definition encodeString (type : Z) (s : string) : bytes :=
  let utf8string := toUtf8 s in
  w16 type ++ w16 (len utf8string) ++ utf8string ++ padding (len utf8string).

Definition setBodyLength (buffer : bytes) (length : Z) : bytes :=
  left 2 buffer ++ w16 length ++ mid 4 buffer.

Definition encode_header (m : QXmppStunMessage) : bytes :=
  w16 (m_type m) ++ w16 0 ++ w32 (m_cookie m) ++ m_id m.

Definition encode_error (m : QXmppStunMessage) : bytes :=
  if errorCode m =? 0 then [] else
  let phrase := toUtf8 (errorPhrase m) in
  w16 ErrorCode ++ w16 (len phrase + 4) ++ w16 0 ++
  w8 (Z.quot (errorCode m) 100) ++ w8 (Z.rem (errorCode m) 100) ++
  phrase ++ padding (len phrase).

Definition encode_raw (type : Z) (data : bytes) : bytes :=
  w16 type ++ w16 (len data) ++ data ++ padding (len data).

Definition encode_body (m : QXmppStunMessage) : bytes :=
  addAddress MappedAddress (mappedHost m) (mappedPort m) [] ++
  (if has ChangeRequest m then w16 ChangeRequest ++ w16 4 ++ w32 (m_changeRequest m) else []) ++
  addAddress SourceAddress (sourceHost m) (sourcePort m) [] ++
  addAddress ChangedAddress (changedHost m) (changedPort m) [] ++
  addAddress OtherAddress (otherHost m) (otherPort m) [] ++
  addAddress XorMappedAddress (xorMappedHost m) (xorMappedPort m) (m_id m) ++
  addAddress XorPeerAddress (xorPeerHost m) (xorPeerPort m) (m_id m) ++
  addAddress XorRelayedAddress (xorRelayedHost m) (xorRelayedPort m) (m_id m) ++
  encode_error m ++
  (if has Priority m then w16 Priority ++ w16 4 ++ w32 (m_priority m) else []) ++
  (if useCandidate m then w16 UseCandidate ++ w16 0 else []) ++
  (if has ChannelNumber m
   then w16 ChannelNumber ++ w16 4 ++ w16 (m_channelNumber m) ++ w16 0 else []) ++
  (if has DataAttr m then encode_raw DataAttr (m_data m) else []) ++
  (if has Lifetime m then w16 Lifetime ++ w16 4 ++ w32 (m_lifetime m) else []) ++
  (if has Nonce m then encode_raw Nonce (m_nonce m) else []) ++
  (if has Realm m then encodeString Realm (m_realm m) else []) ++
  (if has RequestedTransport m
   then w16 RequestedTransport ++ w16 4 ++ w8 (m_requestedTransport m) ++ [0; 0; 0] else []) ++
  (if has ReservationToken m
   then w16 ReservationToken ++ w16 (len (m_reservationToken m)) ++ m_reservationToken m
   else []) ++
  (if has Software m then encodeString Software (m_software m) else []) ++
  (if has Username m then encodeString Username (m_username m) else []) ++
  (if negb (is_empty (iceControlling m))
   then w16 IceControlling ++ w16 (len (iceControlling m)) ++ iceControlling m
   else if negb (is_empty (iceControlled m))
   then w16 IceControlled ++ w16 (len (iceControlled m)) ++ iceControlled m
   else []).

(** MESSAGE-INTEGRITY and FINGERPRINT: each is computed over the buffer with
    the body length already counting the attribute. *)
Definition encode_integrity (key buffer : bytes) : bytes :=
  if is_empty key then buffer else
  let buffer := setBodyLength buffer (len buffer - STUN_HEADER + 24) in
  let integrity := generateHmacSha1 key buffer in
  buffer ++ w16 MessageIntegrity ++ w16 (len integrity) ++ integrity.

Definition fingerprint_of (buffer : bytes) : Z :=
  Z.lxor (Crc32.generateCrc32 buffer) 0x5354554e.

Definition encode_fingerprint (addFingerprint : bool) (buffer : bytes) : bytes :=
  if addFingerprint then
    let buffer := setBodyLength buffer (len buffer - STUN_HEADER + 8) in
    buffer ++ w16 Fingerprint ++ w16 4 ++ w32 (fingerprint_of buffer)
  else buffer.

Definition encode (m : QXmppStunMessage) (key : bytes) (addFingerprint : bool) : bytes :=
  let buffer := encode_header m ++ encode_body m in
  let buffer := setBodyLength buffer (len buffer - STUN_HEADER) in
  encode_fingerprint addFingerprint (encode_integrity key buffer).

(** The result, the address and port written through the references, and the
    stream. *)
Definition decodeAddress (s : ReadStream) (a_length : Z) (address : QHostAddress) (port : Z)
    (xorId : bytes) : bool * QHostAddress * Z * ReadStream :=
  if a_length <? 4 then (false, address, port, s) else
  let '(reserved, s) := readUInt 1 s in
  let '(protocol, s) := readUInt 1 s in
  let '(rawPort, s) := readUInt 2 s in
  let port := if is_empty xorId then rawPort else Z.lxor rawPort (Z.shiftr STUN_MAGIC 16) in
  if protocol =? STUN_IPV4 then
    if negb (a_length =? 8) then (false, address, port, s) else
    let '(addr, s) := readUInt 4 s in
    (true, AddrV4 (if is_empty xorId then addr else Z.lxor addr STUN_MAGIC), port, s)
  else if protocol =? STUN_IPV6 then
    if negb (a_length =? 20) then (false, address, port, s) else
    let '(addr, s) := readRawData (map junk (seq 0 16)) s in
    (true, AddrV6 (if is_empty xorId then addr else xor_ipv6 xorId addr) "", port, s)
  else (false, address, port, s).

(** What one attribute does: reject the message, go on with the padding, or
    accept the message at once. *)
Inductive AttrResult :=
| AttrFail (m : QXmppStunMessage) (errors : list string)
| AttrNext (m : QXmppStunMessage) (s : ReadStream) (errors : list string) (integrity : bool)
| AttrStop (m : QXmppStunMessage).

(** An attribute that is the bytes of a fixed-size integer. *)
Definition decode_int (size : nat) (a_length : Z) (s : ReadStream) (m : QXmppStunMessage)
    (set : Z -> QXmppStunMessage -> QXmppStunMessage) : AttrResult :=
  if negb (a_length =? Z.of_nat size) then AttrFail m [] else
  let '(v, s) := readUInt size s in AttrNext (set v m) s [] false.

Definition decode_host (s : ReadStream) (a_length : Z) (m : QXmppStunMessage) (name : string)
    (host : QXmppStunMessage -> QHostAddress) (port : QXmppStunMessage -> Z)
    (set : QHostAddress -> Z -> QXmppStunMessage -> QXmppStunMessage) (xorId : bytes)
    : AttrResult :=
  let '(ok, h, p, s) := decodeAddress s a_length (host m) (port m) xorId in
  if ok then AttrNext (set h p m) s [] false else AttrFail (set h p m) ["Bad " +:+ name].

(** MESSAGE-INTEGRITY to the end of the chain. *)
Definition decode_attr_last (key buffer : bytes) (done a_type a_length : Z)
    (m : QXmppStunMessage) (s : ReadStream) : AttrResult :=
  if a_type =? MessageIntegrity then
    if negb (a_length =? 20) then AttrFail m [] else
    let '(integrity, s) := readRawData (replicate 20 0) s in
    if negb (is_empty key) &&
       negb (bool_decide (integrity =
         generateHmacSha1 key (setBodyLength (left (STUN_HEADER + done) buffer) (done + 24))))
    then AttrFail m ["Bad message integrity"]
    else AttrNext m s [] true
  else if a_type =? Fingerprint then
    if negb (a_length =? 4) then AttrFail m [] else
    let '(fingerprint, s) := readUInt 4 s in
    if negb (fingerprint =?
         fingerprint_of (setBodyLength (left (STUN_HEADER + done) buffer) (done + 8)))
    then AttrFail m ["Bad fingerprint"]
    else AttrStop m
  else if a_type =? IceControlling then
    if negb (a_length =? 8) then AttrFail m [] else
    let '(v, s) := readRawData (resize junk a_length (iceControlling m)) s in
    AttrNext (m <| iceControlling := v |>) s [] false
  else if a_type =? IceControlled then
    if negb (a_length =? 8) then AttrFail m [] else
    let '(v, s) := readRawData (resize junk a_length (iceControlled m)) s in
    AttrNext (m <| iceControlled := v |>) s [] false
  else
    AttrNext m (skipRawData a_length s)
      ["Skipping unknown attribute " +:+ pretty a_type] false.

(** The address attributes after CHANGE-REQUEST. *)
Definition decode_attr_address (key buffer : bytes) (done a_type a_length : Z)
    (m : QXmppStunMessage) (s : ReadStream) : AttrResult :=
  if a_type =? SourceAddress then
    decode_host s a_length m "SOURCE-ADDRESS" sourceHost sourcePort
      (fun h p m => m <| sourceHost := h |> <| sourcePort := p |>) []
  else if a_type =? ChangedAddress then
    decode_host s a_length m "CHANGED-ADDRESS" changedHost changedPort
      (fun h p m => m <| changedHost := h |> <| changedPort := p |>) []
  else if a_type =? OtherAddress then
    decode_host s a_length m "OTHER-ADDRESS" otherHost otherPort
      (fun h p m => m <| otherHost := h |> <| otherPort := p |>) []
  else if a_type =? XorMappedAddress then
    decode_host s a_length m "XOR-MAPPED-ADDRESS" xorMappedHost xorMappedPort
      (fun h p m => m <| xorMappedHost := h |> <| xorMappedPort := p |>) (m_id m)
  else if a_type =? XorPeerAddress then
    decode_host s a_length m "XOR-PEER-ADDRESS" xorPeerHost xorPeerPort
      (fun h p m => m <| xorPeerHost := h |> <| xorPeerPort := p |>) (m_id m)
  else if a_type =? XorRelayedAddress then
    decode_host s a_length m "XOR-RELAYED-ADDRESS" xorRelayedHost xorRelayedPort
      (fun h p m => m <| xorRelayedHost := h |> <| xorRelayedPort := p |>) (m_id m)
  else decode_attr_last key buffer done a_type a_length m s.

(** The whole chain of attribute types, in the order of the source. *)
Definition decode_attr (key buffer : bytes) (done a_type a_length : Z)
    (m : QXmppStunMessage) (s : ReadStream) : AttrResult :=
  if a_type =? Priority then decode_int 4 a_length s m setPriority
  else if a_type =? ErrorCode then
    if a_length <? 4 then AttrFail m [] else
    let '(reserved, s) := readUInt 2 s in
    let '(errorCodeHigh, s) := readUInt 1 s in
    let '(errorCodeLow, s) := readUInt 1 s in
    let m := m <| errorCode := errorCodeHigh * 100 + errorCodeLow |> in
    let '(phrase, s) := readRawData (replicate (Z.to_nat (a_length - 4)) 0) s in
    AttrNext (m <| errorPhrase := fromUtf8 phrase |>) s [] false
  else if a_type =? UseCandidate then
    if negb (a_length =? 0) then AttrFail m []
    else AttrNext (m <| useCandidate := true |>) s [] false
  else if a_type =? ChannelNumber then
    if negb (a_length =? 4) then AttrFail m [] else
    let '(v, s) := readUInt 2 s in
    AttrNext (setChannelNumber v m) (skipRawData 2 s) [] false
  else if a_type =? DataAttr then
    let '(v, s) := readRawData (resize junk a_length (m_data m)) s in
    AttrNext (setData v m) s [] false
  else if a_type =? Lifetime then decode_int 4 a_length s m setLifetime
  else if a_type =? Nonce then
    let '(v, s) := readRawData (resize junk a_length (m_nonce m)) s in
    AttrNext (setNonce v m) s [] false
  else if a_type =? Realm then
    let '(v, s) := readRawData (replicate (Z.to_nat a_length) 0) s in
    AttrNext (setRealm (fromUtf8 v) m) s [] false
  else if a_type =? RequestedTransport then
    if negb (a_length =? 4) then AttrFail m [] else
    let '(v, s) := readUInt 1 s in
    AttrNext (setRequestedTransport v m) (skipRawData 3 s) [] false
  else if a_type =? ReservationToken then
    if negb (a_length =? 8) then AttrFail m [] else
    let '(v, s) := readRawData (resize junk a_length (m_reservationToken m)) s in
    AttrNext (add_attribute ReservationToken (m <| m_reservationToken := v |>)) s [] false
  else if a_type =? Software then
    let '(v, s) := readRawData (replicate (Z.to_nat a_length) 0) s in
    AttrNext (setSoftware (fromUtf8 v) m) s [] false
  else if a_type =? Username then
    let '(v, s) := readRawData (replicate (Z.to_nat a_length) 0) s in
    AttrNext (setUsername (fromUtf8 v) m) s [] false
  else if a_type =? MappedAddress then
    decode_host s a_length m "MAPPED-ADDRESS" mappedHost mappedPort
      (fun h p m => m <| mappedHost := h |> <| mappedPort := p |>) []
  else if a_type =? ChangeRequest then decode_int 4 a_length s m setChangeRequest
  else decode_attr_address key buffer done a_type a_length m s.

(** The attribute loop; [None] when the fuel is used up. *)
Fixpoint decode_loop (fuel : nat) (key buffer : bytes) (length done : Z) (after_integrity : bool)
    (m : QXmppStunMessage) (s : ReadStream) (errors : list string)
    : option (bool * QXmppStunMessage * list string) :=
  match fuel with
  | O => None
  | S fuel =>
      if done <? length then
        let '(a_type, s) := readUInt 2 s in
        let '(a_length, s) := readUInt 2 s in
        let pad_length := 4 * ((a_length + 3) / 4) - a_length in
        if after_integrity && negb (a_type =? Fingerprint) then
          decode_loop fuel key buffer length (done + (4 + a_length + pad_length)) after_integrity
            m (skipRawData (a_length + pad_length) s)
            (errors ++ ["Skipping attribute " +:+ pretty a_type +:+ " after MESSAGE-INTEGRITY"])
        else
          match decode_attr key buffer done a_type a_length m s with
          | AttrFail m e => Some (false, m, errors ++ e)
          | AttrStop m => Some (true, m, errors)
          | AttrNext m s e integrity =>
              decode_loop fuel key buffer length (done + (4 + a_length + pad_length))
                (after_integrity || integrity) m (skipRawData pad_length s) (errors ++ e)
          end
      else Some (true, m, errors)
  end.

(** The returned flag, the message as it is left, and the errors. *)
Definition decode (m : QXmppStunMessage) (buffer key : bytes)
    : option (bool * QXmppStunMessage * list string) :=
  if len buffer <? STUN_HEADER then
    Some (false, m, ["Received a truncated STUN packet"])
  else
    let '(type, s) := readUInt 2 (open_stream buffer) in
    let '(length, s) := readUInt 2 s in
    let '(cookie, s) := readUInt 4 s in
    let '(id, s) := readRawData (m_id m) s in
    let m := m <| m_type := type |> <| m_cookie := cookie |> <| m_id := id |> in
    if negb (length =? len buffer - STUN_HEADER) then
      Some (false, m, ["Received an invalid STUN packet"])
    else decode_loop (S (Z.to_nat length)) key buffer length 0 false m s [].

(** The type (0 for "not STUN"), and the cookie and id written through the
    references. *)
Definition peekType (buffer : bytes) (cookie : Z) (id : bytes) : Z * Z * bytes :=
  if len buffer <? STUN_HEADER then (0, cookie, id) else
  let '(type, s) := readUInt 2 (open_stream buffer) in
  let '(length, s) := readUInt 2 s in
  let '(cookie, s) := readUInt 4 s in
  if negb (length =? len buffer - STUN_HEADER) then (0, cookie, id) else
  let '(id, s) := readRawData (resize junk (Z.of_nat STUN_ID_SIZE) id) s in
  (type, cookie, id).
End Codec.

(** The test suite's first message: a Binding request with a priority. *)
Example stun_encode_request :
  encode latin1 (fun _ => replicate 20 0)
    (setPriority 1862270975 (setType (Z.lor Method.Binding MsgClass.Request) (newStunMessage 0))) []
    false
  = [0; 1; 0; 8; 0x21; 0x12; 0xa4; 0x42; 0; 0; 0; 0; 0; 0; 0; 0; 0; 0; 0; 0;
     0; 0x24; 0; 4; 0x6e; 0xff; 0xff; 0xff].
Proof. vm_compute. reflexivity. Qed.
