(* ===== verification/StunCodec.v ===== *)
(** * Correctness of the STUN codec

    Termination of the attribute loop, and the round trip of [encode] and
    [decode] with its consequences for MESSAGE-INTEGRITY and FINGERPRINT. *)
From S2P Require Import Prelude DataStream Utils StunMessage.
Import AttributeType.

(** ** Lengths and padding *)

Lemma len_padding n : 0 <= n -> len (padding n) = 4 * ((n + 3) / 4) - n.
Proof.
  intros Hn. unfold padding. pose proof (Z.div_mod n 4 ltac:(lia)) as Hd.
  pose proof (Z.mod_pos_bound n 4 ltac:(lia)) as Hb.
  destruct (Z.eqb_spec (n mod 4) 0) as [E|E].
  - rewrite len_nil. replace ((n + 3) / 4) with (n / 4); [lia|].
    apply Z.div_unique with 3; lia.
  - rewrite len_replicate, Z2Nat.id by lia.
    replace ((n + 3) / 4) with (n / 4 + 1); [lia|].
    apply Z.div_unique with (n mod 4 - 1); lia.
Qed.

Lemma len_encode_raw type data :
  len (encode_raw type data) = 4 + len data + len (padding (len data)).
Proof. unfold encode_raw, w16. rewrite !len_app, !len_be. lia. Qed.

Lemma xor_ipv6_involutive xorId a6 :
  len a6 = 16 -> len xorId = 12 -> xor_ipv6 xorId (xor_ipv6 xorId a6) = a6.
Proof.
  intros Ha Hx. unfold xor_ipv6. set (k := w32 STUN_MAGIC ++ xorId).
  assert (length a6 = length k) as E.
  { unfold k, w32. rewrite length_app, length_be. unfold len in *. lia. }
  clearbody k. clear Ha Hx. revert k E.
  induction a6 as [|a a6 IH]; intros [|x k] E; simpl in *; try done.
  rewrite IH by lia. f_equal. by rewrite Z.lxor_assoc, Z.lxor_nilpotent, Z.lxor_0_r.
Qed.

Lemma len_xor_ipv6 xorId a6 :
  len a6 = 16 -> len xorId = 12 -> len (xor_ipv6 xorId a6) = 16.
Proof.
  intros Ha Hx. unfold xor_ipv6, len in *.
  rewrite length_zip_with, length_app. unfold w32. rewrite length_be. lia.
Qed.

(** ** The loop: fuel, progress *)

Definition stream_ok (s : ReadStream) : Prop := bytes_ok (rs_rest s).

Lemma readBlock_ok n s b s' :
  stream_ok s -> readBlock n s = (b, s') -> bytes_ok b /\ stream_ok s'.
Proof.
  intros H [= <- <-]. split; [by apply Forall_take | by apply Forall_drop].
Qed.

Lemma readUInt_ok n s v s' :
  stream_ok s -> readUInt n s = (v, s') -> 0 <= v /\ stream_ok s'.
Proof.
  intros H. unfold readUInt. destruct (readBlock _ _) as [b s1] eqn:E.
  apply readBlock_ok in E as [Hb Hs]; [|done]. intros [= <- <-]. split; [|done].
  destruct (_ =? _); [|done]. by apply be_dec_range.
Qed.

Lemma readRawData_ok buf s b s' :
  stream_ok s -> readRawData buf s = (b, s') -> stream_ok s'.
Proof.
  intros H. unfold readRawData. destruct (readBlock _ _) as [c s1] eqn:E.
  apply readBlock_ok in E as [_ Hs]; [|done]. by intros [= _ <-].
Qed.

Lemma skipRawData_ok n s : stream_ok s -> stream_ok (skipRawData n s).
Proof.
  intros H. unfold skipRawData. destruct (readBlock n s) eqn:E.
  by eapply readBlock_ok in E as [_ ?].
Qed.

#[local] Opaque readUInt readRawData skipRawData.

Ltac stream_ok_tac :=
  repeat match goal with
  | H : stream_ok ?s, E : readUInt _ ?s = (_, _) |- _ => apply (readUInt_ok _ _ _ _ H) in E as [? ?]
  | H : stream_ok ?s, E : readRawData _ ?s = (_, _) |- _ => apply (readRawData_ok _ _ _ _ H) in E
  | |- stream_ok (skipRawData _ _) => apply skipRawData_ok
  end; try assumption.

Section Loop.
Context (toUtf8 : string -> bytes) (fromUtf8 : bytes -> string)
        (sha1 : bytes -> bytes) (junk : nat -> Z).

Let decode_loop := decode_loop fromUtf8 sha1 junk.
Let decode_attr := decode_attr fromUtf8 sha1 junk.

Lemma decodeAddress_ok s a_length address port xorId b a' p' s' :
  stream_ok s ->
  decodeAddress junk s a_length address port xorId = (b, a', p', s') -> stream_ok s'.
Proof.
  intros Hs. unfold decodeAddress. intros E.
  repeat (case_match; simplify_eq/=); stream_ok_tac.
Qed.

Lemma decode_host_ok s a_length m name h p set xorId m' s' e i :
  stream_ok s ->
  decode_host junk s a_length m name h p set xorId = AttrNext m' s' e i -> stream_ok s'.
Proof.
  intros Hs. unfold decode_host.
  destruct (decodeAddress _ _ _ _ _ _) as [[[b a'] p'] s1] eqn:E.
  apply decodeAddress_ok in E; [|done]. destruct b; [by intros [= _ <- _ _]|done].
Qed.

Lemma decode_int_ok n a_length s m set m' s' e i :
  stream_ok s -> decode_int n a_length s m set = AttrNext m' s' e i -> stream_ok s'.
Proof.
  intros Hs. unfold decode_int. destruct (negb _); [done|].
  destruct (readUInt n s) eqn:E. apply readUInt_ok in E as [_ ?]; [|done].
  by intros [= _ <- _ _].
Qed.

Lemma decode_attr_last_ok key buffer done t l m s m' s' e i :
  stream_ok s ->
  decode_attr_last sha1 junk key buffer done t l m s = AttrNext m' s' e i -> stream_ok s'.
Proof.
  intros Hs. unfold decode_attr_last. intros E.
  repeat (case_match; simplify_eq/=); stream_ok_tac.
Qed.

Lemma decode_attr_address_ok key buffer done t l m s m' s' e i :
  stream_ok s ->
  decode_attr_address sha1 junk key buffer done t l m s = AttrNext m' s' e i -> stream_ok s'.
Proof.
  intros Hs. unfold decode_attr_address. intros E.
  repeat (destruct (t =? _); [by eapply decode_host_ok|]).
  by eapply decode_attr_last_ok.
Qed.

Lemma decode_attr_ok key buffer done t l m s m' s' e i :
  stream_ok s -> decode_attr key buffer done t l m s = AttrNext m' s' e i -> stream_ok s'.
Proof.
  intros Hs. unfold decode_attr, StunMessage.decode_attr. intros E.
  repeat match type of E with
  | (if ?b then _ else _) = _ => destruct b
  end;
  match type of E with
  | decode_int _ _ _ _ _ = _ => by eapply decode_int_ok
  | decode_host _ _ _ _ _ _ _ _ _ = _ => by eapply decode_host_ok
  | decode_attr_address _ _ _ _ _ _ _ _ _ = _ => by eapply decode_attr_address_ok
  | _ => repeat (case_match; simplify_eq/=); simplify_eq/=; stream_ok_tac
  end.
Qed.

(** One iteration. *)
Lemma decode_loop_S f key buffer L done ai m s errs :
  decode_loop (S f) key buffer L done ai m s errs =
  if done <? L then
    let '(t, s) := readUInt 2 s in
    let '(l, s) := readUInt 2 s in
    let pad := 4 * ((l + 3) / 4) - l in
    if ai && negb (t =? Fingerprint) then
      decode_loop f key buffer L (done + (4 + l + pad)) ai m (skipRawData (l + pad) s)
        (errs ++ ["Skipping attribute " +:+ pretty t +:+ " after MESSAGE-INTEGRITY"])
    else
      match decode_attr key buffer done t l m s with
      | AttrFail m e => Some (false, m, errs ++ e)
      | AttrStop m => Some (true, m, errs)
      | AttrNext m s e i =>
          decode_loop f key buffer L (done + (4 + l + pad)) (ai || i) m
            (skipRawData pad s) (errs ++ e)
      end
  else Some (true, m, errs).
Proof. reflexivity. Qed.

(** More fuel does not change a result. *)
Lemma decode_loop_mono f f' key buffer L done ai m s errs r :
  (f <= f')%nat -> decode_loop f key buffer L done ai m s errs = Some r ->
  decode_loop f' key buffer L done ai m s errs = Some r.
Proof.
  unfold decode_loop. revert f' done ai m s errs.
  induction f as [|f IH]; intros [|f'] done ai m s errs Hf; simpl;
    [congruence|congruence|lia|].
  destruct (done <? L); [|done].
  destruct (readUInt 2 s) as [t s1], (readUInt 2 s1) as [l s2].
  destruct (ai && _); [apply IH; lia|].
  destruct (StunMessage.decode_attr _ _ _ _ _ _ _ _ _ _); try done. apply IH; lia.
Qed.

(** Every iteration advances by at least four bytes. *)
Lemma decode_loop_total f key buffer L done ai m s errs :
  stream_ok s -> (Z.to_nat (L - done) < f)%nat ->
  exists r, decode_loop f key buffer L done ai m s errs = Some r.
Proof.
  unfold decode_loop. revert done ai m s errs.
  induction f as [|f IH]; intros done ai m s errs Hs Hf; [lia|]. simpl.
  destruct (Z.ltb_spec done L); [|eauto].
  destruct (readUInt 2 s) as [t s1] eqn:E1, (readUInt 2 s1) as [l s2] eqn:E2.
  apply readUInt_ok in E1 as [_ Hs1]; [|done]. apply readUInt_ok in E2 as [Hl Hs2]; [|done].
  assert (l <= 4 * ((l + 3) / 4)).
  { pose proof (Z.div_mod (l + 3) 4 ltac:(lia)).
    pose proof (Z.mod_pos_bound (l + 3) 4 ltac:(lia)). lia. }
  destruct (ai && _); [apply IH; [by apply skipRawData_ok | lia]|].
  destruct (StunMessage.decode_attr _ _ _ _ _ _ _ _ _ _) eqn:E; eauto.
  apply decode_attr_ok in E; [|done]. apply IH; [by apply skipRawData_ok | lia].
Qed.

Lemma decode_total m buffer key :
  bytes_ok buffer -> exists r, decode fromUtf8 sha1 junk m buffer key = Some r.
Proof.
  intros Hb. unfold decode. destruct (_ <? _); [eauto|].
  destruct (readUInt 2 _) as [t s1] eqn:E1, (readUInt 2 s1) as [l s2] eqn:E2,
    (readUInt 4 s2) as [c s3] eqn:E3, (readRawData _ s3) as [id s4] eqn:E4.
  destruct (negb _); [eauto|]. apply decode_loop_total; [|lia].
  assert (stream_ok (open_stream buffer)) by done. stream_ok_tac.
Qed.

(** ** Reading what was written

    [reads L done ai m rest errs r]: from position [done] with [rest] unread
    the loop ends with [r], within the fuel [decode] gives it. *)
Definition reads (key buffer : bytes) (L done : Z) (ai : bool) (m : QXmppStunMessage)
    (rest : bytes) (errs : list string) (r : bool * QXmppStunMessage * list string) : Prop :=
  exists f, (f <= S (Z.to_nat (L - done)))%nat /\
    decode_loop f key buffer L done ai m (mkReadStream rest true) errs = Some r.

Lemma reads_done key buffer L ai m errs : reads key buffer L L ai m [] errs (true, m, errs).
Proof. exists 1%nat. split; [lia|]. unfold decode_loop. simpl. by rewrite Z.ltb_irrefl. Qed.

Lemma reads_raw key buffer L done ai type data m m' rest errs e i r :
  0 <= done -> L < 65536 -> 0 <= type < 65536 ->
  done + len (encode_raw type data ++ rest) = L ->
  ai && negb (type =? Fingerprint) = false ->
  (forall rest, decode_attr key buffer done type (len data) m (mkReadStream (data ++ rest) true)
     = AttrNext m' (mkReadStream rest true) e i) ->
  reads key buffer L (done + len (encode_raw type data)) (ai || i) m' rest (errs ++ e) r ->
  reads key buffer L done ai m (encode_raw type data ++ rest) errs r.
Proof.
  intros Hd HL Ht HE Hai Ha (f & Hf & Hr).
  rewrite len_app, len_encode_raw in HE. rewrite len_encode_raw in Hf, Hr.
  pose proof (len_nonneg data). pose proof (len_nonneg rest).
  pose proof (len_nonneg (padding (len data))).
  exists (S f). split; [lia|]. rewrite decode_loop_S.
  rewrite (proj2 (Z.ltb_lt _ _)) by lia.
  unfold encode_raw, w16. rewrite <-!app_assoc.
  rewrite !readUInt_app by (change (256 ^ Z.of_nat 2) with 65536; lia).
  rewrite Hai. rewrite Ha.
  rewrite skipRawData_app by by rewrite len_padding.
  rewrite len_padding in Hr by done.
  exact Hr.
Qed.

Lemma reads_stop key buffer L done ai type data m m' rest errs :
  0 <= done -> L < 65536 -> 0 <= type < 65536 ->
  done + len (encode_raw type data ++ rest) = L ->
  ai && negb (type =? Fingerprint) = false ->
  (forall rest, decode_attr key buffer done type (len data) m (mkReadStream (data ++ rest) true)
     = AttrStop m') ->
  reads key buffer L done ai m (encode_raw type data ++ rest) errs (true, m', errs).
Proof.
  intros Hd HL Ht HE Hai Ha. rewrite len_app, len_encode_raw in HE.
  pose proof (len_nonneg data). pose proof (len_nonneg rest).
  pose proof (len_nonneg (padding (len data))).
  exists 1%nat. split; [lia|]. rewrite decode_loop_S.
  rewrite (proj2 (Z.ltb_lt _ _)) by lia.
  unfold encode_raw, w16. rewrite <-!app_assoc.
  rewrite !readUInt_app by (change (256 ^ Z.of_nat 2) with 65536; lia).
  rewrite Hai. by rewrite Ha.
Qed.

Lemma reads_fail key buffer L done ai type data m m' rest errs e :
  0 <= done -> L < 65536 -> 0 <= type < 65536 ->
  L = done + len (encode_raw type data ++ rest) ->
  ai && negb (type =? Fingerprint) = false ->
  (forall rest, decode_attr key buffer done type (len data) m (mkReadStream (data ++ rest) true)
     = AttrFail m' e) ->
  reads key buffer L done ai m (encode_raw type data ++ rest) errs (false, m', errs ++ e).
Proof.
  intros Hd HL Ht HE Hai Ha. rewrite len_app, len_encode_raw in HE.
  pose proof (len_nonneg data). pose proof (len_nonneg rest).
  pose proof (len_nonneg (padding (len data))).
  exists 1%nat. split; [lia|]. rewrite decode_loop_S.
  rewrite (proj2 (Z.ltb_lt _ _)) by lia.
  unfold encode_raw, w16. rewrite <-!app_assoc.
  rewrite !readUInt_app by (change (256 ^ Z.of_nat 2) with 65536; lia).
  rewrite Hai. by rewrite Ha.
Qed.
End Loop.

(** ** The encoder's pieces *)

Lemma encode_raw_aligned type data :
  len data mod 4 = 0 -> encode_raw type data = w16 type ++ w16 (len data) ++ data.
Proof. intros H. unfold encode_raw, padding. by rewrite H, app_nil_r. Qed.

(** An address that [addAddress] writes. *)
Definition sendable (host : QHostAddress) (port : Z) : bool :=
  negb (port =? 0) && negb (isNull host) &&
  (bool_decide (protocol host = IPv4Protocol) || bool_decide (protocol host = IPv6Protocol)).

Lemma sendable_inv host port : sendable host port = true ->
  port <> 0 /\ match host with AddrV4 _ | AddrV6 _ _ => True | _ => False end.
Proof.
  unfold sendable. destruct (Z.eqb_spec port 0); [done|]. intros H. split; [done|].
  by destruct host.
Qed.

Lemma sendable_host port host : port <> 0 ->
  match host with AddrV4 _ | AddrV6 _ _ => sendable host port = true | _ => True end.
Proof. intros H. unfold sendable. destruct (Z.eqb_spec port 0); by destruct host. Qed.

Definition host_ok (host : QHostAddress) (port : Z) : Prop :=
  0 <= port < 2 ^ 16 /\
  match host with
  | AddrV4 a => 0 <= a < 2 ^ 32
  | AddrV6 a6 scope => len a6 = 16 /\ bytes_ok a6 /\ scope = ""
  | _ => True
  end.

(** The value of an encoded address attribute. *)
Definition address_data (host : QHostAddress) (port : Z) (xorId : bytes) : bytes :=
  match host with
  | AddrV4 addr => w8 0 ++ w8 STUN_IPV4 ++
      (if is_empty xorId then w16 port ++ w32 addr
       else w16 (Z.lxor port (Z.shiftr STUN_MAGIC 16)) ++ w32 (Z.lxor addr STUN_MAGIC))
  | AddrV6 addr _ => w8 0 ++ w8 STUN_IPV6 ++
      (if is_empty xorId then w16 port ++ addr
       else w16 (Z.lxor port (Z.shiftr STUN_MAGIC 16)) ++ xor_ipv6 xorId addr)
  | _ => []
  end.

Lemma len_address_data host port xorId :
  host_ok host port -> sendable host port = true -> xorId = [] \/ len xorId = 12 ->
  len (address_data host port xorId) =
  match host with AddrV4 _ => 8 | _ => 20 end.
Proof.
  intros [_ Hh] [_ Hs]%sendable_inv Hx. unfold address_data, w8, w16, w32.
  destruct host as [| |a|a6 sc]; [done|done| |].
  - destruct (is_empty xorId); by rewrite !len_app, !len_be.
  - destruct Hh as (Hl & _ & _).
    destruct Hx as [->|Hx]; cbn [is_empty]; [by rewrite !len_app, !len_be, Hl|].
    destruct xorId; [done|]. cbn [is_empty]. by rewrite !len_app, !len_be, len_xor_ipv6.
Qed.

Lemma addAddress_raw type host port xorId :
  host_ok host port -> xorId = [] \/ len xorId = 12 ->
  addAddress type host port xorId =
  if sendable host port then encode_raw type (address_data host port xorId) else [].
Proof.
  intros Hh Hx. unfold addAddress, sendable.
  destruct (_ && _) eqn:Hs; [|done].
  pose proof (len_address_data host port xorId Hh Hs Hx) as Hl.
  destruct host; simpl in Hs; try by rewrite !andb_false_r in Hs.
  all: rewrite encode_raw_aligned by by rewrite Hl.
  all: by rewrite Hl.
Qed.

Lemma lxor_cancel a b : Z.lxor (Z.lxor a b) b = a.
Proof. by rewrite Z.lxor_assoc, Z.lxor_nilpotent, Z.lxor_0_r. Qed.

Lemma decodeAddress_data junk host port xorId h0 p0 rest :
  host_ok host port -> sendable host port = true -> xorId = [] \/ len xorId = 12 ->
  decodeAddress junk (mkReadStream (address_data host port xorId ++ rest) true)
    (len (address_data host port xorId)) h0 p0 xorId
  = (true, host, port, mkReadStream rest true).
Proof.
  intros Hh Hs Hx. rewrite (len_address_data host port xorId Hh Hs Hx).
  destruct Hh as [Hp Hh]. unfold decodeAddress, address_data.
  assert (0 <= Z.lxor port (Z.shiftr STUN_MAGIC 16) < 256 ^ Z.of_nat 2).
  { apply (Crc32.lxor_range 16); [lia | done | by vm_compute]. }
  assert (256 ^ Z.of_nat 1 = 256) as E1 by done.
  assert (256 ^ Z.of_nat 2 = 65536) as E2 by done.
  assert (256 ^ Z.of_nat 4 = 2 ^ 32) as E4 by done.
  apply sendable_inv in Hs as [_ Hs]. destruct host as [| |a|a6 sc]; [done|done| |];
    unfold w8, w16, w32; rewrite <-!app_assoc.
  - change (8 <? 4) with false. cbv iota.
    rewrite !readUInt_app by (rewrite ?E1; by vm_compute).
    destruct Hx as [->|Hx]; simpl is_empty; cbv iota.
    + rewrite <-!app_assoc, !readUInt_app by lia. done.
    + assert (0 <= Z.lxor a STUN_MAGIC < 256 ^ Z.of_nat 4).
      { apply (Crc32.lxor_range 32); [lia | done | by vm_compute]. }
      destruct xorId; [done|]. simpl is_empty. cbv iota.
      rewrite <-!app_assoc, !readUInt_app by lia. cbn. by rewrite !lxor_cancel.
  - destruct Hh as (Hl & _ & ->). change (20 <? 4) with false. cbv iota.
    rewrite !readUInt_app by (rewrite ?E1; by vm_compute).
    assert (len (map junk (seq 0 16)) = 16) as Hj by (unfold len; by rewrite length_map, length_seq).
    destruct Hx as [->|Hx]; simpl is_empty; cbv iota.
    + rewrite <-!app_assoc, readUInt_app by lia. cbv beta iota zeta.
      change (STUN_IPV6 =? STUN_IPV4) with false. change (STUN_IPV6 =? STUN_IPV6) with true.
      cbv iota. change (negb (20 =? 20)) with false. cbv iota.
      rewrite readRawData_app by congruence. done.
    + pose proof (xor_ipv6_involutive xorId a6 Hl Hx) as Hinv.
      pose proof (len_xor_ipv6 xorId a6 Hl Hx) as Hlx.
      destruct xorId; [done|]. simpl is_empty. cbv iota.
      rewrite <-!app_assoc, readUInt_app by lia. cbv beta iota zeta.
      change (STUN_IPV6 =? STUN_IPV4) with false. change (STUN_IPV6 =? STUN_IPV6) with true.
      cbv iota. change (negb (20 =? 20)) with false. cbv iota.
      rewrite readRawData_app by congruence. by rewrite Hinv, lxor_cancel.
Qed.

(** Evaluates the chain of attribute types on a concrete type. *)
Ltac attr_eval :=
  unfold decode_attr, decode_attr_address, decode_attr_last;
  repeat match goal with
  | |- context [?a =? ?b] =>
      let v := eval vm_compute in (a =? b) in
      match v with
      | true => change (a =? b) with true
      | false => change (a =? b) with false
      end
  end; cbv iota.

Section Pieces.
Context (toUtf8 : string -> bytes) (fromUtf8 : bytes -> string)
        (sha1 : bytes -> bytes) (junk : nat -> Z) (id : bytes).
Hypothesis fromUtf8_toUtf8 : forall s, fromUtf8 (toUtf8 s) = s.

Let reads := reads fromUtf8 sha1 junk.

(** Reading [piece] applies [f] to the message, which keeps its id. *)
Definition decodes (piece : bytes) (f : QXmppStunMessage -> QXmppStunMessage) : Prop :=
  forall key buffer L done m rest errs r,
    m_id m = id -> 0 <= done -> L < 65536 -> done + len (piece ++ rest) = L ->
    m_id (f m) = id /\
    (reads key buffer L (done + len piece) false (f m) rest errs r ->
     reads key buffer L done false m (piece ++ rest) errs r).

Lemma decodes_nil : decodes [] (fun m => m).
Proof. intros key buffer L done m rest errs r Hid _ _ _. rewrite len_nil, Z.add_0_r. by split. Qed.

Lemma decodes_app p q f g : decodes p f -> decodes q g -> decodes (p ++ q) (fun m => g (f m)).
Proof.
  intros Hp Hq key buffer L done m rest errs r Hid Hd HL HE.
  pose proof (len_nonneg p). rewrite <-app_assoc in HE.
  destruct (Hp key buffer L done m (q ++ rest) errs r) as [Hid1 H1]; [done..|].
  rewrite len_app in HE.
  destruct (Hq key buffer L (done + len p) (f m) rest errs r) as [Hid2 H2]; [done|lia|done|lia|].
  split; [done|]. intros Hr. rewrite <-app_assoc. apply H1, H2.
  by rewrite len_app, Z.add_assoc in Hr.
Qed.

Lemma decodes_if (c : bool) p f g :
  (c = true -> decodes p f) -> (forall m, (if c then f m else m) = g m) ->
  decodes (if c then p else []) g.
Proof.
  intros Hp Hg key buffer L done m rest errs r. rewrite <-Hg.
  destruct c; [by apply Hp | by apply decodes_nil].
Qed.

Lemma decodes_ext p f g : (forall m, f m = g m) -> decodes p f -> decodes p g.
Proof. intros E Hf key buffer L done m rest errs r. rewrite <-E. apply Hf. Qed.

Lemma decodes_raw type data f :
  0 <= type < 65536 ->
  (forall key buffer done m rest, len data < 65536 -> m_id m = id ->
     m_id (f m) = id /\
     decode_attr fromUtf8 sha1 junk key buffer done type (len data) m
       (mkReadStream (data ++ rest) true) = AttrNext (f m) (mkReadStream rest true) [] false) ->
  decodes (encode_raw type data) f.
Proof.
  intros Ht Ha key buffer L done m rest errs r Hid Hd HL HE.
  assert (len data < 65536) as Hl.
  { rewrite len_app, len_encode_raw in HE. pose proof (len_nonneg rest).
    pose proof (len_nonneg (padding (len data))). lia. }
  split; [by apply (Ha key buffer done m rest)|]. intros Hr.
  eapply reads_raw; [done..| |].
  - intros rest'. by apply Ha.
  - by rewrite app_nil_r.
Qed.

(** *** One lemma per attribute. *)

Lemma decodes_int type v set :
  0 <= type < 65536 -> 0 <= v < 2 ^ 32 ->
  (forall m, m_id (set v m) = m_id m) ->
  (forall key buffer done a_length m s,
     decode_attr fromUtf8 sha1 junk key buffer done type a_length m s
     = decode_int 4 a_length s m set) ->
  decodes (w16 type ++ w16 4 ++ w32 v) (set v).
Proof.
  intros Ht Hv Hid Ha.
  assert (w16 type ++ w16 4 ++ w32 v = encode_raw type (w32 v)) as ->.
  { unfold w32. rewrite encode_raw_aligned; by rewrite len_be. }
  apply decodes_raw; [done|]. intros key buffer done m rest _ Hm. split; [by rewrite Hid|].
  rewrite Ha. unfold decode_int, w32. rewrite len_be. cbn [negb]. rewrite Z.eqb_refl.
  cbn [negb]. by rewrite readUInt_app.
Qed.

Lemma decodes_bytes type data set :
  0 <= type < 65536 -> (forall m, m_id (set data m) = m_id m) ->
  (forall key buffer done m s,
     decode_attr fromUtf8 sha1 junk key buffer done type (len data) m s
     = let '(v, s) := readRawData (replicate (Z.to_nat (len data)) 0) s in
       AttrNext (set v m) s [] false) \/
  (forall m, exists old, forall key buffer done s,
     decode_attr fromUtf8 sha1 junk key buffer done type (len data) m s
     = let '(v, s) := readRawData (resize junk (len data) old) s in
       AttrNext (set v m) s [] false) ->
  decodes (encode_raw type data) (set data).
Proof.
  intros Ht Hid Ha. apply decodes_raw; [done|].
  intros key buffer done m rest _ Hm. split; [by rewrite Hid|].
  pose proof (len_nonneg data). destruct Ha as [Ha|Ha].
  - rewrite Ha, readRawData_app; [done|]. rewrite len_replicate. lia.
  - destruct (Ha m) as [old Ha']. rewrite Ha', readRawData_app; [done|]. by apply len_resize.
Qed.

Lemma decodes_string type s set :
  0 <= type < 65536 -> (forall s m, m_id (set s m) = m_id m) ->
  (forall key buffer done a_length m s,
     decode_attr fromUtf8 sha1 junk key buffer done type a_length m s
     = let '(v, s) := readRawData (replicate (Z.to_nat a_length) 0) s in
       AttrNext (set (fromUtf8 v) m) s [] false) ->
  decodes (encodeString toUtf8 type s) (set s).
Proof.
  intros Ht Hid Ha.
  change (encodeString toUtf8 type s) with (encode_raw type (toUtf8 s)).
  rewrite <-(fromUtf8_toUtf8 s) at 2.
  apply (decodes_bytes type (toUtf8 s) (fun v => set (fromUtf8 v))); [done|by intros|].
  left. intros. apply Ha.
Qed.

Lemma decodes_host type name host port xorId getHost getPort set :
  0 <= type < 65536 -> host_ok host port -> xorId = [] \/ len xorId = 12 ->
  (forall h p m, m_id (set h p m) = m_id m) ->
  (forall key buffer done a_length m s, m_id m = id ->
     decode_attr fromUtf8 sha1 junk key buffer done type a_length m s
     = decode_host junk s a_length m name getHost getPort set xorId) ->
  decodes (addAddress type host port xorId)
    (fun m => if sendable host port then set host port m else m).
Proof.
  intros Ht Hh Hx Hid Ha. rewrite addAddress_raw by done.
  eapply decodes_if; [|done]. intros Hs. apply decodes_raw; [done|].
  intros key buffer done m rest _ Hm. split; [by rewrite Hid|].
  rewrite Ha by done. unfold decode_host. by rewrite decodeAddress_data.
Qed.
End Pieces.

(** ** The round trip *)

(** The attributes whose presence [m_attributes] records and [encode] writes. *)
Definition wire_attributes : list Z :=
  [ChangeRequest; Priority; ChannelNumber; DataAttr; Lifetime; Nonce; Realm;
   RequestedTransport; ReservationToken; Software; Username].

(** [m0] with everything [m] puts on the wire. *)
Definition overlay (m0 m : QXmppStunMessage) : QXmppStunMessage :=
  let sent {A} (h : QHostAddress) (p : Z) (new old : A) := if sendable h p then new else old in
  let opt {A} (t : Z) (new old : A) := if has t m then new else old in
  mkStunMessage
    (if errorCode m =? 0 then errorCode m0 else errorCode m)
    (if errorCode m =? 0 then errorPhrase m0 else errorPhrase m)
    (if is_empty (iceControlling m) then iceControlling m0 else iceControlling m)
    (if is_empty (iceControlling m) && negb (is_empty (iceControlled m))
     then iceControlled m else iceControlled m0)
    (sent (changedHost m) (changedPort m) (changedHost m) (changedHost m0))
    (sent (changedHost m) (changedPort m) (changedPort m) (changedPort m0))
    (sent (mappedHost m) (mappedPort m) (mappedHost m) (mappedHost m0))
    (sent (mappedHost m) (mappedPort m) (mappedPort m) (mappedPort m0))
    (sent (otherHost m) (otherPort m) (otherHost m) (otherHost m0))
    (sent (otherHost m) (otherPort m) (otherPort m) (otherPort m0))
    (sent (sourceHost m) (sourcePort m) (sourceHost m) (sourceHost m0))
    (sent (sourceHost m) (sourcePort m) (sourcePort m) (sourcePort m0))
    (sent (xorMappedHost m) (xorMappedPort m) (xorMappedHost m) (xorMappedHost m0))
    (sent (xorMappedHost m) (xorMappedPort m) (xorMappedPort m) (xorMappedPort m0))
    (sent (xorPeerHost m) (xorPeerPort m) (xorPeerHost m) (xorPeerHost m0))
    (sent (xorPeerHost m) (xorPeerPort m) (xorPeerPort m) (xorPeerPort m0))
    (sent (xorRelayedHost m) (xorRelayedPort m) (xorRelayedHost m) (xorRelayedHost m0))
    (sent (xorRelayedHost m) (xorRelayedPort m) (xorRelayedPort m) (xorRelayedPort m0))
    (useCandidate m || useCandidate m0)
    (m_cookie m) (m_id m) (m_type m)
    (m_attributes m0 ∪ (m_attributes m ∩ list_to_set wire_attributes))
    (opt ChangeRequest (m_changeRequest m) (m_changeRequest m0))
    (opt ChannelNumber (m_channelNumber m) (m_channelNumber m0))
    (opt DataAttr (m_data m) (m_data m0))
    (opt Lifetime (m_lifetime m) (m_lifetime m0))
    (opt Nonce (m_nonce m) (m_nonce m0))
    (opt Priority (m_priority m) (m_priority m0))
    (opt Realm (m_realm m) (m_realm m0))
    (opt RequestedTransport (m_requestedTransport m) (m_requestedTransport m0))
    (opt ReservationToken (m_reservationToken m) (m_reservationToken m0))
    (opt Software (m_software m) (m_software m0))
    (opt Username (m_username m) (m_username m0)).

(** The fields are in the range of their C++ types, ids and tokens have their
    fixed sizes. *)
Record wf_message (m : QXmppStunMessage) : Prop := {
  wf_error : 0 <= errorCode m < 25600;
  wf_controlling : iceControlling m = [] \/ len (iceControlling m) = 8;
  wf_controlled : iceControlled m = [] \/ len (iceControlled m) = 8;
  wf_changed : host_ok (changedHost m) (changedPort m);
  wf_mapped : host_ok (mappedHost m) (mappedPort m);
  wf_other : host_ok (otherHost m) (otherPort m);
  wf_source : host_ok (sourceHost m) (sourcePort m);
  wf_xor_mapped : host_ok (xorMappedHost m) (xorMappedPort m);
  wf_xor_peer : host_ok (xorPeerHost m) (xorPeerPort m);
  wf_xor_relayed : host_ok (xorRelayedHost m) (xorRelayedPort m);
  wf_cookie : 0 <= m_cookie m < 2 ^ 32;
  wf_id : len (m_id m) = 12;
  wf_type : 0 <= m_type m < 2 ^ 16;
  wf_change : 0 <= m_changeRequest m < 2 ^ 32;
  wf_channel : 0 <= m_channelNumber m < 2 ^ 16;
  wf_lifetime : 0 <= m_lifetime m < 2 ^ 32;
  wf_priority : 0 <= m_priority m < 2 ^ 32;
  wf_transport : 0 <= m_requestedTransport m < 2 ^ 8;
  wf_token : has ReservationToken m = true -> len (m_reservationToken m) = 8
}.

Lemma has_union t m (s : gset Z) :
  (if has t m then {[t]} ∪ s else s) = s ∪ (m_attributes m ∩ {[t]}).
Proof.
  unfold has. destruct (decide (t ∈ m_attributes m)).
  - rewrite bool_decide_eq_true_2 by done. set_solver.
  - rewrite bool_decide_eq_false_2 by done. set_solver.
Qed.

Section Body.
Context (toUtf8 : string -> bytes) (fromUtf8 : bytes -> string)
        (sha1 : bytes -> bytes) (junk : nat -> Z).
Hypothesis fromUtf8_toUtf8 : forall s, fromUtf8 (toUtf8 s) = s.

Variable m : QXmppStunMessage.
Hypothesis Hm : wf_message m.

Let decodes := decodes fromUtf8 sha1 junk (m_id m).

Ltac same_field :=
  intros []; unfold add_attribute; cbn;
  match goal with
  | |- context [has ?t m] => pose proof (has_union t m) as HU; revert HU; destruct (has t m);
      intros HU; f_equal; apply HU
  | |- context [sendable ?h ?p] => by destruct (sendable h p)
  end.

Lemma decodes_opt t p set g :
  decodes p set ->
  (forall x, (if has t m then set x else x) = g x) ->
  decodes (if has t m then p else []) g.
Proof. intros. eapply decodes_if; [by intros|done]. Qed.

Lemma decodes_change :
  decodes (if has ChangeRequest m then w16 ChangeRequest ++ w16 4 ++ w32 (m_changeRequest m) else [])
    (fun x => x <| m_changeRequest ::= fun o => if has ChangeRequest m then m_changeRequest m else o |>
                <| m_attributes ::= fun s => s ∪ (m_attributes m ∩ {[ChangeRequest]}) |>).
Proof.
  apply decodes_opt with (set := setChangeRequest (m_changeRequest m)).
  - apply decodes_int; [done | by apply wf_change | done | intros; by attr_eval].
  - unfold setChangeRequest. same_field.
Qed.

Lemma decodes_priority :
  decodes (if has Priority m then w16 Priority ++ w16 4 ++ w32 (m_priority m) else [])
    (fun x => x <| m_priority ::= fun o => if has Priority m then m_priority m else o |>
                <| m_attributes ::= fun s => s ∪ (m_attributes m ∩ {[Priority]}) |>).
Proof.
  apply decodes_opt with (set := setPriority (m_priority m)).
  - apply decodes_int; [done | by apply wf_priority | done | intros; by attr_eval].
  - unfold setPriority. same_field.
Qed.

Lemma decodes_lifetime :
  decodes (if has Lifetime m then w16 Lifetime ++ w16 4 ++ w32 (m_lifetime m) else [])
    (fun x => x <| m_lifetime ::= fun o => if has Lifetime m then m_lifetime m else o |>
                <| m_attributes ::= fun s => s ∪ (m_attributes m ∩ {[Lifetime]}) |>).
Proof.
  apply decodes_opt with (set := setLifetime (m_lifetime m)).
  - apply decodes_int; [done | by apply wf_lifetime | done | intros; by attr_eval].
  - unfold setLifetime. same_field.
Qed.

Lemma decodes_channel :
  decodes (if has ChannelNumber m
           then w16 ChannelNumber ++ w16 4 ++ w16 (m_channelNumber m) ++ w16 0 else [])
    (fun x => x <| m_channelNumber ::= fun o => if has ChannelNumber m then m_channelNumber m else o |>
                <| m_attributes ::= fun s => s ∪ (m_attributes m ∩ {[ChannelNumber]}) |>).
Proof.
  apply decodes_opt with (set := setChannelNumber (m_channelNumber m));
    [|unfold setChannelNumber; same_field].
  set (data := w16 (m_channelNumber m) ++ w16 0).
  assert (len data = 4) as Hl by (unfold data, w16; by rewrite len_app, !len_be).
  assert (w16 ChannelNumber ++ w16 4 ++ data = encode_raw ChannelNumber data) as ->
    by by rewrite encode_raw_aligned, Hl by by rewrite Hl.
  apply decodes_raw; [done|]. intros key buffer done x rest _ Hid. split; [done|].
  rewrite Hl. attr_eval. unfold data, w16. rewrite <-app_assoc, readUInt_app by by apply wf_channel.
  by rewrite skipRawData_app.
Qed.

Lemma decodes_transport :
  decodes (if has RequestedTransport m
           then w16 RequestedTransport ++ w16 4 ++ w8 (m_requestedTransport m) ++ [0; 0; 0] else [])
    (fun x => x <| m_requestedTransport ::= fun o => if has RequestedTransport m then m_requestedTransport m else o |>
                <| m_attributes ::= fun s => s ∪ (m_attributes m ∩ {[RequestedTransport]}) |>).
Proof.
  apply decodes_opt with (set := setRequestedTransport (m_requestedTransport m));
    [|unfold setRequestedTransport; same_field].
  set (data := w8 (m_requestedTransport m) ++ [0; 0; 0]).
  assert (len data = 4) as Hl by (unfold data, w8; by rewrite len_app, !len_be).
  assert (w16 RequestedTransport ++ w16 4 ++ data = encode_raw RequestedTransport data) as ->
    by by rewrite encode_raw_aligned, Hl by by rewrite Hl.
  apply decodes_raw; [done|]. intros key buffer done x rest _ Hid. split; [done|].
  rewrite Hl. attr_eval. unfold data, w8. rewrite <-app_assoc, readUInt_app by by apply wf_transport.
  by rewrite skipRawData_app.
Qed.

Lemma decodes_data :
  decodes (if has DataAttr m then encode_raw DataAttr (m_data m) else [])
    (fun x => x <| m_data ::= fun o => if has DataAttr m then m_data m else o |>
                <| m_attributes ::= fun s => s ∪ (m_attributes m ∩ {[DataAttr]}) |>).
Proof.
  apply decodes_opt with (set := setData (m_data m)); [|unfold setData; same_field].
  apply decodes_bytes; [done|done|right]. intros x. exists (m_data x). intros. by attr_eval.
Qed.

Lemma decodes_nonce :
  decodes (if has Nonce m then encode_raw Nonce (m_nonce m) else [])
    (fun x => x <| m_nonce ::= fun o => if has Nonce m then m_nonce m else o |>
                <| m_attributes ::= fun s => s ∪ (m_attributes m ∩ {[Nonce]}) |>).
Proof.
  apply decodes_opt with (set := setNonce (m_nonce m)); [|unfold setNonce; same_field].
  apply decodes_bytes; [done|done|right]. intros x. exists (m_nonce x). intros. by attr_eval.
Qed.

Lemma decodes_realm :
  decodes (if has Realm m then encodeString toUtf8 Realm (m_realm m) else [])
    (fun x => x <| m_realm ::= fun o => if has Realm m then m_realm m else o |>
                <| m_attributes ::= fun s => s ∪ (m_attributes m ∩ {[Realm]}) |>).
Proof.
  apply decodes_opt with (set := setRealm (m_realm m)); [|unfold setRealm; same_field].
  apply decodes_string; [done|done|done|]. intros. by attr_eval.
Qed.

Lemma decodes_software :
  decodes (if has Software m then encodeString toUtf8 Software (m_software m) else [])
    (fun x => x <| m_software ::= fun o => if has Software m then m_software m else o |>
                <| m_attributes ::= fun s => s ∪ (m_attributes m ∩ {[Software]}) |>).
Proof.
  apply decodes_opt with (set := setSoftware (m_software m)); [|unfold setSoftware; same_field].
  apply decodes_string; [done|done|done|]. intros. by attr_eval.
Qed.

Lemma decodes_username :
  decodes (if has Username m then encodeString toUtf8 Username (m_username m) else [])
    (fun x => x <| m_username ::= fun o => if has Username m then m_username m else o |>
                <| m_attributes ::= fun s => s ∪ (m_attributes m ∩ {[Username]}) |>).
Proof.
  apply decodes_opt with (set := setUsername (m_username m)); [|unfold setUsername; same_field].
  apply decodes_string; [done|done|done|]. intros. by attr_eval.
Qed.

Lemma decodes_token :
  decodes (if has ReservationToken m
           then w16 ReservationToken ++ w16 (len (m_reservationToken m)) ++ m_reservationToken m
           else [])
    (fun x => x <| m_reservationToken ::= fun o => if has ReservationToken m then m_reservationToken m else o |>
                <| m_attributes ::= fun s => s ∪ (m_attributes m ∩ {[ReservationToken]}) |>).
Proof.
  eapply decodes_if
    with (f := fun x => add_attribute ReservationToken
                          (x <| m_reservationToken := m_reservationToken m |>)); [|same_field].
  intros Hh. pose proof (wf_token m Hm Hh) as Hl.
  rewrite <-encode_raw_aligned by by rewrite Hl.
  apply (decodes_bytes _ _ _ _ _ _ (fun v x => add_attribute ReservationToken
                          (x <| m_reservationToken := v |>))); [done|done|right].
  intros x. exists (m_reservationToken x). intros. rewrite Hl. by attr_eval.
Qed.

Lemma decodes_candidate :
  decodes (if useCandidate m then w16 UseCandidate ++ w16 0 else [])
    (fun x => x <| useCandidate ::= fun o => useCandidate m || o |>).
Proof.
  apply decodes_if with (f := fun x => x <| useCandidate := true |>);
    [|destruct (useCandidate m); by intros []].
  intros _. change (w16 UseCandidate ++ w16 0) with (encode_raw UseCandidate []).
  apply decodes_raw; [done|]. intros key buffer done x rest _ Hid. split; [done|].
  rewrite len_nil. by attr_eval.
Qed.

Lemma decodes_error :
  decodes (encode_error toUtf8 m)
    (fun x => x <| errorCode ::= fun o => if errorCode m =? 0 then o else errorCode m |>
                <| errorPhrase ::= fun o => if errorCode m =? 0 then o else errorPhrase m |>).
Proof.
  pose proof (wf_error m Hm) as He. unfold encode_error.
  replace (if errorCode m =? 0 then _ else _) with
    (if negb (errorCode m =? 0) then
       encode_raw ErrorCode (w16 0 ++ w8 (Z.quot (errorCode m) 100) ++
         w8 (Z.rem (errorCode m) 100) ++ toUtf8 (errorPhrase m)) else []).
  2:{ destruct (errorCode m =? 0); [done|]. cbn [negb].
      unfold encode_raw, w16, w8. rewrite !len_app, !len_be.
      set (n := len (toUtf8 (errorPhrase m))).
      replace (Z.of_nat 2 + (Z.of_nat 1 + (Z.of_nat 1 + n))) with (n + 4) by lia.
      assert (padding (n + 4) = padding n) as ->; [|by rewrite <-!app_assoc].
      unfold padding. by replace ((n + 4) mod 4) with (n mod 4)
        by (rewrite <-(Z.mod_add n 1 4) by lia; f_equal; lia). }
  apply decodes_if with (f := fun x => x <| errorCode := errorCode m |>
                                        <| errorPhrase := errorPhrase m |>);
    [|destruct (errorCode m =? 0); by intros []].
  intros _. apply decodes_raw; [done|]. intros key buffer done x rest _ Hid. split; [done|].
  set (phrase := toUtf8 (errorPhrase m)). unfold w16, w8. rewrite !len_app, !len_be.
  pose proof (len_nonneg phrase).
  set (l := Z.of_nat 2 + (Z.of_nat 1 + (Z.of_nat 1 + len phrase))).
  attr_eval. rewrite (proj2 (Z.ltb_ge l 4)) by (unfold l; lia).
  assert (0 <= Z.quot (errorCode m) 100 < 256) as Hq.
  { rewrite Z.quot_div_nonneg by lia. split; [apply Z.div_pos; lia|].
    apply Z.div_lt_upper_bound; lia. }
  assert (0 <= Z.rem (errorCode m) 100 < 100) as Hr by (apply Z.rem_bound_pos; lia).
  rewrite <-!app_assoc, !readUInt_app by (change (256 ^ Z.of_nat 1) with 256;
                                          change (256 ^ Z.of_nat 2) with 65536; lia).
  rewrite readRawData_app by (rewrite len_replicate; unfold l; lia).
  replace (Z.quot (errorCode m) 100 * 100 + Z.rem (errorCode m) 100) with (errorCode m)
    by (pose proof (Z.quot_rem' (errorCode m) 100); lia).
  unfold phrase. by rewrite fromUtf8_toUtf8.
Qed.

Lemma decodes_ice :
  decodes
    (if negb (is_empty (iceControlling m))
     then w16 IceControlling ++ w16 (len (iceControlling m)) ++ iceControlling m
     else if negb (is_empty (iceControlled m))
     then w16 IceControlled ++ w16 (len (iceControlled m)) ++ iceControlled m
     else [])
    (fun x => x <| iceControlling ::= fun o => if is_empty (iceControlling m) then o else iceControlling m |>
                <| iceControlled ::= fun o =>
                     if is_empty (iceControlling m) && negb (is_empty (iceControlled m))
                     then iceControlled m else o |>).
Proof.
  pose proof (wf_controlling m Hm) as H1. pose proof (wf_controlled m Hm) as H2.
  destruct (is_empty (iceControlling m)) eqn:E1; cbn [negb].
  - apply decodes_if with (f := fun x => x <| iceControlled := iceControlled m |>);
      [|destruct (is_empty (iceControlled m)); by intros []].
    intros E2. destruct H2 as [H2|H2]; [by rewrite H2 in E2|].
    rewrite <-encode_raw_aligned by by rewrite H2.
    apply (decodes_bytes _ _ _ _ _ _ (fun v x => x <| iceControlled := v |>)); [done|done|right].
    intros x. exists (iceControlled x). intros. rewrite H2. by attr_eval.
  - destruct H1 as [H1|H1]; [by rewrite H1 in E1|].
    rewrite <-encode_raw_aligned by by rewrite H1.
    apply decodes_ext with (f := fun x => x <| iceControlling := iceControlling m |>);
      [by intros []|].
    apply (decodes_bytes _ _ _ _ _ _ (fun v x => x <| iceControlling := v |>)); [done|done|right].
    intros x. exists (iceControlling x). intros. rewrite H1. by attr_eval.
Qed.

(** What reading each address attribute of [m] does to the message [x]. *)
Definition put {A} (host : QHostAddress) (port : Z) (new old : A) : A :=
  if sendable host port then new else old.
Definition put_mapped (x : QXmppStunMessage) :=
  x <| mappedHost ::= put (mappedHost m) (mappedPort m) (mappedHost m) |>
    <| mappedPort ::= put (mappedHost m) (mappedPort m) (mappedPort m) |>.
Definition put_source (x : QXmppStunMessage) :=
  x <| sourceHost ::= put (sourceHost m) (sourcePort m) (sourceHost m) |>
    <| sourcePort ::= put (sourceHost m) (sourcePort m) (sourcePort m) |>.
Definition put_changed (x : QXmppStunMessage) :=
  x <| changedHost ::= put (changedHost m) (changedPort m) (changedHost m) |>
    <| changedPort ::= put (changedHost m) (changedPort m) (changedPort m) |>.
Definition put_other (x : QXmppStunMessage) :=
  x <| otherHost ::= put (otherHost m) (otherPort m) (otherHost m) |>
    <| otherPort ::= put (otherHost m) (otherPort m) (otherPort m) |>.
Definition put_xorMapped (x : QXmppStunMessage) :=
  x <| xorMappedHost ::= put (xorMappedHost m) (xorMappedPort m) (xorMappedHost m) |>
    <| xorMappedPort ::= put (xorMappedHost m) (xorMappedPort m) (xorMappedPort m) |>.
Definition put_xorPeer (x : QXmppStunMessage) :=
  x <| xorPeerHost ::= put (xorPeerHost m) (xorPeerPort m) (xorPeerHost m) |>
    <| xorPeerPort ::= put (xorPeerHost m) (xorPeerPort m) (xorPeerPort m) |>.
Definition put_xorRelayed (x : QXmppStunMessage) :=
  x <| xorRelayedHost ::= put (xorRelayedHost m) (xorRelayedPort m) (xorRelayedHost m) |>
    <| xorRelayedPort ::= put (xorRelayedHost m) (xorRelayedPort m) (xorRelayedPort m) |>.

(** Address attributes: the setter is the one of the source's branch. *)
Lemma decodes_address type name host port xorId getHost getPort set g :
  0 <= type < 65536 -> host_ok host port -> xorId = [] \/ len xorId = 12 ->
  (forall key buffer done a_length x s, m_id x = m_id m ->
     decode_attr fromUtf8 sha1 junk key buffer done type a_length x s
     = decode_host junk s a_length x name getHost getPort set xorId) ->
  (forall h p x, m_id (set h p x) = m_id x) ->
  (forall x, (if sendable host port then set host port x else x) = g x) ->
  decodes (addAddress type host port xorId) g.
Proof.
  intros ? ? ? ? ? Hg. eapply decodes_ext; [exact Hg|]. by eapply decodes_host.
Qed.

Ltac address_tac Hwf :=
  eapply decodes_address;
  [ done | by apply Hwf | first [by left | right; by apply wf_id]
  | intros ? ? ? ? ? ? Hid; attr_eval; rewrite ?Hid; reflexivity
  | by intros
  | intros []; unfold put; cbn;
    match goal with |- context [sendable ?h ?p] => by destruct (sendable h p) end ].

Lemma decodes_body :
  decodes (encode_body toUtf8 m) (fun x => overlay x m
    <| m_cookie := m_cookie x |> <| m_id := m_id x |> <| m_type := m_type x |>).
Proof.
  assert (exists f, decodes (encode_body toUtf8 m) f /\ forall x, f x = overlay x m <| m_cookie := m_cookie x |> <| m_id := m_id x |>
                                <| m_type := m_type x |>) as (f & Hf & E).
  { eexists. split.
    - unfold encode_body.
      apply decodes_app with (f := put_mapped); [unfold put_mapped; address_tac wf_mapped|].
      eapply decodes_app; [apply decodes_change|].
      apply decodes_app with (f := put_source); [unfold put_source; address_tac wf_source|].
      apply decodes_app with (f := put_changed); [unfold put_changed; address_tac wf_changed|].
      apply decodes_app with (f := put_other); [unfold put_other; address_tac wf_other|].
      apply decodes_app with (f := put_xorMapped); [unfold put_xorMapped; address_tac wf_xor_mapped|].
      apply decodes_app with (f := put_xorPeer); [unfold put_xorPeer; address_tac wf_xor_peer|].
      apply decodes_app with (f := put_xorRelayed); [unfold put_xorRelayed; address_tac wf_xor_relayed|].
      eapply decodes_app; [apply decodes_error|].
      eapply decodes_app; [apply decodes_priority|].
      eapply decodes_app; [apply decodes_candidate|].
      eapply decodes_app; [apply decodes_channel|].
      eapply decodes_app; [apply decodes_data|].
      eapply decodes_app; [apply decodes_lifetime|].
      eapply decodes_app; [apply decodes_nonce|].
      eapply decodes_app; [apply decodes_realm|].
      eapply decodes_app; [apply decodes_transport|].
      eapply decodes_app; [apply decodes_token|].
      eapply decodes_app; [apply decodes_software|].
      eapply decodes_app; [apply decodes_username|].
      exact decodes_ice.
    - intros []. cbn. unfold overlay, wire_attributes. cbn. f_equal. set_solver. }
  by apply (decodes_ext _ _ _ _ _ f).
Qed.
End Body.

(** ** The whole buffer *)

Section Whole.
Context (toUtf8 : string -> bytes) (fromUtf8 : bytes -> string)
        (sha1 : bytes -> bytes) (junk : nat -> Z).
Hypothesis fromUtf8_toUtf8 : forall s, fromUtf8 (toUtf8 s) = s.
Hypothesis sha1_length : forall b, len (sha1 b) = 20.

(** The header with a given body length. *)
Definition header (m : QXmppStunMessage) (l : Z) : bytes :=
  w16 (m_type m) ++ w16 l ++ w32 (m_cookie m) ++ m_id m.

Lemma setBodyLength_header m l l' b :
  setBodyLength (header m l ++ b) l' = header m l' ++ b.
Proof.
  unfold setBodyLength, header. rewrite <-!app_assoc.
  rewrite (left_app (w16 (m_type m))) by (unfold w16; by rewrite len_be).
  rewrite (app_assoc (w16 (m_type m)) (w16 l)), mid_app
    by (unfold w16; by rewrite len_app, !len_be).
  done.
Qed.

Lemma len_header m l : len (m_id m) = 12 -> len (header m l) = 20.
Proof. intros H. unfold header, w16, w32. rewrite !len_app, !len_be, H. lia. Qed.

Definition integrity_of (m : QXmppStunMessage) (key body : bytes) : bytes :=
  generateHmacSha1 sha1 key (header m (len body + 24) ++ body).

Definition integrity_attr (m : QXmppStunMessage) (key body : bytes) : bytes :=
  if is_empty key then [] else encode_raw MessageIntegrity (integrity_of m key body).

Definition fingerprint_attr (m : QXmppStunMessage) (b : bool) (body : bytes) : bytes :=
  if b then encode_raw Fingerprint (w32 (fingerprint_of (header m (len body + 8) ++ body)))
  else [].

Lemma len_integrity m key body : len (integrity_of m key body) = 20.
Proof. apply sha1_length. Qed.

Lemma len_integrity_attr m key body :
  len (integrity_attr m key body) = if is_empty key then 0 else 24.
Proof.
  unfold integrity_attr. destruct (is_empty key); [done|].
  rewrite len_encode_raw, len_integrity. done.
Qed.

Lemma len_fingerprint_attr m b body : len (fingerprint_attr m b body) = if b then 8 else 0.
Proof.
  unfold fingerprint_attr. destruct b; [|done]. rewrite len_encode_raw. unfold w32.
  rewrite len_be. done.
Qed.

(** [encode] writes the header with the total body length, the attributes,
    MESSAGE-INTEGRITY for a key and FINGERPRINT on request. *)
Lemma encode_layout m key fp : len (m_id m) = 12 ->
  encode toUtf8 sha1 m key fp =
  let body := encode_body toUtf8 m in
  let signed := body ++ integrity_attr m key body in
  let full := signed ++ fingerprint_attr m fp signed in
  header m (len full) ++ full.
Proof.
  intros Hid. cbv zeta. unfold encode. change (encode_header m) with (header m 0).
  set (body := encode_body toUtf8 m).
  rewrite setBodyLength_header, !len_app, !len_header by done.
  assert (forall l, encode_integrity sha1 key (header m l ++ body)
    = header m (if is_empty key then l else len body + 24) ++
        (body ++ integrity_attr m key body)) as ->.
  { intros l. unfold encode_integrity, integrity_attr.
    destruct (is_empty key); [by rewrite app_nil_r|].
    rewrite setBodyLength_header, len_app, len_header by done.
    replace (20 + len body - STUN_HEADER + 24) with (len body + 24) by (unfold STUN_HEADER; lia).
    fold (integrity_of m key body).
    rewrite encode_raw_aligned by by rewrite len_integrity. by rewrite <-app_assoc. }
  unfold encode_fingerprint, fingerprint_attr. set (signed := body ++ _).
  assert (len signed = len body + if is_empty key then 0 else 24) as Hs.
  { unfold signed. by rewrite len_app, len_integrity_attr. }
  destruct fp.
  - rewrite setBodyLength_header, len_app, len_header by done.
    replace (20 + len signed - STUN_HEADER + 8) with (len signed + 8) by (unfold STUN_HEADER; lia).
    rewrite encode_raw_aligned by (unfold w32; by rewrite len_be).
    rewrite <-app_assoc. f_equal. f_equal.
    unfold signed, w16, w32. rewrite !len_app, !len_be, len_integrity_attr. lia.
  - rewrite !app_nil_r. f_equal. f_equal. rewrite ?len_app, ?len_nil, len_integrity_attr. unfold STUN_HEADER.
    destruct (is_empty key); lia.
Qed.

(** Decoding stops at the end, or at FINGERPRINT. *)
Lemma reads_fingerprint m key buffer L done ai fp x errs rest :
  buffer = header m L ++ rest ++ fingerprint_attr m fp rest ->
  len (m_id m) = 12 -> bytes_ok rest -> bytes_ok (m_id m) ->
  done = len rest -> L = done + len (fingerprint_attr m fp rest) -> L < 65536 ->
  reads fromUtf8 sha1 junk key buffer L done ai x (fingerprint_attr m fp rest) errs
    (true, x, errs).
Proof.
  intros Hb Hid Hok Hokid Hd HL HL2. pose proof (len_nonneg rest).
  unfold fingerprint_attr in *. destruct fp.
  2:{ replace L with done by (rewrite len_nil in HL; lia). apply reads_done. }
  rewrite <-(app_nil_r (encode_raw _ _)). set (f := fingerprint_of _) in *.
  assert (0 <= f < 2 ^ 32) as Hf.
  { unfold f, fingerprint_of. apply (Crc32.lxor_range 32); [lia| |by vm_compute].
    apply Crc32.generateCrc32_range. unfold header, w16, w32.
    unfold bytes_ok. rewrite !Forall_app. split_and!; try done; apply be_ok. }
  apply reads_stop; [lia|done|done|by rewrite app_nil_r|by destruct ai|].
  intros rest'. unfold w32. rewrite len_be. attr_eval.
  rewrite readUInt_app by (change (256 ^ Z.of_nat 4) with (2 ^ 32); lia).
  assert (left (STUN_HEADER + done) buffer = header m L ++ rest) as ->.
  { rewrite Hb, app_assoc. apply left_app. rewrite len_app, len_header by done.
    unfold STUN_HEADER. lia. }
  rewrite setBodyLength_header, Hd. fold f. by rewrite Z.eqb_refl.
Qed.

(** Keys under which a decoder accepts what an encoder signed. *)
Definition keys_agree (key key' : bytes) : Prop := key' = key \/ key' = [] \/ key = [].

Lemma reads_signed m key key' buffer L done fp x errs body :
  let signed := body ++ integrity_attr m key body in
  buffer = header m L ++ signed ++ fingerprint_attr m fp signed ->
  len (m_id m) = 12 -> bytes_ok signed -> bytes_ok (m_id m) ->
  done = len body -> L = len signed + len (fingerprint_attr m fp signed) -> L < 65536 ->
  keys_agree key key' ->
  reads fromUtf8 sha1 junk key' buffer L done false x
    (integrity_attr m key body ++ fingerprint_attr m fp signed) errs (true, x, errs).
Proof.
  intros signed Hb Hid Hok Hokid Hd HL HL2 Hk. pose proof (len_nonneg body).
  pose proof (len_fingerprint_attr m fp signed) as Hlf.
  unfold integrity_attr at 1. destruct (is_empty key) eqn:Ek.
  - assert (signed = body) as Hsb by (unfold signed, integrity_attr; by rewrite Ek, app_nil_r).
    clearbody signed. subst signed. cbn [app].
    apply reads_fingerprint; try done; by rewrite ?HL, ?Hd.
  - assert (len signed = done + len (encode_raw MessageIntegrity (integrity_of m key body))) as Hls.
    { unfold signed, integrity_attr. rewrite Ek, len_app. lia. }
    eapply reads_raw with (m' := x) (e := []) (i := true);
      [lia|done|done|rewrite len_app; lia|done| |].
    + intros rest'. rewrite len_integrity. attr_eval.
      rewrite readRawData_app by (rewrite len_replicate, len_integrity; done).
      assert (left (STUN_HEADER + done) buffer = header m L ++ body) as ->.
      { rewrite Hb. unfold signed at 1. rewrite <-app_assoc, (app_assoc (header m L)). apply left_app.
        rewrite len_app, len_header by done. unfold STUN_HEADER. lia. }
      rewrite setBodyLength_header, Hd. fold (integrity_of m key' body).
      destruct Hk as [-> | [-> | ->]]; [|done|done].
      rewrite bool_decide_eq_true_2 by done. by rewrite andb_false_r.
    + rewrite app_nil_r. apply reads_fingerprint; [done|done|done|done|lia|lia|done].
Qed.

(** Decoding an encoded message reads the attributes of the body first; what
    the decoder makes of the signature decides. *)
Lemma decode_of_reads m m0 key key' fp r :
  wf_message m -> len (m_id m0) = 12 -> bytes_ok (encode toUtf8 sha1 m key fp) ->
  len (encode toUtf8 sha1 m key fp) < 65556 ->
  let body := encode_body toUtf8 m in
  let signed := body ++ integrity_attr m key body in
  let full := signed ++ fingerprint_attr m fp signed in
  (bytes_ok signed -> bytes_ok (m_id m) -> len full < 65536 ->
   reads fromUtf8 sha1 junk key' (header m (len full) ++ full) (len full) (len body) false
     (overlay m0 m) (integrity_attr m key body ++ fingerprint_attr m fp signed) [] r) ->
  decode fromUtf8 sha1 junk m0 (encode toUtf8 sha1 m key fp) key' = Some r.
Proof.
  intros Hm Hid0 Hok Hlen body signed full Hrest. pose proof (wf_id m Hm) as Hid.
  rewrite encode_layout in * by done. cbv zeta in *. fold body in Hok, Hlen |- *.
  fold signed in Hok, Hlen |- *. fold full in Hok, Hlen |- *.
  pose proof (len_nonneg full). rewrite len_app, len_header in Hlen by done.
  apply Forall_app in Hok as [Hokh Hokf]. apply Forall_app in Hokf as [Hoks _].
  assert (bytes_ok (m_id m)) as Hoki.
  { unfold header in Hokh. rewrite !Forall_app in Hokh. by destruct Hokh as (_ & _ & _ & ?). }
  unfold decode. rewrite len_app, len_header by done.
  rewrite (proj2 (Z.ltb_ge _ _)) by (unfold STUN_HEADER; lia).
  unfold open_stream. unfold header at 1, w16, w32. rewrite <-!app_assoc.
  pose proof (wf_type m Hm). pose proof (wf_cookie m Hm).
  rewrite !readUInt_app by (change (256 ^ Z.of_nat 2) with 65536;
                            change (256 ^ Z.of_nat 4) with (2 ^ 32); lia).
  rewrite readRawData_app by congruence.
  replace (20 + len full - STUN_HEADER) with (len full) by (unfold STUN_HEADER; lia).
  rewrite Z.eqb_refl. cbn [negb].
  set (m1 := m0 <| m_type := m_type m |> <| m_cookie := m_cookie m |> <| m_id := m_id m |>).
  set (buffer := header m (len full) ++ full) in *.
  assert (reads fromUtf8 sha1 junk key' buffer (len full) 0 false m1 full [] r) as (f & Hf & Hr).
  { unfold full at 2, signed. rewrite <-app_assoc.
    destruct (decodes_body toUtf8 fromUtf8 sha1 junk fromUtf8_toUtf8 m Hm key' buffer (len full) 0
      m1 (integrity_attr m key body ++ fingerprint_attr m fp signed) [] r)
      as [_ Hreads]; [done|lia|lia| |].
    { unfold full, signed. by rewrite app_assoc. }
    apply Hreads.
    replace (overlay m1 m <| m_cookie := m_cookie m1 |> <| m_id := m_id m1 |>
               <| m_type := m_type m1 |>) with (overlay m0 m) by by destruct m0.
    apply Hrest; [done|done|lia]. }
  rewrite Z.sub_0_r in Hf. by eapply decode_loop_mono.
Qed.

(** [peekType] reads the header of an encoded message. *)
Lemma peek_encode m key fp c id :
  wf_message m -> len (encode toUtf8 sha1 m key fp) < 65556 ->
  peekType junk (encode toUtf8 sha1 m key fp) c id = (m_type m, m_cookie m, m_id m).
Proof.
  intros Hm Hlen. pose proof (wf_id m Hm) as Hid. rewrite encode_layout in * by done. cbv zeta in *.
  set (full := _ ++ fingerprint_attr _ _ _) in *. pose proof (len_nonneg full).
  rewrite len_app, len_header in Hlen by done.
  unfold peekType. rewrite len_app, len_header by done.
  rewrite (proj2 (Z.ltb_ge _ _)) by (unfold STUN_HEADER; lia).
  unfold open_stream, header, w16, w32. rewrite <-!app_assoc.
  pose proof (wf_type m Hm). pose proof (wf_cookie m Hm).
  rewrite !readUInt_app by (change (256 ^ Z.of_nat 2) with 65536;
                            change (256 ^ Z.of_nat 4) with (2 ^ 32); lia).
  replace (20 + len full - STUN_HEADER) with (len full) by (unfold STUN_HEADER; lia).
  rewrite Z.eqb_refl. cbn [negb].
  by rewrite readRawData_app by (rewrite len_resize; done).
Qed.

Lemma decode_encode m m0 key key' fp :
  wf_message m -> len (m_id m0) = 12 -> bytes_ok (encode toUtf8 sha1 m key fp) ->
  len (encode toUtf8 sha1 m key fp) < 65556 -> keys_agree key key' ->
  decode fromUtf8 sha1 junk m0 (encode toUtf8 sha1 m key fp) key'
  = Some (true, overlay m0 m, []).
Proof.
  intros Hm Hid0 Hok Hlen Hk. apply decode_of_reads; [done..|].
  intros Hoks Hoki HL. 
  apply reads_signed; [done|by apply wf_id|done|done|done|by rewrite len_app|done|done].
Qed.

Lemma decode_wrong_key m m0 key key' fp :
  wf_message m -> len (m_id m0) = 12 -> bytes_ok (encode toUtf8 sha1 m key fp) ->
  len (encode toUtf8 sha1 m key fp) < 65556 -> key <> [] -> key' <> [] ->
  let body := encode_body toUtf8 m in
  integrity_of m key body <> integrity_of m key' body ->
  decode fromUtf8 sha1 junk m0 (encode toUtf8 sha1 m key fp) key'
  = Some (false, overlay m0 m, ["Bad message integrity"]).
Proof.
  intros Hm Hid0 Hok Hlen Hk Hk' body Hne. apply decode_of_reads; [done..|].
  fold body. set (signed := body ++ integrity_attr m key body).
  set (full := signed ++ fingerprint_attr m fp signed). intros Hoks Hoki HL.
  pose proof (wf_id m Hm) as Hid. pose proof (len_nonneg body).
  assert (is_empty key = false) as Ek by by destruct key.
  assert (is_empty key' = false) as Ek' by by destruct key'.
  unfold integrity_attr at 1. rewrite Ek.
  assert (len full = len body + len (encode_raw MessageIntegrity (integrity_of m key body)
            ++ fingerprint_attr m fp signed)) as HE.
  { unfold full, signed, integrity_attr at 1. rewrite Ek, !len_app. lia. }
  apply reads_fail with (e := ["Bad message integrity"]) (errs := []); [lia|done|done|done|done|].
  intros rest'. rewrite len_integrity. attr_eval.
  rewrite readRawData_app by (rewrite len_replicate, len_integrity; done).
  assert (left (STUN_HEADER + len body) (header m (len full) ++ full)
          = header m (len full) ++ body) as ->.
  { unfold full, signed. rewrite <-app_assoc, (app_assoc (header m _)). apply left_app.
    rewrite len_app, len_header by done. unfold STUN_HEADER. lia. }
  rewrite setBodyLength_header. fold (integrity_of m key' body).
  rewrite Ek', bool_decide_eq_false_2 by done. done.
Qed.
End Whole.

(** ** Properties *)

(** A message whose optional fields are at their defaults where the attribute
    is absent: what the setters build from a fresh message. *)
Definition canonical (uninit : Z) (m : QXmppStunMessage) : Prop :=
  overlay (newStunMessage uninit) m = m.

(** C1: a well-formed message that the setters built decodes to itself: with the
    right key (or none), with and without FINGERPRINT, every attribute is read
    back, and no error is reported. Over any buffer the encoder can describe
    with its 16-bit length. *)
Theorem stun_roundtrip (toUtf8 : string -> bytes) (fromUtf8 : bytes -> string)
    (sha1 : bytes -> bytes) (junk : nat -> Z) (uninit : Z) (m : QXmppStunMessage)
    (key : bytes) (fp : bool) :
  (forall s, fromUtf8 (toUtf8 s) = s) -> (forall b, len (sha1 b) = 20) ->
  wf_message m -> canonical uninit m ->
  bytes_ok (encode toUtf8 sha1 m key fp) -> len (encode toUtf8 sha1 m key fp) < 65556 ->
  decode fromUtf8 sha1 junk (newStunMessage uninit) (encode toUtf8 sha1 m key fp) key
  = Some (true, m, []).
Proof.
  intros H1 H2 Hm Hc Hok Hl. rewrite <-Hc at 2. apply decode_encode; try done. by left.
Qed.

(** decoding with a key does not require MESSAGE-INTEGRITY: a message encoded
    without any key is accepted under every key. *)
Theorem stun_integrity_not_required (toUtf8 : string -> bytes) (fromUtf8 : bytes -> string)
    (sha1 : bytes -> bytes) (junk : nat -> Z) (uninit : Z) (m : QXmppStunMessage)
    (key : bytes) (fp : bool) :
  (forall s, fromUtf8 (toUtf8 s) = s) -> (forall b, len (sha1 b) = 20) ->
  wf_message m -> canonical uninit m ->
  bytes_ok (encode toUtf8 sha1 m [] fp) -> len (encode toUtf8 sha1 m [] fp) < 65556 ->
  decode fromUtf8 sha1 junk (newStunMessage uninit) (encode toUtf8 sha1 m [] fp) key
  = Some (true, m, []).
Proof.
  intros H1 H2 Hm Hc Hok Hl. rewrite <-Hc at 2. apply decode_encode; try done. by right; right.
Qed.

(** C29: a receiver whose key gives another HMAC rejects the message: for any two
    non-empty keys, [decode] returns false and reports bad integrity. *)
Theorem stun_wrong_key_rejected (toUtf8 : string -> bytes) (fromUtf8 : bytes -> string)
    (sha1 : bytes -> bytes) (junk : nat -> Z) (uninit : Z) (m : QXmppStunMessage)
    (key key' : bytes) (fp : bool) :
  (forall s, fromUtf8 (toUtf8 s) = s) -> (forall b, len (sha1 b) = 20) ->
  wf_message m -> canonical uninit m ->
  bytes_ok (encode toUtf8 sha1 m key fp) -> len (encode toUtf8 sha1 m key fp) < 65556 ->
  key <> [] -> key' <> [] ->
  integrity_of sha1 m key (encode_body toUtf8 m) <> integrity_of sha1 m key' (encode_body toUtf8 m) ->
  decode fromUtf8 sha1 junk (newStunMessage uninit) (encode toUtf8 sha1 m key fp) key'
  = Some (false, m, ["Bad message integrity"]).
Proof.
  intros H1 H2 Hm Hc Hok Hl Hk Hk' Hne. rewrite <-Hc at 2. by apply decode_wrong_key.
Qed.

(** [decode] terminates on every buffer: the loop's fuel, the body length
    plus one, is enough. *)
Theorem stun_decode_terminates (fromUtf8 : bytes -> string) (sha1 : bytes -> bytes)
    (junk : nat -> Z) (m : QXmppStunMessage) (buffer key : bytes) :
  bytes_ok buffer -> exists ok m' errs, decode fromUtf8 sha1 junk m buffer key = Some (ok, m', errs).
Proof.
  intros Hb. destruct (decode_total fromUtf8 sha1 junk m buffer key Hb) as [[[ok m'] errs] H].
  by exists ok, m', errs.
Qed.

(** *** Witnesses *)

(** A toy 20-byte digest. *)
Definition toy_digest (b : bytes) : bytes := w32 (Crc32.generateCrc32 b) ++ replicate 16 0.

Lemma toy_digest_length b : len (toy_digest b) = 20.
Proof. done. Qed.

(** An Allocate error response with addresses of both families. *)
Definition sample : QXmppStunMessage :=
  setUsername "juliet" (setRealm "example.com" (setNonce [1; 2; 3] (setLifetime 600
    (setPriority 1862270975
      (setId (map Z.of_nat (seq 1 12)) (setType 0x0113 (newStunMessage 0))))))
  <| errorCode := 401 |> <| errorPhrase := "Unauthorized" |>
  <| mappedHost := AddrV4 0xc0a80001 |> <| mappedPort := 3478 |>
  <| xorMappedHost := AddrV6 (map Z.of_nat (seq 32 16)) "" |> <| xorMappedPort := 5222 |>
  <| useCandidate := true |> <| iceControlling := map Z.of_nat (seq 1 8) |>).

Lemma sample_wf : wf_message sample.
Proof.
  split; try (by vm_compute); try (right; reflexivity); try (left; reflexivity);
  unfold host_ok, sample; cbn; split_and!; try lia; try done.
  all: apply (bool_decide_unpack _); vm_compute; exact I.
Qed.

Lemma sample_canonical : canonical 0 sample.
Proof. unfold canonical. vm_compute. reflexivity. Qed.

Lemma stun_roundtrip_witness :
  decode fromLatin1 toy_digest (fun _ => 7) (newStunMessage 0)
    (encode latin1 toy_digest sample [1; 2; 3] true) [1; 2; 3] = Some (true, sample, []).
Proof.
  apply (stun_roundtrip latin1 fromLatin1 toy_digest (fun _ => 7) 0 sample [1; 2; 3] true
    fromLatin1_latin1 toy_digest_length sample_wf sample_canonical).
  - apply (bool_decide_unpack _). vm_compute. exact I.
  - by vm_compute.
Defined.

Lemma stun_integrity_not_required_witness :
  decode fromLatin1 toy_digest (fun _ => 7) (newStunMessage 0)
    (encode latin1 toy_digest sample [] true) [1; 2; 3] = Some (true, sample, []).
Proof.
  apply (stun_integrity_not_required latin1 fromLatin1 toy_digest (fun _ => 7) 0 sample
    [1; 2; 3] true fromLatin1_latin1 toy_digest_length sample_wf sample_canonical).
  - apply (bool_decide_unpack _). vm_compute. exact I.
  - by vm_compute.
Defined.

Lemma stun_wrong_key_rejected_witness :
  decode fromLatin1 toy_digest (fun _ => 7) (newStunMessage 0)
    (encode latin1 toy_digest sample [1; 2; 3] true) [1; 2; 4]
  = Some (false, sample, ["Bad message integrity"]).
Proof.
  apply (stun_wrong_key_rejected latin1 fromLatin1 toy_digest (fun _ => 7) 0 sample
    [1; 2; 3] [1; 2; 4] true fromLatin1_latin1 toy_digest_length sample_wf sample_canonical).
  - apply (bool_decide_unpack _). vm_compute. exact I.
  - by vm_compute.
  - discriminate.
  - discriminate.
  - vm_compute. discriminate.
Defined.

Lemma stun_decode_terminates_witness :
  exists ok m' errs, decode fromLatin1 toy_digest (fun _ => 7) (newStunMessage 0)
    (replicate 24 255) [] = Some (ok, m', errs).
Proof.
  apply (stun_decode_terminates fromLatin1 toy_digest (fun _ => 7) (newStunMessage 0)
           (replicate 24 255) []).
  apply (bool_decide_unpack _). vm_compute. exact I.
Defined.
