(* ===== verification/QMap.v ===== *)
(** * QMap

    QMap<Key, T> for integer keys: an association list in strictly increasing
    order of the keys, with the operations the library uses. Shared by the
    TURN channels and the stream management queue. *)
From S2P Require Import Prelude.

Definition QMap (V : Type) : Type := list (Z * V).

(** ** Operations *)

Section Operations.
Context {V : Type}.
Implicit Types (m : QMap V) (k : Z) (v : V).

Fixpoint qm_insert k v m : QMap V :=
  match m with
  | [] => [(k, v)]
  | (k', v') :: m' =>
      if k <? k' then (k, v) :: m
      else if k =? k' then (k, v) :: m'
      else (k', v') :: qm_insert k v m'
  end.

Fixpoint qm_value k m : option V :=
  match m with
  | [] => None
  | (k', v') :: m' => if k =? k' then Some v' else qm_value k m'
  end.

Definition qm_contains k m : bool := bool_decide (is_Some (qm_value k m)).

Fixpoint qm_remove k m : QMap V :=
  match m with
  | [] => []
  | (k', v') :: m' => if k =? k' then m' else (k', v') :: qm_remove k m'
  end.

(** QMap::key(value): the first key, in order, whose value is [v]. *)
Fixpoint qm_find `{EqDecision V} v m : option Z :=
  match m with
  | [] => None
  | (k', v') :: m' => if decide (v = v') then Some k' else qm_find v m'
  end.
Definition qm_key `{EqDecision V} v m : Z := default 0 (qm_find v m).
End Operations.

(** ** The order of the keys *)

Definition qm_ok {V} (m : QMap V) : Prop := StronglySorted Z.lt m.*1.
#[export] Hint Unfold qm_ok : qx.

Section Laws.
Context {V : Type}.
Implicit Types (m : QMap V) (k : Z) (v : V).

Lemma qm_ok_cons k v m : qm_ok ((k, v) :: m) <-> qm_ok m /\ Forall (fun p => k < p.1) m.
Proof.
  unfold qm_ok. simpl. split.
  - intros H. apply StronglySorted_inv in H as [? H]. by rewrite Forall_fmap in H.
  - intros [? ?]. constructor; [done|]. by rewrite Forall_fmap.
Qed.

Lemma qm_ok_nil : qm_ok (@nil (Z * V)).
Proof. constructor. Qed.

Lemma qm_value_elem k v m : qm_value k m = Some v -> (k, v) ∈ m.
Proof.
  induction m as [|[k' v'] m IH]; simpl; [done|].
  destruct (Z.eqb_spec k k') as [->|]; intros; simplify_eq; set_solver.
Qed.

Lemma qm_elem_value k v m : qm_ok m -> (k, v) ∈ m -> qm_value k m = Some v.
Proof.
  induction m as [|[k' v'] m IH]; intros Hm; [by rewrite elem_of_nil|].
  apply qm_ok_cons in Hm as [Hm Hlt]. rewrite elem_of_cons. simpl. intros [E|Hin].
  - simplify_eq. by rewrite Z.eqb_refl.
  - rewrite Forall_forall in Hlt. specialize (Hlt _ Hin). simpl in Hlt.
    destruct (Z.eqb_spec k k'); [lia|auto].
Qed.

Lemma qm_insert_elem k v m k' v' :
  (k', v') ∈ qm_insert k v m -> (k', v') = (k, v) \/ (k', v') ∈ m.
Proof.
  induction m as [|[k0 v0] m IH]; simpl; [set_solver|].
  destruct (k <? k0); [set_solver|]. destruct (k =? k0); set_solver.
Qed.

Lemma qm_insert_ok k v m : qm_ok m -> qm_ok (qm_insert k v m).
Proof.
  induction m as [|[k0 v0] m IH]; intros Hm; simpl.
  { by apply qm_ok_cons. }
  pose proof (proj1 (qm_ok_cons _ _ _) Hm) as [Hm' Hlt].
  destruct (Z.ltb_spec k k0) as [Hk|Hk].
  - apply qm_ok_cons. split; [done|]. constructor; [done|].
    eapply Forall_impl; [exact Hlt|]. simpl. intros ? Hp. cbv beta in *. lia.
  - destruct (Z.eqb_spec k k0) as [->|Hne]; [by apply qm_ok_cons|].
    apply qm_ok_cons. split; [auto|]. apply Forall_forall. intros [k1 v1] Hin.
    apply qm_insert_elem in Hin as [?|Hin]; simplify_eq/=; [lia|].
    rewrite Forall_forall in Hlt. apply (Hlt _ Hin).
Qed.

Lemma qm_value_insert k v m : qm_value k (qm_insert k v m) = Some v.
Proof.
  induction m as [|[k0 v0] m IH]; simpl; [by rewrite Z.eqb_refl|].
  destruct (Z.ltb_spec k k0); simpl; [by rewrite Z.eqb_refl|].
  destruct (Z.eqb_spec k k0); simpl; [by rewrite Z.eqb_refl|].
  by rewrite (proj2 (Z.eqb_neq _ _)).
Qed.

Lemma qm_value_insert_ne k k' v m : k <> k' -> qm_value k' (qm_insert k v m) = qm_value k' m.
Proof.
  intros Hne. induction m as [|[k0 v0] m IH]; simpl.
  { by rewrite (proj2 (Z.eqb_neq _ _)) by done. }
  destruct (Z.ltb_spec k k0); simpl; [by rewrite (proj2 (Z.eqb_neq k' k)) by done|].
  destruct (Z.eqb_spec k k0) as [->|]; simpl; [by rewrite !(proj2 (Z.eqb_neq k' k0)) by done|].
  by rewrite IH.
Qed.

Lemma qm_remove_sublist k m : qm_remove k m `sublist_of` m.
Proof.
  induction m as [|[k0 v0] m IH]; simpl; [done|].
  destruct (k =? k0); [by apply sublist_cons|by apply sublist_skip].
Qed.

Lemma qm_ok_sublist m m' : m' `sublist_of` m -> qm_ok m -> qm_ok m'.
Proof.
  induction 1 as [| [k v] l1 l2 Hs IH | [k v] l1 l2 Hs IH]; [done| |].
  - rewrite !qm_ok_cons. intros [Hm Hf]. split; [auto|].
    rewrite Forall_forall in *. intros p Hp. apply Hf. by eapply elem_of_sublist.
  - rewrite qm_ok_cons. intros [? ?]. auto.
Qed.

Lemma qm_remove_ok k m : qm_ok m -> qm_ok (qm_remove k m).
Proof. apply qm_ok_sublist, qm_remove_sublist. Qed.

(** A key beyond the others goes to the end. *)
Lemma qm_insert_last k v m : Forall (fun p => p.1 < k) m -> qm_insert k v m = m ++ [(k, v)].
Proof.
  induction m as [|[k0 v0] m IH]; intros Hm; simpl; [done|].
  inversion Hm as [|? ? Hk Hm']; simplify_eq/=.
  rewrite (proj2 (Z.ltb_ge k k0)), (proj2 (Z.eqb_neq k k0)) by lia. by rewrite IH.
Qed.

Context `{EqDecision V}.

Lemma qm_find_elem v m k : qm_find v m = Some k -> (k, v) ∈ m.
Proof.
  induction m as [|[k' v'] m IH]; simpl; [done|].
  case_decide; intros; simplify_eq; set_solver.
Qed.

Lemma qm_find_None v m : qm_find v m = None -> forall k, (k, v) ∉ m.
Proof.
  induction m as [|[k' v'] m IH]; simpl; [set_solver|].
  case_decide; [done|]. intros Hf k. rewrite elem_of_cons. intros [?|Hin]; [congruence|].
  by eapply IH in Hin.
Qed.

Lemma qm_find_value v m k : qm_ok m -> qm_find v m = Some k -> qm_value k m = Some v.
Proof. intros Hm Hf. apply qm_elem_value; [done|]. by apply qm_find_elem. Qed.
End Laws.

#[export] Hint Resolve qm_insert_ok qm_remove_ok qm_ok_nil : qx.
