(* ===== verification/StunTransaction.v ===== *)
(** * STUN transactions (src/src/base/QXmppStun.cpp, QXmppStunTransaction)

    The retransmission machine of a request: a single-shot timer whose interval
    doubles, at most STUN_RTO_MAX sends, then a synthetic error response. *)
From S2P Require Import Prelude DataStream StunMessage.

Definition STUN_RTO_INTERVAL : Z := 500.
Definition STUN_RTO_MAX : Z := 7.

(** [t_id] identifies the object (the code compares pointers); [m_retryTimer]
    is the interval of the single-shot timer while it is active, and
    [interval] the last interval it was given. *)
Record QXmppStunTransaction := mkTransaction {
  t_id : nat;
  m_request : QXmppStunMessage;
  m_response : QXmppStunMessage;
  m_tries : Z;
  m_retryTimer : option Z;
  interval : Z
}.
#[export] Instance eta_QXmppStunTransaction : Eta QXmppStunTransaction := fun t =>
  mkTransaction (t_id t) (m_request t) (m_response t) (m_tries t) (m_retryTimer t) (interval t).

(** The signals. *)
Inductive TransactionSignal :=
| WriteStun (message : QXmppStunMessage)
| Finished.

Definition start_timer (ms : Z) (t : QXmppStunTransaction) : QXmppStunTransaction :=
  t <| m_retryTimer := Some ms |> <| interval := ms |>.

(** The constructor: the first send happens when the event loop runs the timer. *)
Definition newTransaction (uninit : Z) (id : nat) (request : QXmppStunMessage)
    : QXmppStunTransaction :=
  start_timer 0 (mkTransaction id request (newStunMessage uninit) 0 None 0).

Definition readStun (response : QXmppStunMessage) (t : QXmppStunTransaction)
    : QXmppStunTransaction * list TransactionSignal :=
  if (messageClass response =? MsgClass.Error) || (messageClass response =? MsgClass.Response)
  then (t <| m_response := response |> <| m_retryTimer := None |>, [Finished])
  else (t, []).

(** The slot of the timer, which is no longer active when the slot runs. *)
Definition retry (t : QXmppStunTransaction) : QXmppStunTransaction * list TransactionSignal :=
  let t := t <| m_retryTimer := None |> in
  if STUN_RTO_MAX <=? m_tries t then
    (t <| m_response ::= fun r => (setType MsgClass.Error r) <| errorPhrase := "Request timed out" |> |>,
     [Finished])
  else
    (start_timer (if m_tries t =? 0 then STUN_RTO_INTERVAL else 2 * interval t) t
       <| m_tries := m_tries t + 1 |>,
     [WriteStun (m_request t)]).

(** ** Runs

    What can happen to a transaction: its timer elapses (only while it is
    active), or its owner hands it a message. [now] is the time in ms. *)
Inductive TransactionEvent :=
| Elapsed
| Received (message : QXmppStunMessage).

Definition t_step (e : TransactionEvent) (c : Z * QXmppStunTransaction * list (Z * TransactionSignal))
    : Z * QXmppStunTransaction * list (Z * TransactionSignal) :=
  let '(now, t, log) := c in
  match e with
  | Elapsed =>
      match m_retryTimer t with
      | None => c
      | Some ms =>
          let '(t, sigs) := retry t in (now + ms, t, log ++ map (pair (now + ms)) sigs)
      end
  | Received m => let '(t, sigs) := readStun m t in (now, t, log ++ map (pair now) sigs)
  end.

Definition t_run (es : list TransactionEvent) (t : QXmppStunTransaction)
    : Z * QXmppStunTransaction * list (Z * TransactionSignal) :=
  foldl (fun c e => t_step e c) (0, t, []) es.

Definition is_finished (s : Z * TransactionSignal) : bool :=
  match s.2 with Finished => true | _ => false end.
Definition sends (log : list (Z * TransactionSignal)) : list (Z * TransactionSignal) :=
  filter (fun s => negb (is_finished s)) log.

(** ** Invariant *)

(** An active transaction has been sent [m_tries] times, and its timer runs for
    500 ms doubled at each send. *)
Definition waiting (t : QXmppStunTransaction) : Prop :=
  (m_tries t = 0 /\ m_retryTimer t = Some 0) \/
  (1 <= m_tries t <= STUN_RTO_MAX /\
   m_retryTimer t = Some (STUN_RTO_INTERVAL * 2 ^ (m_tries t - 1)) /\
   interval t = STUN_RTO_INTERVAL * 2 ^ (m_tries t - 1)).

Lemma waiting_new uninit id r : waiting (newTransaction uninit id r).
Proof. by left. Qed.
#[export] Hint Resolve waiting_new : qx.

Lemma waiting_active t : waiting t -> exists ms, m_retryTimer t = Some ms.
Proof. intros [[_ ->]|(_ & -> & _)]; eauto. Qed.

Lemma retry_waiting t t' sigs :
  waiting t -> retry t = (t', sigs) ->
  (sigs = [WriteStun (m_request t)] /\ waiting t' /\ m_tries t' = m_tries t + 1 /\
   m_request t' = m_request t /\ t_id t' = t_id t) \/
  (sigs = [Finished] /\ m_tries t = STUN_RTO_MAX /\ m_request t' = m_request t /\
   t_id t' = t_id t /\ messageClass (m_response t') = MsgClass.Error /\
   m_retryTimer t' = None).
Proof.
  unfold retry. intros Hw E. cbn in E.
  destruct (Z.leb_spec STUN_RTO_MAX (m_tries t)); simplify_eq.
  - right. destruct Hw as [[? ?]|[? ?]]; [unfold STUN_RTO_MAX in *; lia|].
    split_and!; [done|lia|done|done|reflexivity|done].
  - left. split_and!; try done. right. unfold waiting. cbn.
    destruct Hw as [[-> _]|(Ht & _ & Hi)].
    + cbn. unfold STUN_RTO_MAX. split_and!; try done; lia.
    + rewrite (proj2 (Z.eqb_neq _ _)) by lia.
      assert (2 * interval t = STUN_RTO_INTERVAL * 2 ^ (m_tries t + 1 - 1)) as E.
      { rewrite Hi. replace (m_tries t + 1 - 1) with (Z.succ (m_tries t - 1)) by lia.
        rewrite Z.pow_succ_r by lia. lia. }
      rewrite E. unfold STUN_RTO_MAX in *. split_and!; try done; lia.
Qed.

Lemma readStun_cases m t t' sigs : readStun m t = (t', sigs) ->
  (sigs = [Finished] /\ m_response t' = m /\ m_request t' = m_request t /\ t_id t' = t_id t /\
   m_retryTimer t' = None) \/
  (sigs = [] /\ t' = t).
Proof. unfold readStun. qx_case; intros; simplify_eq; auto. left. done. Qed.

(** The time of the [n]-th send: the sum of the intervals before it. *)
Definition elapsed_at (n : Z) : Z := if n =? 0 then 0 else STUN_RTO_INTERVAL * (2 ^ (n - 1) - 1).

Lemma elapsed_at_next n : 1 <= n -> elapsed_at n + STUN_RTO_INTERVAL * 2 ^ (n - 1) = elapsed_at (n + 1).
Proof.
  intros. unfold elapsed_at. rewrite !(proj2 (Z.eqb_neq _ _)) by lia.
  replace (n + 1 - 1) with (Z.succ (n - 1)) by lia. rewrite Z.pow_succ_r by lia. lia.
Qed.

Lemma elapsed_at_bound n : 0 <= n <= STUN_RTO_MAX -> 0 <= elapsed_at n <= 31500.
Proof.
  unfold elapsed_at, STUN_RTO_MAX, STUN_RTO_INTERVAL. intros Hn.
  destruct (Z.eqb_spec n 0); [lia|].
  pose proof (Z.pow_le_mono_r 2 (n - 1) 6 ltac:(lia) ltac:(lia)) as Hp.
  change (2 ^ 6) with 64 in Hp. pose proof (Z.pow_pos_nonneg 2 (n - 1)). lia.
Qed.

Definition is_elapsed (e : TransactionEvent) : bool :=
  match e with Elapsed => true | Received _ => false end.
Definition elapsed_events (es : list TransactionEvent) : Z :=
  Z.of_nat (length (filter is_elapsed es)).

(** What every run of a request [r] satisfies: still waiting, or finished. *)
Record run_ok (r : QXmppStunMessage) (es : list TransactionEvent)
    (now : Z) (t : QXmppStunTransaction) (log : list (Z * TransactionSignal)) : Prop := {
  ro_request : m_request t = r;
  ro_sends : Forall (fun s => s.2 = WriteStun r) (sends log);
  ro_state :
    (waiting t /\ existsb is_finished log = false /\ elapsed_events es = m_tries t /\
     Z.of_nat (length (sends log)) = m_tries t /\ now = elapsed_at (m_tries t)) \/
    (m_retryTimer t = None /\ existsb is_finished log = true /\
     Z.of_nat (length (sends log)) <= STUN_RTO_MAX /\ now <= 63500)
}.

Lemma sends_app l k : sends (l ++ k) = sends l ++ sends k.
Proof. apply filter_app. Qed.

Lemma waiting_tries t : waiting t -> 0 <= m_tries t <= STUN_RTO_MAX.
Proof. intros [[-> _]|[? _]]; unfold STUN_RTO_MAX in *; lia. Qed.

Lemma elapsed_events_snoc es e :
  elapsed_events (es ++ [e]) = elapsed_events es + (if is_elapsed e then 1 else 0).
Proof.
  unfold elapsed_events. rewrite filter_app, length_app. destruct e; simpl; lia.
Qed.

Lemma run_ok_elapsed r es now t log c :
  run_ok r es now t log -> t_step Elapsed (now, t, log) = c ->
  run_ok r (es ++ [Elapsed]) c.1.1 c.1.2 c.2.
Proof.
  intros [Hr Hs Hst] <-. simpl.
  destruct Hst as [(Hw & Hf & He & Hc & Hn)|(Ht & Hf & Hc & Hn)].
  - destruct (waiting_active t Hw) as [ms Hms]. rewrite Hms.
    pose proof (waiting_tries t Hw) as Hb. pose proof (elapsed_at_bound _ Hb).
    destruct (retry t) as [t' sigs] eqn:E.
    apply retry_waiting in E as [(-> & Hw' & Htr & Hr' & _)|(-> & Htr & Hr' & _ & _ & Ht')]; [| |done]; simpl.
    + split; [congruence| |].
      * rewrite sends_app. apply Forall_app. split; [done|]. repeat constructor. simpl. congruence.
      * left. rewrite existsb_app, Hf, elapsed_events_snoc, sends_app, length_app. simpl.
        split_and!; try done; try lia.
        rewrite Htr, Hn. destruct Hw as [[H0 Hm]|(H1 & Hm & _)].
        -- rewrite H0, Hm in *. simplify_eq. done.
        -- rewrite Hm in Hms. simplify_eq. apply elapsed_at_next. lia.
    + split; [congruence| |].
      * rewrite sends_app. apply Forall_app. split; [done|]. constructor.
      * right. rewrite existsb_app, orb_true_r, sends_app, length_app. simpl.
        destruct Hw as [[H0 Hm]|(H1 & Hm & _)]; [unfold STUN_RTO_MAX in *; lia|].
        rewrite Hm in Hms. rewrite Htr in *. simplify_eq.
        change (elapsed_at STUN_RTO_MAX) with 31500 in *.
        change (STUN_RTO_INTERVAL * 2 ^ (STUN_RTO_MAX - 1)) with 32000.
        split_and!; try done; lia.
  - rewrite Ht. split; [done..|]. by right.
Qed.

Lemma run_ok_received r es m now t log c :
  run_ok r es now t log -> t_step (Received m) (now, t, log) = c ->
  run_ok r (es ++ [Received m]) c.1.1 c.1.2 c.2.
Proof.
  intros [Hr Hs Hst] <-. simpl. destruct (readStun m t) as [t' sigs] eqn:E.
  assert (Z.of_nat (length (sends log)) <= STUN_RTO_MAX /\ now <= 63500) as [Hc Hn].
  { destruct Hst as [(Hw & _ & _ & -> & ->)|(_ & _ & ? & ?)]; [|done].
    apply waiting_tries in Hw. pose proof (elapsed_at_bound _ Hw). lia. }
  apply readStun_cases in E as [(-> & _ & Hr' & _ & Ht)|(-> & ->)]; simpl.
  - split; [congruence| |].
    + rewrite sends_app. apply Forall_app. split; [done|]. constructor.
    + right. rewrite existsb_app, orb_true_r, sends_app, app_nil_r. done.
  - rewrite app_nil_r. split; [done..|].
    rewrite elapsed_events_snoc, Z.add_0_r. done.
Qed.

Lemma run_is_ok uninit id r es :
  let '(now, t, log) := t_run es (newTransaction uninit id r) in run_ok r es now t log.
Proof.
  unfold t_run. induction es as [|e es IH] using rev_ind.
  - split; [done|constructor|]. left. split_and!; auto using waiting_new.
  - rewrite foldl_app. simpl. destruct (foldl _ _ es) as [[now t] log]. destruct e.
    + pose proof (run_ok_elapsed _ _ _ _ _ _ IH eq_refl) as H.
      by destruct (t_step _ _) as [[??]?].
    + pose proof (run_ok_received _ _ message _ _ _ _ IH eq_refl) as H.
      by destruct (t_step _ _) as [[??]?].
Qed.

(** ** Properties *)

(** without a response the request goes out seven times, after 0, 0.5, 1.5,
    3.5, 7.5, 15.5 and 31.5 seconds, and after 63.5 seconds the transaction
    finishes with the error response "Request timed out". *)
Theorem transaction_times_out (uninit : Z) (id : nat) (r : QXmppStunMessage) :
  let '(now, t, log) := t_run (replicate 8 Elapsed) (newTransaction uninit id r) in
  log = map (fun d => (d, WriteStun r)) [0; 500; 1500; 3500; 7500; 15500; 31500]
          ++ [(63500, Finished)] /\
  messageClass (m_response t) = MsgClass.Error /\
  errorPhrase (m_response t) = "Request timed out" /\ m_retryTimer t = None.
Proof. vm_compute. done. Qed.

(** whatever the timer and the peer do, a transaction sends only its request,
    at most seven times, within 63.5 seconds; it has either finished, and then
    its timer is off and it never sends again, or its timer is running; and
    eight time-outs finish it. *)
Theorem transaction_bounded (uninit : Z) (id : nat) (r : QXmppStunMessage)
    (es : list TransactionEvent) :
  let '(now, t, log) := t_run es (newTransaction uninit id r) in
  Forall (fun s => s.2 = WriteStun r) (sends log) /\
  Z.of_nat (length (sends log)) <= STUN_RTO_MAX /\ now <= 63500 /\
  (existsb is_finished log = true <-> m_retryTimer t = None) /\
  (8 <= elapsed_events es -> existsb is_finished log = true).
Proof.
  pose proof (run_is_ok uninit id r es) as H.
  destruct (t_run _ _) as [[now t] log].
  destruct H as [_ Hs [(Hw & Hf & He & Hc & Hn)|(Ht & Hf & Hc & Hn)]].
  - pose proof (waiting_tries t Hw) as Hb. pose proof (elapsed_at_bound _ Hb).
    destruct (waiting_active t Hw) as [ms Hms]. rewrite Hf, Hms.
    unfold STUN_RTO_MAX in *. split_and!; try done; lia.
  - rewrite Hf. split_and!; done.
Qed.
