(* ===== verification/TurnAllocation.v ===== *)
(** * The TURN client (src/src/base/QXmppStun.cpp, QXmppTurnAllocation)

    The allocation's state machine, its transactions, its channels and the
    demultiplexing of what the server sends. The signals and the datagrams it
    writes are appended to a log. Text encoding, the hashes, the random
    transaction ids ([randomId n] for the n-th object created) and
    uninitialised memory are arguments. *)
From S2P Require Import Prelude DataStream Utils StunMessage StunCodec QMap StunTransaction.

Module Turn.

Inductive AllocationState := UnconnectedState | ConnectingState | ConnectedState | ClosingState.

#[global] Instance AllocationState_eq_dec : EqDecision AllocationState.
Proof. solve_decision. Defined.

Definition Address : Type := QHostAddress * Z.

Inductive Output :=
| Connected
| Disconnected
| DatagramReceived (data : bytes) (host : QHostAddress) (port : Z)
| SocketWrite (datagram : bytes) (host : QHostAddress) (port : Z)
| Warning (message : string).

(** [m_timer] is the interval of the single-shot timer while it is active,
    [socketBound] whether the socket has left its unconnected state, [created]
    the number of transactions created so far. *)
Record QXmppTurnAllocation := mkTurn {
  socketBound : bool;
  m_timer : option Z;
  m_channelTimer : bool;
  m_password : string;
  m_username : string;
  m_relayedHost : QHostAddress;
  m_relayedPort : Z;
  m_turnHost : QHostAddress;
  m_turnPort : Z;
  m_channels : QMap Address;
  m_channelNumber : Z;
  m_lifetime : Z;
  m_key : bytes;
  m_realm : string;
  m_nonce : bytes;
  m_state : AllocationState;
  m_transactions : list QXmppStunTransaction;
  created : nat;
  log : list Output
}.

#[global] Instance eta_QXmppTurnAllocation : Eta QXmppTurnAllocation := fun a =>
  mkTurn (socketBound a) (m_timer a) (m_channelTimer a) (m_password a) (m_username a)
    (m_relayedHost a) (m_relayedPort a) (m_turnHost a) (m_turnPort a) (m_channels a)
    (m_channelNumber a) (m_lifetime a) (m_key a) (m_realm a) (m_nonce a) (m_state a)
    (m_transactions a) (created a) (log a).

Definition newTurnAllocation : QXmppTurnAllocation :=
  mkTurn false None false "" "" AddrNull 0 AddrNull 0 [] 0x4000 600 [] "" [] UnconnectedState
    [] 0 [].

Definition emit (o : Output) (a : QXmppTurnAllocation) : QXmppTurnAllocation :=
  a <| log ::= fun l => l ++ [o] |>.

Definition setPassword (password : string) (a : QXmppTurnAllocation) := a <| m_password := password |>.
Definition setUser (user : string) (a : QXmppTurnAllocation) := a <| m_username := user |>.
Definition setServer (host : QHostAddress) (port : Z) (a : QXmppTurnAllocation) :=
  a <| m_turnHost := host |> <| m_turnPort := port |>.

(** QTimer::start(int): QObject::startTimer refuses a negative interval, and
    the timer stays inactive. *)
Definition startTimer (ms : Z) : option Z := if ms <? 0 then None else Some ms.

(** [m_timer->start((m_lifetime - 60) * 1000)]: a quint32 product converted to int. *)
Definition scheduleRefresh (a : QXmppTurnAllocation) : QXmppTurnAllocation :=
  a <| m_timer := startTimer (i32 (u32 (u32 (m_lifetime a - 60) * 1000))) |>.

Definition setState (state : AllocationState) (a : QXmppTurnAllocation) : QXmppTurnAllocation :=
  if decide (state = m_state a) then a else
  let a := a <| m_state := state |> in
  match state with
  | ConnectedState => emit Connected a
  | UnconnectedState => emit Disconnected (a <| m_timer := None |>)
  | _ => a
  end.

Section Turn.
Variable toUtf8 : string -> bytes.
Variable fromUtf8 : bytes -> string.
Variable sha1 md5 : bytes -> bytes.
Variable junk : nat -> Z.
Variable uninit : Z.
Variable randomId : nat -> bytes.

(** [m_transactions << new QXmppStunTransaction(request, this)], with a fresh id
    set on the request. *)
Definition startTransaction (request : QXmppStunMessage) (a : QXmppTurnAllocation)
    : QXmppTurnAllocation :=
  a <| m_transactions ::= fun l => l ++
         [newTransaction uninit (created a) (setId (randomId (created a)) request)] |>
    <| created ::= S |>.

Definition newRequest (method : Z) : QXmppStunMessage :=
  setType (Z.lor method MsgClass.Request) (newStunMessage uninit).

Definition authenticate (a : QXmppTurnAllocation) (request : QXmppStunMessage) : QXmppStunMessage :=
  setUsername (m_username a) (setRealm (m_realm a) (setNonce (m_nonce a) request)).

(** [bound] is the result of [socket->bind()]. *)
Definition connectToHost (bound : bool) (a : QXmppTurnAllocation) : QXmppTurnAllocation :=
  if negb (bool_decide (m_state a = UnconnectedState)) then a else
  if negb (socketBound a) && negb bound then emit (Warning "Could not start listening for TURN") a
  else
    let a := a <| socketBound := true |> in
    setState ConnectingState (startTransaction
      (setRequestedTransport 0x11 (setLifetime (m_lifetime a) (newRequest Method.Allocate))) a).

Definition disconnectFromHost (a : QXmppTurnAllocation) : QXmppTurnAllocation :=
  let a := a <| m_channelTimer := false |> <| m_timer := None |>
             <| m_channels := [] |> <| m_transactions := [] |> in
  if decide (m_state a = ConnectedState) then
    setState ClosingState (startTransaction
      (setLifetime 0 (authenticate a (newRequest Method.Refresh))) a)
  else setState UnconnectedState a.

Definition refresh (a : QXmppTurnAllocation) : QXmppTurnAllocation :=
  startTransaction (authenticate a (newRequest Method.Refresh)) a.

Definition bindRequest (a : QXmppTurnAllocation) (channel : Z) (addr : Address) : QXmppStunMessage :=
  (setChannelNumber channel (authenticate a (newRequest Method.ChannelBind)))
    <| xorPeerHost := addr.1 |> <| xorPeerPort := addr.2 |>.

Definition refreshChannels (a : QXmppTurnAllocation) : QXmppTurnAllocation :=
  foldl (fun a c => startTransaction (bindRequest a c.1 c.2) a) a (m_channels a).

Definition writeStun (message : QXmppStunMessage) (a : QXmppTurnAllocation) : QXmppTurnAllocation :=
  emit (SocketWrite (StunMessage.encode toUtf8 sha1 message (m_key a) true)
          (m_turnHost a) (m_turnPort a)) a.

(** What the response of a transaction does, once it has left the list. *)
Definition handleReply (transaction : QXmppStunTransaction) (a : QXmppTurnAllocation)
    : QXmppTurnAllocation :=
  let reply := m_response transaction in
  let isError := messageClass reply =? MsgClass.Error in
  if isError && (errorCode reply =? 401) &&
     (negb (bool_decide (StunMessage.m_nonce reply = m_nonce a)) &&
      negb (bool_decide (StunMessage.m_realm reply = m_realm a)))
  then
    let a := a <| m_nonce := StunMessage.m_nonce reply |> <| m_realm := StunMessage.m_realm reply |> in
    let a := a <| m_key := md5 (toUtf8 (m_username a +:+ ":" +:+ m_realm a +:+ ":" +:+ m_password a)) |> in
    startTransaction (authenticate a (m_request transaction)) a
  else
  let method := messageMethod (m_request transaction) in
  let failed what := Warning (what +:+ " failed: " +:+ pretty (errorCode reply) +:+ " " +:+ errorPhrase reply) in
  if method =? Method.Allocate then
    if isError then setState UnconnectedState (emit (failed "Allocation") a)
    else if isNull (xorRelayedHost reply) ||
            negb (bool_decide (protocol (xorRelayedHost reply) = IPv4Protocol)) ||
            (xorRelayedPort reply =? 0)
    then setState UnconnectedState (emit (Warning "Allocation did not yield a valid relayed address") a)
    else
      let a := a <| m_relayedHost := xorRelayedHost reply |> <| m_relayedPort := xorRelayedPort reply |> in
      let a := a <| m_lifetime := StunMessage.m_lifetime reply |> in
      setState ConnectedState (scheduleRefresh a)
  else if method =? Method.ChannelBind then
    if isError then
      let a := emit (failed "ChannelBind") a in
      let a := a <| m_channels ::= qm_remove (StunMessage.m_channelNumber (m_request transaction)) |> in
      if StunMessage.is_empty (m_channels a) then a <| m_channelTimer := false |> else a
    else a
  else if method =? Method.Refresh then
    if isError then setState UnconnectedState (emit (failed "Refresh") a)
    else if decide (m_state a = ClosingState) then setState UnconnectedState a
    else scheduleRefresh (a <| m_lifetime := StunMessage.m_lifetime reply |>)
  else a.

(** The signal [finished] of a transaction of the list. *)
Definition transactionFinished (transaction : QXmppStunTransaction) (a : QXmppTurnAllocation)
    : QXmppTurnAllocation :=
  if negb (bool_decide (t_id transaction ∈ t_id <$> m_transactions a)) then a else
  handleReply transaction
    (a <| m_transactions ::= filter (fun t => t_id t <> t_id transaction) |>).

(** A transaction's signals are connected to [writeStun] and [transactionFinished];
    [t] is the transaction after the step that emitted them. *)
Definition replaceTransaction (t : QXmppStunTransaction) (l : list QXmppStunTransaction)
    : list QXmppStunTransaction :=
  map (fun t' => if decide (t_id t' = t_id t) then t else t') l.

Definition deliver (t : QXmppStunTransaction) (sigs : list TransactionSignal)
    (a : QXmppTurnAllocation) : QXmppTurnAllocation :=
  let a := a <| m_transactions ::= replaceTransaction t |> in
  foldl (fun a s => match s with
                    | WriteStun m => writeStun m a
                    | Finished => transactionFinished t a
                    end) a sigs.

Definition matches (message : QXmppStunMessage) (t : QXmppStunTransaction) : Prop :=
  m_id (m_request t) = m_id message /\ messageMethod (m_request t) = messageMethod message.
#[global] Instance matches_dec message t : Decision (matches message t).
Proof. unfold matches. apply _. Defined.

Definition handleStun (message : QXmppStunMessage) (a : QXmppTurnAllocation) : QXmppTurnAllocation :=
  match list_find (matches message) (m_transactions a) with
  | Some (_, t) => let '(t, sigs) := readStun message t in deliver t sigs a
  | None =>
      if (messageMethod message =? Method.Data) && (messageClass message =? MsgClass.Indication)
      then emit (DatagramReceived (m_data message) (xorPeerHost message) (xorPeerPort message)) a
      else emit (Warning "Unexpected TURN packet received.") a
  end.

Definition isChannelData (buffer : bytes) : bool :=
  (4 <=? len buffer) && (Z.land (default 0 (buffer !! 0%nat)) 0xc0 =? 0x40).

Definition handleChannelData (buffer : bytes) (a : QXmppTurnAllocation) : QXmppTurnAllocation :=
  let '(channel, s) := readUInt 2 (open_stream buffer) in
  let '(length, s) := readUInt 2 s in
  match qm_value channel (m_channels a) with
  | Some (host, port) =>
      if bool_decide (m_state a = ConnectedState) && (length <=? len buffer - 4)
      then emit (DatagramReceived (left length (mid 4 buffer)) host port) a else a
  | None => a
  end.

(** [decode] has enough fuel by [decode_total]: its [None] does not occur. *)
Definition handleDatagram (buffer : bytes) (a : QXmppTurnAllocation) : QXmppTurnAllocation :=
  if isChannelData buffer then handleChannelData buffer a else
  match StunMessage.decode fromUtf8 sha1 junk (newStunMessage uninit) buffer [] with
  | Some (true, message, _) => handleStun message a
  | Some (false, _, errors) => foldl (fun a e => emit (Warning e) a) a errors
  | None => a
  end.

Definition channelFrame (channel : Z) (data : bytes) : bytes :=
  w16 channel ++ w16 (len data) ++ data.

(** The result, [wrote] being what the socket's writeDatagram returned. *)
Definition writeDatagram (data : bytes) (host : QHostAddress) (port : Z) (wrote : Z)
    (a : QXmppTurnAllocation) : Z * QXmppTurnAllocation :=
  if negb (bool_decide (m_state a = ConnectedState)) then (-1, a) else
  let channel := qm_key (host, port) (m_channels a) in
  let '(channel, a) :=
    if channel =? 0 then
      let channel := m_channelNumber a in
      let a := a <| m_channelNumber := u16 (channel + 1) |>
                 <| m_channels ::= qm_insert channel (host, port) |> in
      let a := startTransaction (bindRequest a channel (host, port)) a in
      (channel, a <| m_channelTimer := true |>)
    else (channel, a) in
  let channelData := channelFrame channel data in
  (if wrote =? len channelData then len data else -1,
   emit (SocketWrite channelData (m_turnHost a) (m_turnPort a)) a).

(** ** Runs

    What can happen to an allocation. A timer event does nothing when the timer
    is not active; [Datagram] is one turn of the loop of [readyRead]. *)
Inductive Event :=
| Connect (bound : bool)
| Disconnect
| Datagram (buffer : bytes)
| TransactionTimer (id : nat)
| RefreshTimer
| ChannelTimer
| Write (data : bytes) (host : QHostAddress) (port : Z) (wrote : Z)
| Password (password : string)
| User (user : string)
| Server (host : QHostAddress) (port : Z).

Definition step (e : Event) (a : QXmppTurnAllocation) : QXmppTurnAllocation :=
  match e with
  | Connect bound => connectToHost bound a
  | Disconnect => disconnectFromHost a
  | Datagram buffer => handleDatagram buffer a
  | TransactionTimer id =>
      match list_find (fun t => t_id t = id /\ is_Some (m_retryTimer t)) (m_transactions a) with
      | Some (_, t) => let '(t, sigs) := retry t in deliver t sigs a
      | None => a
      end
  | RefreshTimer =>
      match m_timer a with Some _ => refresh (a <| m_timer := None |>) | None => a end
  | ChannelTimer => if m_channelTimer a then refreshChannels a else a
  | Write data host port wrote => (writeDatagram data host port wrote a).2
  | Password p => setPassword p a
  | User u => setUser u a
  | Server host port => setServer host port a
  end.

Definition run (es : list Event) (a : QXmppTurnAllocation) : QXmppTurnAllocation :=
  foldl (fun a e => step e a) a es.

(** ** The state machine *)

(** The methods of the outstanding transactions that decide the state. *)
Definition control (method : Z) : Prop := method = Method.Allocate \/ method = Method.Refresh.
#[global] Instance control_dec m : Decision (control m).
Proof. unfold control. apply _. Defined.

Definition t_method (t : QXmppStunTransaction) : Z := messageMethod (m_request t).
Definition controls (l : list QXmppStunTransaction) : list Z := filter control (t_method <$> l).
#[local] Arguments controls : simpl never.
#[local] Arguments t_method : simpl never.

(** Which transactions are under way in which state: exactly one while
    connecting or closing, none when unconnected, and at most one of "refresh
    under way" and "refresh scheduled" when connected. *)
Definition state_ok (st : AllocationState) (cs : list Z) (timer : option Z) : Prop :=
  match st with
  | UnconnectedState => cs = [] /\ timer = None
  | ConnectingState => cs = [Method.Allocate] /\ timer = None
  | ClosingState => cs = [Method.Refresh] /\ timer = None
  | ConnectedState => cs = [] \/ (cs = [Method.Refresh] /\ timer = None)
  end.

Definition relayed_ok (a : QXmppTurnAllocation) : Prop :=
  m_state a = ConnectedState -> protocol (m_relayedHost a) = IPv4Protocol /\ m_relayedPort a <> 0.

(** A transaction of the list is still waiting and has no response yet. *)
Definition pending (t : QXmppStunTransaction) : Prop :=
  waiting t /\ m_response t = newStunMessage uninit.

Record turn_ok (a : QXmppTurnAllocation) : Prop := {
  to_ids : NoDup (t_id <$> m_transactions a);
  to_created : Forall (fun t => (t_id t < created a)%nat) (m_transactions a);
  to_pending : Forall pending (m_transactions a);
  to_state : state_ok (m_state a) (controls (m_transactions a)) (m_timer a);
  to_relayed : relayed_ok a
}.

(** Two states agree on what [turn_ok] looks at. *)
Definition same_core (a b : QXmppTurnAllocation) : Prop :=
  m_transactions a = m_transactions b /\ created a = created b /\ m_state a = m_state b /\
  m_timer a = m_timer b /\ m_relayedHost a = m_relayedHost b /\ m_relayedPort a = m_relayedPort b.

Lemma turn_ok_core a b : same_core a b -> turn_ok b -> turn_ok a.
Proof.
  intros (E1 & E2 & E3 & E4 & E5 & E6) [].
  split; unfold relayed_ok in *; by rewrite ?E1, ?E2, ?E3, ?E4, ?E5, ?E6.
Qed.

Lemma turn_ok_emit o a : turn_ok a -> turn_ok (emit o a).
Proof. by apply turn_ok_core. Qed.

Lemma controls_app l k : controls (l ++ k) = controls l ++ controls k.
Proof. unfold controls. by rewrite fmap_app, filter_app. Qed.

Lemma controls_one t : controls [t] = if decide (control (t_method t)) then [t_method t] else [].
Proof. unfold controls. simpl. by rewrite filter_cons, filter_nil. Qed.

Lemma pending_new id r : pending (newTransaction uninit id r).
Proof. split; [apply waiting_new|done]. Qed.

(** Starting a transaction keeps the lists well-formed; the state is checked
    against the new list. *)
Lemma start_ok r a :
  NoDup (t_id <$> m_transactions a) ->
  Forall (fun t => (t_id t < created a)%nat) (m_transactions a) ->
  Forall pending (m_transactions a) -> relayed_ok a ->
  state_ok (m_state a) (controls (m_transactions a) ++
    (if decide (control (messageMethod r)) then [messageMethod r] else [])) (m_timer a) ->
  turn_ok (startTransaction r a).
Proof.
  intros Hn Hc Hp Hr Hs. split; cbn.
  - rewrite fmap_app. apply NoDup_app. split_and!; [done| |apply NoDup_singleton].
    intros i Hi. rewrite Forall_forall in Hc. apply list_elem_of_fmap in Hi as (t & -> & Ht).
    apply Hc in Ht. intros Hin%list_elem_of_singleton. cbn in Hin. lia.
  - apply Forall_app. split; [|repeat constructor; cbn; lia].
    eapply Forall_impl; [exact Hc|]. cbn. lia.
  - apply Forall_app. split; [done|]. constructor; [apply pending_new|done].
  - rewrite controls_app, controls_one. exact Hs.
  - exact Hr.
Qed.

(** Moving to the unconnected state once no control transaction is left. *)
Lemma setState_unconnected_ok a :
  NoDup (t_id <$> m_transactions a) ->
  Forall (fun t => (t_id t < created a)%nat) (m_transactions a) ->
  Forall pending (m_transactions a) -> controls (m_transactions a) = [] ->
  (m_state a = UnconnectedState -> m_timer a = None) ->
  turn_ok (setState UnconnectedState a).
Proof.
  intros Hn Hc Hp H0 Ht. unfold setState. case_decide as E.
  - split; [done..| |intros ?; congruence]. rewrite <-E, H0. split; auto.
  - split; cbn; [done..|by rewrite H0|by intros ?].
Qed.

(** What [handleReply] may assume of a transaction that has just left the list. *)
Definition left_list (t : QXmppStunTransaction) (a : QXmppTurnAllocation) : Prop :=
  NoDup (t_id <$> m_transactions a) /\
  Forall (fun t => (t_id t < created a)%nat) (m_transactions a) /\
  Forall pending (m_transactions a) /\ relayed_ok a /\
  if decide (control (t_method t))
  then controls (m_transactions a) = [] /\ state_ok (m_state a) [t_method t] (m_timer a)
  else state_ok (m_state a) (controls (m_transactions a)) (m_timer a).

Lemma control_retry t a :
  messageMethod (authenticate a (m_request t)) = t_method t.
Proof. done. Qed.

(** The outermost test of a handler. *)
Ltac outer_if :=
  match goal with
  | |- turn_ok (if ?b then _ else _) => destruct b eqn:?
  | |- turn_ok (match ?o with Some _ => _ | None => _ end) => destruct o eqn:?
  end.

Lemma handleReply_ok t a : left_list t a -> turn_ok (handleReply t a).
Proof.
  intros (Hn & Hc & Hp & Hr & Hs). unfold handleReply. cbv zeta. outer_if.
  { apply start_ok; [done..|]. cbn [m_state m_transactions m_timer upd].
    rewrite control_retry. destruct (decide (control (t_method t))) as [Hm|Hm].
    - destruct Hs as [H0 Hs]. cbn. by rewrite H0.
    - rewrite app_nil_r. done. }
  fold (t_method t). clear Heqb.
  destruct (Z.eqb_spec (t_method t) Method.Allocate) as [Em|Em].
  { rewrite decide_True in Hs by by left. destruct Hs as [H0 Hs]. rewrite Em in Hs.
    assert (m_state a = ConnectingState /\ m_timer a = None) as [Est Ht].
    { destruct (m_state a); cbn in Hs; destruct Hs as [Hs ?] || destruct Hs as [Hs|[Hs ?]]; done. }
    outer_if; [by apply setState_unconnected_ok|].
    outer_if; [by apply setState_unconnected_ok|].
    bools. unfold setState, scheduleRefresh. cbn. rewrite Est. cbn.
    split; cbn; [done..|by left|]. intros _. cbn. done. }
  destruct (Z.eqb_spec (t_method t) Method.ChannelBind) as [Ec|Ec].
  { rewrite decide_False in Hs by (rewrite Ec; intros [|]; done).
    assert (turn_ok a) by by split.
    repeat outer_if; try done; by apply (turn_ok_core _ a). }
  destruct (Z.eqb_spec (t_method t) Method.Refresh) as [Er|Er].
  { rewrite decide_True in Hs by by right. destruct Hs as [H0 Hs]. rewrite Er in Hs.
    outer_if.
    { apply setState_unconnected_ok; try done. cbn. intros E. rewrite E in Hs. by destruct Hs. }
    outer_if.
    { apply setState_unconnected_ok; try done. intros. congruence. }
    destruct (m_state a) eqn:Est; try (by destruct Hs). 
    split; cbn; [done..| |]. { rewrite Est, H0. by left. } { intros ?. cbn in *. by apply Hr. } }
  rewrite decide_False in Hs by (intros [|]; done). by split.
Qed.

(** The list operations on a transaction whose id is unique. *)
Lemma ids_split l1 t l2 : NoDup (t_id <$> (l1 ++ t :: l2)) ->
  Forall (fun t' => t_id t' <> t_id t) l1 /\ Forall (fun t' => t_id t' <> t_id t) l2 /\
  NoDup (t_id <$> (l1 ++ l2)).
Proof.
  rewrite fmap_app, fmap_cons, NoDup_app, NoDup_cons. intros (H1 & H2 & H3 & H4).
  split_and!.
  - apply Forall_forall. intros t' Ht E. apply (H2 (t_id t')).
    + by apply list_elem_of_fmap_2.
    + rewrite E. by left.
  - apply Forall_forall. intros t' Ht E. apply H3. rewrite <-E. by apply list_elem_of_fmap_2.
  - rewrite fmap_app. apply NoDup_app. split_and!; try done. intros i Hi Hi2. apply (H2 i Hi). by right.
Qed.

Lemma replace_split l1 t0 l2 t :
  NoDup (t_id <$> (l1 ++ t0 :: l2)) -> t_id t = t_id t0 ->
  replaceTransaction t (l1 ++ t0 :: l2) = l1 ++ t :: l2.
Proof.
  intros (H1 & H2 & _)%ids_split E. unfold replaceTransaction. rewrite map_app. simpl.
  rewrite decide_True by done.
  assert (forall l, Forall (fun t' => t_id t' <> t_id t0) l ->
    map (fun t' => if decide (t_id t' = t_id t) then t else t') l = l) as Hid.
  { induction 1; simpl; [done|]. rewrite decide_False by congruence. congruence. }
  by rewrite !Hid.
Qed.

Lemma remove_split l1 t l2 :
  NoDup (t_id <$> (l1 ++ t :: l2)) ->
  filter (fun t' => t_id t' <> t_id t) (l1 ++ t :: l2) = l1 ++ l2.
Proof.
  intros (H1 & H2 & _)%ids_split. rewrite filter_app, filter_cons_False by (intros []; done).
  by rewrite !filter_all.
Qed.

(** The control transactions when one of the list leaves it. *)
Lemma controls_leave st timer l1 t l2 :
  state_ok st (controls (l1 ++ t :: l2)) timer ->
  if decide (control (t_method t))
  then controls (l1 ++ l2) = [] /\ state_ok st [t_method t] timer
  else state_ok st (controls (l1 ++ l2)) timer.
Proof.
  rewrite (controls_app l1 (t :: l2)), (controls_app l1 l2).
  change (t :: l2) with ([t] ++ l2). rewrite controls_app, controls_one. case_decide as Hc; [|done].
  intros Hs.
  assert (controls l1 = [] /\ controls l2 = []) as [E1 E2];
    [|by rewrite E1, E2 in *].
  assert (length (controls l1 ++ [t_method t] ++ controls l2) <= 1)%nat as Hl.
  { destruct st; cbn [state_ok] in Hs; [destruct Hs as [-> _]|destruct Hs as [-> _]|
      destruct Hs as [->|[-> _]]|destruct Hs as [-> _]]; simpl; lia. }
  rewrite !length_app in Hl. simpl in Hl.
  split; apply length_zero_iff_nil; lia.
Qed.

Lemma controls_request l1 t0 l2 t :
  m_request t = m_request t0 -> controls (l1 ++ t :: l2) = controls (l1 ++ t0 :: l2).
Proof.
  intros E. unfold controls. rewrite !fmap_app, !fmap_cons.
  assert (t_method t = t_method t0) as -> by (unfold t_method; by rewrite E). done.
Qed.

Section Deliver.
Context (a : QXmppTurnAllocation) (l1 : list QXmppStunTransaction) (t0 : QXmppStunTransaction)
  (l2 : list QXmppStunTransaction) (t : QXmppStunTransaction).
Hypothesis Hok : turn_ok a.
Hypothesis Hl : m_transactions a = l1 ++ t0 :: l2.
Hypothesis Hid : t_id t = t_id t0.
Hypothesis Hreq : m_request t = m_request t0.

Lemma replaced : m_transactions (a <| m_transactions ::= replaceTransaction t |>) = l1 ++ t :: l2.
Proof. destruct Hok as [Hn _ _ _ _]. rewrite Hl in Hn. cbn. rewrite Hl. by apply replace_split. Qed.

Lemma replaced_ids : NoDup (t_id <$> (l1 ++ t :: l2)).
Proof.
  destruct Hok as [Hn _ _ _ _]. rewrite Hl, fmap_app, fmap_cons in Hn.
  by rewrite fmap_app, fmap_cons, Hid.
Qed.

(** Delivering [finished]: the list loses the transaction, then its reply acts. *)
Lemma deliver_finished :
  deliver t [Finished] a = handleReply t (a <| m_transactions := l1 ++ l2 |>).
Proof.
  unfold deliver. cbn [foldl]. unfold transactionFinished. rewrite replaced.
  rewrite bool_decide_eq_true_2.
  2:{ rewrite fmap_app, fmap_cons. set_solver. }
  cbn [negb]. f_equal. unfold upd. cbv beta. f_equal.
  pose proof replaced as Hr. cbn in Hr. rewrite Hr. apply remove_split, replaced_ids.
Qed.

Lemma left_list_split : left_list t (a <| m_transactions := l1 ++ l2 |>).
Proof.
  destruct Hok as [Hn Hc Hp Hs Hr]. rewrite Hl in *.
  split_and!; cbn.
  - by apply ids_split in Hn as (_ & _ & ?).
  - apply Forall_app in Hc as [? Hc]. apply Forall_cons in Hc as [_ ?]. by apply Forall_app.
  - apply Forall_app in Hp as [? Hp]. apply Forall_cons in Hp as [_ ?]. by apply Forall_app.
  - exact Hr.
  - apply controls_leave. by rewrite (controls_request _ t0).
Qed.

Lemma deliver_finished_ok : turn_ok (deliver t [Finished] a).
Proof. rewrite deliver_finished. apply handleReply_ok, left_list_split. Qed.

Lemma deliver_write_ok m : pending t -> turn_ok (deliver t [WriteStun m] a).
Proof.
  intros Hpt. unfold deliver. cbn [foldl]. apply turn_ok_emit.
  destruct Hok as [Hn Hc Hp Hs Hr]. 
  split; rewrite ?replaced; try done; [apply replaced_ids| | |].
  - rewrite Hl in Hc. apply Forall_app in Hc as [? Hc]. apply Forall_cons in Hc as [? ?].
    cbn. apply Forall_app. split; [done|]. constructor; [congruence|done].
  - rewrite Hl in Hp. apply Forall_app in Hp as [? Hp]. apply Forall_cons in Hp as [? ?].
    apply Forall_app. by split; [|constructor].
  - rewrite Hl in Hs. cbn. by rewrite (controls_request _ t0).
Qed.
End Deliver.

(** *** Every event keeps the invariant *)

Lemma handleStun_ok m a : turn_ok a -> turn_ok (handleStun m a).
Proof.
  intros Hok. unfold handleStun. destruct (list_find _ _) as [[i t]|] eqn:Ef.
  - apply list_find_Some in Ef as (Hi & _ & _).
    apply list_elem_of_split_length in Hi as (l1 & l2 & Hl & _).
    destruct (readStun m t) as [t' sigs] eqn:Er.
    apply readStun_cases in Er as [(-> & _ & Hr & Hid & _)|(-> & ->)].
    + by eapply deliver_finished_ok.
    + apply (turn_ok_core _ a); [|done]. unfold deliver. cbn [foldl].
      split_and!; try done. rewrite (replaced a l1 t l2 t) by done. done.
  - outer_if; by apply turn_ok_emit.
Qed.

Lemma handleDatagram_ok buffer a : turn_ok a -> turn_ok (handleDatagram buffer a).
Proof.
  intros Hok. unfold handleDatagram. outer_if.
  - unfold handleChannelData. destruct (readUInt _ _) as [c s]. destruct (readUInt _ s) as [n s'].
    outer_if; [|done]. destruct a0 as [h p]. outer_if; [by apply turn_ok_emit|done].
  - destruct (StunMessage.decode _ _ _ _ _ _) as [[[[] m] errs]|]; [by apply handleStun_ok| |done].
    revert a Hok. induction errs as [|e errs IH]; intros a Hok; cbn [foldl]; [done|].
    apply IH. by apply turn_ok_emit.
Qed.

Lemma timer_ok id a : turn_ok a -> turn_ok (step (TransactionTimer id) a).
Proof.
  intros Hok. cbn [step]. destruct (list_find _ _) as [[i t]|] eqn:Ef; [|done].
  apply list_find_Some in Ef as (Hi & _ & _).
  apply list_elem_of_split_length in Hi as (l1 & l2 & Hl & _).
  assert (pending t) as [Hw Hresp].
  { destruct Hok as [_ _ Hp _ _]. rewrite Hl, Forall_app, Forall_cons in Hp. by destruct Hp as (_ & ? & _). }
  destruct (retry t) as [t' sigs] eqn:Er. pose proof Er as Er'.
  apply retry_waiting in Er as [(-> & Hw' & _ & Hr & Hid)|(-> & _ & Hr & Hid & _)]; [| |done].
  - eapply deliver_write_ok; try done. split; [done|].
    unfold retry in Er'. cbn in Er'. destruct (_ <=? _); by simplify_eq.
  - by eapply deliver_finished_ok.
Qed.

Lemma bind_ok a c addr : turn_ok a -> turn_ok (startTransaction (bindRequest a c addr) a).
Proof.
  intros []. apply start_ok; [done..|].
  change (messageMethod (bindRequest a c addr)) with Method.ChannelBind.
  by rewrite decide_False, app_nil_r by (intros [|]; done).
Qed.

Lemma refreshChannels_ok a : turn_ok a -> turn_ok (refreshChannels a).
Proof.
  unfold refreshChannels. generalize (m_channels a) as l. intros l. revert a.
  induction l as [|[c addr] l IH]; intros a Hok; [done|]. cbn [foldl]. by apply IH, bind_ok.
Qed.

Lemma writeDatagram_ok data host port wrote a :
  turn_ok a -> turn_ok (writeDatagram data host port wrote a).2.
Proof.
  intros Hok. unfold writeDatagram. case_bool_decide; cbn [negb]; [|done].
  destruct (qm_key _ _ =? 0); cbn [snd]; apply turn_ok_emit; [|done].
  match goal with |- turn_ok (?x <| m_channelTimer := _ |>) => apply (turn_ok_core _ x); [done|] end.
  apply (turn_ok_core _ (startTransaction (bindRequest a (m_channelNumber a) (host, port)) a)); [done|].
  by apply bind_ok.
Qed.

(** Starting a transaction and changing to a silent state commute. *)
Lemma setState_start st r a :
  m_state a <> st -> st = ConnectingState \/ st = ClosingState ->
  setState st (startTransaction r a) = startTransaction r (a <| m_state := st |>).
Proof.
  intros Hne Hst. unfold setState. rewrite decide_False by (intros ->; by apply Hne).
  by destruct Hst as [-> | ->].
Qed.

Lemma connectToHost_ok bound a : turn_ok a -> turn_ok (connectToHost bound a).
Proof.
  intros [Hn Hc Hp Hs Hr]. unfold connectToHost. case_bool_decide as Est; cbn [negb]; [|done].
  rewrite Est in Hs. destruct Hs as [H0 Ht].
  outer_if; [by apply turn_ok_emit; split; rewrite ?Est|].
  rewrite setState_start; [|cbn; by rewrite Est|by left].
  apply start_ok; cbn; [done..|]. by rewrite H0.
Qed.

Lemma disconnectFromHost_ok a : turn_ok a -> turn_ok (disconnectFromHost a).
Proof.
  intros Hok. unfold disconnectFromHost. cbv zeta.
  destruct (decide _) as [E|E].
  - rewrite setState_start; [|cbn in *; by rewrite E|by right].
    apply start_ok; cbn; try constructor; done.
  - apply setState_unconnected_ok; cbn; try constructor; done.
Qed.

Lemma refreshTimer_ok a : turn_ok a -> turn_ok (step RefreshTimer a).
Proof.
  intros [Hn Hc Hp Hs Hr]. cbn [step]. destruct (m_timer a) eqn:Ht; [|by split; rewrite ?Ht].
  apply start_ok; cbn; [done..|].
  destruct (m_state a) eqn:Est; cbn in Hs; [by destruct Hs..| |by destruct Hs].
  destruct Hs as [-> |[_ ?]]; [|done]. by right.
Qed.

Lemma step_ok e a : turn_ok a -> turn_ok (step e a).
Proof.
  intros Hok. destruct e.
  - by apply connectToHost_ok.
  - by apply disconnectFromHost_ok.
  - by apply handleDatagram_ok.
  - by apply timer_ok.
  - by apply refreshTimer_ok.
  - cbn [step]. outer_if; [by apply refreshChannels_ok|done].
  - by apply writeDatagram_ok.
  - by apply (turn_ok_core _ a).
  - by apply (turn_ok_core _ a).
  - by apply (turn_ok_core _ a).
Qed.

Lemma run_turn_ok es a : turn_ok a -> turn_ok (run es a).
Proof.
  revert a. induction es as [|e es IH]; intros a Hok; [done|]. cbn. apply IH. by apply step_ok.
Qed.

Lemma new_ok : turn_ok newTurnAllocation.
Proof. split; cbn; try constructor; done. Qed.

(** ** Channels *)

(** Every event but a write leaves the channels alone or removes some. *)
Definition shrinks (a b : QXmppTurnAllocation) : Prop :=
  m_channels a `sublist_of` m_channels b /\ m_channelNumber a = m_channelNumber b.

#[local] Instance shrinks_preorder : PreOrder shrinks.
Proof.
  split; [by split|]. intros a b c [H1 E1] [H2 E2]. split; [by etrans|congruence].
Qed.

Lemma shrinks_same a b :
  m_channels a = m_channels b -> m_channelNumber a = m_channelNumber b -> shrinks a b.
Proof. intros E ?. split; [by rewrite E|done]. Qed.

Lemma setState_shrinks st a b : shrinks a b -> shrinks (setState st a) b.
Proof. intros [? ?]. unfold setState. case_decide; [done|]. by destruct st. Qed.

Ltac shrink_if :=
  match goal with
  | |- shrinks (if ?b then _ else _) _ => destruct b eqn:?
  | |- shrinks (match ?o with Some _ => _ | None => _ end) _ => destruct o eqn:?
  end.

Lemma handleReply_shrinks t a : shrinks (handleReply t a) a.
Proof.
  unfold handleReply. cbv zeta. repeat shrink_if; try done; try apply setState_shrinks; try done.
  all: split; cbn; [apply qm_remove_sublist|done].
Qed.

Lemma deliver_shrinks t sigs a : shrinks (deliver t sigs a) a.
Proof.
  unfold deliver.
  assert (shrinks (a <| m_transactions ::= replaceTransaction t |>) a) as H by done.
  revert H. generalize (a <| m_transactions ::= replaceTransaction t |>) as b. clear.
  induction sigs as [|[m|] sigs IH]; intros b Hb; cbn [foldl]; [done| |]; apply IH; [done|].
  unfold transactionFinished. shrink_if; [done|]. by etrans; [apply handleReply_shrinks|].
Qed.

Lemma handleDatagram_shrinks buffer a : shrinks (handleDatagram buffer a) a.
Proof.
  unfold handleDatagram. shrink_if.
  - unfold handleChannelData. destruct (readUInt _ _) as [c s]. destruct (readUInt _ s) as [n s'].
    shrink_if; [|done]. destruct a0 as [h p]. by shrink_if.
  - destruct (StunMessage.decode _ _ _ _ _ _) as [[[[] m] errs]|]; [| |done].
    + unfold handleStun. destruct (list_find _ _) as [[i t]|]; [|by shrink_if].
      destruct (readStun m t). apply deliver_shrinks.
    + assert (shrinks a a) as H by done. revert H. generalize a at 1 3 as b.
      induction errs as [|e errs IH]; intros b Hb; cbn [foldl]; [done|]. by apply IH.
Qed.

Lemma refreshChannels_shrinks a : shrinks (refreshChannels a) a.
Proof.
  unfold refreshChannels. assert (shrinks a a) as H by done. revert H.
  generalize (m_channels a) as l. intros l. generalize a at 1 3 as b.
  induction l as [|[c addr] l IH]; intros b Hb; cbn [foldl]; [done|]. by apply IH.
Qed.

Definition is_write (e : Event) : bool := match e with Write _ _ _ _ => true | _ => false end.

Lemma step_shrinks e a : is_write e = false -> shrinks (step e a) a.
Proof.
  destruct e; intros Hw; cbn [step]; try done.
  - unfold connectToHost. do 2 (shrink_if; [done|]). by apply setState_shrinks.
  - unfold disconnectFromHost. cbv zeta.
    shrink_if; apply setState_shrinks; split; try done; apply sublist_nil_l.
  - apply handleDatagram_shrinks.
  - destruct (list_find _ _) as [[i t]|]; [|done]. destruct (retry t). apply deliver_shrinks.
  - by shrink_if.
  - shrink_if; [apply refreshChannels_shrinks|done].
Qed.

(** The channels after at most [n] writes: distinct numbers from 0x4000 up, in
    order, below the next number to be given out, one per peer. *)
Record channels_ok (n : Z) (a : QXmppTurnAllocation) : Prop := {
  ch_sorted : qm_ok (m_channels a);
  ch_peers : NoDup (m_channels a).*2;
  ch_range : Forall (fun c => 0x4000 <= c.1 < m_channelNumber a) (m_channels a);
  ch_next : 0x4000 <= m_channelNumber a <= 0x4000 + n
}.

Lemma channels_shrink n a b : channels_ok n b -> shrinks a b -> channels_ok n a.
Proof.
  intros [H1 H2 H3 H4] [Hs E]. split; rewrite ?E; [| | |done].
  - by eapply qm_ok_sublist.
  - eapply sublist_NoDup; [done|]. by apply fmap_sublist.
  - rewrite Forall_forall in *. intros c Hc. apply H3. by eapply elem_of_sublist.
Qed.

Lemma channels_insert n a addr :
  channels_ok n a -> n < 0xbfff -> qm_find addr (m_channels a) = None ->
  channels_ok (n + 1) (a <| m_channelNumber := u16 (m_channelNumber a + 1) |>
                         <| m_channels ::= qm_insert (m_channelNumber a) addr |>).
Proof.
  intros [H1 H2 H3 H4] Hn Hf.
  assert (u16 (m_channelNumber a + 1) = m_channelNumber a + 1) as E
    by (unfold u16; rewrite uwrap_small; lia).
  split; cbn.
  - by apply qm_insert_ok.
  - rewrite qm_insert_last by (eapply Forall_weaken; [exact H3|]; cbn; lia).
    rewrite fmap_app. apply NoDup_app. split_and!; [done| |apply NoDup_singleton].
    intros x ([k v] & -> & Hin)%list_elem_of_fmap Hx%list_elem_of_singleton. cbn in Hx. subst.
    by eapply qm_find_None.
  - rewrite qm_insert_last by (eapply Forall_weaken; [exact H3|]; cbn; lia).
    rewrite E. apply Forall_app. split; [eapply Forall_weaken; [exact H3|]; cbn; lia|].
    constructor; [cbn; lia|done].
  - rewrite E. lia.
Qed.

(** The channel [writeDatagram] uses: the peer's, or the next number. *)
Definition channelFor (host : QHostAddress) (port : Z) (a : QXmppTurnAllocation) : Z :=
  match qm_find (host, port) (m_channels a) with Some c => c | None => m_channelNumber a end.

Lemma write_channel n data host port wrote a :
  channels_ok n a -> n < 0xbfff -> m_state a = ConnectedState ->
  let b := (writeDatagram data host port wrote a).2 in
  channels_ok (n + 1) b /\ m_state b = ConnectedState /\
  0x4000 <= channelFor host port a <= 0x4000 + n /\
  qm_value (channelFor host port a) (m_channels b) = Some (host, port) /\
  log b = log a ++ [SocketWrite (channelFrame (channelFor host port a) data)
                      (m_turnHost a) (m_turnPort a)].
Proof.
  intros Hch Hn Hst. cbv zeta. unfold writeDatagram, channelFor. rewrite bool_decide_eq_true_2 by done.
  cbn [negb]. unfold qm_key. destruct (qm_find _ _) as [c|] eqn:Ef; cbv zeta; cbn [from_option id].
  - pose proof (qm_find_elem _ _ _ Ef) as Hin.
    pose proof (proj1 (Forall_forall _ _) (ch_range _ _ Hch) _ Hin) as Hr. cbn in Hr.
    pose proof (ch_next _ _ Hch). rewrite (proj2 (Z.eqb_neq c 0)) by lia. cbn.
    split_and!; try done; try lia.
    + destruct Hch as [? ? ? ?]. split; cbn; try done. lia.
    + apply qm_find_value; [|done]. by destruct Hch.
  - cbn. pose proof (ch_next _ _ Hch). split_and!; try done; try lia.
    + destruct (channels_insert n a (host, port) Hch Hn Ef) as [? ? ? ?]. by split.
    + apply qm_value_insert.
Qed.

Definition writes (es : list Event) : Z := len (filter is_write es).

(** Whether an event binds a new channel, and how many are bound in a run. *)
Definition binds_new (e : Event) (a : QXmppTurnAllocation) : bool :=
  match e with
  | Write _ host port _ =>
      bool_decide (m_state a = ConnectedState) && (qm_key (host, port) (m_channels a) =? 0)
  | _ => false
  end.
Fixpoint bindings (es : list Event) (a : QXmppTurnAllocation) : Z :=
  match es with [] => 0 | e :: es => (if binds_new e a then 1 else 0) + bindings es (step e a) end.
Lemma bindings_snoc es e a : bindings (es ++ [e]) a = bindings es a + (if binds_new e (run es a) then 1 else 0).
Proof. revert a. induction es as [|e' es IH]; intros a; cbn; [lia|]. rewrite IH. unfold run. cbn. lia. Qed.

Lemma write_bound n data host port wrote a : channels_ok n a -> binds_new (Write data host port wrote) a = false ->
  channels_ok n (writeDatagram data host port wrote a).2.
Proof.
  intros Hch Hb. unfold writeDatagram. unfold binds_new in Hb. case_bool_decide as Hst; [|exact Hch].
  cbn [negb]. cbn [andb] in Hb. rewrite Hb. destruct Hch as [? ? ? ?]. split; done.
Qed.
Lemma run_channels_ok es : bindings es newTurnAllocation <= 0xbfff ->
  channels_ok (bindings es newTurnAllocation) (run es newTurnAllocation).
Proof.
  induction es as [|e es IH] using rev_ind; intros Hw.
  - split; [apply qm_ok_nil|constructor|constructor|by vm_compute].
  - rewrite bindings_snoc in *. unfold run. rewrite foldl_app. cbn [foldl]. fold (run es newTurnAllocation).
    destruct (is_write e) eqn:Ee.
    + destruct e; try done. destruct (binds_new _ (run es newTurnAllocation)) eqn:Hb; cbn [step].
      * specialize (IH ltac:(lia)). apply write_channel; [exact IH|lia|].
        unfold binds_new in Hb. apply andb_true_iff in Hb as [Hc _]. by apply bool_decide_eq_true in Hc.
      * rewrite Z.add_0_r in *. apply write_bound; [by apply IH|exact Hb].
    + assert (binds_new e (run es newTurnAllocation) = false) as Hb by by destruct e.
      rewrite Hb in *. rewrite Z.add_0_r in *. eapply channels_shrink; [by apply IH|by apply step_shrinks].
Qed.

Lemma channel_byte h : 64 <= h < 128 -> Z.land h 0xc0 = 0x40.
Proof.
  intros Hh. assert (Forall (fun h => Z.land h 0xc0 = 0x40) (seqZ 64 64)) as H
    by (apply (bool_decide_unpack _); vm_compute; exact I).
  rewrite Forall_forall in H. apply H, elem_of_seqZ. lia.
Qed.

(** A channel-data frame of a bound channel is delivered as the peer's data. *)
Lemma handle_frame c data host port a :
  m_state a = ConnectedState -> 0x4000 <= c < 0x8000 -> len data < 65536 ->
  qm_value c (m_channels a) = Some (host, port) ->
  handleDatagram (channelFrame c data) a = emit (DatagramReceived data host port) a.
Proof.
  intros Hst Hc Hl Hv. pose proof (len_nonneg data).
  assert (4 + len data = len (channelFrame c data)) as HL.
  { unfold channelFrame, w16. rewrite !len_app, !len_be. lia. }
  unfold handleDatagram. assert (isChannelData (channelFrame c data) = true) as ->.
  { unfold isChannelData. rewrite (proj2 (Z.leb_le _ _)) by lia.
    change (channelFrame c data !! 0%nat) with (Some ((c / 256 ^ 1) mod 256)); change (256 ^ 1) with 256. cbn [default andb].
    rewrite Z.mod_small, channel_byte; [done| |].
    - split; [apply Z.div_le_lower_bound|apply Z.div_lt_upper_bound]; lia.
    - split; [apply Z.div_pos|apply Z.div_lt_upper_bound]; lia. }
  unfold handleChannelData, open_stream, channelFrame at 1, w16.
  rewrite readUInt_app by (change (256 ^ Z.of_nat 2) with 65536; lia).
  rewrite readUInt_app by (change (256 ^ Z.of_nat 2) with 65536; lia).
  rewrite Hv, bool_decide_eq_true_2, (proj2 (Z.leb_le _ _)) by (done || lia). cbn [andb].
  assert (mid 4 (channelFrame c data) = data) as ->.
  { unfold channelFrame. rewrite app_assoc. apply mid_app.
    rewrite len_app. unfold w16. rewrite !len_be. done. }
  by rewrite left_all by lia.
Qed.

(** ** Time-outs *)

(** A control transaction that fails without a 401 ends in the unconnected state. *)
Lemma handleReply_fails t a :
  control (t_method t) -> messageClass (m_response t) = MsgClass.Error ->
  errorCode (m_response t) <> 401 -> m_state a <> UnconnectedState ->
  m_state (handleReply t a) = UnconnectedState /\ last (log (handleReply t a)) = Some Disconnected.
Proof.
  intros Hm Hc He Hs. unfold handleReply. cbv zeta. rewrite Hc, Z.eqb_refl.
  rewrite (proj2 (Z.eqb_neq _ _) He). cbn [andb]. fold (t_method t).
  assert (forall o, m_state (setState UnconnectedState (emit o a)) = UnconnectedState /\
    last (log (setState UnconnectedState (emit o a))) = Some Disconnected) as H.
  { intros o. unfold setState. rewrite decide_False by (cbn; congruence).
    split; [done|]. cbn. by rewrite last_snoc. }
  destruct Hm as [-> | ->]; cbn; apply H.
Qed.

Lemma transaction_timer id t a :
  turn_ok a -> t ∈ m_transactions a -> t_id t = id ->
  step (TransactionTimer id) a = let '(t', sigs) := retry t in deliver t' sigs a.
Proof.
  intros Hok Hin Hid. cbn [step]. destruct Hok as [Hn _ Hp _ _].
  apply list_elem_of_split in Hin as (l1 & l2 & Hl). rewrite Hl in *.
  pose proof Hn as (H1 & _ & _)%ids_split.
  assert (is_Some (m_retryTimer t)) as Hact.
  { apply Forall_app in Hp as [_ Hp]. apply Forall_cons in Hp as [[Hw _] _].
    destruct (waiting_active t Hw) as [ms ->]. by eexists. }
  destruct (list_find _ _) as [[i t']|] eqn:Ef.
  - apply list_find_Some in Ef as (Hi & [Hid' _] & _).
    assert (t' = t) as ->; [|done].
    apply list_elem_of_lookup_2 in Hi. apply elem_of_app in Hi as [Hi|Hi].
    + rewrite Forall_forall in H1. by destruct (H1 t' Hi); congruence.
    + apply elem_of_cons in Hi as [->|Hi]; [done|]. apply ids_split in Hn as (_ & H2 & _).
      rewrite Forall_forall in H2. by destruct (H2 t' Hi); congruence.
  - apply list_find_None in Ef. apply Forall_app in Ef as [_ Ef]. apply Forall_cons in Ef as [Ef _].
    by destruct Ef.
Qed.

Lemma times_out k t a :
  turn_ok a -> m_state a <> UnconnectedState -> t ∈ m_transactions a -> control (t_method t) ->
  m_tries t = STUN_RTO_MAX - Z.of_nat k ->
  exists n, (n <= S k)%nat /\
    let b := run (replicate n (TransactionTimer (t_id t))) a in
    m_state b = UnconnectedState /\ last (log b) = Some Disconnected.
Proof.
  revert t a. induction k as [|k IH]; intros t a Hok Hst Hin Hm Ht;
    pose proof (transaction_timer _ t a Hok Hin eq_refl) as Hstep;
    pose proof (to_pending _ Hok) as Hp; rewrite Forall_forall in Hp;
    destruct (Hp t Hin) as [Hw Hresp];
    apply list_elem_of_split in Hin as (l1 & l2 & Hl);
    destruct (retry t) as [t' sigs] eqn:Er; pose proof Er as Er';
    apply retry_waiting in Er as [(-> & Hw' & Htr & Hr & Hid)|(-> & Htr & Hr & Hid & Hcl & _)]; try done.
  - apply waiting_tries in Hw'. lia.
  - exists 1%nat. split; [lia|]. cbn [replicate run foldl]. rewrite Hstep.
    rewrite (deliver_finished a l1 t l2) by done. apply handleReply_fails; try done.
    + unfold t_method. by rewrite Hr.
    + unfold retry in Er'. cbn in Er'. destruct (_ <=? _); simplify_eq. cbn. by rewrite Hresp.
  - destruct (IH t' (deliver t' [WriteStun (m_request t)] a)) as (n & Hn & Hrun).
    + rewrite <-Hstep. by apply timer_ok.
    + done.
    + unfold deliver. cbn [foldl]. unfold writeStun, emit. cbn [m_transactions upd].
      change (t' ∈ m_transactions (a <| m_transactions ::= replaceTransaction t' |>)).
      rewrite (replaced a l1 t l2 t') by done. set_solver.
    + unfold t_method. by rewrite Hr.
    + rewrite Htr, Ht. lia.
    + exists (S n). split; [lia|]. cbn [replicate run foldl]. rewrite Hstep, <-Hid. exact Hrun.
  - lia.
Qed.
End Turn.
End Turn.

(** ** Properties *)

(** C10: in every state an allocation can reach, the state tells which control
    transaction is under way: an Allocate while connecting, a Refresh while
    closing, none and no refresh timer when unconnected, and when connected at
    most one of a Refresh under way and a scheduled one; a connected allocation
    has a relayed IPv4 address and port; and every transaction of the list is
    still waiting for its response. *)
Theorem turn_state_invariant (toUtf8 : string -> bytes) (fromUtf8 : bytes -> string)
    (sha1 md5 : bytes -> bytes) (junk : nat -> Z) (uninit : Z) (randomId : nat -> bytes)
    (es : list Turn.Event) :
  let a := Turn.run toUtf8 fromUtf8 sha1 md5 junk uninit randomId es Turn.newTurnAllocation in
  Turn.state_ok (Turn.m_state a) (Turn.controls (Turn.m_transactions a)) (Turn.m_timer a) /\
  Turn.relayed_ok a /\ Forall (Turn.pending uninit) (Turn.m_transactions a).
Proof.
  intros a.
  destruct (Turn.run_turn_ok toUtf8 fromUtf8 sha1 md5 junk uninit randomId es _ (Turn.new_ok uninit)).
  done.
Qed.

(** C30: an allocation that is connecting or closing cannot get stuck: if the
    server stays silent, at most eight time-outs of one of its transactions
    take it to the unconnected state, and it says so. *)
Theorem turn_resolves (toUtf8 : string -> bytes) (fromUtf8 : bytes -> string)
    (sha1 md5 : bytes -> bytes) (junk : nat -> Z) (uninit : Z) (randomId : nat -> bytes)
    (es : list Turn.Event) :
  let step_all := Turn.run toUtf8 fromUtf8 sha1 md5 junk uninit randomId in
  let a := step_all es Turn.newTurnAllocation in
  Turn.m_state a = Turn.ConnectingState \/ Turn.m_state a = Turn.ClosingState ->
  exists id n, (n <= 8)%nat /\
    let b := step_all (replicate n (Turn.TransactionTimer id)) a in
    Turn.m_state b = Turn.UnconnectedState /\ last (Turn.log b) = Some Turn.Disconnected.
Proof.
  intros step_all a Hst.
  pose proof (Turn.run_turn_ok toUtf8 fromUtf8 sha1 md5 junk uninit randomId es _
    (Turn.new_ok uninit)) as Hok. change (Turn.turn_ok uninit a) in Hok. clearbody a.
  assert (exists t, t ∈ Turn.m_transactions a /\ Turn.control (Turn.t_method t)) as (t & Hin & Hm).
  { pose proof (Turn.to_state _ _ Hok) as Hs.
    assert (exists m, m ∈ Turn.controls (Turn.m_transactions a)) as [m Hm].
    { destruct Hst as [E|E]; rewrite E in Hs; destruct Hs as [-> _]; eexists; by left. }
    unfold Turn.controls in Hm. apply list_elem_of_filter in Hm as [Hc Hm].
    apply list_elem_of_fmap in Hm as (t & -> & Ht). by exists t. }
  pose proof (Turn.to_pending _ _ Hok) as Hp. rewrite Forall_forall in Hp.
  destruct (Hp t Hin) as [Hw _]. apply waiting_tries in Hw.
  destruct (Turn.times_out toUtf8 fromUtf8 sha1 md5 junk uninit randomId
    (Z.to_nat (STUN_RTO_MAX - m_tries t)) t a) as (n & Hn & Hrun); try done.
  - intros E. by destruct Hst as [H|H]; rewrite E in H.
  - unfold STUN_RTO_MAX in *. lia.
  - exists (t_id t), n. split; [unfold STUN_RTO_MAX in *; lia|exact Hrun].
Qed.

(** C35: data of fewer than 65536 bytes that is written to a peer goes out in a frame that,
    when it comes back from the server, is delivered as that peer's data, as long as fewer than
    16384 channels were bound before: one for each peer, and another one for a peer whose channel
    the server refused or that is written to again after the allocation was closed. *)
Theorem turn_channel_roundtrip (toUtf8 : string -> bytes) (fromUtf8 : bytes -> string)
    (sha1 md5 : bytes -> bytes) (junk : nat -> Z) (uninit : Z) (randomId : nat -> bytes)
    (es : list Turn.Event) (data : bytes) (host : QHostAddress) (port wrote : Z) :
  let a := Turn.run toUtf8 fromUtf8 sha1 md5 junk uninit randomId es Turn.newTurnAllocation in
  Turn.m_state a = Turn.ConnectedState ->
  Turn.bindings toUtf8 fromUtf8 sha1 md5 junk uninit randomId es Turn.newTurnAllocation < 0x4000 ->
  len data < 65536 ->
  let b := (Turn.writeDatagram uninit randomId data host port wrote a).2 in
  exists frame,
    Turn.log b = Turn.log a ++ [Turn.SocketWrite frame (Turn.m_turnHost a) (Turn.m_turnPort a)] /\
    Turn.handleDatagram toUtf8 fromUtf8 sha1 md5 junk uninit randomId frame b
    = Turn.emit (Turn.DatagramReceived data host port) b.
Proof.
  intros a Hst Hw Hl b.
  pose proof (Turn.run_channels_ok toUtf8 fromUtf8 sha1 md5 junk uninit randomId es ltac:(lia)) as Hch.
  fold a in Hch.
  destruct (Turn.write_channel uninit randomId _ data host port wrote a Hch ltac:(lia) Hst)
    as (_ & Hst' & Hr & Hv & Hlog).
  eexists. split; [exact Hlog|]. apply Turn.handle_frame; try done. lia.
Qed.

(** a successful allocation is refreshed one minute before it expires, for
    lifetimes from one minute to 24.8 days; with a shorter lifetime (also the 0
    that stands for an absent attribute) the computed interval is negative and
    the connected allocation is never refreshed. *)
Theorem turn_refresh_schedule (toUtf8 : string -> bytes) (md5 : bytes -> bytes) (uninit : Z)
    (randomId : nat -> bytes) (t : QXmppStunTransaction) (a : Turn.QXmppTurnAllocation) (addr : Z) :
  let reply := m_response t in
  let L := StunMessage.m_lifetime reply in
  messageMethod (m_request t) = Method.Allocate -> messageClass reply = MsgClass.Response ->
  xorRelayedHost reply = AddrV4 addr -> xorRelayedPort reply <> 0 -> 0 <= L < 2 ^ 32 ->
  let b := Turn.handleReply toUtf8 md5 uninit randomId t a in
  Turn.m_state b = Turn.ConnectedState /\ Turn.m_relayedHost b = AddrV4 addr /\
  (60 <= L <= 2147543 -> Turn.m_timer b = Some ((L - 60) * 1000)) /\
  (L < 60 -> Turn.m_timer b = None).
Proof.
  intros reply L Hm Hc Hh Hp HL b.
  assert (b = Turn.setState Turn.ConnectedState (Turn.scheduleRefresh
    (a <| Turn.m_relayedHost := AddrV4 addr |> <| Turn.m_relayedPort := xorRelayedPort reply |>
       <| Turn.m_lifetime := L |>))) as ->.
  { unfold b, Turn.handleReply. cbv zeta. fold reply. rewrite Hc, Hm, Hh.
    rewrite (proj2 (Z.eqb_neq _ _) Hp). done. }
  set (c := Turn.scheduleRefresh _).
  assert (Turn.m_timer (Turn.setState Turn.ConnectedState c) = Turn.m_timer c /\
    Turn.m_state (Turn.setState Turn.ConnectedState c) = Turn.ConnectedState /\
    Turn.m_relayedHost (Turn.setState Turn.ConnectedState c) = AddrV4 addr) as (-> & -> & ->).
  { unfold Turn.setState. case_decide as E; [|done]. by rewrite <-E. }
  split_and!; try done; intros HL'; unfold c, Turn.scheduleRefresh; cbn;
    unfold Turn.startTimer, u32, i32.
  - rewrite (uwrap_small 32 (L - 60)), (uwrap_small 32 ((L - 60) * 1000)) by lia.
    rewrite iwrap_small by lia. by rewrite (proj2 (Z.ltb_ge _ _)) by lia.
  - assert (iwrap 32 (uwrap 32 (uwrap 32 (L - 60) * 1000)) = (L - 60) * 1000) as ->.
    { unfold iwrap, uwrap. rewrite Z.mod_mod by lia. rewrite Z.mul_mod_idemp_l by lia.
      replace ((L - 60) * 1000) with (2 ^ 32 - (60 - L) * 1000 + (-1) * 2 ^ 32) by lia.
      rewrite Z.mod_add by lia. rewrite Z.mod_small by lia.
      rewrite (proj2 (Z.ltb_ge _ _)) by lia. lia. }
    by rewrite (proj2 (Z.ltb_lt _ _)) by lia.
Qed.

(** *** A concrete server *)

Definition toy_id (n : nat) : bytes := replicate 12 (Z.of_nat n).
Definition toy_run : list Turn.Event -> Turn.QXmppTurnAllocation -> Turn.QXmppTurnAllocation :=
  Turn.run latin1 fromLatin1 toy_digest toy_digest (fun _ => 7) 0 toy_id.

(** A reply to the [n]-th transaction. *)
Definition toy_reply (n : nat) (type : Z) (f : QXmppStunMessage -> QXmppStunMessage) : Turn.Event :=
  Turn.Datagram (StunMessage.encode latin1 toy_digest
    (f (setId (toy_id n) (setType type (newStunMessage 0)))) [] true).

Definition toy_relay (m : QXmppStunMessage) : QXmppStunMessage :=
  (setLifetime 600 m) <| xorRelayedHost := AddrV4 0xc6336401 |> <| xorRelayedPort := 49152 |>.

Definition toy_peer : QHostAddress := AddrV4 0xcb007105.

(** Allocate, write to a peer (which binds channel 0x4000), lose the allocation
    when its refresh fails. *)
Definition toy_first : list Turn.Event :=
  [Turn.Connect true; toy_reply 0 0x103 toy_relay; Turn.Write [1; 2; 3] toy_peer 4000 7;
   toy_reply 1 0x109 (fun m => m); Turn.RefreshTimer;
   toy_reply 2 0x114 (fun m => m <| errorCode := 437 |>)].
(** Allocate again. *)
Definition toy_second : list Turn.Event := [Turn.Connect true; toy_reply 3 0x103 toy_relay].

(** channels outlive a lost allocation. When a refresh fails the channels are
    kept; after reconnecting, data for a peer of the old allocation goes out on
    its old channel and no ChannelBind is sent, although the new allocation has
    no channel. *)
Theorem turn_stale_channel :
  exists first second,
    let old := toy_run first Turn.newTurnAllocation in
    let a := toy_run second old in
    Turn.m_state old = Turn.UnconnectedState /\
    Turn.m_channels old = [(0x4000, (toy_peer, 4000))] /\
    Turn.writes second = 0 /\ Turn.m_state a = Turn.ConnectedState /\ Turn.m_transactions a = [] /\
    let b := (Turn.writeDatagram 0 toy_id [9] toy_peer 4000 5 a).2 in
    Turn.m_transactions b = [] /\
    last (Turn.log b) = Some (Turn.SocketWrite (Turn.channelFrame 0x4000 [9]) AddrNull 0).
Proof. exists toy_first, toy_second. vm_compute. split_and!; reflexivity. Qed.

Lemma turn_resolves_witness :
  exists id n, (n <= 8)%nat /\
    let b := toy_run (replicate n (Turn.TransactionTimer id)) (toy_run [Turn.Connect true] Turn.newTurnAllocation) in
    Turn.m_state b = Turn.UnconnectedState /\ last (Turn.log b) = Some Turn.Disconnected.
Proof.
  apply (turn_resolves latin1 fromLatin1 toy_digest toy_digest (fun _ => 7) 0 toy_id [Turn.Connect true]).
  left. reflexivity.
Defined.

Lemma turn_channel_roundtrip_witness :
  let a := toy_run (take 2 toy_first) Turn.newTurnAllocation in
  let b := (Turn.writeDatagram 0 toy_id [1; 2; 3] toy_peer 4000 7 a).2 in
  exists frame,
    Turn.log b = Turn.log a ++ [Turn.SocketWrite frame (Turn.m_turnHost a) (Turn.m_turnPort a)] /\
    Turn.handleDatagram latin1 fromLatin1 toy_digest toy_digest (fun _ => 7) 0 toy_id frame b
    = Turn.emit (Turn.DatagramReceived [1; 2; 3] toy_peer 4000) b.
Proof.
  apply (turn_channel_roundtrip latin1 fromLatin1 toy_digest toy_digest (fun _ => 7) 0 toy_id
           (take 2 toy_first) [1; 2; 3] toy_peer 4000 7); vm_compute; reflexivity.
Defined.

Lemma turn_refresh_schedule_witness :
  let t := mkTransaction 0 (setType 3 (newStunMessage 0))
             (toy_relay (setType 0x103 (newStunMessage 0))) 1 None 0 in
  Turn.m_timer (Turn.handleReply latin1 toy_digest 0 toy_id t Turn.newTurnAllocation) = Some 540000.
Proof.
  intros t.
  destruct (turn_refresh_schedule latin1 toy_digest 0 toy_id t Turn.newTurnAllocation 0xc6336401)
    as (_ & _ & H & _); [reflexivity | reflexivity | reflexivity | discriminate | by vm_compute |].
  apply H. by vm_compute.
Defined.
