(* ===== verification/IceComponent.v ===== *)
(** * ICE components (src/src/base/QXmppStun.cpp, QXmppIceComponent)

    Candidates and their priorities, candidate pairs, the connectivity checks
    of one component, its STUN gathering transactions and its TURN allocation.
    Pairs are identified by a number where the code keeps pointers
    ([activePair], [fallbackPair]); signals and written datagrams are appended
    to a log. *)
From S2P Require Import Prelude DataStream Utils StunMessage StunCodec QMap StunTransaction TurnAllocation.

Module Ice.

(** What the code takes from outside: text encoding, hashes, random values (by
    the number of the object that uses them), and the bytes a TURN socket says
    it has written. *)
Record Env := mkEnv {
  toUtf8 : string -> bytes;
  fromUtf8 : bytes -> string;
  sha1 : bytes -> bytes;
  md5 : bytes -> bytes;
  toHex : bytes -> string;
  hostString : QHostAddress -> string;
  junk : nat -> Z;
  uninit : Z;
  turnId : nat -> bytes;
  stunId : nat -> bytes;
  randomHash : nat -> string;
  socketWrote : bytes -> Z
}.

(** ** Candidates *)

Inductive CandidateType := HostType | PeerReflexiveType | ServerReflexiveType | RelayedType.
#[global] Instance CandidateType_eq_dec : EqDecision CandidateType.
Proof. solve_decision. Defined.

Record QXmppJingleCandidate := mkCandidate {
  c_component : Z;
  c_foundation : string;
  c_host : QHostAddress;
  c_id : string;
  c_port : Z;
  c_protocol : string;
  c_priority : Z;
  c_type : CandidateType
}.
#[global] Instance eta_QXmppJingleCandidate : Eta QXmppJingleCandidate := fun c =>
  mkCandidate (c_component c) (c_foundation c) (c_host c) (c_id c) (c_port c) (c_protocol c)
    (c_priority c) (c_type c).

Definition newCandidate : QXmppJingleCandidate := mkCandidate 0 "" AddrNull "" 0 "" 0 HostType.

(** The quint32 result; [localPref] is its default argument. *)
Definition candidatePriority (candidate : QXmppJingleCandidate) : Z :=
  let localPref := 65535 in
  let typePref :=
    match c_type candidate with
    | HostType => 126
    | PeerReflexiveType => 110
    | ServerReflexiveType => 100
    | RelayedType => 0
    end in
  u32 (Z.shiftl 1 24 * typePref + Z.shiftl 1 8 * localPref + (256 - c_component candidate)).

Definition typeNumber (t : CandidateType) : string :=
  match t with HostType => "0" | PeerReflexiveType => "1" | ServerReflexiveType => "2" | RelayedType => "3" end.

Definition computeFoundation (E : Env) (t : CandidateType) (protocol : string)
    (baseAddress : QHostAddress) : string :=
  toHex E (md5 E (toUtf8 E (typeNumber t +:+ protocol +:+ hostString E baseAddress))).

(** ** Transports *)

Record UdpSocket := mkSocket { sock_id : nat; localAddress : QHostAddress; localPort : Z }.
#[global] Instance UdpSocket_eq_dec : EqDecision UdpSocket.
Proof. solve_decision. Defined.

Inductive Transport := UdpTransport (m_socket : UdpSocket) | TurnTransport.
#[global] Instance Transport_eq_dec : EqDecision Transport.
Proof. solve_decision. Defined.

Definition setScopeId (scope : string) (a : QHostAddress) : QHostAddress :=
  match a with AddrV6 a6 _ => AddrV6 a6 scope | _ => a end.
Definition scopeId (a : QHostAddress) : string :=
  match a with AddrV6 _ scope => scope | _ => "" end.

(** [n] numbers the random id. *)
Definition localCandidate (E : Env) (n : nat) (turn : Turn.QXmppTurnAllocation) (transport : Transport)
    (component : Z) : QXmppJingleCandidate :=
  let '(addr, port, type) :=
    match transport with
    | UdpTransport s =>
        let addr := localAddress s in
        (if bool_decide (protocol addr = IPv6Protocol) && negb (isIPv6LinkLocalAddress addr)
         then setScopeId "" addr else addr, localPort s, HostType)
    | TurnTransport => (Turn.m_relayedHost turn, Turn.m_relayedPort turn, RelayedType)
    end in
  let candidate := newCandidate <| c_component := component |> <| c_host := addr |>
    <| c_id := randomHash E n |> <| c_port := port |> <| c_protocol := "udp" |> <| c_type := type |> in
  let candidate := candidate <| c_priority := i32 (candidatePriority candidate) |> in
  candidate <| c_foundation :=
    computeFoundation E (c_type candidate) (c_protocol candidate) (c_host candidate) |>.

(** ** Pairs *)

Inductive PairState := FrozenState | WaitingState | InProgressState | SucceededState | FailedState.
#[global] Instance PairState_eq_dec : EqDecision PairState.
Proof. solve_decision. Defined.

(** [deleted] marks an object that was deleted while a list still points to it. *)
Record CandidatePair := mkPair {
  cp_id : nat;
  nominated : bool;
  nominating : bool;
  remote : QXmppJingleCandidate;
  reflexive : QXmppJingleCandidate;
  transport : Transport;
  transaction : option QXmppStunTransaction;
  m_component : Z;
  m_controlling : bool;
  m_state : PairState;
  deleted : bool
}.
#[global] Instance eta_CandidatePair : Eta CandidatePair := fun p =>
  mkPair (cp_id p) (nominated p) (nominating p) (remote p) (reflexive p) (transport p)
    (transaction p) (m_component p) (m_controlling p) (m_state p) (deleted p).

Definition newPair (id : nat) (component : Z) (controlling : bool) (r : QXmppJingleCandidate)
    (t : Transport) : CandidatePair :=
  mkPair id false false r newCandidate t None component controlling WaitingState false.

(** The priority of a transport's local candidate depends on its kind only. *)
Definition localPriority (t : Transport) (component : Z) : Z :=
  i32 (candidatePriority (newCandidate <| c_component := component |>
    <| c_type := match t with UdpTransport _ => HostType | TurnTransport => RelayedType end |>)).

(** RFC 5245, 5.7.2, in the arithmetic of the code: [2 * qMax(G, D)] is a
    quint32 product. *)
Definition pairPriority (controlling : bool) (local remote : Z) : Z :=
  let G := u32 (if controlling then local else remote) in
  let D := u32 (if controlling then remote else local) in
  u64 (Z.shiftl 1 32 * Z.min G D + u32 (2 * Z.max G D) + (if D <? G then 1 else 0)).

Definition priority (p : CandidatePair) : Z :=
  pairPriority (m_controlling p) (localPriority (transport p) (m_component p)) (c_priority (remote p)).

(** [std::sort] with [candidatePairPtrLessThan]; pairs of equal priority, whose
    order the library leaves open, stay in order. *)
Definition candidatePairPtrLessThan (p1 p2 : CandidatePair) : Prop := priority p2 < priority p1.
Definition not_after (p1 p2 : CandidatePair) : Prop := priority p2 <= priority p1.
#[global] Instance not_after_dec p1 p2 : Decision (not_after p1 p2).
Proof. unfold not_after. apply _. Defined.
Definition sortPairs (l : list CandidatePair) : list CandidatePair := merge_sort not_after l.

(** ** The component *)

Inductive GatheringState := NewGatheringState | BusyGatheringState | CompleteGatheringState.
#[global] Instance GatheringState_eq_dec : EqDecision GatheringState.
Proof. solve_decision. Defined.

(** QXmppIcePrivate, which the components of a connection share. *)
Record QXmppIcePrivate := mkConfig {
  iceControlling : bool;
  localUser : string;
  localPassword : string;
  remoteUser : string;
  remotePassword : string;
  stunServers : list (QHostAddress * Z);
  tieBreaker : bytes
}.
#[global] Instance eta_QXmppIcePrivate : Eta QXmppIcePrivate := fun c =>
  mkConfig (iceControlling c) (localUser c) (localPassword c) (remoteUser c) (remotePassword c)
    (stunServers c) (tieBreaker c).

Record QXmppIceTransportDetails := mkDetails {
  d_transport : Transport;
  stunHost : QHostAddress;
  stunPort : Z
}.

Inductive Output :=
| Connected
| GatheringStateChanged
| LocalCandidatesChanged
| DatagramReceived (data : bytes)
| UdpWrite (socket : UdpSocket) (data : bytes) (host : QHostAddress) (port : Z)
| UdpClose (socket : UdpSocket)
| TurnOutput (o : Turn.Output)
| Warning (message : string).

Record QXmppIceComponent := mkComponent {
  component : Z;
  activePair : option nat;
  fallbackPair : option nat;
  gatheringState : GatheringState;
  localCandidates : list QXmppJingleCandidate;
  peerReflexivePriority : Z;
  remoteCandidates : list QXmppJingleCandidate;
  pairs : list CandidatePair;
  transports : list Transport;
  timer : bool;
  stunTransactions : list (QXmppStunTransaction * QXmppIceTransportDetails);
  turnAllocation : Turn.QXmppTurnAllocation;
  turnConfigured : bool;
  created : nat;
  log : list Output
}.
#[global] Instance eta_QXmppIceComponent : Eta QXmppIceComponent := fun s =>
  mkComponent (component s) (activePair s) (fallbackPair s) (gatheringState s) (localCandidates s)
    (peerReflexivePriority s) (remoteCandidates s) (pairs s) (transports s) (timer s)
    (stunTransactions s) (turnAllocation s) (turnConfigured s) (created s) (log s).

Definition newComponent (component : Z) : QXmppIceComponent :=
  mkComponent component None None NewGatheringState []
    (candidatePriority (newCandidate <| c_component := component |> <| c_type := PeerReflexiveType |>))
    [] [] [] false [] Turn.newTurnAllocation false 0 [].

Definition emit (o : Output) (s : QXmppIceComponent) : QXmppIceComponent :=
  s <| log ::= fun l => l ++ [o] |>.

Definition find_pair (id : nat) (s : QXmppIceComponent) : option CandidatePair :=
  snd <$> list_find (fun p => cp_id p = id) (pairs s).
Definition update_pair (id : nat) (f : CandidatePair -> CandidatePair) (s : QXmppIceComponent)
    : QXmppIceComponent :=
  s <| pairs ::= map (fun p => if decide (cp_id p = id) then f p else p) |>.

(** The fresh number of an object (a pair, a transaction or a random id). *)
Definition fresh (s : QXmppIceComponent) : nat * QXmppIceComponent :=
  (created s, s <| created ::= S |>).

Definition gathering (s : QXmppIceComponent) : GatheringState :=
  match transports s with
  | [] => NewGatheringState
  | _ =>
      if negb (StunMessage.is_empty (stunTransactions s)) ||
         bool_decide (Turn.m_state (turnAllocation s) = Turn.ConnectingState)
      then BusyGatheringState else CompleteGatheringState
  end.

Definition updateGatheringState (s : QXmppIceComponent) : QXmppIceComponent :=
  if decide (gathering s = gatheringState s) then s
  else emit GatheringStateChanged (s <| gatheringState := gathering s |>).

Section Component.
Variable E : Env.

Abbreviation newMessage := (newStunMessage (uninit E)).
Definition encodeWith (key : bytes) (m : QXmppStunMessage) : bytes :=
  StunMessage.encode (toUtf8 E) (sha1 E) m key true.

(** *** Writing *)

(** The outputs of the allocation after [n] earlier ones. *)
Definition turnOutputs (before after : Turn.QXmppTurnAllocation) : list Turn.Output :=
  drop (length (Turn.log before)) (Turn.log after).

(** [transport->writeDatagram]: its result and the new state. *)
Definition transportWrite (t : Transport) (data : bytes) (host : QHostAddress) (port : Z)
    (s : QXmppIceComponent) : Z * QXmppIceComponent :=
  match t with
  | UdpTransport sock =>
      let remoteHost := if isIPv6LinkLocalAddress host
                        then setScopeId (scopeId (localAddress sock)) host else host in
      (socketWrote E data, emit (UdpWrite sock data remoteHost port) s)
  | TurnTransport =>
      let turn := turnAllocation s in
      let '(result, turn') :=
        Turn.writeDatagram (uninit E) (turnId E) data host port (socketWrote E data) turn in
      (result, s <| turnAllocation := turn' |>
                 <| log ::= fun l => l ++ map TurnOutput (turnOutputs turn turn') |>)
  end.

(** QXmppIceComponentPrivate::writeStun. *)
Definition writeStunTo (cfg : QXmppIcePrivate) (message : QXmppStunMessage) (t : Transport)
    (address : QHostAddress) (port : Z) (s : QXmppIceComponent) : QXmppIceComponent :=
  let messagePassword := if negb (Z.land (m_type message) 0xff00 =? 0)
                         then localPassword cfg else remotePassword cfg in
  (transportWrite t (encodeWith (toUtf8 E messagePassword) message) address port s).2.

(** *** Checks *)

Definition performCheck (cfg : QXmppIcePrivate) (pid : nat) (nominate : bool) (s : QXmppIceComponent)
    : QXmppIceComponent :=
  let '(n, s) := fresh s in
  let message := setUsername (remoteUser cfg +:+ ":" +:+ localUser cfg)
    (setPriority (peerReflexivePriority s)
      (setType (Z.lor Method.Binding MsgClass.Request) (setId (stunId E n) newMessage))) in
  let message :=
    if iceControlling cfg
    then message <| StunMessage.iceControlling := tieBreaker cfg |> <| useCandidate := true |>
    else message <| StunMessage.iceControlled := tieBreaker cfg |> in
  update_pair pid (fun p => p <| nominating := nominate |> <| m_state := InProgressState |>
    <| transaction := Some (newTransaction (uninit E) n message) |>) s.

Definition checkCandidates (cfg : QXmppIcePrivate) (s : QXmppIceComponent) : QXmppIceComponent :=
  if bool_decide (remoteUser cfg = "") then s else
  match list_find (fun p => m_state p = WaitingState) (pairs s) with
  | Some (_, p) => performCheck cfg (cp_id p) (iceControlling cfg) s
  | None => s
  end.

Definition connectToHost (cfg : QXmppIcePrivate) (s : QXmppIceComponent) : QXmppIceComponent :=
  match activePair s with
  | Some _ => s
  | None => (checkCandidates cfg s) <| timer := true |>
  end.

(** The outcome of a pair's check, whose transaction is [t]. *)
Definition checkFinished (t : QXmppStunTransaction) (p : CandidatePair) : CandidatePair :=
  let response := m_response t in
  let p :=
    if messageClass response =? MsgClass.Response then
      let p := if negb (isNull (xorMappedHost response)) && negb (xorMappedPort response =? 0)
        then p <| reflexive ::= fun c => c <| c_host := xorMappedHost response |>
                                           <| c_port := xorMappedPort response |> |>
        else p in
      let p := p <| m_state := SucceededState |> in
      if nominating p then p <| nominated := true |> else p
    else p <| m_state := FailedState |> in
  p <| transaction := None |>.

(** The signals of a pair's transaction, [t] after the step that emitted them. *)
Definition pairSignals (cfg : QXmppIcePrivate) (pid : nat) (t : QXmppStunTransaction)
    (sigs : list TransactionSignal) (s : QXmppIceComponent) : QXmppIceComponent :=
  let s := update_pair pid (fun p => p <| transaction := Some t |>) s in
  foldl (fun s sig =>
    match sig with
    | WriteStun m =>
        match find_pair pid s with
        | Some p => writeStunTo cfg m (transport p) (c_host (remote p)) (c_port (remote p)) s
        | None => s
        end
    | Finished => update_pair pid (checkFinished t) s
    end) s sigs.

(** *** Gathering *)

Definition set_stun (t : QXmppStunTransaction) (s : QXmppIceComponent) : QXmppIceComponent :=
  s <| stunTransactions ::= map (fun x => if decide (t_id x.1 = t_id t) then (t, x.2) else x) |>.
Definition remove_stun (t : QXmppStunTransaction) (s : QXmppIceComponent) : QXmppIceComponent :=
  s <| stunTransactions ::= filter (fun x => t_id x.1 <> t_id t) |>.

(** The reflexive address a STUN server reports. *)
Definition reflexiveAddress (response : QXmppStunMessage) : option (QHostAddress * Z) :=
  if negb (isNull (xorMappedHost response)) && negb (xorMappedPort response =? 0)
  then Some (xorMappedHost response, xorMappedPort response)
  else if negb (isNull (mappedHost response)) && negb (mappedPort response =? 0)
  then Some (mappedHost response, mappedPort response)
  else None.

Definition known_reflexive (host : QHostAddress) (port : Z) (s : QXmppIceComponent) : bool :=
  existsb (fun c => bool_decide (c_host c = host) && (c_port c =? port) &&
                    bool_decide (c_type c = ServerReflexiveType)) (localCandidates s).

(** [transactionFinished] for a gathering transaction. *)
Definition stunFinished (t : QXmppStunTransaction) (details : QXmppIceTransportDetails)
    (s : QXmppIceComponent) : QXmppIceComponent :=
  let response := m_response t in
  let finish s := updateGatheringState (remove_stun t s) in
  if messageClass response =? MsgClass.Response then
    match reflexiveAddress response with
    | None => emit (Warning "STUN server did not provide a reflexive address") s
    | Some (host, port) =>
        if known_reflexive host port s then s else
        let '(n, s) := fresh s in
        let candidate := newCandidate <| c_component := component s |> <| c_host := host |>
          <| c_id := randomHash E n |> <| c_port := port |> <| c_protocol := "udp" |>
          <| c_type := ServerReflexiveType |> in
        let candidate := candidate <| c_priority := i32 (candidatePriority candidate) |> in
        let base := c_host (localCandidate E n (turnAllocation s) (d_transport details) (component s)) in
        let candidate := candidate <| c_foundation :=
          computeFoundation E (c_type candidate) (c_protocol candidate) base |> in
        finish (emit LocalCandidatesChanged (s <| localCandidates ::= fun l => l ++ [candidate] |>))
    end
  else finish s.

Definition stunSignals (t : QXmppStunTransaction) (details : QXmppIceTransportDetails)
    (sigs : list TransactionSignal) (s : QXmppIceComponent) : QXmppIceComponent :=
  foldl (fun s sig =>
    match sig with
    | WriteStun m =>
        (transportWrite (d_transport details) (encodeWith [] m) (stunHost details) (stunPort details) s).2
    | Finished => stunFinished t details s
    end) (set_stun t s) sigs.

Definition turnConnected (s : QXmppIceComponent) : QXmppIceComponent :=
  let '(n, s) := fresh s in
  let candidate := localCandidate E n (turnAllocation s) TurnTransport (component s) in
  updateGatheringState
    (emit LocalCandidatesChanged (s <| localCandidates ::= fun l => l ++ [candidate] |>)).

(** *** Candidates and pairs *)

Definition acceptable (candidate : QXmppJingleCandidate) (s : QXmppIceComponent) : bool :=
  (c_component candidate =? component s) &&
  (bool_decide (c_type candidate = HostType) || bool_decide (c_type candidate = RelayedType) ||
   bool_decide (c_type candidate = ServerReflexiveType)) &&
  bool_decide (c_protocol candidate = "udp") &&
  (bool_decide (protocol (c_host candidate) = IPv4Protocol) ||
   bool_decide (protocol (c_host candidate) = IPv6Protocol)).

Definition known_remote (host : QHostAddress) (port : Z) (s : QXmppIceComponent) : bool :=
  existsb (fun c => bool_decide (c_host c = host) && (c_port c =? port)) (remoteCandidates s).

(** [pairs << pair] with a new pair. *)
Definition appendPair (cfg : QXmppIcePrivate) (candidate : QXmppJingleCandidate) (t : Transport)
    (s : QXmppIceComponent) : nat * QXmppIceComponent :=
  let '(n, s) := fresh s in
  (n, s <| pairs ::= fun l => l ++ [newPair n (component s) (iceControlling cfg) candidate t] |>).

Definition pairTransport (cfg : QXmppIcePrivate) (candidate : QXmppJingleCandidate)
    (s : QXmppIceComponent) (t : Transport) : QXmppIceComponent :=
  let local := localCandidate E (created s) (turnAllocation s) t (component s) in
  if isCompatibleAddress (c_host local) (c_host candidate) then
    let '(n, s) := appendPair cfg candidate t s in
    match fallbackPair s with
    | None => if decide (c_type local = HostType) then s <| fallbackPair := Some n |> else s
    | Some _ => s
    end
  else s.

Definition addRemoteCandidate (cfg : QXmppIcePrivate) (candidate : QXmppJingleCandidate)
    (s : QXmppIceComponent) : bool * QXmppIceComponent :=
  if negb (acceptable candidate s) then (false, s) else
  if known_remote (c_host candidate) (c_port candidate) s then (false, s) else
  let s := s <| remoteCandidates ::= fun l => l ++ [candidate] |> in
  let s := foldl (pairTransport cfg candidate) s (transports s) in
  (true, s <| pairs ::= sortPairs |>).

(** *** Messages from the peer *)

Definition at_remote (host : QHostAddress) (port : Z) (p : CandidatePair) : Prop :=
  c_host (remote p) = host /\ c_port (remote p) = port.
#[global] Instance at_remote_dec host port p : Decision (at_remote host port p).
Proof. unfold at_remote. apply _. Defined.

(** The remote candidate of a request, learnt when it is unknown. *)
Definition remoteCandidateOf (message : QXmppStunMessage) (host : QHostAddress) (port : Z)
    (s : QXmppIceComponent) : QXmppJingleCandidate * QXmppIceComponent :=
  match list_find (fun c => c_host c = host /\ c_port c = port) (remoteCandidates s) with
  | Some (_, c) => (c, s)
  | None =>
      let '(n, s) := fresh s in
      let '(n', s) := fresh s in
      let c := newCandidate <| c_component := component s |> <| c_host := host |>
        <| c_id := randomHash E n |> <| c_port := port |>
        <| c_priority := i32 (m_priority message) |> <| c_protocol := "udp" |>
        <| c_type := PeerReflexiveType |> <| c_foundation := randomHash E n' |> in
      (c, s <| remoteCandidates ::= fun l => l ++ [c] |>)
  end.

(** The pair of a request, constructed when there is none. *)
Definition pairOf (cfg : QXmppIcePrivate) (t : Transport) (host : QHostAddress) (port : Z)
    (c : QXmppJingleCandidate) (s : QXmppIceComponent) : nat * QXmppIceComponent :=
  match list_find (fun p => transport p = t /\ at_remote host port p) (pairs s) with
  | Some (_, p) => (cp_id p, s)
  | None =>
      let '(n, s) := appendPair cfg c t s in (n, s <| pairs ::= sortPairs |>)
  end.

(** The [switch] on the pair's state. *)
Definition triggerCheck (cfg : QXmppIcePrivate) (message : QXmppStunMessage) (pid : nat)
    (s : QXmppIceComponent) : QXmppIceComponent :=
  match find_pair pid s with
  | None => s
  | Some p =>
      match m_state p with
      | FrozenState | WaitingState | FailedState =>
          if bool_decide (remoteUser cfg = "") then s
          else performCheck cfg pid (nominating p || iceControlling cfg || useCandidate message) s
      | InProgressState =>
          update_pair pid (fun p => p <| nominating := nominating p || useCandidate message |>) s
      | SucceededState =>
          if useCandidate message then update_pair pid (fun p => p <| nominated := true |>) s else s
      end
  end.

(** "signal completion" at the end of [handleDatagram]. *)
Definition complete (pid : nat) (s : QXmppIceComponent) : QXmppIceComponent :=
  match find_pair pid s with
  | None => s
  | Some p =>
      if nominated p then
        let s := s <| timer := false |> in
        match activePair s with
        | None => emit Connected (s <| activePair := Some pid |>)
        | Some aid =>
            match find_pair aid s with
            | Some a => if priority a <? priority p then s <| activePair := Some pid |> else s
            | None => s
            end
        end
      else s
  end.

Definition bindingResponse (message : QXmppStunMessage) (host : QHostAddress) (port : Z)
    : QXmppStunMessage :=
  (setType (Z.lor Method.Binding MsgClass.Response)
    (setId (m_id message) (newStunMessage (uninit E))))
    <| xorMappedHost := host |> <| xorMappedPort := port |>.

Definition handleRequest (cfg : QXmppIcePrivate) (message : QXmppStunMessage) (t : Transport)
    (host : QHostAddress) (port : Z) (s : QXmppIceComponent) : QXmppIceComponent :=
  if iceControlling cfg &&
     (negb (StunMessage.is_empty (StunMessage.iceControlling message)) || useCandidate message)
  then emit (Warning "Role conflict, expected to be controlling") s
  else if negb (iceControlling cfg) && negb (StunMessage.is_empty (iceControlled message))
  then emit (Warning "Role conflict, expected to be controlled") s
  else
    let s := writeStunTo cfg (bindingResponse message host port) t host port s in
    let '(c, s) := remoteCandidateOf message host port s in
    let '(pid, s) := pairOf cfg t host port c s in
    complete pid (triggerCheck cfg message pid s).

(** The phrase is formatted with "%1:%1", which prints the address twice. *)
Definition unexpectedSource (host : QHostAddress) : QXmppStunMessage :=
  (setType MsgClass.Error (newStunMessage (uninit E)))
    <| errorPhrase := "Received response from unexpected " +:+ hostString E host +:+ ":" +:+
                      hostString E host |>.

Definition has_request_id (id : bytes) (p : CandidatePair) : Prop :=
  (m_id ∘ m_request <$> transaction p) = Some id.
#[global] Instance has_request_id_dec id p : Decision (has_request_id id p).
Proof. unfold has_request_id. apply _. Defined.

Definition handleResponse (cfg : QXmppIcePrivate) (message : QXmppStunMessage)
    (host : QHostAddress) (port : Z) (s : QXmppIceComponent) : QXmppIceComponent :=
  match list_find (has_request_id (m_id message)) (pairs s) with
  | Some (_, p) =>
      match transaction p with
      | Some t =>
          if decide (at_remote host port p) then
            let '(t, sigs) := readStun message t in
            complete (cp_id p) (pairSignals cfg (cp_id p) t sigs s)
          else
            let '(t, sigs) := readStun (unexpectedSource host) t in
            pairSignals cfg (cp_id p) t sigs s
      | None => s
      end
  | None => s
  end.

(** A gathering transaction on this transport with this id. *)
Definition stunFor (t : Transport) (id : bytes) (s : QXmppIceComponent)
    : option (QXmppStunTransaction * QXmppIceTransportDetails) :=
  snd <$> list_find (fun x => m_id (m_request x.1) = id /\ d_transport x.2 = t) (stunTransactions s).

(** The STUN branch, after [peekType]. *)
Definition handleStun (cfg : QXmppIcePrivate) (buffer : bytes) (messageType : Z) (messageId : bytes)
    (t : Transport) (host : QHostAddress) (port : Z) (s : QXmppIceComponent) : QXmppIceComponent :=
  let stunTransaction := stunFor t messageId s in
  let messagePassword :=
    match stunTransaction with
    | Some _ => ""
    | None => if negb (Z.land messageType 0xff00 =? 0) then remotePassword cfg else localPassword cfg
    end in
  if bool_decide (stunTransaction = None) && bool_decide (messagePassword = "") then s else
  match StunMessage.decode (fromUtf8 E) (sha1 E) (junk E) (newStunMessage (uninit E)) buffer
          (toUtf8 E messagePassword) with
  | None => s
  | Some (false, _, errors) => foldl (fun s e => emit (Warning e) s) s errors
  | Some (true, message, _) =>
      if negb (messageMethod message =? Method.Binding) then s else
      match stunTransaction with
      | Some (st, details) => let '(st, sigs) := readStun message st in stunSignals st details sigs s
      | None =>
          if messageClass message =? MsgClass.Request then handleRequest cfg message t host port s
          else if (messageClass message =? MsgClass.Response) || (messageClass message =? MsgClass.Error)
          then handleResponse cfg message host port s
          else s
      end
  end.

(** A datagram that is not STUN flags a potential pair and is passed on. *)
Definition handleData (buffer : bytes) (host : QHostAddress) (port : Z) (s : QXmppIceComponent)
    : QXmppIceComponent :=
  let s := match list_find (at_remote host port) (pairs s) with
           | Some (_, p) => s <| fallbackPair := Some (cp_id p) |>
           | None => s
           end in
  emit (DatagramReceived buffer) s.

Definition handleDatagram (cfg : QXmppIcePrivate) (t : Transport) (buffer : bytes)
    (host : QHostAddress) (port : Z) (s : QXmppIceComponent) : QXmppIceComponent :=
  let '(messageType, messageCookie, messageId) := peekType (junk E) buffer 0 [] in
  if (messageType =? 0) || negb (messageCookie =? STUN_MAGIC)
  then handleData buffer host port s
  else handleStun cfg buffer messageType messageId t host port s.

(** *** The allocation's signals *)

Definition turnSignal (cfg : QXmppIcePrivate) (s : QXmppIceComponent) (o : Turn.Output)
    : QXmppIceComponent :=
  match o with
  | Turn.Connected => turnConnected s
  | Turn.Disconnected => updateGatheringState s
  | Turn.DatagramReceived data host port => handleDatagram cfg TurnTransport data host port s
  | o => emit (TurnOutput o) s
  end.

(** An operation of the allocation, then its signals: each is the last thing the
    operation does. *)
Definition turnDo (cfg : QXmppIcePrivate) (f : Turn.QXmppTurnAllocation -> Turn.QXmppTurnAllocation)
    (s : QXmppIceComponent) : QXmppIceComponent :=
  let turn := turnAllocation s in
  let s := s <| turnAllocation := f turn |> in
  foldl (turnSignal cfg) s (turnOutputs turn (f turn)).

(** *** Sockets *)

Definition addSocket (s : QXmppIceComponent) (socket : UdpSocket) : QXmppIceComponent :=
  let '(n, s) := fresh s in
  let t := UdpTransport socket in
  let candidate := localCandidate E n (turnAllocation s) t (component s) in
  s <| transports ::= fun l => l ++ [t] |> <| localCandidates ::= fun l => l ++ [candidate] |>.

Definition stunCheck (server : QHostAddress * Z) (s : QXmppIceComponent) (t : Transport)
    : QXmppIceComponent :=
  let local := localCandidate E (created s) (turnAllocation s) t (component s) in
  if isCompatibleAddress (c_host local) server.1 then
    let '(n, s) := fresh s in
    let request := setId (stunId E n)
      (setType (Z.lor Method.Binding MsgClass.Request) (newStunMessage (uninit E))) in
    s <| stunTransactions ::= fun l => l ++
           [(newTransaction (uninit E) n request, mkDetails t server.1 server.2)] |>
  else s.

(** QXmppIceComponentPrivate::setSockets. The pairs are deleted, but stay in the
    list; [bound] is the result of the allocation's [bind]. *)
Definition setSockets (cfg : QXmppIcePrivate) (sockets : list UdpSocket) (bound : bool)
    (s : QXmppIceComponent) : QXmppIceComponent :=
  let s := s <| localCandidates := [] |> <| pairs ::= map (fun p => p <| deleted := true |>) |>
             <| transports := [] |> in
  let s := foldl addSocket s sockets in
  let s := s <| stunTransactions := [] |> in
  let s := foldl (fun s server => foldl (stunCheck server) s (transports s)) s (stunServers cfg) in
  let s := if turnConfigured s
           then turnDo cfg (Turn.connectToHost (uninit E) (turnId E) bound)
                  (s <| transports ::= fun l => l ++ [TurnTransport] |>)
           else s in
  updateGatheringState s.

Definition setTurnServer (host : QHostAddress) (port : Z) (s : QXmppIceComponent) : QXmppIceComponent :=
  s <| turnAllocation ::= Turn.setServer host port |>
    <| turnConfigured := negb (isNull host) && negb (port =? 0) |>.
Definition setTurnUser (user : string) (s : QXmppIceComponent) : QXmppIceComponent :=
  s <| turnAllocation ::= Turn.setUser user |>.
Definition setTurnPassword (password : string) (s : QXmppIceComponent) : QXmppIceComponent :=
  s <| turnAllocation ::= Turn.setPassword password |>.

Definition turnDisconnect (cfg : QXmppIcePrivate) (s : QXmppIceComponent) : QXmppIceComponent :=
  turnDo cfg (Turn.disconnectFromHost (uninit E) (turnId E)) s.

Definition close (cfg : QXmppIcePrivate) (s : QXmppIceComponent) : QXmppIceComponent :=
  let s := foldl (fun s t =>
    match t with
    | UdpTransport socket => emit (UdpClose socket) s
    | TurnTransport => turnDisconnect cfg s
    end) s (transports s) in
  let s := turnDisconnect cfg s in
  s <| timer := false |> <| activePair := None |>.

Definition isConnected (s : QXmppIceComponent) : bool := bool_decide (is_Some (activePair s)).

Definition sendDatagram (datagram : bytes) (s : QXmppIceComponent) : Z * QXmppIceComponent :=
  let pair := match activePair s with Some a => Some a | None => fallbackPair s end in
  match pair ≫= fun id => find_pair id s with
  | None => (-1, s)
  | Some p =>
      if isNull (c_host (remote p)) then (-1, s)
      else transportWrite (transport p) datagram (c_host (remote p)) (c_port (remote p)) s
  end.

(** ** Events

    What can happen to a component: calls of its connection, its check timer,
    datagrams on its transports and the timers of its transactions. A timer
    event does nothing when the timer is not active. *)
Inductive Event :=
| AddRemote (candidate : QXmppJingleCandidate)
| SetSockets (sockets : list UdpSocket) (bound : bool)
| ConnectToHost
| Close
| CheckTimer
| Receive (t : Transport) (buffer : bytes) (host : QHostAddress) (port : Z)
| PairTimer (pid : nat)
| StunTimer (tid : nat)
| TurnPacket (buffer : bytes)
| TurnTransactionTimer (id : nat)
| TurnRefreshTimer
| TurnChannelTimer
| SendDatagram (data : bytes).

Definition turnStep : Turn.Event -> Turn.QXmppTurnAllocation -> Turn.QXmppTurnAllocation :=
  Turn.step (toUtf8 E) (fromUtf8 E) (sha1 E) (md5 E) (junk E) (uninit E) (turnId E).

Definition step (cfg : QXmppIcePrivate) (e : Event) (s : QXmppIceComponent) : QXmppIceComponent :=
  match e with
  | AddRemote c => (addRemoteCandidate cfg c s).2
  | SetSockets sockets bound => setSockets cfg sockets bound s
  | ConnectToHost => connectToHost cfg s
  | Close => close cfg s
  | CheckTimer => if timer s then checkCandidates cfg s else s
  | Receive t buffer host port =>
      if bool_decide (t ∈ transports s /\ t <> TurnTransport)
      then handleDatagram cfg t buffer host port s else s
  | PairTimer pid =>
      match find_pair pid s ≫= transaction with
      | Some t =>
          match m_retryTimer t with
          | Some _ => let '(t, sigs) := retry t in pairSignals cfg pid t sigs s
          | None => s
          end
      | None => s
      end
  | StunTimer tid =>
      match list_find (fun x => t_id x.1 = tid /\ is_Some (m_retryTimer x.1)) (stunTransactions s) with
      | Some (_, (t, details)) => let '(t, sigs) := retry t in stunSignals t details sigs s
      | None => s
      end
  | TurnPacket buffer => turnDo cfg (turnStep (Turn.Datagram buffer)) s
  | TurnTransactionTimer id => turnDo cfg (turnStep (Turn.TransactionTimer id)) s
  | TurnRefreshTimer => turnDo cfg (turnStep Turn.RefreshTimer) s
  | TurnChannelTimer => turnDo cfg (turnStep Turn.ChannelTimer) s
  | SendDatagram data => (sendDatagram data s).2
  end.

(** Each event comes with the configuration of its time. *)
Definition run (es : list (QXmppIcePrivate * Event)) (s : QXmppIceComponent) : QXmppIceComponent :=
  foldl (fun s e => step e.1 e.2 s) s es.
End Component.
End Ice.

(** ** A concrete environment and two agents

    Used to evaluate the definitions: a toy digest, Latin-1 text, numbered
    random values. *)
Module IceToy.
Definition hex (b : bytes) : string := fromLatin1 (map (fun x => 97 + x mod 16) b).
Definition env : Ice.Env :=
  Ice.mkEnv latin1 fromLatin1 toy_digest toy_digest hex (fun _ => "host") (fun _ => 7) 0
    (fun n => replicate 12 (Z.of_nat n)) (fun n => replicate 12 (Z.of_nat n))
    (fun n => String (ascii_of_nat (97 + n)) "") len.

Definition hostA : QHostAddress := AddrV4 0x0a000001.
Definition hostB : QHostAddress := AddrV4 0x0a000002.
Definition sockA : Ice.UdpSocket := Ice.mkSocket 0 hostA 1000.
Definition sockB : Ice.UdpSocket := Ice.mkSocket 0 hostB 2000.
Definition cfgA : Ice.QXmppIcePrivate := Ice.mkConfig true "ua" "pa" "ub" "pb" [] (map Z.of_nat (seq 1 8)).
Definition cfgB : Ice.QXmppIcePrivate := Ice.mkConfig false "ub" "pb" "ua" "pa" [] (map Z.of_nat (seq 2 8)).
Definition cand (host : QHostAddress) (port : Z) : Ice.QXmppJingleCandidate :=
  Ice.mkCandidate 1 "" host "" port "udp" 2130706431 Ice.HostType.

(** The data of the last datagram written. *)
Definition sent (s : Ice.QXmppIceComponent) : bytes :=
  match last (omap (fun o => match o with Ice.UdpWrite _ d _ _ => Some d | _ => None end) (Ice.log s)) with
  | Some d => d
  | None => []
  end.
Definition go (cfg : Ice.QXmppIcePrivate) (es : list Ice.Event) (s : Ice.QXmppIceComponent) :=
  Ice.run env (map (pair cfg) es) s.
Definition fromA (d : bytes) : Ice.Event := Ice.Receive (Ice.UdpTransport sockB) d hostA 1000.
Definition fromB (d : bytes) : Ice.Event := Ice.Receive (Ice.UdpTransport sockA) d hostB 2000.

(** The controlling agent checks its only pair, the other answers and checks
    back. *)
Definition startA : list Ice.Event :=
  [Ice.SetSockets [sockA] true; Ice.AddRemote (cand hostB 2000); Ice.ConnectToHost; Ice.PairTimer 1].
Definition a1 := go cfgA startA (Ice.newComponent 1).
Definition startB : list Ice.Event :=
  [Ice.SetSockets [sockB] true; Ice.AddRemote (cand hostA 1000); fromA (sent a1)].
Definition b1 := go cfgB startB (Ice.newComponent 1).
Definition a2 := go cfgA [fromB (sent b1)] a1.
Definition b2 := go cfgB [Ice.PairTimer 1] b1.
Definition a3 := go cfgA [fromB (sent b2)] a2.
Definition b3 := go cfgB [fromA (sent a3)] b2.

(** Both agents connect, each once. *)
Example two_agents_connect :
  Ice.activePair a3 = Some 1%nat /\ Ice.activePair b3 = Some 1%nat /\
  Ice.Connected ∈ Ice.log a2 /\ Ice.Connected ∈ Ice.log b3.
Proof.
  assert (forall l, existsb (fun o => match o with Ice.Connected => true | _ => false end) l = true ->
    Ice.Connected ∈ l) as H.
  { intros l (o & Ho & Hc)%existsb_exists. destruct o; try done. by apply list_elem_of_In. }
  split_and!; [vm_compute; reflexivity|vm_compute; reflexivity|apply H; vm_compute; reflexivity
    |apply H; vm_compute; reflexivity].
Qed.
End IceToy.
