(* ===== verification/IceFacts.v ===== *)
(** * ICE components: theorems

    The priority formulas, the invariant of a component's pairs, and which pair
    is selected. *)
From S2P Require Import Prelude DataStream Utils StunMessage StunCodec QMap StunTransaction TurnAllocation IceComponent.
Import Ice.

#[local] Arguments find_pair : simpl never.
#[local] Arguments update_pair : simpl never.
#[local] Arguments priority : simpl never.

(** ** Pairs as objects with a fixed part *)

(** What never changes in a pair. *)
Definition key (p : CandidatePair) :=
  (cp_id p, m_controlling p, transport p, m_component p, remote p).

Lemma key_id p q : key p = key q -> cp_id p = cp_id q.
Proof. unfold key. congruence. Qed.

Lemma key_priority p q : key p = key q -> priority p = priority q.
Proof. unfold key, priority. intros [= _ -> -> -> ->]. done. Qed.

#[export] Instance not_after_trans : Transitive not_after.
Proof. unfold Transitive, not_after. lia. Qed.
#[export] Instance not_after_total : Total not_after.
Proof. unfold Total, not_after. lia. Qed.

Section Facts.
Context (E : Env).

(** A pair is in progress exactly while it has a transaction, which still waits
    for its response; only a succeeded pair is nominated. *)
Record pair_ok (p : CandidatePair) : Prop := {
  po_progress : m_state p = InProgressState <-> is_Some (transaction p);
  po_waiting t : transaction p = Some t -> Turn.pending (uninit E) t;
  po_nominated : nominated p = true -> m_state p = SucceededState
}.

(** The pairs of a component: one object per number, in order of priority, each
    well-formed; the active pair is one of them and is nominated. *)
Record pairs_ok (s : QXmppIceComponent) : Prop := {
  ps_ids : NoDup (cp_id <$> pairs s);
  ps_fresh : Forall (fun p => (cp_id p < created s)%nat) (pairs s);
  ps_sorted : StronglySorted not_after (pairs s);
  ps_each : Forall pair_ok (pairs s);
  ps_active : forall a, activePair s = Some a ->
    exists p, p ∈ pairs s /\ cp_id p = a /\ nominated p = true;
  ps_remotes : NoDup ((fun c => (c_host c, c_port c)) <$> remoteCandidates s)
}.

(** The selected pair has the highest priority of the nominated ones. [best_but i]
    leaves the pair numbered [i] out. *)
Definition best_but (i : option nat) (s : QXmppIceComponent) : Prop :=
  forall p, p ∈ pairs s -> nominated p = true -> Some (cp_id p) <> i ->
  exists a, a ∈ pairs s /\ activePair s = Some (cp_id a) /\ priority p <= priority a.
Definition best := best_but None.

(** ** Operations that leave the pairs alone *)

Definition frame (s s' : QXmppIceComponent) : Prop :=
  pairs s' = pairs s /\ activePair s' = activePair s /\ remoteCandidates s' = remoteCandidates s /\
  (created s <= created s')%nat.

#[local] Instance frame_preorder : PreOrder frame.
Proof.
  split; [by intros s|]. intros s1 s2 s3 (?&?&?&?) (?&?&?&?). split_and!; [congruence..|lia].
Qed.

Lemma frame_pairs s s' : frame s s' -> pairs_ok s -> pairs_ok s'.
Proof.
  intros (E1 & E2 & E3 & Hc) [Hi Hf ? ? ? ?]. split; rewrite ?E1, ?E2, ?E3; try done.
  eapply Forall_weaken; [exact Hf|]. cbn. lia.
Qed.

Lemma frame_best i s s' : frame s s' -> best_but i s -> best_but i s'.
Proof. intros (E1 & E2 & _ & _). unfold best_but. by rewrite E1, E2. Qed.

Lemma emit_frame o s : frame s (emit o s).
Proof. done. Qed.

Lemma update_gathering_frame s : frame s (updateGatheringState s).
Proof. unfold updateGatheringState. by case_decide. Qed.

Lemma transportWrite_frame t data host port s : frame s (transportWrite E t data host port s).2.
Proof. destruct t; [done|]. simpl. by destruct (Turn.writeDatagram _ _ _ _ _ _ _). Qed.

Lemma writeStunTo_frame cfg m t host port s : frame s (writeStunTo E cfg m t host port s).
Proof. apply transportWrite_frame. Qed.

Lemma stunFinished_frame t d s : frame s (stunFinished E t d s).
Proof.
  unfold stunFinished. cbv zeta.
  assert (forall s', frame s s' -> frame s (updateGatheringState (remove_stun t s'))) as H.
  { intros s' Hs. etrans; [exact Hs|]. etrans; [|apply update_gathering_frame]. done. }
  destruct (_ =? _); [|by apply H].
  destruct (reflexiveAddress _) as [[host port]|]; [|done].
  destruct (known_reflexive _ _ _); [done|]. cbn [fresh]. apply H. split_and!; cbn; try done. lia.
Qed.

Lemma stunSignals_frame t d sigs s : frame s (stunSignals E t d sigs s).
Proof.
  unfold stunSignals. assert (frame s (set_stun t s)) as H by done. revert H.
  generalize (set_stun t s) as s'. induction sigs as [|[m|] sigs IH]; intros s' Hs; cbn [foldl];
    [done| |]; apply IH; (etrans; [exact Hs|]); [apply transportWrite_frame|apply stunFinished_frame].
Qed.

Lemma turnConnected_frame s : frame s (turnConnected E s).
Proof.
  unfold turnConnected. cbn [fresh]. etrans; [|apply update_gathering_frame].
  split_and!; cbn; try done. lia.
Qed.

(** ** Updating one pair *)

Lemma update_map_key pid f (l : list CandidatePair) :
  Forall (fun p => cp_id p = pid -> key (f p) = key p) l ->
  key <$> map (fun p => if decide (cp_id p = pid) then f p else p) l = key <$> l.
Proof. induction 1 as [|p l Hp Hl IH]; [done|]. cbn [map].
  rewrite !fmap_cons, IH. f_equal. case_decide; auto. Qed.

Lemma keys_ids (l k : list CandidatePair) : key <$> l = key <$> k -> cp_id <$> l = cp_id <$> k.
Proof.
  revert k. induction l as [|p l IH]; intros [|q k] H; simplify_eq/=; [done|].
  f_equal; [done|]. by apply IH.
Qed.

Lemma keys_sorted (l k : list CandidatePair) :
  key <$> l = key <$> k -> StronglySorted not_after k -> StronglySorted not_after l.
Proof.
  revert k. induction l as [|p l IH]; intros [|q k] H Hs; try done.
  rewrite !fmap_cons in H. apply (inj2 cons) in H as [Hk Hl]. apply StronglySorted_inv in Hs as [Hs Hf].
  constructor; [by eapply IH|].
  assert (forall l k, key <$> l = key <$> k -> Forall (not_after q) k -> Forall (not_after q) l) as Hall.
  { clear. induction l as [|p l IH]; intros [|q' k] H Hf; try done.
    rewrite !fmap_cons in H. apply (inj2 cons) in H as [Hk Hl]. apply Forall_cons in Hf as [Hq Hf].
    constructor; [|by eapply IH]. unfold not_after in *.
    by rewrite (key_priority p q'). }
  eapply Forall_weaken; [eapply Hall; [apply Hl|done]|]. intros x. unfold not_after.
  by rewrite (key_priority p q).
Qed.

(** The condition under which changing the pair [pid] keeps the invariant. *)
Definition sound_update (pid : nat) (f : CandidatePair -> CandidatePair) (s : QXmppIceComponent) : Prop :=
  forall p, p ∈ pairs s -> cp_id p = pid ->
    key (f p) = key p /\ pair_ok (f p) /\ (nominated p = true -> nominated (f p) = true).

Lemma update_ok pid f s : pairs_ok s -> sound_update pid f s -> pairs_ok (update_pair pid f s).
Proof.
  intros [Hi Hf Hs He Ha Hr] Hu. unfold update_pair.
  assert (key <$> map (fun p => if decide (cp_id p = pid) then f p else p) (pairs s) = key <$> pairs s) as Hk.
  { apply update_map_key, Forall_forall. intros p Hp Hid. by apply Hu. }
  pose proof (keys_ids _ _ Hk) as Hids. split; cbn; try done.
  - by rewrite Hids.
  - rewrite <-(Forall_fmap cp_id (fun i => (i < created s)%nat)) in *. by rewrite Hids.
  - by eapply keys_sorted.
  - apply Forall_forall. intros q (p & -> & Hp)%list_elem_of_fmap.
    case_decide; [by apply Hu|]. rewrite Forall_forall in He. by apply He.
  - intros a (p & Hp & Hid & Hn)%Ha.
    exists (if decide (cp_id p = pid) then f p else p). split_and!.
    + cbn. apply list_elem_of_fmap. by exists p.
    + case_decide; [|done]. destruct (Hu p Hp) as (Hkey & _); [done|]. by rewrite (key_id _ _ Hkey).
    + case_decide; [|done]. by apply Hu.
Qed.

(** ** The relation every event but [Close] satisfies *)

(** An active pair is only replaced by one of at least its priority. *)
Definition mono (s s' : QXmppIceComponent) : Prop :=
  forall a, a ∈ pairs s -> activePair s = Some (cp_id a) ->
  exists a', a' ∈ pairs s' /\ activePair s' = Some (cp_id a') /\ priority a <= priority a'.

#[local] Instance mono_preorder : PreOrder mono.
Proof.
  split; [intros s a ??; by exists a|]. intros s1 s2 s3 H1 H2 a Ha Hact.
  destruct (H1 a Ha Hact) as (b & Hb & Hbact & ?). destruct (H2 b Hb Hbact) as (c & ? & ? & ?).
  exists c. split_and!; try done. lia.
Qed.

Definition good (s s' : QXmppIceComponent) : Prop :=
  pairs_ok s -> pairs_ok s' /\ (best s -> best s') /\ mono s s'.

#[local] Instance good_preorder : PreOrder good.
Proof.
  split; [by intros s Hs|]. intros s1 s2 s3 H12 H23 H1.
  destruct (H12 H1) as (H2 & Hb & Hm). destruct (H23 H2) as (H3 & Hb' & Hm').
  split_and!; auto. by etrans.
Qed.

Lemma frame_mono s s' : frame s s' -> mono s s'.
Proof. intros (E1 & E2 & _) a Ha Hact. exists a. rewrite E1, E2. done. Qed.

Lemma frame_good s s' : frame s s' -> good s s'.
Proof.
  intros Hf Hs. split_and!; [by eapply frame_pairs|by apply frame_best|by apply frame_mono].
Qed.

(** The pairs whose keys a list still has. *)
Lemma same_key_mono s s' :
  activePair s' = activePair s -> (forall p, p ∈ pairs s -> exists p', p' ∈ pairs s' /\ key p' = key p) ->
  mono s s'.
Proof.
  intros Ea Hk a Ha Hact. destruct (Hk a Ha) as (a' & Ha' & Ekey).
  exists a'. rewrite Ea, (key_id _ _ Ekey), (key_priority _ _ Ekey). done.
Qed.

Lemma update_elem pid f s q :
  q ∈ pairs (update_pair pid f s) <->
  exists p, p ∈ pairs s /\ q = if decide (cp_id p = pid) then f p else p.
Proof. unfold update_pair. cbn. rewrite list_elem_of_fmap. naive_solver. Qed.

Lemma update_keeps pid f s :
  (forall p, p ∈ pairs s -> cp_id p = pid -> key (f p) = key p) ->
  forall p, p ∈ pairs s -> exists p', p' ∈ pairs (update_pair pid f s) /\ key p' = key p.
Proof.
  intros Hk p Hp. eexists. split; [apply update_elem; eexists; split; [exact Hp|done]|].
  case_decide; auto.
Qed.

Lemma update_mono pid f s : sound_update pid f s -> mono s (update_pair pid f s).
Proof. intros Hu. apply same_key_mono; [done|]. apply update_keeps. intros. by apply Hu. Qed.

(** Only the updated pair may have become nominated. *)
Lemma update_best pid f s : sound_update pid f s -> best s -> best_but (Some pid) (update_pair pid f s).
Proof.
  intros Hu Hb q Hq Hn Hne. apply update_elem in Hq as (p & Hp & ->).
  case_decide as Hid.
  { exfalso. apply Hne. f_equal. destruct (Hu p Hp Hid) as (Hk & _). by rewrite (key_id _ _ Hk). }
  destruct (Hb p Hp Hn) as (a & Ha & Hact & Hle); [done|].
  destruct (update_keeps pid f s) with (p := a) as (a' & Ha' & Hk); [|done|].
  { intros. by apply Hu. }
  exists a'. by rewrite (key_id _ _ Hk), (key_priority _ _ Hk).
Qed.

Lemma update_best_same pid f s :
  sound_update pid f s -> (forall p, p ∈ pairs s -> cp_id p = pid -> nominated (f p) = nominated p) ->
  best s -> best (update_pair pid f s).
Proof.
  intros Hu Hn Hb q Hq Hnq _. pose proof (update_best pid f s Hu Hb q Hq Hnq) as H.
  apply update_elem in Hq as (p & Hp & ->). case_decide as Hid; [|by apply H; congruence].
  rewrite Hn in Hnq by done. destruct (Hb p Hp Hnq) as (a & Ha & Hact & Hle); [done|].
  destruct (update_keeps pid f s) with (p := a) as (a' & Ha' & Hk); [|done|].
  { intros. by apply Hu. }
  destruct (Hu p Hp Hid) as (Hkp & _).
  exists a'. by rewrite (key_id _ _ Hk), (key_priority _ _ Hk), (key_priority _ _ Hkp).
Qed.

Lemma update_good pid f s :
  sound_update pid f s -> (forall p, p ∈ pairs s -> cp_id p = pid -> nominated (f p) = nominated p) ->
  good s (update_pair pid f s).
Proof.
  intros Hu Hn Hs. split_and!; [by apply update_ok|by apply update_best_same|by apply update_mono].
Qed.

Lemma find_pair_elem pid s p : find_pair pid s = Some p -> p ∈ pairs s /\ cp_id p = pid.
Proof.
  unfold find_pair. intros ([i q] & Hf & ->)%fmap_Some. apply list_find_Some in Hf as (Hi & Hid & _).
  split; [by eapply list_elem_of_lookup_2|done].
Qed.

Lemma find_pair_ext pid s s' : pairs s = pairs s' -> find_pair pid s = find_pair pid s'.
Proof. unfold find_pair. by intros ->. Qed.

(** Two pairs of the list with one number are one pair. *)
Lemma pair_unique s p q : pairs_ok s -> p ∈ pairs s -> q ∈ pairs s -> cp_id p = cp_id q -> p = q.
Proof.
  intros [Hn _ _ _ _ _]. revert Hn. generalize (pairs s) as l. induction l as [|x l IH]; [set_solver|].
  rewrite fmap_cons, NoDup_cons, !elem_of_cons. intros [Hx Hn] [->|Hp] [->|Hq] E'; try done.
  - destruct Hx. rewrite E'. by apply list_elem_of_fmap_2.
  - destruct Hx. rewrite <-E'. by apply list_elem_of_fmap_2.
  - by apply IH.
Qed.

Lemma find_pair_iff pid s p : pairs_ok s -> p ∈ pairs s -> cp_id p = pid -> find_pair pid s = Some p.
Proof.
  intros Hs Hp Hid. destruct (find_pair pid s) as [q|] eqn:Ef.
  - apply find_pair_elem in Ef as [Hq Hid']. f_equal. by apply (pair_unique s); try done; congruence.
  - unfold find_pair in Ef. apply fmap_None, list_find_None in Ef. rewrite Forall_forall in Ef.
    by destruct (Ef p Hp).
Qed.

(** ** [complete] picks the best pair *)

Lemma complete_pairs pid s : pairs (complete pid s) = pairs s.
Proof.
  unfold complete. destruct (find_pair pid s); [|done]. destruct (nominated _); [|done].
  destruct (activePair _); [|done]. destruct (find_pair _ _); [|done]. by destruct (_ <? _).
Qed.

Lemma complete_ok pid s : pairs_ok s -> pairs_ok (complete pid s).
Proof.
  intros Hs. unfold complete. destruct (find_pair pid s) as [p|] eqn:Ef; [|done].
  apply find_pair_elem in Ef as [Hp Hid]. destruct (nominated p) eqn:Hn; [|done].
  assert (forall s', pairs s' = pairs s -> created s' = created s -> remoteCandidates s' = remoteCandidates s ->
    activePair s' = Some pid \/ activePair s' = activePair s -> pairs_ok s') as H.
  { intros s' E1 E2 E3 Ha. destruct Hs as [? ? ? ? Hact ?].
    split; rewrite ?E1, ?E2, ?E3; try done. intros a Ha'.
    destruct Ha as [Ha|Ha]; rewrite Ha in Ha'; simplify_eq; [by exists p|auto]. }
  cbn. destruct (activePair s) as [aid|] eqn:Ea; [|apply H; cbn; auto].
  rewrite (find_pair_ext _ _ s) by done.
  destruct (find_pair aid s); [|apply H; cbn; auto].
  destruct (_ <? _); apply H; cbn; auto.
Qed.

Lemma complete_mono pid s : pairs_ok s -> mono s (complete pid s).
Proof.
  intros Hs a Ha Hact. rewrite complete_pairs. unfold complete.
  destruct (find_pair pid s) as [p|] eqn:Ef; [|by exists a].
  apply find_pair_elem in Ef as [Hp Hid]. destruct (nominated p); [|by exists a].
  cbn. rewrite Hact. rewrite (find_pair_ext _ _ s) by done.
  rewrite (find_pair_iff _ s a) by done.
  destruct (Z.ltb_spec (priority a) (priority p)); [|by exists a].
  exists p. cbn. split_and!; [done|congruence|lia].
Qed.

Lemma complete_best pid s : pairs_ok s -> best_but (Some pid) s -> best (complete pid s).
Proof.
  intros Hs Hb q Hq Hn _. rewrite complete_pairs in *.
  destruct (decide (cp_id q = pid)) as [Hid|Hid].
  - unfold complete. rewrite (find_pair_iff _ s q) by done. rewrite Hn. cbn.
    destruct (activePair s) as [aid|] eqn:Ea; [|exists q; cbn; by rewrite Hid].
    destruct (ps_active _ Hs aid Ea) as (a & Ha & Haid & _).
    rewrite (find_pair_ext _ _ s) by done.
    rewrite (find_pair_iff _ s a) by done.
    destruct (Z.ltb_spec (priority a) (priority q)).
    + exists q. cbn. by rewrite Hid.
    + exists a. cbn. by rewrite Haid.
  - destruct (Hb q Hq Hn) as (a & Ha & Hact & Hle); [congruence|].
    destruct (complete_mono pid s Hs a Ha Hact) as (a' & Ha' & Hact' & Hle').
    rewrite complete_pairs in Ha'. exists a'. split_and!; try done. lia.
Qed.

Lemma complete_good pid s s' :
  pairs_ok s' -> (best s -> best_but (Some pid) s') -> mono s s' -> good s (complete pid s').
Proof.
  intros Hs' Hb Hm Hs. split_and!.
  - by apply complete_ok.
  - intros ?. apply complete_best; auto.
  - etrans; [exact Hm|]. by apply complete_mono.
Qed.

(** ** Checks *)

Lemma fresh_frame s : frame s (fresh s).2.
Proof. split_and!; cbn; try done. lia. Qed.

Lemma pending_new_t id r : Turn.pending (uninit E) (newTransaction (uninit E) id r).
Proof. apply Turn.pending_new. Qed.

(** A check may start for a pair that is neither in progress nor succeeded. *)
Lemma performCheck_good cfg pid nominate s :
  (forall p, p ∈ pairs s -> cp_id p = pid -> m_state p <> InProgressState /\ m_state p <> SucceededState) ->
  good s (performCheck E cfg pid nominate s).
Proof.
  intros Hst Hs. pose proof (ps_each _ Hs) as He. rewrite Forall_forall in He.
  cut (good s (performCheck E cfg pid nominate s)); [intros Hg; exact (Hg Hs)|].
  unfold performCheck. cbn [fresh]. cbv zeta. etrans; [apply frame_good, fresh_frame|].
  apply update_good; [|done]. intros p Hp Hid. cbn in Hp.
  destruct (Hst p Hp Hid) as [H1 H2]. split_and!; [done| |done]. split; cbn.
  - by split; [eexists|].
  - intros t [= <-]. apply pending_new_t.
  - intros Hn. by apply (po_nominated _ (He p Hp)) in Hn.
Qed.

Lemma checkCandidates_good cfg s : good s (checkCandidates E cfg s).
Proof.
  unfold checkCandidates. case_bool_decide; [done|].
  destruct (list_find _ _) as [[i p]|] eqn:Ef; [|done].
  apply list_find_Some in Ef as (Hi & Hst & _). apply list_elem_of_lookup_2 in Hi.
  intros Hs. apply performCheck_good; [|done]. intros q Hq Hid.
  rewrite (pair_unique s q p), Hst by done. done.
Qed.

Lemma connectToHost_good cfg s : good s (connectToHost E cfg s).
Proof.
  unfold connectToHost. destruct (activePair s); [done|].
  etrans; [apply checkCandidates_good|by apply frame_good].
Qed.

(** *** The signals of a pair's transaction *)

Lemma update_comp pid f g s :
  (forall p, cp_id (f p) = cp_id p) ->
  update_pair pid g (update_pair pid f s) = update_pair pid (fun p => g (f p)) s.
Proof.
  intros Hf. unfold update_pair. unfold upd. cbn. f_equal. rewrite map_map. apply map_ext.
  intros p. destruct (decide (cp_id p = pid)) as [Hp|Hp].
  - by rewrite decide_True by (by rewrite Hf).
  - by rewrite decide_False.
Qed.

Section Signals.
Context (cfg : QXmppIcePrivate) (pid : nat) (s : QXmppIceComponent) (p : CandidatePair)
  (t : QXmppStunTransaction).
Hypothesis Hs : pairs_ok s.
Hypothesis Hp : find_pair pid s = Some p.
Hypothesis Ht : transaction p = Some t.

Lemma the_pair q : q ∈ pairs s -> cp_id q = pid -> q = p.
Proof.
  intros Hq Hid. destruct (find_pair_elem _ _ _ Hp) as [Hin Hid'].
  apply (pair_unique s); try done. congruence.
Qed.

Lemma the_pair_ok : pair_ok p.
Proof.
  pose proof (ps_each _ Hs) as He. rewrite Forall_forall in He. apply He.
  by destruct (find_pair_elem _ _ _ Hp).
Qed.

Lemma the_pair_progress : m_state p = InProgressState.
Proof. apply (po_progress _ the_pair_ok). rewrite Ht. by eexists. Qed.

Lemma not_nominated : nominated p = false.
Proof.
  destruct (nominated p) eqn:Hn; [|done]. pose proof (po_nominated _ the_pair_ok Hn) as H.
  by rewrite the_pair_progress in H.
Qed.

Lemma waiting_sound t' : Turn.pending (uninit E) t' ->
  sound_update pid (fun p => p <| transaction := Some t' |>) s.
Proof.
  intros Hw q Hq Hid. rewrite (the_pair q Hq Hid). split_and!; [done| |done].
  split; cbn; rewrite ?the_pair_progress, ?not_nominated.
  - by split; [eexists|].
  - by intros ? [= <-].
  - done.
Qed.

Lemma finished_sound t' :
  sound_update pid (fun p => checkFinished t' (p <| transaction := Some t' |>)) s.
Proof.
  intros q Hq Hid. rewrite (the_pair q Hq Hid). pose proof not_nominated as Hn.
  unfold checkFinished. destruct (_ =? _).
  - destruct (_ && _); cbn; destruct (nominating p); cbn; rewrite Hn;
      (split_and!; [done| |done]; split; cbn; rewrite ?Hn; try done; by split; [|intros []]).
  - cbn. rewrite Hn. split_and!; [done| |done]. split; cbn; rewrite ?Hn; try done; by split; [|intros []].
Qed.

(** What the signals do to the pairs. *)
Lemma pairSignals_retry t' sigs : retry t = (t', sigs) -> good s (pairSignals E cfg pid t' sigs s).
Proof.
  intros Hr. destruct (po_waiting _ the_pair_ok t Ht) as [Hw Hresp]. pose proof Hr as Hr'.
  unfold pairSignals.
  apply retry_waiting in Hr as [(-> & Hw' & _)|(-> & _ & _ & _ & Hc & _)]; [| |done]; cbn [foldl].
  - assert (good s (update_pair pid (fun p => p <|transaction := Some t'|>) s)) as Hg.
    { apply update_good; [|done]. apply waiting_sound. split; [done|].
      unfold retry in Hr'. cbn in Hr'. destruct (_ <=? _); by simplify_eq. }
    etrans; [exact Hg|].
    match goal with |- good _ (match ?x with _ => _ end) => destruct x end; [|done].
    apply frame_good, writeStunTo_frame.
  - rewrite update_comp by done. apply update_good; [apply finished_sound|].
    intros q Hq Hid. unfold checkFinished. rewrite Hc. done.
Qed.

Lemma pairSignals_read m t' sigs : readStun m t = (t', sigs) ->
  let s' := pairSignals E cfg pid t' sigs s in
  pairs_ok s' /\ (best s -> best_but (Some pid) s') /\ mono s s'.
Proof.
  intros Hr. unfold pairSignals.
  apply readStun_cases in Hr as [(-> & _)|(-> & ->)]; cbn [foldl].
  - rewrite update_comp by done. pose proof (finished_sound t') as Hu.
    split_and!; [by apply update_ok|by apply update_best|by apply update_mono].
  - pose proof (waiting_sound t (po_waiting _ the_pair_ok t Ht)) as Hu.
    split_and!; [by apply update_ok|by apply update_best|by apply update_mono].
Qed.
End Signals.

(** ** New pairs *)

(** The invariant without the order, which [sortPairs] restores. *)
Record unsorted_ok (s : QXmppIceComponent) : Prop := {
  us_ids : NoDup (cp_id <$> pairs s);
  us_fresh : Forall (fun p => (cp_id p < created s)%nat) (pairs s);
  us_each : Forall pair_ok (pairs s);
  us_active : forall a, activePair s = Some a ->
    exists p, p ∈ pairs s /\ cp_id p = a /\ nominated p = true;
  us_remotes : NoDup ((fun c => (c_host c, c_port c)) <$> remoteCandidates s)
}.

Lemma unsorted_of s : pairs_ok s -> unsorted_ok s.
Proof. by intros []. Qed.

Lemma sortPairs_perm l : sortPairs l ≡ₚ l.
Proof. apply merge_sort_Permutation. Qed.

Lemma sort_ok s : unsorted_ok s -> pairs_ok (s <| pairs ::= sortPairs |>).
Proof.
  intros [Hi Hf He Ha Hr]. split; cbn; rewrite ?sortPairs_perm; try done.
  - by apply (StronglySorted_merge_sort not_after).
  - intros a (p & Hp & ?)%Ha. exists p. by rewrite sortPairs_perm.
Qed.

Definition grow (s s' : QXmppIceComponent) : Prop :=
  unsorted_ok s -> unsorted_ok s' /\ (best s -> best s') /\ mono s s'.

#[local] Instance grow_preorder : PreOrder grow.
Proof.
  split; [by intros s Hs|]. intros s1 s2 s3 H12 H23 H1.
  destruct (H12 H1) as (H2 & Hb & Hm). destruct (H23 H2) as (H3 & Hb' & Hm').
  split_and!; auto. by etrans.
Qed.

(** The pairs of [s] stay, and the new ones are not nominated. *)
Lemma superset_best_mono s s' :
  activePair s' = activePair s -> (forall p, p ∈ pairs s -> p ∈ pairs s') ->
  (forall p, p ∈ pairs s' -> p ∈ pairs s \/ nominated p = false) ->
  (best s -> best s') /\ mono s s'.
Proof.
  intros Ea Hsub Hnew. split.
  - intros Hb p Hp Hn _. destruct (Hnew p Hp) as [Hin|?]; [|congruence].
    destruct (Hb p Hin Hn) as (a & ? & ? & ?); [done|]. exists a. rewrite Ea. auto.
  - intros a Ha Hact. exists a. rewrite Ea. auto with lia.
Qed.

Lemma sort_best_mono s : 
  (best s -> best (s <| pairs ::= sortPairs |>)) /\ mono s (s <| pairs ::= sortPairs |>).
Proof.
  apply superset_best_mono; cbn; [done| |]; intros p; rewrite sortPairs_perm; auto.
Qed.

Lemma grow_good s s' : grow s s' -> good s (s' <| pairs ::= sortPairs |>).
Proof.
  intros Hg Hs. destruct (Hg (unsorted_of s Hs)) as (Hu & Hb & Hm).
  destruct (sort_best_mono s') as [Hb' Hm'].
  split_and!; [by apply sort_ok|auto|by etrans].
Qed.

Lemma append_grow cfg c t s : grow s (appendPair cfg c t s).2.
Proof.
  intros [Hi Hf He Ha Hr]. cbn. split.
  - split; cbn; [| | | |done].
    + rewrite fmap_app. apply NoDup_app. split_and!; [done| |apply NoDup_singleton].
      intros i (p & -> & Hp)%list_elem_of_fmap Hin%list_elem_of_singleton.
      rewrite Forall_forall in Hf. apply Hf in Hp. cbn in Hin. lia.
    + apply Forall_app. split; [eapply Forall_weaken; [exact Hf|]; cbn; lia|].
      constructor; [cbn; lia|done].
    + apply Forall_app. split; [done|]. constructor; [|done].
      split; cbn; try done; by split; [|intros []].
    + intros a (p & Hp & ?)%Ha. exists p. split; [set_solver|done].
  - apply superset_best_mono; cbn; [done|set_solver|]. intros p [?|Hp]%elem_of_app; [by left|].
    right. apply list_elem_of_singleton in Hp as ->. done.
Qed.

Lemma frame_grow s s' : frame s s' -> grow s s'.
Proof.
  intros Hf [Hi Hfr He Ha Hr]. pose proof Hf as (E1 & E2 & E3 & Hc).
  split; [|split; [by apply frame_best|by apply frame_mono]].
  split; rewrite ?E1, ?E2, ?E3; try done. eapply Forall_weaken; [exact Hfr|]. cbn. lia.
Qed.

Lemma pairTransport_grow cfg c t s : grow s (pairTransport E cfg c s t).
Proof.
  unfold pairTransport. cbv zeta. destruct (isCompatibleAddress _ _); [|done].
  destruct (appendPair cfg c t s) as [n s'] eqn:Ea.
  etrans; [apply (append_grow cfg c t)|]. rewrite Ea. cbn [snd].
  destruct (fallbackPair s'); [done|]. case_decide; [|done]. by apply frame_grow.
Qed.

Lemma foldl_rel {A B} (R : A -> A -> Prop) `{!PreOrder R} (f : A -> B -> A) (l : list B) a :
  (forall a b, R a (f a b)) -> R a (foldl f a l).
Proof.
  intros Hf. revert a. induction l as [|b l IH]; intros a; cbn [foldl]; [done|].
  etrans; [apply Hf|apply IH].
Qed.

Lemma known_remote_spec host port s :
  known_remote host port s = false ->
  (host, port) ∉ ((fun c => (c_host c, c_port c)) <$> remoteCandidates s).
Proof.
  unfold known_remote. intros Hk (c & Ec & Hin)%list_elem_of_fmap. simplify_eq.
  assert (existsb (fun c' => bool_decide (c_host c' = c_host c) && (c_port c' =? c_port c))
            (remoteCandidates s) = true) as Ht; [|congruence].
  apply existsb_exists. exists c. split; [by apply list_elem_of_In|].
  by rewrite bool_decide_eq_true_2, Z.eqb_refl by done.
Qed.

Lemma add_remote_grow c s :
  (c_host c, c_port c) ∉ ((fun c => (c_host c, c_port c)) <$> remoteCandidates s) ->
  grow s (s <| remoteCandidates ::= fun l => l ++ [c] |>).
Proof.
  intros Hnew [Hi Hf He Ha Hr]. split; [|by apply superset_best_mono; auto].
  split; cbn; try done. rewrite fmap_app. apply NoDup_app. split_and!; [done| |apply NoDup_singleton].
  intros x Hx Hin%list_elem_of_singleton. cbn in Hin. subst. done.
Qed.

Lemma addRemoteCandidate_good cfg c s : good s (addRemoteCandidate E cfg c s).2.
Proof.
  unfold addRemoteCandidate. destruct (acceptable _ _); [|done]. cbn [negb].
  destruct (known_remote _ _ _) eqn:Hk; [done|]. cbn [snd]. apply grow_good.
  etrans; [by apply add_remote_grow, known_remote_spec|].
  apply (foldl_rel grow). intros. apply pairTransport_grow.
Qed.

(** ** Messages from the peer *)

Lemma best_weaken i s : best s -> best_but i s.
Proof. intros Hb p Hp Hn _. by apply Hb. Qed.

Lemma remoteCandidateOf_good m host port s : good s (remoteCandidateOf E m host port s).2.
Proof.
  unfold remoteCandidateOf. destruct (list_find _ _) as [[i c]|] eqn:Ef; [done|].
  apply list_find_None in Ef. cbn [fresh snd]. cbv zeta.
  intros [Hi Hf Hs He Ha Hr]. split; [|by apply superset_best_mono; auto].
  split; cbn; try done.
  - eapply Forall_weaken; [exact Hf|]. cbn. lia.
  - rewrite fmap_app. apply NoDup_app. split_and!; [done| |apply NoDup_singleton].
    intros x (c & -> & Hc)%list_elem_of_fmap Hin%list_elem_of_singleton. cbn in Hin. simplify_eq.
    rewrite Forall_forall in Ef. by apply (Ef c Hc).
Qed.

Lemma pairOf_good cfg t host port c s : good s (pairOf cfg t host port c s).2.
Proof.
  unfold pairOf. destruct (list_find _ _) as [[i p]|]; [done|].
  destruct (appendPair cfg c t s) as [n s'] eqn:Ea. cbn [snd]. apply grow_good.
  pose proof (append_grow cfg c t s) as H. by rewrite Ea in H.
Qed.

Lemma triggerCheck_ok cfg m pid s : pairs_ok s ->
  let s' := triggerCheck E cfg m pid s in
  pairs_ok s' /\ (best s -> best_but (Some pid) s') /\ mono s s'.
Proof.
  intros Hs. unfold triggerCheck. cbv zeta.
  assert (pairs_ok s /\ (best s -> best_but (Some pid) s) /\ mono s s) as Hrefl
    by (split_and!; [done|apply best_weaken|done]).
  destruct (find_pair pid s) as [p|] eqn:Ef; [|done].
  assert (forall q, q ∈ pairs s -> cp_id q = pid -> q = p) as Hu by by apply the_pair.
  pose proof (the_pair_ok _ _ _ Hs Ef) as Hp.
  assert (forall nom, m_state p <> InProgressState -> m_state p <> SucceededState ->
    let s' := performCheck E cfg pid nom s in
    pairs_ok s' /\ (best s -> best_but (Some pid) s') /\ mono s s') as Hcheck.
  { intros nom H1 H2. destruct (performCheck_good cfg pid nom s) as (? & Hb & ?); [|done|].
    - intros q Hq Hid. by rewrite (Hu q Hq Hid).
    - split_and!; try done. intros ?. by apply best_weaken, Hb. }
  destruct (m_state p) eqn:Est; try (case_bool_decide; [done|by apply Hcheck]).
  - assert (sound_update pid (fun p => p <| nominating := nominating p || useCandidate m |>) s) as Hsu.
    { intros q Hq Hid. rewrite (Hu q Hq Hid). split_and!; [done| |done]. destruct Hp. by split. }
    split_and!; [by apply update_ok|by apply update_best|by apply update_mono].
  - destruct (useCandidate m); [|done].
    assert (sound_update pid (fun p => p <| nominated := true |>) s) as Hsu.
    { intros q Hq Hid. rewrite (Hu q Hq Hid). split_and!; [done| |done]. destruct Hp. by split. }
    split_and!; [by apply update_ok|by apply update_best|by apply update_mono].
Qed.

Lemma handleRequest_good cfg m t host port s : good s (handleRequest E cfg m t host port s).
Proof.
  unfold handleRequest. destruct (_ && _); [by apply frame_good|].
  destruct (_ && _); [by apply frame_good|].
  etrans; [apply frame_good, (writeStunTo_frame cfg (bindingResponse E m host port) t host port)|].
  set (s1 := writeStunTo _ _ _ _ _ _ _).
  destruct (remoteCandidateOf E m host port s1) as [c s2] eqn:Ec.
  etrans; [apply (remoteCandidateOf_good m host port)|]. rewrite Ec. cbn [snd].
  destruct (pairOf cfg t host port c s2) as [pid s3] eqn:Ep.
  etrans; [apply (pairOf_good cfg t host port c)|]. rewrite Ep. cbn [snd].
  intros Hs. destruct (triggerCheck_ok cfg m pid s3 Hs) as (H1 & H2 & H3).
  by apply complete_good.
Qed.

Lemma handleResponse_good cfg m host port s : good s (handleResponse E cfg m host port s).
Proof.
  intros Hs. unfold handleResponse.
  destruct (list_find _ _) as [[i p]|] eqn:Ef; [|by apply (frame_good s)].
  apply list_find_Some in Ef as (Hi & _ & _). apply list_elem_of_lookup_2 in Hi.
  destruct (transaction p) as [t|] eqn:Et; [|by apply (frame_good s)].
  pose proof (find_pair_iff _ s p Hs Hi eq_refl) as Hf.
  case_decide.
  - destruct (readStun m t) as [t' sigs] eqn:Er.
    destruct (pairSignals_read cfg (cp_id p) s p t Hs Hf Et m t' sigs Er) as (H1 & H2 & H3).
    by apply complete_good.
  - destruct (readStun (unexpectedSource E host) t) as [t' sigs] eqn:Er.
    assert (sigs = [Finished] /\ messageClass (m_response t') = MsgClass.Error) as [-> Hc].
    { unfold readStun in Er. cbn in Er. injection Er as <- <-. split; reflexivity. }
    unfold pairSignals. cbn [foldl]. rewrite update_comp by done.
    apply update_good; [by apply (finished_sound (cp_id p) s p t)| |done].
    intros q Hq Hid. unfold checkFinished. by rewrite Hc.
Qed.

Lemma handleStun_good cfg buffer mt mid t host port s :
  good s (handleStun E cfg buffer mt mid t host port s).
Proof.
  unfold handleStun. cbv zeta. destruct (_ && _); [done|].
  destruct (StunMessage.decode _ _ _ _ _ _) as [[[[] m] errs]|]; [| |done].
  - destruct (negb _); [done|]. destruct (stunFor t mid s) as [[st d]|].
    + destruct (readStun m st) as [st' sigs]. apply frame_good, stunSignals_frame.
    + destruct (_ =? _); [apply handleRequest_good|].
      destruct (_ || _); [apply handleResponse_good|done].
  - apply frame_good, (foldl_rel frame). done.
Qed.

Lemma handleDatagram_good cfg t buffer host port s :
  good s (handleDatagram E cfg t buffer host port s).
Proof.
  unfold handleDatagram. destruct (peekType _ _ _ _) as [[mt cookie] mid].
  destruct (_ || _); [|apply handleStun_good]. apply frame_good. unfold handleData.
  by destruct (list_find _ _) as [[i p]|].
Qed.

(** ** The other events *)

Lemma turnSignal_good cfg o s : good s (turnSignal E cfg s o).
Proof.
  destruct o; cbn [turnSignal].
  - apply frame_good, turnConnected_frame.
  - apply frame_good, update_gathering_frame.
  - apply handleDatagram_good.
  - by apply frame_good.
  - by apply frame_good.
Qed.

Lemma turnDo_good cfg f s : good s (turnDo E cfg f s).
Proof.
  unfold turnDo. etrans; [|apply (foldl_rel good); intros; apply turnSignal_good].
  by apply frame_good.
Qed.

Lemma stunCheck_frame server s t : frame s (stunCheck E server s t).
Proof.
  unfold stunCheck. cbv zeta. destruct (isCompatibleAddress _ _); [|done].
  split_and!; cbn; try done. lia.
Qed.

(** Deleting the objects changes nothing else of them. *)
Lemma map_key f (l : list CandidatePair) :
  (forall p, key (f p) = key p) -> key <$> map f l = key <$> l.
Proof. intros Hf. induction l as [|p l IH]; [done|]. cbn [map]. by rewrite !fmap_cons, IH, Hf. Qed.

Lemma delete_good s : good s (s <| pairs ::= map (fun p => p <| deleted := true |>) |>).
Proof.
  intros [Hi Hf Hs He Ha Hr]. set (f := fun p : CandidatePair => p <| deleted := true |>).
  pose proof (map_key f (pairs s) (fun p => eq_refl)) as Hk. pose proof (keys_ids _ _ Hk) as Hids.
  assert (forall p, p ∈ pairs s -> f p ∈ map f (pairs s)) as Hin
    by (intros p Hp; apply list_elem_of_fmap; by exists p).
  split; [split; cbn; fold f; try done|split].
  - by rewrite Hids.
  - rewrite <-(Forall_fmap cp_id (fun i => (i < created s)%nat)) in *. by rewrite Hids.
  - by eapply keys_sorted.
  - apply Forall_forall. intros q (p & -> & Hp)%list_elem_of_fmap.
    rewrite Forall_forall in He. by destruct (He p Hp).
  - intros a (p & Hp & ? & ?)%Ha. exists (f p). auto.
  - intros Hb q (p & -> & Hp)%list_elem_of_fmap Hn _.
    destruct (Hb p Hp Hn) as (a & Haa & ? & ?); [done|]. exists (f a). auto.
  - apply same_key_mono; [done|]. intros p Hp. exists (f p). auto.
Qed.

Lemma addSocket_frame s socket : frame s (addSocket E s socket).
Proof. unfold addSocket. cbn [fresh]. split_and!; cbn; try done. lia. Qed.

Lemma setSockets_good cfg sockets bound s : good s (setSockets E cfg sockets bound s).
Proof.
  unfold setSockets. cbv zeta.
  etrans; [apply (delete_good s)|].
  match goal with |- good ?x _ => set (s0 := x) end.
  match goal with |- context [foldl (addSocket E) ?x sockets] => set (s1 := x) end.
  assert (good s0 s1) as H1 by by apply frame_good.
  etrans; [exact H1|].
  etrans; [apply frame_good, (foldl_rel frame (addSocket E) sockets s1), addSocket_frame|].
  set (s2 := foldl (addSocket E) s1 sockets).
  match goal with |- context [foldl _ ?x (stunServers cfg)] => set (s3 := x) end.
  assert (good s2 s3) as H3 by by apply frame_good.
  etrans; [exact H3|].
  etrans; [apply frame_good, (foldl_rel frame
    (fun s server => foldl (stunCheck E server) s (transports s)) (stunServers cfg) s3)|].
  { intros x server. apply (foldl_rel frame). intros. apply stunCheck_frame. }
  set (s4 := foldl _ s3 _).
  etrans; [|apply frame_good, update_gathering_frame].
  destruct (turnConfigured s4); [|done].
  etrans; [|apply turnDo_good]. by apply frame_good.
Qed.

Lemma retry_timer_good cfg pid s : good s (step E cfg (PairTimer pid) s).
Proof.
  intros Hs. cbn [step]. destruct (find_pair pid s) as [p|] eqn:Ef; cbn [mbind option_bind];
    [|by apply (frame_good s)].
  destruct (transaction p) as [t|] eqn:Et; [|by apply (frame_good s)].
  destruct (m_retryTimer t); [|by apply (frame_good s)].
  destruct (retry t) as [t' sigs] eqn:Er.
  by apply (pairSignals_retry cfg pid s p t Hs Ef Et t' sigs Er).
Qed.

Lemma sendDatagram_frame data s : frame s (sendDatagram E data s).2.
Proof.
  unfold sendDatagram. cbv zeta. destruct (_ ≫= _) as [p|]; [|done].
  destruct (isNull _); [done|]. apply transportWrite_frame.
Qed.

(** Every event but [Close] is [good]. *)
Lemma step_good cfg e s : e <> Close -> good s (step E cfg e s).
Proof.
  intros Hne. destruct e; cbn [step]; try apply turnDo_good.
  - apply addRemoteCandidate_good.
  - apply setSockets_good.
  - apply connectToHost_good.
  - done.
  - destruct (timer s); [apply checkCandidates_good|done].
  - case_bool_decide; [apply handleDatagram_good|done].
  - apply retry_timer_good.
  - destruct (list_find _ _) as [[i [t d]]|]; [|done]. destruct (retry t) as [t' sigs].
    apply frame_good, stunSignals_frame.
  - apply frame_good, sendDatagram_frame.
Qed.

(** [Close] keeps the invariant of the pairs and deselects the active one. *)
Lemma close_ok cfg s : pairs_ok s -> pairs_ok (close E cfg s).
Proof.
  intros Hs. unfold close. cbv zeta.
  assert (forall s', good s s' -> pairs_ok (s' <| timer := false |> <| activePair := None |>)) as H.
  { intros s' Hg. destruct (Hg Hs) as ([] & _). by split. }
  apply H. etrans; [|apply turnDo_good].
  apply (foldl_rel good). intros s' [sock|]; [by apply frame_good|apply turnDo_good].
Qed.

Lemma step_pairs_ok cfg e s : pairs_ok s -> pairs_ok (step E cfg e s).
Proof.
  intros Hs. destruct e; try (by apply (step_good cfg)). by apply close_ok.
Qed.

Lemma run_pairs_ok es s : pairs_ok s -> pairs_ok (run E es s).
Proof.
  revert s. induction es as [|e es IH]; intros s Hs; [done|]. cbn. by apply IH, step_pairs_ok.
Qed.

Lemma new_pairs_ok c : pairs_ok (newComponent c).
Proof. split; cbn; try constructor; done. Qed.

Lemma run_best es s :
  Forall (fun e => e.2 <> Close) es -> pairs_ok s -> best s -> best (run E es s).
Proof.
  intros Hes. revert s. induction Hes as [|e es He Hes IH]; intros s Hs Hb; [done|]. cbn.
  destruct (step_good e.1 e.2 s He Hs) as (Hs' & Hb' & _). apply IH; auto.
Qed.
End Facts.

(** ** Properties *)

(** C37: the priority of a pair. For candidate priorities below 2^31 it is the
    formula of RFC 5245, it fits in 63 bits, both agents compute the same value
    for the same pair whatever their roles, and two pairs have the same
    priority only when their candidates' priorities agree. *)
Theorem ice_pair_priority (controlling : bool) (l r l' r' : Z) :
  0 <= l < 2 ^ 31 -> 0 <= r < 2 ^ 31 -> 0 <= l' < 2 ^ 31 -> 0 <= r' < 2 ^ 31 ->
  let G := if controlling then l else r in
  let D := if controlling then r else l in
  pairPriority controlling l r = 2 ^ 32 * Z.min G D + 2 * Z.max G D + (if D <? G then 1 else 0) /\
  0 <= pairPriority controlling l r < 2 ^ 63 /\
  pairPriority controlling l r = pairPriority (negb controlling) r l /\
  (pairPriority controlling l r = pairPriority controlling l' r' <-> l = l' /\ r = r').
Proof.
  intros Hl Hr Hl' Hr' G D.
  assert (forall c a b, 0 <= a < 2 ^ 31 -> 0 <= b < 2 ^ 31 ->
    pairPriority c a b = 2 ^ 32 * Z.min a b + 2 * Z.max a b +
      (if (if c then b <? a else a <? b) then 1 else 0) /\
    0 <= pairPriority c a b < 2 ^ 63) as H.
  { intros c a b Ha Hb. unfold pairPriority, u64, u32. change (Z.shiftl 1 32) with (2 ^ 32).
    destruct c; rewrite !(uwrap_small 32) by lia;
      (destruct (Z.ltb_spec a b), (Z.ltb_spec b a); rewrite uwrap_small by lia; lia). }
  destruct (H controlling l r Hl Hr) as [E1 B1]. destruct (H controlling l' r' Hl' Hr') as [E2 _].
  destruct (H (negb controlling) r l Hr Hl) as [E3 _].
  split_and!; try lia; rewrite ?E1, ?E2, ?E3; unfold G, D.
  - destruct controlling; lia.
  - destruct controlling; simpl; lia.
  - split; [|intros [-> ->]; done].
    destruct controlling;
      repeat match goal with |- context [?a <? ?b] => destruct (Z.ltb_spec a b) end; lia.
Qed.

Lemma ice_pair_priority_witness :
  pairPriority true 2130706431 1862270975 = pairPriority false 1862270975 2130706431.
Proof.
  destruct (ice_pair_priority true 2130706431 1862270975 0 0) as (_ & _ & H & _); [lia..|].
  exact H.
Defined.

(** C21: in every state a component can reach, its pairs are distinct objects in
    order of priority; a pair is in progress exactly while it has a pending
    transaction, only a succeeded pair is nominated, the active pair is one of
    them and is nominated; and no two remote candidates have the same address
    and port. *)
Theorem ice_pairs_invariant (E : Env) (c : Z) (es : list (QXmppIcePrivate * Event)) :
  pairs_ok E (run E es (newComponent c)).
Proof. apply run_pairs_ok, new_pairs_ok. Qed.

(** C25: until it is closed, a component sends on the best pair: each nominated
    pair has at most the priority of the active one, and whatever happens next
    short of a close replaces the active pair only by one of at least its
    priority. *)
Theorem ice_selects_best (E : Env) (c : Z) (es : list (QXmppIcePrivate * Event)) :
  Forall (fun e => e.2 <> Close) es ->
  let s := run E es (newComponent c) in
  (forall p, p ∈ pairs s -> nominated p = true ->
     exists a, a ∈ pairs s /\ activePair s = Some (cp_id a) /\ priority p <= priority a) /\
  (forall cfg e a, e <> Close -> a ∈ pairs s -> activePair s = Some (cp_id a) ->
     exists a', a' ∈ pairs (step E cfg e s) /\ activePair (step E cfg e s) = Some (cp_id a') /\
       priority a <= priority a').
Proof.
  intros Hes s. pose proof (run_pairs_ok E es _ (new_pairs_ok E c)) as Hs. fold s in Hs.
  split.
  - intros p Hp Hn. apply (run_best E es (newComponent c)); try done; [apply new_pairs_ok|].
    intros ? ?%elem_of_nil. done.
  - intros cfg e a He. destruct (step_good E cfg e s He Hs) as (_ & _ & Hm). apply Hm.
Qed.

Lemma ice_selects_best_witness :
  let s := run IceToy.env (map (pair IceToy.cfgA)
             (IceToy.startA ++ [IceToy.fromB (IceToy.sent IceToy.b1)])) (newComponent 1) in
  existsb nominated (pairs s) = true /\
  (forall p, p ∈ pairs s -> nominated p = true ->
     exists a, a ∈ pairs s /\ activePair s = Some (cp_id a) /\ priority p <= priority a).
Proof.
  split; [vm_compute; reflexivity|].
  apply (ice_selects_best IceToy.env 1 (map (pair IceToy.cfgA)
           (IceToy.startA ++ [IceToy.fromB (IceToy.sent IceToy.b1)]))).
  repeat constructor; discriminate.
Defined.

(** a component ignores a message that is signed with a password that gives
    another HMAC than its own: but for a warning nothing changes, whatever the
    message asks for. *)
Theorem ice_wrong_password_ignored (E : Env) (cfg : QXmppIcePrivate) (t : Transport)
    (m : QXmppStunMessage) (key : bytes) (fp : bool) (host : QHostAddress) (port : Z)
    (s : QXmppIceComponent) :
  (forall x, fromUtf8 E (toUtf8 E x) = x) -> (forall b, len (sha1 E b) = 20) ->
  wf_message m -> m_cookie m = STUN_MAGIC -> m_type m <> 0 ->
  let data := StunMessage.encode (toUtf8 E) (sha1 E) m key fp in
  bytes_ok data -> len data < 65556 -> stunFor t (m_id m) s = None ->
  let password := if negb (Z.land (m_type m) 0xff00 =? 0)
                  then remotePassword cfg else localPassword cfg in
  let body := encode_body (toUtf8 E) m in
  password <> "" -> key <> [] -> toUtf8 E password <> [] ->
  integrity_of (sha1 E) m key body <> integrity_of (sha1 E) m (toUtf8 E password) body ->
  handleDatagram E cfg t data host port s = emit (Warning "Bad message integrity") s.
Proof.
  intros Hu Hs Hm Hc Ht data Hok Hl Hfor password body Hp Hk Hk' Hne.
  unfold handleDatagram, data. rewrite (peek_encode _ _ _ Hs) by done.
  rewrite (proj2 (Z.eqb_neq _ _) Ht), Hc, Z.eqb_refl. cbn [orb negb].
  unfold handleStun. cbv zeta. rewrite Hfor. fold password.
  rewrite (bool_decide_eq_false_2 (password = "")) by done. rewrite andb_false_r.
  rewrite (decode_wrong_key _ _ _ _ Hu Hs) by done. done.
Qed.

(** A request of the peer signed with a wrong password. *)
Definition forged : QXmppStunMessage :=
  (setPriority 1862270975 (setType 0x0001 (setId (map Z.of_nat (seq 1 12)) (newStunMessage 0))))
    <| useCandidate := true |>.

Lemma forged_wf : wf_message forged.
Proof.
  split; try (by vm_compute); try (left; reflexivity); unfold host_ok, forged; cbn;
    split_and!; try lia; try done.
Qed.

Lemma ice_wrong_password_ignored_witness :
  handleDatagram IceToy.env IceToy.cfgB (UdpTransport IceToy.sockB)
    (StunMessage.encode latin1 toy_digest forged (latin1 "guess") true) IceToy.hostA 1000
    (newComponent 1)
  = emit (Warning "Bad message integrity") (newComponent 1).
Proof.
  apply (ice_wrong_password_ignored IceToy.env IceToy.cfgB (UdpTransport IceToy.sockB) forged
           (latin1 "guess") true IceToy.hostA 1000 (newComponent 1));
    [exact fromLatin1_latin1 | exact toy_digest_length | exact forged_wf | reflexivity | discriminate
    | apply (bool_decide_unpack _); vm_compute; exact I | vm_compute; reflexivity | reflexivity
    | discriminate | discriminate | discriminate | vm_compute; discriminate].
Defined.
