(* ===== verification/IceGathering.v ===== *)
(** * ICE components: the gathering state

    The published gathering state always agrees with the transports, the STUN
    transactions and the TURN allocation it summarises; and the ways in which
    gathering and closing go wrong. *)
From S2P Require Import Prelude DataStream Utils StunMessage StunCodec QMap StunTransaction TurnAllocation IceComponent IceFacts.
Import Ice.

(** ** What the allocation reports *)

Definition connecting (a : Turn.QXmppTurnAllocation) : bool :=
  bool_decide (Turn.m_state a = Turn.ConnectingState).

(** From [a] to [b] the log only grows, and a change of [connecting] is reported
    by one of the signals [connected] and [disconnected]. *)
Definition tracks (a b : Turn.QXmppTurnAllocation) : Prop :=
  exists l, Turn.log b = Turn.log a ++ l /\
    (connecting b = connecting a \/ Turn.Connected ∈ l \/ Turn.Disconnected ∈ l).

#[export] Instance tracks_preorder : PreOrder tracks.
Proof.
  split; [intros a; exists []; rewrite app_nil_r; auto|].
  intros a b c (l & El & Hl) (k & Ek & Hk). exists (l ++ k). rewrite Ek, El, app_assoc. split; [done|].
  rewrite !elem_of_app.
  destruct Hl as [Hl|[?|?]]; [|auto..]. destruct Hk as [Hk|[?|?]]; [|auto..]. left. congruence.
Qed.

Lemma tracks_same a b :
  Turn.log b = Turn.log a -> Turn.m_state b = Turn.m_state a -> tracks a b.
Proof. intros El Es. exists []. rewrite app_nil_r. unfold connecting. rewrite Es. auto. Qed.

Lemma tracks_emit o a : tracks a (Turn.emit o a).
Proof. exists [o]. auto. Qed.

Lemma tracks_setState st a :
  st = Turn.ConnectedState \/ st = Turn.UnconnectedState -> tracks a (Turn.setState st a).
Proof.
  intros Hst. unfold Turn.setState. case_decide; [done|].
  destruct Hst as [-> | ->]; eexists; cbn; (split; [done|]); right; set_solver.
Qed.

(** The tests of a handler, outermost first. *)
Ltac tracks_if :=
  match goal with
  | |- tracks _ (if ?b then _ else _) => destruct b eqn:?
  | |- tracks _ (match ?o with Some _ => _ | None => _ end) => destruct o eqn:?
  end.

Section Tracks.
Context (toUtf8 : string -> bytes) (fromUtf8 : bytes -> string) (sha1 md5 : bytes -> bytes)
  (junk : nat -> Z) (uninit : Z) (randomId : nat -> bytes).

Lemma handleReply_tracks t a : tracks a (Turn.handleReply toUtf8 md5 uninit randomId t a).
Proof.
  unfold Turn.handleReply. cbv zeta. repeat tracks_if; try done; try (by apply tracks_same).
  all: try (etrans; [|apply tracks_setState; auto]; done || apply tracks_emit || by apply tracks_same).
  all: etrans; [apply tracks_emit|by apply tracks_same].
Qed.

Lemma deliver_tracks t sigs a : tracks a (Turn.deliver toUtf8 sha1 md5 uninit randomId t sigs a).
Proof.
  unfold Turn.deliver. etrans; [|apply (foldl_rel tracks)]; [by apply tracks_same|].
  intros b [m|]; [apply tracks_emit|]. unfold Turn.transactionFinished. tracks_if; [done|].
  etrans; [|apply handleReply_tracks]. by apply tracks_same.
Qed.

Lemma handleDatagram_tracks buffer a :
  tracks a (Turn.handleDatagram toUtf8 fromUtf8 sha1 md5 junk uninit randomId buffer a).
Proof.
  unfold Turn.handleDatagram. tracks_if.
  - unfold Turn.handleChannelData. destruct (readUInt _ _) as [c s]. destruct (readUInt _ s) as [n s'].
    tracks_if; [|done]. destruct a0. tracks_if; [apply tracks_emit|done].
  - destruct (StunMessage.decode _ _ _ _ _ _) as [[[[] m] errs]|]; [| |done].
    + unfold Turn.handleStun. destruct (list_find _ _) as [[i t]|].
      * destruct (readStun m t). apply deliver_tracks.
      * tracks_if; apply tracks_emit.
    + apply (foldl_rel tracks). intros. apply tracks_emit.
Qed.

(** The events of an allocation other than [Connect]. *)
Lemma step_tracks e a : match e with Turn.Connect _ => False | _ => True end ->
  tracks a (Turn.step toUtf8 fromUtf8 sha1 md5 junk uninit randomId e a).
Proof.
  destruct e; intros He; cbn [Turn.step]; try done.
  - unfold Turn.disconnectFromHost. cbv zeta. destruct (decide _) as [Hc|Hc]; cbn in Hc.
    + rewrite Turn.setState_start; [|cbn; by rewrite Hc|by right].
      exists []. rewrite app_nil_r. split; [done|]. left. unfold connecting. cbn. by rewrite Hc.
    + etrans; [|apply tracks_setState; auto]. by apply tracks_same.
  - apply handleDatagram_tracks.
  - destruct (list_find _ _) as [[i t]|]; [|done]. destruct (retry t). apply deliver_tracks.
  - tracks_if; [|done]. by apply tracks_same.
  - tracks_if; [|done]. unfold Turn.refreshChannels. apply (foldl_rel tracks). intros.
    by apply tracks_same.
  - unfold Turn.writeDatagram. destruct (negb _); [done|]. cbv zeta.
    destruct (_ =? 0); cbn [snd]; (etrans; [|apply tracks_emit]); by apply tracks_same.
  - by apply tracks_same.
  - by apply tracks_same.
  - by apply tracks_same.
Qed.
End Tracks.

(** ** The published state *)

Definition sync (s : QXmppIceComponent) : Prop := gatheringState s = gathering s.
Definition syncs (s s' : QXmppIceComponent) : Prop := sync s -> sync s'.

#[export] Instance syncs_preorder : PreOrder syncs.
Proof. split; unfold Reflexive, Transitive, syncs; auto. Qed.

Lemma sync_update s : sync (updateGatheringState s).
Proof. unfold updateGatheringState, sync. case_decide; [done|]. cbn. done. Qed.

Lemma syncs_update s s' : syncs s (updateGatheringState s').
Proof. intros _. apply sync_update. Qed.

(** Neither the published state nor what it summarises changes. *)
Lemma syncs_same s s' :
  gatheringState s' = gatheringState s -> transports s' = transports s ->
  StunMessage.is_empty (stunTransactions s') = StunMessage.is_empty (stunTransactions s) ->
  connecting (turnAllocation s') = connecting (turnAllocation s) -> syncs s s'.
Proof.
  intros E1 E2 E3 E4. unfold syncs, sync, gathering. unfold connecting in E4.
  by rewrite E1, E2, E3, E4.
Qed.

Ltac syncs_if :=
  match goal with
  | |- syncs _ (if ?b then _ else _) => destruct b eqn:?
  | |- syncs _ (match ?o with Some _ => _ | None => _ end) => destruct o eqn:?
  end.

Section Gathering.
Context (E : Env) (cfg : QXmppIcePrivate).

Lemma transportWrite_syncs t data host port s : syncs s (transportWrite E t data host port s).2.
Proof.
  destruct t; cbn [transportWrite]; [by apply syncs_same|].
  destruct (Turn.writeDatagram _ _ _ _ _ _ _) as [r turn'] eqn:Ew. cbn [snd].
  apply syncs_same; try done. cbn. unfold connecting. f_equal.
  assert (Turn.m_state turn' = Turn.m_state (turnAllocation s)) as ->; [|done].
  change turn' with (r, turn').2. rewrite <-Ew. unfold Turn.writeDatagram.
  destruct (negb _); [done|]. cbv zeta. by destruct (_ =? 0).
Qed.

Lemma stunFinished_syncs t d s : syncs s (stunFinished E t d s).
Proof.
  unfold stunFinished. cbv zeta. syncs_if; [|apply syncs_update].
  syncs_if; [|by apply syncs_same]. destruct p as [host port]. syncs_if; [done|]. apply syncs_update.
Qed.

Lemma stunSignals_syncs t d sigs s : syncs s (stunSignals E t d sigs s).
Proof.
  unfold stunSignals. etrans; [|apply (foldl_rel syncs)].
  - apply syncs_same; try done. cbn. by destruct (stunTransactions s).
  - intros b [m|]; [apply transportWrite_syncs|apply stunFinished_syncs].
Qed.

Lemma performCheck_syncs pid nominate s : syncs s (performCheck E cfg pid nominate s).
Proof. by apply syncs_same. Qed.

Lemma checkCandidates_syncs s : syncs s (checkCandidates E cfg s).
Proof.
  unfold checkCandidates. syncs_if; [done|]. destruct (list_find _ _) as [[i p]|]; [|done].
  apply performCheck_syncs.
Qed.

Lemma pairSignals_syncs pid t sigs s : syncs s (pairSignals E cfg pid t sigs s).
Proof.
  unfold pairSignals. etrans; [|apply (foldl_rel syncs)]; [by apply syncs_same|].
  intros b [m|]; [|by apply syncs_same]. syncs_if; [apply transportWrite_syncs|done].
Qed.

Lemma complete_syncs pid s : syncs s (complete pid s).
Proof.
  unfold complete. syncs_if; [|done]. syncs_if; [|done]. cbv zeta.
  syncs_if; [|by apply syncs_same]. syncs_if; [|by apply syncs_same]. syncs_if; by apply syncs_same.
Qed.

Lemma triggerCheck_syncs m pid s : syncs s (triggerCheck E cfg m pid s).
Proof.
  unfold triggerCheck. syncs_if; [|done].
  destruct (m_state c); try (syncs_if; [done|by apply performCheck_syncs]); [by apply syncs_same|].
  syncs_if; [by apply syncs_same|done].
Qed.

Lemma handleRequest_syncs m t host port s : syncs s (handleRequest E cfg m t host port s).
Proof.
  unfold handleRequest. syncs_if; [by apply syncs_same|]. syncs_if; [by apply syncs_same|].
  etrans; [apply (transportWrite_syncs t)|]. 
  match goal with |- context [writeStunTo E cfg ?m t host port s] => set (s1 := writeStunTo E cfg m t host port s) end.
  match goal with |- syncs ?x _ => assert (x = s1) as -> by done end.
  assert (syncs s1 (remoteCandidateOf E m host port s1).2) as H1.
  { unfold remoteCandidateOf. destruct (list_find _ _) as [[i c]|]; [done|]. by apply syncs_same. }
  etrans; [exact H1|]. destruct (remoteCandidateOf E m host port s1) as [c s2]. cbn [snd].
  assert (syncs s2 (pairOf cfg t host port c s2).2) as H2.
  { unfold pairOf. destruct (list_find _ _) as [[i p]|]; [done|]. by apply syncs_same. }
  etrans; [exact H2|]. destruct (pairOf cfg t host port c s2) as [pid s3]. cbn [snd].
  etrans; [apply triggerCheck_syncs|apply complete_syncs].
Qed.

Lemma handleDatagram_syncs t buffer host port s : syncs s (handleDatagram E cfg t buffer host port s).
Proof.
  unfold handleDatagram. destruct (peekType _ _ _ _) as [[mt cookie] mid]. syncs_if.
  { unfold handleData. destruct (list_find _ _) as [[i p]|]; by apply syncs_same. }
  unfold handleStun. cbv zeta. syncs_if; [done|].
  destruct (StunMessage.decode _ _ _ _ _ _) as [[[[] m] errs]|]; [| |done].
  2:{ apply (foldl_rel syncs). intros. by apply syncs_same. }
  syncs_if; [done|]. destruct (stunFor t mid s) as [[st d]|].
  { destruct (readStun m st). apply stunSignals_syncs. }
  syncs_if; [apply handleRequest_syncs|]. syncs_if; [|done].
  unfold handleResponse. destruct (list_find _ _) as [[i p]|]; [|done]. syncs_if; [|done].
  syncs_if; [|].
  - destruct (readStun m q). etrans; [apply pairSignals_syncs|apply complete_syncs].
  - destruct (readStun _ q). apply pairSignals_syncs.
Qed.

Lemma turnSignal_syncs o s : syncs s (turnSignal E cfg s o).
Proof.
  destruct o; cbn [turnSignal]; [apply syncs_update|apply syncs_update|apply handleDatagram_syncs|
    by apply syncs_same|by apply syncs_same].
Qed.

(** A reported change is followed by an update, whatever happened before. *)
Lemma signals_sync l s :
  Turn.Connected ∈ l \/ Turn.Disconnected ∈ l -> sync (foldl (turnSignal E cfg) s l).
Proof.
  assert (forall o l s, o = Turn.Connected \/ o = Turn.Disconnected ->
    sync (foldl (turnSignal E cfg) (turnSignal E cfg s o) l)) as Hnow.
  { intros o k s' Ho. apply (foldl_rel syncs); [intros; apply turnSignal_syncs|].
    destruct Ho as [-> | ->]; apply sync_update. }
  revert s. induction l as [|o l IH]; intros s Hl; [by rewrite !elem_of_nil in Hl; destruct Hl|].
  cbn [foldl]. rewrite !elem_of_cons in Hl. destruct Hl as [[<-|?]|[<-|?]]; auto.
Qed.

Lemma turnDo_syncs f s : tracks (turnAllocation s) (f (turnAllocation s)) -> syncs s (turnDo E cfg f s).
Proof.
  intros (l & El & Hl). unfold turnDo. cbv zeta.
  assert (turnOutputs (turnAllocation s) (f (turnAllocation s)) = l) as ->.
  { unfold turnOutputs. rewrite El. by rewrite drop_app_length. }
  destruct Hl as [Hc|Hl]; [|intros _; by apply signals_sync].
  etrans; [|apply (foldl_rel syncs); intros; apply turnSignal_syncs]. by apply syncs_same.
Qed.

Lemma pairTransport_syncs c s t : syncs s (pairTransport E cfg c s t).
Proof.
  unfold pairTransport. cbv zeta. syncs_if; [|done]. cbn [appendPair fresh].
  syncs_if; [by apply syncs_same|]. syncs_if; by apply syncs_same.
Qed.

Lemma addRemoteCandidate_syncs c s : syncs s (addRemoteCandidate E cfg c s).2.
Proof.
  unfold addRemoteCandidate. destruct (negb _); [done|]. destruct (known_remote _ _ _); [done|]. cbn [snd].
  match goal with |- syncs _ (upd pairs _ ?x) => trans x; [|by apply syncs_same] end.
  etrans; [|apply (foldl_rel syncs); intros; apply pairTransport_syncs]. by apply syncs_same.
Qed.

Lemma turnStep_syncs e s : match e with Turn.Connect _ => False | _ => True end ->
  syncs s (turnDo E cfg (turnStep E e) s).
Proof.
  intros He. apply turnDo_syncs. exact (step_tracks (toUtf8 E) (fromUtf8 E) (sha1 E) (md5 E)
    (junk E) (uninit E) (turnId E) e (turnAllocation s) He).
Qed.

Lemma close_syncs s : syncs s (close E cfg s).
Proof.
  unfold close. cbv zeta.
  match goal with |- syncs _ (upd activePair _ (upd timer _ ?x)) => trans x; [|by apply syncs_same] end.
  assert (forall x, syncs x (turnDisconnect E cfg x)) as Hd.
  { intros x. exact (turnStep_syncs Turn.Disconnect x I). }
  etrans; [|apply Hd]. apply (foldl_rel syncs). intros x [sock|]; [by apply syncs_same|apply Hd].
Qed.

Lemma step_syncs e s : syncs s (step E cfg e s).
Proof.
  destruct e; cbn [step].
  - apply addRemoteCandidate_syncs.
  - unfold setSockets. apply syncs_update.
  - unfold connectToHost. syncs_if; [done|]. etrans; [apply checkCandidates_syncs|by apply syncs_same].
  - apply close_syncs.
  - syncs_if; [apply checkCandidates_syncs|done].
  - syncs_if; [apply handleDatagram_syncs|done].
  - destruct (_ ≫= _) as [t|]; [|done]. destruct (m_retryTimer t); [|done].
    destruct (retry t). apply pairSignals_syncs.
  - destruct (list_find _ _) as [[i [t d]]|]; [|done]. destruct (retry t). apply stunSignals_syncs.
  - exact (turnStep_syncs (Turn.Datagram buffer) s I).
  - exact (turnStep_syncs (Turn.TransactionTimer id) s I).
  - exact (turnStep_syncs Turn.RefreshTimer s I).
  - exact (turnStep_syncs Turn.ChannelTimer s I).
  - unfold sendDatagram. cbv zeta. destruct (_ ≫= _) as [p|]; [|done].
    destruct (isNull _); [done|]. apply transportWrite_syncs.
Qed.
End Gathering.

(** ** Properties *)

(** in every state a component can reach, the gathering state it publishes is
    the one its transports, STUN transactions and TURN allocation imply. *)
Theorem ice_gathering_state (E : Env) (c : Z) (es : list (QXmppIcePrivate * Event)) :
  let s := run E es (newComponent c) in gatheringState s = gathering s.
Proof.
  intros s. change (sync s). unfold s. clear s.
  assert (forall s, sync s -> sync (run E es s)) as H; [|by apply H].
  induction es as [|e es IH]; intros s Hs; [done|]. cbn. apply IH. by apply step_syncs.
Qed.

(** *** Two STUN servers *)

Definition stun1 : QHostAddress := AddrV4 0x0a000063.
Definition stun2 : QHostAddress := AddrV4 0x0a000064.
Definition cfg2 : QXmppIcePrivate :=
  IceToy.cfgA <| stunServers := [(stun1, 3478); (stun2, 3478)] |>.

(** The [n]-th object's Binding request answered with the address seen. *)
Definition binding_reply (n : nat) (server : QHostAddress) : Event :=
  Receive (UdpTransport IceToy.sockA)
    (StunMessage.encode latin1 toy_digest
      ((setId (stunId IceToy.env n) (setType 0x101 (newStunMessage 0)))
         <| xorMappedHost := AddrV4 0x05060708 |> <| xorMappedPort := 9 |>) [] true) server 3478.

(** two STUN servers that see the same reflexive address leave a component
    gathering for ever: both transactions have finished, none of its timers
    runs, yet one transaction stays in the list and the state stays busy. With
    a single server the same exchange completes. *)
Theorem ice_gathering_stuck :
  let s := IceToy.go cfg2 [SetSockets [IceToy.sockA] true; StunTimer 1; StunTimer 2;
             binding_reply 1 stun1; binding_reply 2 stun2] (newComponent 1) in
  gatheringState s = BusyGatheringState /\
  Forall (fun x => m_retryTimer x.1 = None /\ messageClass (m_response x.1) = MsgClass.Response)
    (stunTransactions s) /\
  Turn.m_state (turnAllocation s) = Turn.UnconnectedState /\
  gatheringState (IceToy.go (cfg2 <| stunServers := [(stun1, 3478)] |>)
    [SetSockets [IceToy.sockA] true; StunTimer 1; binding_reply 1 stun1] (newComponent 1))
  = CompleteGatheringState.
Proof. split_and!; [|apply (bool_decide_unpack _)| |]; vm_compute; done. Qed.

(** closing a component whose allocation is connected does not release the
    allocation: one [disconnectFromHost] would leave a Refresh request with
    lifetime 0 to be sent, but the second one deletes it before it is. *)
Theorem ice_close_drops_release (E : Env) (cfg : QXmppIcePrivate) (sockets : list UdpSocket)
    (s : QXmppIceComponent) :
  transports s = map UdpTransport sockets ++ [TurnTransport] ->
  Turn.m_state (turnAllocation s) = Turn.ConnectedState ->
  let once := Turn.disconnectFromHost (uninit E) (turnId E) (turnAllocation s) in
  let turn := turnAllocation (close E cfg s) in
  (exists t, Turn.m_transactions once = [t] /\ messageMethod (m_request t) = Method.Refresh /\
     StunMessage.m_lifetime (m_request t) = 0) /\
  Turn.m_transactions turn = [] /\ Turn.m_state turn = Turn.UnconnectedState /\
  Turn.log turn = Turn.log (turnAllocation s) ++ [Turn.Disconnected].
Proof.
  intros Ht Hst once turn.
  assert (forall a, Turn.m_state a = Turn.ConnectedState ->
    let b := Turn.disconnectFromHost (uninit E) (turnId E) a in
    Turn.m_state b = Turn.ClosingState /\ Turn.log b = Turn.log a /\
    (exists t, Turn.m_transactions b = [t] /\ messageMethod (m_request t) = Method.Refresh /\
       StunMessage.m_lifetime (m_request t) = 0)) as Hone.
  { intros a Ha b. unfold b, Turn.disconnectFromHost. cbv zeta. cbn [upd Turn.m_state].
    rewrite decide_True by done. rewrite Turn.setState_start; [|cbn; by rewrite Ha|by right].
    split_and!; [done..|]. by eexists. }
  destruct (Hone _ Hst) as (Hst1 & Hlog1 & Htr). split; [exact Htr|].
  unfold turn, close. rewrite Ht, foldl_app. cbn [foldl].
  set (s1 := foldl _ s (map UdpTransport sockets)).
  assert (turnAllocation s1 = turnAllocation s) as Hs1.
  { unfold s1. clear. revert s. induction sockets as [|k l IH]; intros x; [done|]. cbn. by rewrite IH. }
  clearbody s1. unfold turnDisconnect, turnDo. cbv zeta. rewrite Hs1. fold once.
  change (Turn.m_state once = Turn.ClosingState) in Hst1.
  change (Turn.log once = Turn.log (turnAllocation s)) in Hlog1. clearbody once.
  assert (turnOutputs (turnAllocation s) once = []) as ->.
  { unfold turnOutputs. rewrite Hlog1. by rewrite drop_all. }
  cbn [foldl upd turnAllocation].
  assert (Turn.disconnectFromHost (uninit E) (turnId E) once
    = Turn.emit Turn.Disconnected (once <| Turn.m_channelTimer := false |> <| Turn.m_timer := None |>
        <| Turn.m_channels := [] |> <| Turn.m_transactions := [] |>
        <| Turn.m_state := Turn.UnconnectedState |> <| Turn.m_timer := None |>)) as ->.
  { unfold Turn.disconnectFromHost, Turn.setState. cbn. by rewrite Hst1. }
  set (t2 := Turn.emit _ _).
  assert (turnOutputs once t2 = [Turn.Disconnected]) as ->.
  { unfold turnOutputs, t2. cbn. by rewrite drop_app_length. }
  cbn [foldl turnSignal]. unfold updateGatheringState. case_decide; cbn; by rewrite Hlog1.
Qed.

(** A component whose TURN server has granted an allocation. *)
Definition with_turn : QXmppIceComponent :=
  IceToy.go IceToy.cfgA
    [SetSockets [IceToy.sockA] true;
     TurnPacket (StunMessage.encode latin1 toy_digest
       (toy_relay (setId (turnId IceToy.env 0) (setType 0x103 (newStunMessage 0)))) [] true)]
    (setTurnServer stun1 3478 (newComponent 1)).

Lemma ice_close_drops_release_witness :
  Turn.m_transactions (turnAllocation (close IceToy.env IceToy.cfgA with_turn)) = [] /\
  Turn.m_state (turnAllocation (close IceToy.env IceToy.cfgA with_turn)) = Turn.UnconnectedState.
Proof.
  destruct (ice_close_drops_release IceToy.env IceToy.cfgA [IceToy.sockA] with_turn)
    as (_ & H1 & H2 & _); [vm_compute; reflexivity | vm_compute; reflexivity |]. by split.
Defined.
