(* ===== verification/IceReports.v ===== *)
(** * ICE components: what they report to their connection *)
From S2P Require Import Prelude DataStream Utils StunMessage StunCodec QMap StunTransaction TurnAllocation IceComponent IceFacts IceGathering.
Import Ice.

(** ** What a component reports

    The log of a component only grows; becoming connected and changing the
    gathering state are reported by a signal. *)
Definition reports (s s' : QXmppIceComponent) : Prop :=
  exists l, Ice.log s' = Ice.log s ++ l /\
    (Ice.isConnected s' = true -> Ice.isConnected s = true \/ Ice.Connected ∈ l) /\
    (gatheringState s' = gatheringState s \/ Ice.GatheringStateChanged ∈ l).

#[export] Instance reports_preorder : PreOrder reports.
Proof.
  split; [intros s; exists []; rewrite app_nil_r; auto|].
  intros a b c (l & El & Hl & Gl) (k & Ek & Hk & Gk). exists (l ++ k).
  rewrite Ek, El, app_assoc, !elem_of_app. split_and!; [done| |].
  - intros Hc. destruct (Hk Hc) as [Hb|?]; [|auto]. destruct (Hl Hb); auto.
  - destruct Gl as [Gl|?]; [|auto]. destruct Gk as [Gk|?]; [|auto]. left. congruence.
Qed.

Lemma reports_log s s' l :
  Ice.log s' = Ice.log s ++ l -> activePair s' = activePair s -> gatheringState s' = gatheringState s ->
  reports s s'.
Proof. intros El Ea Eg. exists l. unfold Ice.isConnected. rewrite Ea. auto. Qed.

Lemma reports_same s s' :
  Ice.log s' = Ice.log s -> activePair s' = activePair s -> gatheringState s' = gatheringState s ->
  reports s s'.
Proof. intros El. apply (reports_log _ _ []). by rewrite app_nil_r. Qed.

Lemma reports_emit o s : reports s (Ice.emit o s).
Proof. by apply (reports_log _ _ [o]). Qed.

Lemma reports_update s : reports s (updateGatheringState s).
Proof.
  unfold updateGatheringState. case_decide; [done|].
  exists [Ice.GatheringStateChanged]. cbn. split_and!; [done|auto|]. right. set_solver.
Qed.

Ltac reports_if :=
  match goal with
  | |- reports _ (if ?b then _ else _) => destruct b eqn:?
  | |- reports _ (match ?o with Some _ => _ | None => _ end) => destruct o eqn:?
  end.

Section Reports.
Context (E : Env) (cfg : QXmppIcePrivate).

Lemma transportWrite_reports t data host port s : reports s (transportWrite E t data host port s).2.
Proof.
  destruct t; cbn [transportWrite]; [apply reports_emit|].
  destruct (Turn.writeDatagram _ _ _ _ _ _ _) as [r turn']. cbn [snd]. by eapply reports_log.
Qed.

Lemma stunFinished_reports t d s : reports s (stunFinished E t d s).
Proof.
  unfold stunFinished. cbv zeta.
  assert (forall s', reports s s' -> reports s (updateGatheringState (remove_stun t s'))) as H.
  { intros s' Hs. etrans; [exact Hs|]. etrans; [|apply reports_update]. by apply reports_same. }
  reports_if; [|by apply H]. reports_if; [|apply reports_emit]. destruct p as [host port].
  reports_if; [done|]. cbn [fresh]. apply H. etrans; [|apply reports_emit]. by apply reports_same.
Qed.

Lemma stunSignals_reports t d sigs s : reports s (stunSignals E t d sigs s).
Proof.
  unfold stunSignals. etrans; [|apply (foldl_rel reports)]; [by apply reports_same|].
  intros b [m|]; [apply transportWrite_reports|apply stunFinished_reports].
Qed.

Lemma checkCandidates_reports s : reports s (checkCandidates E cfg s).
Proof.
  unfold checkCandidates. reports_if; [done|]. destruct (list_find _ _) as [[i p]|]; [|done].
  by apply reports_same.
Qed.

Lemma pairSignals_reports pid t sigs s : reports s (pairSignals E cfg pid t sigs s).
Proof.
  unfold pairSignals. etrans; [|apply (foldl_rel reports)]; [by apply reports_same|].
  intros b [m|]; [|by apply reports_same]. reports_if; [apply transportWrite_reports|done].
Qed.

Lemma complete_reports pid s : reports s (complete pid s).
Proof.
  unfold complete. reports_if; [|done]. reports_if; [|done]. cbv zeta.
  destruct (activePair _) as [aid|] eqn:Ea.
  - cbn in Ea. reports_if; [|by apply reports_same]. reports_if; [|by apply reports_same].
    exists []. rewrite app_nil_r. unfold Ice.isConnected. cbn. rewrite Ea. auto.
  - exists [Ice.Connected]. cbn. split_and!; [done| |by left]. intros _. right. set_solver.
Qed.

Lemma triggerCheck_reports m pid s : reports s (triggerCheck E cfg m pid s).
Proof.
  unfold triggerCheck. reports_if; [|done].
  destruct (m_state c); try (reports_if; [done|by apply reports_same]); [by apply reports_same|].
  reports_if; [by apply reports_same|done].
Qed.

Lemma handleRequest_reports m t host port s : reports s (handleRequest E cfg m t host port s).
Proof.
  unfold handleRequest. reports_if; [apply reports_emit|]. reports_if; [apply reports_emit|].
  match goal with |- context [writeStunTo E cfg ?m t host port s] =>
    set (s1 := writeStunTo E cfg m t host port s) end.
  assert (reports s s1) as H0 by apply transportWrite_reports. etrans; [exact H0|].
  assert (reports s1 (remoteCandidateOf E m host port s1).2) as H1.
  { unfold remoteCandidateOf. destruct (list_find _ _) as [[i c]|]; [done|]. by apply reports_same. }
  etrans; [exact H1|]. destruct (remoteCandidateOf E m host port s1) as [c s2]. cbn [snd].
  assert (reports s2 (pairOf cfg t host port c s2).2) as H2.
  { unfold pairOf. destruct (list_find _ _) as [[i p]|]; [done|]. by apply reports_same. }
  etrans; [exact H2|]. destruct (pairOf cfg t host port c s2) as [pid s3]. cbn [snd].
  etrans; [apply triggerCheck_reports|apply complete_reports].
Qed.

Lemma handleDatagram_reports t buffer host port s : reports s (handleDatagram E cfg t buffer host port s).
Proof.
  unfold handleDatagram. destruct (peekType _ _ _ _) as [[mt cookie] mid]. reports_if.
  { unfold handleData. etrans; [|apply reports_emit].
    destruct (list_find _ _) as [[i p]|]; by apply reports_same. }
  unfold handleStun. cbv zeta. reports_if; [done|].
  destruct (StunMessage.decode _ _ _ _ _ _) as [[[[] m] errs]|]; [| |done].
  2:{ apply (foldl_rel reports). intros. apply reports_emit. }
  reports_if; [done|]. destruct (stunFor t mid s) as [[st d]|].
  { destruct (readStun m st). apply stunSignals_reports. }
  reports_if; [apply handleRequest_reports|]. reports_if; [|done].
  unfold handleResponse. destruct (list_find _ _) as [[i p]|]; [|done]. reports_if; [|done].
  reports_if.
  - destruct (readStun m q). etrans; [apply pairSignals_reports|apply complete_reports].
  - destruct (readStun _ q). apply pairSignals_reports.
Qed.

Lemma turnSignal_reports o s : reports s (turnSignal E cfg s o).
Proof.
  destruct o; cbn [turnSignal]; try apply reports_emit.
  - unfold turnConnected. cbn [fresh]. etrans; [|apply reports_update].
    etrans; [|apply reports_emit]. by apply reports_same.
  - apply reports_update.
  - apply handleDatagram_reports.
Qed.

Lemma turnDo_reports f s : reports s (turnDo E cfg f s).
Proof.
  unfold turnDo. etrans; [|apply (foldl_rel reports); intros; apply turnSignal_reports].
  by apply reports_same.
Qed.

Lemma setSockets_reports sockets bound s : reports s (setSockets E cfg sockets bound s).
Proof.
  unfold setSockets. cbv zeta. etrans; [|apply reports_update].
  match goal with |- context [foldl (addSocket E) ?x sockets] => set (s1 := x) end.
  trans s1; [by apply reports_same|].
  match goal with |- context [foldl _ ?x (stunServers cfg)] => set (s3 := x) end.
  trans s3.
  { unfold s3. etrans; [apply (foldl_rel reports (addSocket E) sockets s1)|by apply reports_same].
    intros. by apply reports_same. }
  match goal with |- reports _ (if turnConfigured ?x then _ else _) => set (s4 := x) end.
  trans s4.
  { unfold s4. apply (foldl_rel reports). intros x server. apply (foldl_rel reports). intros y t.
    unfold stunCheck. cbv zeta. reports_if; [by apply reports_same|done]. }
  reports_if; [|done]. etrans; [|apply turnDo_reports]. by apply reports_same.
Qed.

Lemma addRemoteCandidate_reports c s : reports s (addRemoteCandidate E cfg c s).2.
Proof.
  unfold addRemoteCandidate. destruct (negb _); [done|]. destruct (known_remote _ _ _); [done|]. cbn [snd].
  match goal with |- reports _ (upd pairs _ ?x) => trans x; [|by apply reports_same] end.
  etrans; [|apply (foldl_rel reports); intros x t].
  - by apply reports_same.
  - unfold pairTransport. cbv zeta. reports_if; [|done]. cbn [appendPair fresh].
    reports_if; [by apply reports_same|]. reports_if; by apply reports_same.
Qed.

Lemma close_reports s : reports s (Ice.close E cfg s).
Proof.
  unfold Ice.close. cbv zeta.
  match goal with |- reports _ (upd activePair _ (upd timer _ ?x)) => trans x end.
  - etrans; [|apply turnDo_reports]. apply (foldl_rel reports).
    intros x [sock|]; [apply reports_emit|apply turnDo_reports].
  - exists []. rewrite app_nil_r. cbn. split_and!; [done|done|by left].
Qed.

Lemma step_reports e s : reports s (Ice.step E cfg e s).
Proof.
  destruct e; cbn [Ice.step]; try apply turnDo_reports.
  - apply addRemoteCandidate_reports.
  - apply setSockets_reports.
  - unfold Ice.connectToHost. reports_if; [done|].
    etrans; [apply checkCandidates_reports|by apply reports_same].
  - apply close_reports.
  - reports_if; [apply checkCandidates_reports|done].
  - reports_if; [apply handleDatagram_reports|done].
  - destruct (_ ≫= _) as [t|]; [|done]. destruct (m_retryTimer t); [|done].
    destruct (retry t). apply pairSignals_reports.
  - destruct (list_find _ _) as [[i [t d]]|]; [|done]. destruct (retry t). apply stunSignals_reports.
  - unfold Ice.sendDatagram. cbv zeta. destruct (_ ≫= _) as [p|]; [|done].
    destruct (isNull _); [done|]. apply transportWrite_reports.
Qed.
End Reports.
