(* ===== verification/IceConnection.v ===== *)
(** * ICE connections (src/src/base/QXmppStun.cpp, QXmppIceConnection)

    Port reservation, and a connection as a map of components with the timer
    that bounds the negotiation. A component's signals act on the connection
    after the operation that emitted them. *)
From S2P Require Import Prelude DataStream Utils StunMessage StunCodec QMap StunTransaction TurnAllocation IceComponent IceFacts IceGathering IceReports.
Import Ice.

(** ** Port reservation *)

Section Ports.
(** [bind a p] is the port a socket gets when it is bound to address [a] and port
    [p], [None] when that fails. *)
Variable bind : QHostAddress -> Z -> option Z.

(** Binds one socket per address; all are dropped when one fails. [n] numbers
    the sockets. *)
Fixpoint reservePort (n : nat) (addresses : list QHostAddress) (port : Z) : option (list UdpSocket) :=
  match addresses with
  | [] => Some []
  | a :: addresses =>
      match bind a port with
      | None => None
      | Some p => cons (mkSocket n a p) <$> reservePort (S n) addresses port
      end
  end.

(** The loop for the first, even port: the chunk (empty when the ports are used
    up) and the port, or [None] when the fuel is used up. *)
Fixpoint firstChunk (fuel : nat) (addresses : list QHostAddress) (count port : Z)
    : option (list UdpSocket * Z) :=
  match fuel with
  | O => None
  | S fuel =>
      if port <=? 65536 - count then
        match reservePort 0 addresses port with
        | Some chunk => Some (chunk, port)
        | None => firstChunk fuel addresses count (u16 (port + 2))
        end
      else Some ([], port)
  end.

(** The loop for the other ports: the sockets collected when it ends. *)
Fixpoint otherChunks (i : nat) (addresses : list QHostAddress) (port : Z) (sockets : list UdpSocket)
    : list UdpSocket :=
  match i with
  | O => sockets
  | S i =>
      let port := u16 (port + 1) in
      match reservePort (length sockets) addresses port with
      | None => sockets
      | Some chunk => otherChunks i addresses port (sockets ++ chunk)
      end
  end.

(** The outer loop runs once: it ends with all the sockets, or gives up. *)
Definition reservePorts (fuel : nat) (addresses : list QHostAddress) (count : nat)
    : option (list UdpSocket) :=
  if StunMessage.is_empty addresses || (count =? 0)%nat then Some [] else
  match firstChunk fuel addresses (Z.of_nat count) 49152 with
  | None => None
  | Some ([], _) => Some []
  | Some (chunk, port) =>
      let sockets := otherChunks (count - 1) addresses port chunk in
      if (length sockets =? length addresses * count)%nat then Some sockets else Some []
  end.
End Ports.

(** ** The connection *)

Module IceConn.

Inductive Output :=
| Connected
| Disconnected
| GatheringStateChanged
| LocalCandidatesChanged
| Warning (message : string).

Record QXmppIceConnection := mkConnection {
  config : QXmppIcePrivate;
  components : QMap QXmppIceComponent;
  connectTimer : bool;
  gatheringState : GatheringState;
  turnHost : QHostAddress;
  turnPort : Z;
  turnUser : string;
  turnPassword : string;
  log : list Output
}.
#[global] Instance eta_QXmppIceConnection : Eta QXmppIceConnection := fun c =>
  mkConnection (config c) (components c) (connectTimer c) (gatheringState c) (turnHost c)
    (turnPort c) (turnUser c) (turnPassword c) (log c).

(** The user fragment, password and tie breaker are random. *)
Definition newConnection (user password : string) (tieBreaker : bytes) : QXmppIceConnection :=
  mkConnection (mkConfig false user password "" "" [] tieBreaker) [] false NewGatheringState
    AddrNull 0 "" "" [].

Definition emit (o : Output) (c : QXmppIceConnection) : QXmppIceConnection :=
  c <| log ::= fun l => l ++ [o] |>.

Definition isConnected (c : QXmppIceConnection) : bool :=
  forallb (fun x => Ice.isConnected x.2) (components c).

Definition localCandidates (c : QXmppIceConnection) : list QXmppJingleCandidate :=
  concat (map (fun x => Ice.localCandidates x.2) (components c)).

Definition setIceControlling (b : bool) (c : QXmppIceConnection) :=
  c <| config ::= fun g => g <| iceControlling := b |> |>.
Definition setRemoteUser (u : string) (c : QXmppIceConnection) :=
  c <| config ::= fun g => g <| remoteUser := u |> |>.
Definition setRemotePassword (p : string) (c : QXmppIceConnection) :=
  c <| config ::= fun g => g <| remotePassword := p |> |>.
Definition setStunServers (l : list (QHostAddress * Z)) (c : QXmppIceConnection) :=
  c <| config ::= fun g => g <| stunServers := l |> |>.
Definition setStunServer (host : QHostAddress) (port : Z) (c : QXmppIceConnection) :=
  setStunServers [(host, port)] c.

Definition each (f : QXmppIceComponent -> QXmppIceComponent) (c : QXmppIceConnection) :=
  c <| components ::= map (fun x => (x.1, f x.2)) |>.
Definition setTurnServer (host : QHostAddress) (port : Z) (c : QXmppIceConnection) :=
  each (Ice.setTurnServer host port) (c <| turnHost := host |> <| turnPort := port |>).
Definition setTurnUser (user : string) (c : QXmppIceConnection) :=
  each (Ice.setTurnUser user) (c <| turnUser := user |>).
Definition setTurnPassword (password : string) (c : QXmppIceConnection) :=
  each (Ice.setTurnPassword password) (c <| turnPassword := password |>).

Definition addComponent (component : Z) (c : QXmppIceConnection) : QXmppIceConnection :=
  if qm_contains component (components c)
  then emit (Warning ("Already have component " +:+ pretty component)) c
  else
    let socket := Ice.setTurnPassword (turnPassword c) (Ice.setTurnUser (turnUser c)
      (Ice.setTurnServer (turnHost c) (turnPort c) (newComponent component))) in
    c <| components ::= qm_insert component socket |>.

(** *** Slots *)

Definition slotConnected (c : QXmppIceConnection) : QXmppIceConnection :=
  if isConnected c then emit Connected (c <| connectTimer := false |>) else c.

(** The gathering state the components' states imply. *)
Definition summary (c : QXmppIceConnection) : GatheringState :=
  let state_is st (x : Z * QXmppIceComponent) := bool_decide (Ice.gatheringState x.2 = st) in
  if forallb (state_is NewGatheringState) (components c) then NewGatheringState
  else if forallb (state_is CompleteGatheringState) (components c) then CompleteGatheringState
  else BusyGatheringState.

Definition slotGatheringStateChanged (c : QXmppIceConnection) : QXmppIceConnection :=
  if decide (summary c = gatheringState c) then c
  else emit GatheringStateChanged (c <| gatheringState := summary c |>).

Definition slot (c : QXmppIceConnection) (o : Ice.Output) : QXmppIceConnection :=
  match o with
  | Ice.Connected => slotConnected c
  | Ice.GatheringStateChanged => slotGatheringStateChanged c
  | Ice.LocalCandidatesChanged => emit LocalCandidatesChanged c
  | _ => c
  end.

Section Connection.
Variable E : Env.

(** An operation of the component [k] and its signals. *)
Definition componentDo (k : Z) (f : QXmppIceComponent -> QXmppIceComponent) (c : QXmppIceConnection)
    : QXmppIceConnection :=
  match qm_value k (components c) with
  | None => c
  | Some s =>
      let c := c <| components ::= qm_insert k (f s) |> in
      foldl slot c (drop (length (Ice.log s)) (Ice.log (f s)))
  end.

(** An event of the component [k]. *)
Definition componentStep (k : Z) (e : Ice.Event) (c : QXmppIceConnection) : QXmppIceConnection :=
  componentDo k (Ice.step E (config c) e) c.

Definition keys (c : QXmppIceConnection) : list Z := (components c).*1.

Definition addRemoteCandidate (candidate : QXmppJingleCandidate) (c : QXmppIceConnection)
    : QXmppIceConnection :=
  if qm_contains (c_component candidate) (components c)
  then componentStep (c_component candidate) (AddRemote candidate) c
  else emit (Warning ("Not adding candidate for unknown component " +:+ pretty (c_component candidate))) c.

(** [sockets.mid(s, addresses.size())] for each component in turn; [bound] is the
    result of the TURN sockets' [bind]. *)
Fixpoint assignSockets (ks : list Z) (n : nat) (sockets : list UdpSocket) (bound : bool)
    (c : QXmppIceConnection) : QXmppIceConnection :=
  match ks with
  | [] => c
  | k :: ks =>
      assignSockets ks n (drop n sockets) bound
        (componentStep k (SetSockets (take n sockets) bound) c)
  end.

Definition bind (fuel : nat) (bindSocket : QHostAddress -> Z -> option Z)
    (addresses : list QHostAddress) (bound : bool) (c : QXmppIceConnection)
    : option (bool * QXmppIceConnection) :=
  match reservePorts bindSocket fuel addresses (length (components c)) with
  | None => None
  | Some sockets =>
      if StunMessage.is_empty sockets && negb (StunMessage.is_empty addresses) then Some (false, c)
      else Some (true, assignSockets (keys c) (length addresses) sockets bound c)
  end.

Definition closeAll (c : QXmppIceConnection) : QXmppIceConnection :=
  foldl (fun c k => componentStep k Close c) c (keys c).

Definition close (c : QXmppIceConnection) : QXmppIceConnection :=
  closeAll (c <| connectTimer := false |>).

Definition connectToHost (c : QXmppIceConnection) : QXmppIceConnection :=
  if isConnected c || connectTimer c then c else
  let c := foldl (fun c k => componentStep k ConnectToHost c) c (keys c) in
  c <| connectTimer := true |>.

Definition slotTimeout (c : QXmppIceConnection) : QXmppIceConnection :=
  emit Disconnected (closeAll (emit (Warning "ICE negotiation timed out") c)).

(** *** Events after the set-up *)

Inductive Event :=
| AddRemoteCandidate (candidate : QXmppJingleCandidate)
| Bind (sockets : list UdpSocket) (n : nat) (bound : bool)
| ConnectToHost
| Close
| ConnectTimeout
| RemoteUser (user : string)
| RemotePassword (password : string)
| OfComponent (k : Z) (e : Ice.Event).

Definition step (e : Event) (c : QXmppIceConnection) : QXmppIceConnection :=
  match e with
  | AddRemoteCandidate candidate => addRemoteCandidate candidate c
  | Bind sockets n bound => assignSockets (keys c) n sockets bound c
  | ConnectToHost => connectToHost c
  | Close => close c
  | ConnectTimeout => if connectTimer c then slotTimeout (c <| connectTimer := false |>) else c
  | RemoteUser u => setRemoteUser u c
  | RemotePassword p => setRemotePassword p c
  | OfComponent k e => componentStep k e c
  end.

Definition run (es : list Event) (c : QXmppIceConnection) : QXmppIceConnection :=
  foldl (fun c e => step e c) c es.
End Connection.
End IceConn.

(** ** Facts *)

Section PortFacts.
Context (bind : QHostAddress -> Z -> option Z).

Lemma even_wrap p : Z.even p = true -> Z.even (uwrap 16 (p + 2)) = true.
Proof.
  intros He. unfold uwrap. rewrite Z.mod_eq by lia.
  by rewrite Z.even_sub, Z.even_mul, Z.even_add, He.
Qed.

Lemma firstChunk_none fuel addresses count port :
  (forall a p, bind a p = None) -> addresses <> [] -> count = 1 \/ count = 2 ->
  0 <= port < 2 ^ 16 -> Z.even port = true -> firstChunk bind fuel addresses count port = None.
Proof.
  intros Hb Ha Hc. revert port. induction fuel as [|fuel IH]; intros port Hp He; [done|]. cbn.
  assert (port <> 65535) by (intros ->; done).
  rewrite (proj2 (Z.leb_le _ _)) by lia.
  assert (reservePort bind 0 addresses port = None) as ->.
  { destruct addresses; [done|]. cbn. by rewrite Hb. }
  apply IH; unfold u16.
  - apply (uwrap_range 16). lia.
  - by apply even_wrap.
Qed.

Lemma firstChunk_gives_up fuel addresses count port :
  (forall a p, bind a p = None) -> addresses <> [] -> 3 <= count <= 16384 ->
  65536 - count - port <= 2 * (Z.of_nat fuel - 2) + 1 -> 49152 <= port <= 65536 - count + 2 -> (0 < fuel)%nat ->
  firstChunk bind fuel addresses count port = Some ([], snd (default ([], 0)
    (firstChunk bind fuel addresses count port))).
Proof.
  intros Hb Ha Hc. revert port. induction fuel as [|fuel IH]; intros port Hf Hp H0; [lia|]. cbn.
  destruct (Z.leb_spec port (65536 - count)); [|done].
  assert (reservePort bind 0 addresses port = None) as ->.
  { destruct addresses; [done|]. cbn. by rewrite Hb. }
  unfold u16. rewrite uwrap_small by lia. apply IH; lia.
Qed.

(** A chunk has one socket per address, all on the port asked for. *)
Lemma reservePort_spec n addresses port chunk :
  (forall a p q, bind a p = Some q -> p <> 0 -> q = p) -> port <> 0 ->
  reservePort bind n addresses port = Some chunk ->
  map (fun s => (localAddress s, localPort s)) chunk = map (fun a => (a, port)) addresses.
Proof.
  intros Hb Hp. revert n chunk. induction addresses as [|a l IH]; intros n chunk; cbn.
  { by intros [= <-]. }
  destruct (bind a port) as [q|] eqn:Eb; [|done].
  destruct (reservePort bind (S n) l port) as [c|] eqn:Er; [|done]. cbn. intros [= <-]. cbn.
  rewrite (IH _ _ Er). by rewrite (Hb _ _ _ Eb Hp).
Qed.

Lemma reservePort_length n addresses port chunk :
  reservePort bind n addresses port = Some chunk -> length chunk = length addresses.
Proof.
  revert n chunk. induction addresses as [|a l IH]; intros n chunk; cbn; [by intros [= <-]|].
  destruct (bind a port) as [q|]; [|done]. destruct (reservePort bind (S n) l port) eqn:Er; [|done].
  intros [= <-]. cbn. by rewrite (IH _ _ Er).
Qed.

Lemma firstChunk_spec fuel addresses count port chunk p :
  firstChunk bind fuel addresses count port = Some (chunk, p) -> Z.even port = true -> 0 <= port < 2 ^ 16 ->
  chunk = [] \/ (Z.even p = true /\ 0 <= p <= 65536 - count /\ reservePort bind 0 addresses p = Some chunk).
Proof.
  revert port. induction fuel as [|fuel IH]; intros port; cbn; [done|].
  destruct (Z.leb_spec port (65536 - count)); [|intros [= <- <-]; by left].
  destruct (reservePort bind 0 addresses port) as [c|] eqn:Er.
  - intros [= <- <-] He Hp. right. split_and!; try done; lia.
  - intros Hf He Hp. apply IH in Hf; [done| |apply (uwrap_range 16); lia].
    by apply even_wrap.
Qed.

(** The sockets of [i] more ports after [port], when there are enough. *)
Lemma otherChunks_spec i addresses port sockets :
  (forall a p q, bind a p = Some q -> p <> 0 -> q = p) ->
  0 < port -> port + Z.of_nat i < 2 ^ 16 -> addresses <> [] ->
  length (otherChunks bind i addresses port sockets) = (length sockets + i * length addresses)%nat ->
  map (fun s => (localAddress s, localPort s)) (otherChunks bind i addresses port sockets)
  = map (fun s => (localAddress s, localPort s)) sockets ++
    concat (map (fun j => map (fun a => (a, j)) addresses) (seqZ (port + 1) (Z.of_nat i))).
Proof.
  intros Hb Hp Hi Ha. revert port sockets Hp Hi.
  induction i as [|i IH]; intros port sockets Hp Hi; cbn [otherChunks].
  { intros _. by rewrite app_nil_r. }
  unfold u16. rewrite uwrap_small by lia.
  assert (0 < length addresses)%nat by (destruct addresses; [done|cbn; lia]).
  destruct (reservePort bind (length sockets) addresses (port + 1)) as [chunk|] eqn:Er; [|intros; nia].
  pose proof (reservePort_length _ _ _ _ Er) as Hc. intros Hl.
  rewrite IH by (rewrite ?length_app; nia).
  rewrite (seqZ_cons (port + 1) (Z.of_nat (S i))) by lia.
  replace (Z.pred (Z.of_nat (S i))) with (Z.of_nat i) by lia.
  replace (Z.succ (port + 1)) with (port + 1 + 1) by lia.
  assert (port + 1 <> 0) as Hne by lia.
  rewrite map_app, (reservePort_spec _ _ _ _ Hb Hne Er), <-app_assoc. done.
Qed.
End PortFacts.

(** when [reservePorts] succeeds with a first port other than 0, it has bound
    every address on [count] consecutive ports starting at an even one, the
    sockets in the order of the ports. *)
Theorem reserve_ports_consecutive (bind : QHostAddress -> Z -> option Z) (fuel : nat)
    (addresses : list QHostAddress) (count : nat) (sockets : list UdpSocket) (s0 : UdpSocket) :
  (forall a p q, bind a p = Some q -> p <> 0 -> q = p) -> (forall a, bind a 0 = None) ->
  reservePorts bind fuel addresses count = Some sockets -> head sockets = Some s0 ->
  Z.even (localPort s0) = true /\
  map (fun s => (localAddress s, localPort s)) sockets
  = concat (map (fun j => map (fun a => (a, j)) addresses) (seqZ (localPort s0) (Z.of_nat count))).
Proof.
  intros Hb H0 Hr Hs. unfold reservePorts in Hr.
  destruct addresses as [|a l]; [by simplify_eq/=|]. destruct count as [|n]; [by simplify_eq/=|].
  cbn [StunMessage.is_empty orb] in Hr. change (S n =? 0)%nat with false in Hr. cbv iota in Hr.
  destruct (firstChunk _ _ _ _ _) as [[[|x chunk] port]|] eqn:Ef; [by simplify_eq/=| |done].
  apply firstChunk_spec in Ef as [?|(He & Hp & Hc)]; [done| |done|lia].
  assert (port <> 0) as Hne.
  { intros ->. cbn in Hc. by rewrite H0 in Hc. }
  pose proof (reservePort_length _ _ _ _ _ Hc) as Hlen.
  pose proof (reservePort_spec _ _ _ _ _ Hb Hne Hc) as Hmap.
  destruct (Nat.eqb_spec (length (otherChunks bind (S n - 1) (a :: l) port (x :: chunk)))
              (length (a :: l) * S n)) as [El|]; [|by simplify_eq/=].
  replace (S n - 1)%nat with n in * by lia. injection Hr as <-.
  assert (map (fun s => (localAddress s, localPort s)) (otherChunks bind n (a :: l) port (x :: chunk))
    = concat (map (fun j => map (fun a => (a, j)) (a :: l)) (seqZ port (Z.of_nat (S n))))) as Hall.
  { rewrite otherChunks_spec; [|done|lia|lia|done|rewrite El; rewrite Hlen; cbn; lia].
    rewrite Hmap, (seqZ_cons port (Z.of_nat (S n))) by lia. replace (Z.pred (Z.of_nat (S n))) with (Z.of_nat n) by lia. done. }
  assert (localPort s0 = port) as ->; [|done].
  rewrite seqZ_cons in Hall by lia.
  destruct (otherChunks bind n (a :: l) port (x :: chunk)) as [|y k]; [done|].
  cbn in Hs, Hall. by simplify_eq.
Qed.

Lemma reserve_ports_consecutive_witness :
  let bind (a : QHostAddress) (p : Z) := if (p =? 0) || (p =? 49152) then None else Some p in
  exists sockets, reservePorts bind 10 [IceToy.hostA; IceToy.hostB] 2 = Some sockets /\
    map (fun s => (localAddress s, localPort s)) sockets
    = [(IceToy.hostA, 49154); (IceToy.hostB, 49154); (IceToy.hostA, 49155); (IceToy.hostB, 49155)].
Proof.
  intros bind. eexists. split; [vm_compute; reflexivity|].
  destruct (reserve_ports_consecutive bind 10 [IceToy.hostA; IceToy.hostB] 2
    [mkSocket 0 IceToy.hostA 49154; mkSocket 1 IceToy.hostB 49154;
     mkSocket 2 IceToy.hostA 49155; mkSocket 3 IceToy.hostB 49155] (mkSocket 0 IceToy.hostA 49154))
    as [_ H].
  - intros a p q. unfold bind. destruct (_ || _); [done|]. by intros [= <-].
  - reflexivity.
  - vm_compute. reflexivity.
  - reflexivity.
  - exact H.
Defined.

(** when no port can be bound (an address that is not local, say),
    [reservePorts] gives up for three components or more, but for one or two it
    never returns: the 16-bit port wraps around to 0 before it passes the
    loop's bound. *)
Theorem reserve_ports_hangs (bind : QHostAddress -> Z -> option Z) (addresses : list QHostAddress)
    (count : nat) :
  (forall a p, bind a p = None) -> addresses <> [] ->
  ((count = 1 \/ count = 2)%nat -> forall fuel, reservePorts bind fuel addresses count = None) /\
  (3 <= Z.of_nat count <= 16384 -> reservePorts bind (Z.to_nat 8195) addresses count = Some []).
Proof.
  intros Hb Ha. unfold reservePorts. destruct addresses as [|a l]; [done|].
  cbn [StunMessage.is_empty orb]. split.
  - intros Hc fuel. rewrite (firstChunk_none bind) by (done || lia).
    by destruct Hc as [-> | ->].
  - intros Hc. rewrite (firstChunk_gives_up bind (Z.to_nat 8195)) by (done || lia).
    by destruct (Nat.eqb_spec count 0).
Qed.

Lemma reserve_ports_hangs_witness :
  reservePorts (fun _ _ => None) 1000 [IceToy.hostA] 2 = None.
Proof. apply (reserve_ports_hangs (fun _ _ => None) [IceToy.hostA] 2); [done|done|by right]. Defined.

(** ** The connection follows its components *)

Section ConnFacts.
Context (E : Env).
Import IceConn.

Definition in_sync (c : QXmppIceConnection) : Prop := IceConn.gatheringState c = summary c.

Lemma slot_components c o : components (slot c o) = components c.
Proof.
  destruct o; cbn [slot]; try done.
  - unfold slotConnected. by destruct (isConnected c).
  - unfold slotGatheringStateChanged. by case_decide.
Qed.

Lemma slots_components l c : components (foldl slot c l) = components c.
Proof.
  revert c. induction l as [|o l IH]; intros c; [done|]. cbn. by rewrite IH, slot_components.
Qed.

Lemma summary_ext c c' : components c' = components c -> summary c' = summary c.
Proof. unfold summary. by intros ->. Qed.

Lemma isConnected_ext c c' : components c' = components c -> isConnected c' = isConnected c.
Proof. unfold isConnected. by intros ->. Qed.

(** A slot keeps the summary up to date, and the slot of the gathering state
    brings it up to date. *)
Lemma slot_sync c o : in_sync c \/ o = Ice.GatheringStateChanged -> in_sync (slot c o).
Proof.
  unfold in_sync. intros H. rewrite (summary_ext c) by apply slot_components.
  destruct o; cbn [slot]; try (destruct H; done).
  - unfold slotConnected. destruct (isConnected c); by destruct H.
  - unfold slotGatheringStateChanged. by case_decide.
Qed.

Lemma slots_sync l c : in_sync c \/ Ice.GatheringStateChanged ∈ l -> in_sync (foldl slot c l).
Proof.
  revert c. induction l as [|o l IH]; intros c H; cbn.
  - destruct H as [H|H]; [done|]. by apply elem_of_nil in H.
  - apply IH. destruct H as [H|[H|H]%elem_of_cons]; [left|left|by right]; apply slot_sync; auto.
Qed.

(** What a sequence of slots emits: [connected] when a component reported it and
    all are connected, and then the timer is off. *)
Definition says_connected (said : Prop) (c c' : QXmppIceConnection) : Prop :=
  exists k, log c' = log c ++ k /\ (Connected ∈ k <-> said) /\
    (Connected ∈ k -> connectTimer c' = false) /\
    (connectTimer c = false -> connectTimer c' = false).

Lemma says_nothing (said : Prop) c c' k :
  log c' = log c ++ k -> Connected ∉ k -> ~ said -> connectTimer c' = connectTimer c ->
  says_connected said c c'.
Proof. intros El Hk Hs Ht. exists k. split_and!; [done|by split|done|by rewrite Ht]. Qed.

Lemma slot_connected c o :
  says_connected (o = Ice.Connected /\ isConnected c = true) c (slot c o).
Proof.
  assert (forall c' k, log c' = log c ++ k -> Connected ∉ k -> o <> Ice.Connected ->
    connectTimer c' = connectTimer c -> says_connected (o = Ice.Connected /\ isConnected c = true) c c') as H.
  { intros c' k El Hk Ho. apply (says_nothing _ _ _ k El Hk). by intros [? _]. }
  destruct o; cbn [slot]; try (apply (H c []); [by rewrite app_nil_r|by intros ?%elem_of_nil|done|done]).
  - unfold slotConnected. destruct (isConnected c).
    + exists [Connected]. split_and!; try done. split; [done|by left].
    + apply (says_nothing _ _ _ []); [by rewrite app_nil_r|by intros ?%elem_of_nil|by intros [_ ?]|done].
  - unfold slotGatheringStateChanged. case_decide.
    + apply (H c []); [by rewrite app_nil_r|by intros ?%elem_of_nil|done|done].
    + apply (H _ [GatheringStateChanged]); [done| |done|done]. by intros ?%list_elem_of_singleton.
  - apply (H _ [LocalCandidatesChanged]); [done| |done|done]. by intros ?%list_elem_of_singleton.
Qed.

Lemma slots_connected l c :
  says_connected (Ice.Connected ∈ l /\ isConnected c = true) c (foldl slot c l).
Proof.
  revert c. induction l as [|o l IH]; intros c; cbn [foldl].
  { apply (says_nothing _ _ _ []); [by rewrite app_nil_r|by intros ?%elem_of_nil| |done].
    by intros [?%elem_of_nil _]. }
  destruct (slot_connected c o) as (k0 & E0 & H0 & T0 & T0').
  destruct (IH (slot c o)) as (k & Hk & Hiff & Ht & Ht').
  rewrite (isConnected_ext c) in Hiff by apply slot_components.
  exists (k0 ++ k). rewrite Hk, E0, app_assoc, elem_of_app, elem_of_cons, H0, Hiff.
  split_and!; [done| | |auto].
  - clear. naive_solver.
  - intros [Hc|Hc]; [apply Ht', T0, H0; done|apply Ht; by apply Hiff].
Qed.

(** ** One component changes *)

Lemma insert_states {W} (g : QXmppIceComponent -> W) k s s' (m : QMap QXmppIceComponent) :
  qm_ok m -> qm_value k m = Some s -> g s' = g s ->
  map (fun x => g x.2) (qm_insert k s' m) = map (fun x => g x.2) m.
Proof.
  induction m as [|[k0 v0] m IH]; cbn; [done|]. intros Hm Hv Hg.
  apply qm_ok_cons in Hm as [Hm Hlt].
  destruct (Z.eqb_spec k k0) as [->|Hne].
  - simplify_eq. rewrite Z.ltb_irrefl. cbn. by rewrite Hg.
  - destruct (Z.ltb_spec k k0) as [Hk|Hk].
    + apply qm_value_elem in Hv. rewrite Forall_forall in Hlt. apply Hlt in Hv. cbn in Hv. lia.
    + cbn. by rewrite IH.
Qed.

Lemma summary_states c :
  summary c =
  if forallb (fun st => bool_decide (st = NewGatheringState)) (map (fun x => Ice.gatheringState x.2) (components c))
  then NewGatheringState
  else if forallb (fun st => bool_decide (st = CompleteGatheringState))
            (map (fun x => Ice.gatheringState x.2) (components c))
  then CompleteGatheringState else BusyGatheringState.
Proof.
  unfold summary. assert (forall p (l : QMap QXmppIceComponent),
    forallb p (map (fun x => Ice.gatheringState x.2) l) = forallb (fun x => p (Ice.gatheringState x.2)) l) as H.
  { intros p l. induction l as [|x l IH]; [done|]. cbn. by rewrite IH. }
  by rewrite !H.
Qed.

Lemma isConnected_states c :
  isConnected c = forallb (fun b => b) (map (fun x => Ice.isConnected x.2) (components c)).
Proof. unfold isConnected. induction (components c) as [|x l IH]; [done|]. cbn. by rewrite IH. Qed.

(** The invariant of a connection: its components in the order of their numbers,
    its gathering state up to date. *)
Definition conn_ok (c : QXmppIceConnection) : Prop := qm_ok (components c) /\ in_sync c.

Lemma componentStep_ok k e c : conn_ok c -> conn_ok (componentStep E k e c).
Proof.
  intros [Hm Hs]. unfold componentStep, componentDo.
  destruct (qm_value k (components c)) as [s|] eqn:Ek; [|done]. cbv zeta.
  destruct (step_reports E (config c) e s) as (l & El & _ & Hg).
  rewrite El, drop_app_length. split.
  - rewrite slots_components. by apply qm_insert_ok.
  - apply slots_sync. destruct Hg as [Hg|Hg]; [left|by right].
    unfold in_sync in *. rewrite summary_states in *. cbn.
    by rewrite (insert_states Ice.gatheringState k s).
Qed.

Lemma componentDo_log k f c : conn_ok c ->
  components (componentDo k f c) = components c \/
  exists s, qm_value k (components c) = Some s /\
    components (componentDo k f c) = qm_insert k (f s) (components c).
Proof.
  intros _. unfold componentDo. destruct (qm_value k (components c)) as [s|]; [right|by left].
  exists s. split; [done|]. cbv zeta. by rewrite slots_components.
Qed.

Lemma assignSockets_ok ks n sockets bound c : conn_ok c -> conn_ok (assignSockets E ks n sockets bound c).
Proof.
  revert sockets c. induction ks as [|k ks IH]; intros sockets c Hc; [done|]. cbn.
  by apply IH, componentStep_ok.
Qed.

Lemma steps_ok (e : Ice.Event) ks c : conn_ok c -> conn_ok (foldl (fun c k => componentStep E k e c) c ks).
Proof.
  revert c. induction ks as [|k ks IH]; intros c Hc; [done|]. cbn. by apply IH, componentStep_ok.
Qed.

Lemma closeAll_ok c : conn_ok c -> conn_ok (closeAll E c).
Proof. exact (steps_ok Ice.Close (keys c) c). Qed.

Lemma conn_ok_same c c' :
  components c' = components c -> IceConn.gatheringState c' = IceConn.gatheringState c ->
  conn_ok c -> conn_ok c'.
Proof. intros E1 E2 [H1 H2]. split; unfold in_sync, summary in *; by rewrite ?E1, ?E2. Qed.

Lemma conn_step_ok e c : conn_ok c -> conn_ok (step E e c).
Proof.
  intros Hc. destruct e; cbn [step]; try done.
  - unfold addRemoteCandidate. destruct (qm_contains _ _); [by apply componentStep_ok|done].
  - by apply assignSockets_ok.
  - unfold connectToHost. destruct (_ || _); [done|].
    by apply (conn_ok_same (foldl (fun c k => componentStep E k Ice.ConnectToHost c) c (keys c))), steps_ok.
  - unfold close. by apply closeAll_ok, (conn_ok_same c).
  - destruct (connectTimer c); [|done]. unfold slotTimeout. 
    apply (conn_ok_same (closeAll E (emit (Warning "ICE negotiation timed out") (c <| connectTimer := false |>))));
      [done|done|]. by apply closeAll_ok, (conn_ok_same c).
  - by apply componentStep_ok.
Qed.

Definition new_components (c : QXmppIceConnection) : Prop :=
  qm_ok (components c) /\ Forall (fun x => Ice.gatheringState x.2 = NewGatheringState) (components c) /\
  IceConn.gatheringState c = NewGatheringState.

Lemma addComponent_new k c : new_components c -> new_components (addComponent k c).
Proof.
  intros (Hm & Hf & Hg). unfold addComponent. destruct (qm_contains k _); [done|].
  split_and!; cbn; [by apply qm_insert_ok| |done].
  apply Forall_forall. intros [k' s'] Hin. apply qm_insert_elem in Hin as [?|Hin]; simplify_eq; [done|].
  rewrite Forall_forall in Hf. by apply Hf.
Qed.

Lemma new_components_ok c : new_components c -> conn_ok c.
Proof.
  intros (Hm & Hf & Hg). split; [done|]. unfold in_sync. rewrite Hg, summary_states.
  assert (forallb (fun st => bool_decide (st = NewGatheringState))
    (map (fun x => Ice.gatheringState x.2) (components c)) = true) as ->; [|done].
  apply forallb_forall. intros st (x & <- & Hx%list_elem_of_In)%in_map_iff.
  rewrite Forall_forall in Hf. by apply bool_decide_eq_true_2, Hf.
Qed.

Lemma set_up_ok (ks : list Z) user password tb :
  conn_ok (foldl (fun c k => addComponent k c) (newConnection user password tb) ks).
Proof.
  apply new_components_ok.
  assert (new_components (newConnection user password tb)) as H
    by (split_and!; [apply qm_ok_nil|constructor|done]).
  revert H. generalize (newConnection user password tb) as c.
  induction ks as [|k ks IH]; intros c Hc; [done|]. cbn. by apply IH, addComponent_new.
Qed.

Lemma run_conn_ok es c : conn_ok c -> conn_ok (run E es c).
Proof. revert c. induction es as [|e es IH]; intros c Hc; [done|]. cbn. by apply IH, conn_step_ok. Qed.
End ConnFacts.

(** once its components are added, the gathering state of a connection is
    always the summary of its components' states: new while all are new,
    complete when all are complete, busy otherwise. *)
Theorem conn_gathering_state (E : Env) (user password : string) (tb : bytes) (ks : list Z)
    (es : list IceConn.Event) :
  let c := IceConn.run E es
    (foldl (fun c k => IceConn.addComponent k c) (IceConn.newConnection user password tb) ks) in
  IceConn.gatheringState c = IceConn.summary c.
Proof. apply (run_conn_ok E es), set_up_ok. Qed.

(** a connection says it is connected exactly when its last component
    connects: on every event of a component, it emits [connected] only if all
    components have an active pair, it does so if they did not have one before,
    and the negotiation timer is then off. *)
Theorem conn_reports_connected (E : Env) (user password : string) (tb : bytes) (ks : list Z)
    (es : list IceConn.Event) (k : Z) (e : Ice.Event) :
  let c := IceConn.run E es
    (foldl (fun c k => IceConn.addComponent k c) (IceConn.newConnection user password tb) ks) in
  let c' := IceConn.step E (IceConn.OfComponent k e) c in
  exists l, IceConn.log c' = IceConn.log c ++ l /\
    (IceConn.Connected ∈ l -> IceConn.isConnected c' = true /\ IceConn.connectTimer c' = false) /\
    (IceConn.isConnected c = false -> IceConn.isConnected c' = true -> IceConn.Connected ∈ l).
Proof.
  intros c c'.
  assert (conn_ok c) as [Hm _] by (apply (run_conn_ok E es), set_up_ok).
  clearbody c. unfold c'. cbn [IceConn.step]. unfold IceConn.componentStep, IceConn.componentDo.
  destruct (qm_value k (IceConn.components c)) as [s|] eqn:Ek.
  2:{ exists []. rewrite app_nil_r. split_and!; [done|by intros ?%elem_of_nil|congruence]. }
  cbv zeta. destruct (step_reports E (IceConn.config c) e s) as (l & El & Hc & _).
  rewrite El, drop_app_length. set (s' := Ice.step E (IceConn.config c) e s) in *.
  set (c1 := c <| IceConn.components ::= qm_insert k s' |>).
  destruct (slots_connected l c1) as (out & Hout & Hiff & Ht & _).
  assert (IceConn.isConnected (foldl IceConn.slot c1 l) = IceConn.isConnected c1) as Hsame
    by (apply isConnected_ext, slots_components).
  exists out. rewrite Hsame. split_and!.
  - exact Hout.
  - intros Hin. split; [by apply Hiff|by apply Ht].
  - intros Hno Hyes. apply Hiff. split; [|done].
    destruct (Ice.isConnected s') eqn:Es'.
    + destruct (Hc eq_refl) as [Hs|?]; [|done].
      rewrite isConnected_states in Hno, Hyes. unfold c1 in Hyes. cbn in Hyes.
      rewrite (insert_states Ice.isConnected k s) in Hyes by congruence. congruence.
    + exfalso. unfold IceConn.isConnected, c1 in Hyes. cbn in Hyes.
      assert ((k, s') ∈ qm_insert k s' (IceConn.components c)) as Hin
        by (apply qm_value_elem, qm_value_insert).
      rewrite forallb_forall in Hyes. apply list_elem_of_In in Hin. apply Hyes in Hin. cbn in Hin.
      congruence.
Qed.
