(* ===== verification/StreamManagement.v ===== *)
(** * XEP-0198 stream management (src/src/base/QXmppStreamManagement.cpp)

    The nonzas with their parsers and writers, and StreamAckManager: the queue
    of stanzas the server has not acknowledged, the two counters, and what is
    reported to the promise of each packet. The socket is its connection state
    and the log of the elements written to it; a packet's bytes are the element
    they serialise. Continuations of a promise that call back into the manager
    are not modelled. *)
From S2P Require Import Prelude DataStream Utils Dom QMap.

Definition ns_stream_management : string := "urn:xmpp:sm:3".
Definition ns_stanza : string := "urn:ietf:params:xml:ns:xmpp-stanzas".

(** ** QXmppStanza::Error::Condition *)

Inductive Condition :=
  | NoCondition | BadRequest | Conflict | FeatureNotImplemented | Forbidden | Gone
  | InternalServerError | ItemNotFound | JidMalformed | NotAcceptable | NotAllowed
  | NotAuthorized | PaymentRequired | RecipientUnavailable | Redirect
  | RegistrationRequired | RemoteServerNotFound | RemoteServerTimeout
  | ResourceConstraint | ServiceUnavailable | SubscriptionRequired
  | UndefinedCondition | UnexpectedRequest | PolicyViolation.
#[export] Instance Condition_eq_dec : EqDecision Condition.
Proof. solve_decision. Defined.

#[export] Instance Condition_data : EnumData Condition := {
  enum_value c := match c with
    | NoCondition => -1 | BadRequest => 0 | Conflict => 1 | FeatureNotImplemented => 2
    | Forbidden => 3 | Gone => 4 | InternalServerError => 5 | ItemNotFound => 6
    | JidMalformed => 7 | NotAcceptable => 8 | NotAllowed => 9 | NotAuthorized => 10
    | PaymentRequired => 11 | RecipientUnavailable => 12 | Redirect => 13
    | RegistrationRequired => 14 | RemoteServerNotFound => 15 | RemoteServerTimeout => 16
    | ResourceConstraint => 17 | ServiceUnavailable => 18 | SubscriptionRequired => 19
    | UndefinedCondition => 20 | UnexpectedRequest => 21 | PolicyViolation => 22
    end;
  Values := [
    (NoCondition, ""); (BadRequest, "bad-request"); (Conflict, "conflict");
    (FeatureNotImplemented, "feature-not-implemented"); (Forbidden, "forbidden");
    (Gone, "gone"); (InternalServerError, "internal-server-error");
    (ItemNotFound, "item-not-found"); (JidMalformed, "jid-malformed");
    (NotAcceptable, "not-acceptable"); (NotAllowed, "not-allowed");
    (NotAuthorized, "not-authorized"); (PaymentRequired, "payment-required");
    (RecipientUnavailable, "recipient-unavailable"); (Redirect, "redirect");
    (RegistrationRequired, "registration-required");
    (RemoteServerNotFound, "remote-server-not-found");
    (RemoteServerTimeout, "remote-server-timeout");
    (ResourceConstraint, "resource-constraint");
    (ServiceUnavailable, "service-unavailable");
    (SubscriptionRequired, "subscription-required");
    (UndefinedCondition, "undefined-condition");
    (UnexpectedRequest, "unexpected-request"); (PolicyViolation, "policy-violation")]
}.

(** ** The nonzas *)

Record SmEnable := { en_resume : bool; en_max : Z }.
Record SmEnabled := { ed_resume : bool; ed_id : string; ed_max : Z; ed_location : string }.
Record SmResume := { re_h : Z; re_previd : string }.
Record SmResumed := { rd_h : Z; rd_previd : string }.
Record SmFailed := { fa_error : option Condition }.
Record SmAck := { seqNo : Z }.
Record SmRequest := {}.

(** [resume == "true" || resume == "1"] *)
Definition is_true (v : string) : bool := bool_decide (v = "true") || bool_decide (v = "1").

#[export] Instance SmEnable_xml : XmlElement SmEnable := {
  XmlTag := ("enable", ns_stream_management);
  fromDom el :=
    if decide (elementXmlTag el <> ("enable", ns_stream_management)) then None
    else Some {| en_resume := is_true (attribute el "resume");
                 en_max := toULongLong (attribute el "max") |};
  toXml e := Element ("enable", ns_stream_management) [
    OptionalBoolAttribute "resume" (en_resume e) false;
    OptionalContent (0 <? en_max e) [Attribute "max" (number (en_max e))]];
}.

#[export] Instance SmEnabled_xml : XmlElement SmEnabled := {
  XmlTag := ("enabled", ns_stream_management);
  fromDom el :=
    if decide (elementXmlTag el <> ("enabled", ns_stream_management)) then None
    else Some {| ed_resume := is_true (attribute el "resume"); ed_id := attribute el "id";
                 ed_max := toULongLong (attribute el "max");
                 ed_location := attribute el "location" |};
  toXml e := Element ("enabled", ns_stream_management) [
    OptionalBoolAttribute "resume" (ed_resume e) false;
    OptionalAttribute "id" (ed_id e);
    OptionalContent (0 <? ed_max e) [Attribute "max" (number (ed_max e))];
    OptionalAttribute "location" (ed_location e)];
}.

#[export] Instance SmResume_xml : XmlElement SmResume := {
  XmlTag := ("resume", ns_stream_management);
  fromDom el :=
    if decide (elementXmlTag el <> ("resume", ns_stream_management)) then None
    else Some {| re_h := toUInt (attribute el "h"); re_previd := attribute el "previd" |};
  toXml r := Element ("resume", ns_stream_management) [
    Attribute "h" (number (re_h r)); Attribute "previd" (re_previd r)];
}.

#[export] Instance SmResumed_xml : XmlElement SmResumed := {
  XmlTag := ("resumed", ns_stream_management);
  fromDom el :=
    if decide (elementXmlTag el <> ("resumed", ns_stream_management)) then None
    else Some {| rd_h := toUInt (attribute el "h"); rd_previd := attribute el "previd" |};
  toXml r := Element ("resumed", ns_stream_management) [
    Attribute "h" (number (rd_h r)); Attribute "previd" (rd_previd r)];
}.

#[export] Instance SmFailed_xml : XmlElement SmFailed := {
  XmlTag := ("failed", ns_stream_management);
  fromDom el :=
    if decide (elementXmlTag el <> ("failed", ns_stream_management)) then None
    else Some {| fa_error := fromString (tagName (firstChildElement el "" ns_stanza)) |};
  toXml f := Element ("failed", ns_stream_management) [
    match fa_error f with
    | Some c => [Element (toString c, ns_stanza) []]
    | None => []
    end];
}.

#[export] Instance SmAck_xml : XmlElement SmAck := {
  XmlTag := ("a", ns_stream_management);
  fromDom el :=
    if decide (elementXmlTag el = ("a", ns_stream_management))
    then Some {| seqNo := toUInt (attribute el "h") |} else None;
  toXml a := Element ("a", ns_stream_management) [Attribute "h" (number (seqNo a))];
}.

#[export] Instance SmRequest_xml : XmlElement SmRequest := {
  XmlTag := ("r", ns_stream_management);
  fromDom el :=
    if decide (elementXmlTag el = ("r", ns_stream_management))
    then Some Build_SmRequest else None;
  toXml _ := Element ("r", ns_stream_management) [];
}.

(** ** Packets and the socket *)

Inductive SendError := SocketWriteError | Disconnected | EncryptionError.
Inductive SendResult := SendSuccess (acknowledged : bool) | SendFailure (e : SendError).

(** The promise is shared by the copies of a packet: it is its identity. *)
Record QXmppPacket := { m_promise : nat; m_data : Dom; m_isXmppStanza : bool }.

Record XmppSocket := { isConnected : bool; written : list Dom }.
#[export] Instance XmppSocket_eta : Eta XmppSocket := fun r =>
  {| isConnected := isConnected r; written := written r |}.

Definition sendData (data : Dom) (s : XmppSocket) : XmppSocket * bool :=
  if isConnected s then (s <| written ::= (fun w => w ++ [data]) |>, true) else (s, false).

(** ** StreamAckManager *)

Record StreamAckManager := {
  m_enabled : bool;
  m_unacknowledgedStanzas : QMap QXmppPacket;
  m_lastOutgoingSequenceNumber : Z;
  m_lastIncomingSequenceNumber : Z;
  socket : XmppSocket;
  reports : list (nat * SendResult);          (* finished promises, in order *)
}.
#[export] Instance StreamAckManager_eta : Eta StreamAckManager := fun r =>
  {| m_enabled := m_enabled r; m_unacknowledgedStanzas := m_unacknowledgedStanzas r;
     m_lastOutgoingSequenceNumber := m_lastOutgoingSequenceNumber r;
     m_lastIncomingSequenceNumber := m_lastIncomingSequenceNumber r;
     socket := socket r; reports := reports r |}.

Definition newStreamAckManager (s : XmppSocket) : StreamAckManager :=
  {| m_enabled := false; m_unacknowledgedStanzas := []; m_lastOutgoingSequenceNumber := 0;
     m_lastIncomingSequenceNumber := 0; socket := s; reports := [] |}.

Module Sm.

Definition write (data : Dom) (m : StreamAckManager) : StreamAckManager :=
  m <| socket := (sendData data (socket m)).1 |>.

Definition reportFinished (p : QXmppPacket) (r : SendResult) (m : StreamAckManager) :
    StreamAckManager :=
  m <| reports ::= (fun l => l ++ [(m_promise p, r)]) |>.

Definition onSessionClosed (m : StreamAckManager) : StreamAckManager :=
  m <| m_enabled := false |>.

Definition sendAcknowledgementRequest (m : StreamAckManager) : StreamAckManager :=
  if negb (m_enabled m) then m else write (serializeXml (toXml Build_SmRequest)) m.

Definition sendAcknowledgement (m : StreamAckManager) : StreamAckManager :=
  if negb (m_enabled m) then m
  else write (serializeXml (toXml {| seqNo := m_lastIncomingSequenceNumber m |})) m.

(** [m_unacknowledgedStanzas.insert(++m_lastOutgoingSequenceNumber, packet)] *)
Definition enqueue (p : QXmppPacket) (m : StreamAckManager) : StreamAckManager :=
  let m := m <| m_lastOutgoingSequenceNumber ::= (fun n => u32 (n + 1)) |> in
  m <| m_unacknowledgedStanzas ::= qm_insert (m_lastOutgoingSequenceNumber m) p |>.

Definition enableStreamManagement (resetSequenceNumber : bool) (m : StreamAckManager) :
    StreamAckManager :=
  let m := m <| m_enabled := true |> in
  if resetSequenceNumber then
    let m := m <| m_lastOutgoingSequenceNumber := 0 |> <| m_lastIncomingSequenceNumber := 0 |> in
    let oldUnackedStanzas := m_unacknowledgedStanzas m in
    match oldUnackedStanzas with
    | [] => m
    | _ =>
        let m := m <| m_unacknowledgedStanzas := [] |> in
        let m := foldl (fun m e => write (m_data e.2) (enqueue e.2 m)) m oldUnackedStanzas in
        sendAcknowledgementRequest m
    end
  else
    match m_unacknowledgedStanzas m with
    | [] => m
    | unacked =>
        let m := foldl (fun m e => write (m_data e.2) m) m unacked in
        sendAcknowledgementRequest m
    end.

Fixpoint ack_loop (sequenceNumber : Z) (it : QMap QXmppPacket) (m : StreamAckManager) :
    StreamAckManager :=
  match it with
  | [] => m
  | (key, packet) :: it' =>
      if key <=? sequenceNumber then
        let m := reportFinished packet (SendSuccess true) m in
        let m := m <| m_unacknowledgedStanzas ::= qm_remove key |> in
        ack_loop sequenceNumber it' m
      else m
  end.
Definition setAcknowledgedSequenceNumber (sequenceNumber : Z) (m : StreamAckManager) :
    StreamAckManager :=
  ack_loop sequenceNumber (m_unacknowledgedStanzas m) m.

Definition handleAcknowledgement (ack : SmAck) (m : StreamAckManager) : StreamAckManager :=
  if negb (m_enabled m) then m else setAcknowledgedSequenceNumber (seqNo ack) m.

Definition is_stanza_tag (t : string) : bool :=
  bool_decide (t = "message") || bool_decide (t = "presence") || bool_decide (t = "iq").

Definition handleStanza (stanza : Dom) (m : StreamAckManager) : StreamAckManager * bool :=
  match fromDom stanza with
  | Some ack => (handleAcknowledgement ack m, true)
  | None =>
      match (fromDom stanza : option SmRequest) with
      | Some _ => (sendAcknowledgement m, true)
      | None =>
          (if is_stanza_tag (tagName stanza)
           then m <| m_lastIncomingSequenceNumber ::= (fun n => u32 (n + 1)) |> else m,
           false)
      end
  end.

(** The manager and whether the data reached the socket. *)
Definition internalSend (packet : QXmppPacket) (m : StreamAckManager) :
    StreamAckManager * bool :=
  let '(s, writtenToSocket) := sendData (m_data packet) (socket m) in
  let m := m <| socket := s |> in
  let m :=
    if m_enabled m && m_isXmppStanza packet then sendAcknowledgementRequest (enqueue packet m)
    else if writtenToSocket then reportFinished packet (SendSuccess false) m
    else reportFinished packet (SendFailure SocketWriteError) m in
  (m, writtenToSocket).

Definition send (packet : QXmppPacket) (m : StreamAckManager) : StreamAckManager :=
  (internalSend packet m).1.

Definition resetCache (m : StreamAckManager) : StreamAckManager :=
  let m := foldl (fun m e => reportFinished e.2 (SendFailure Disconnected) m) m
             (m_unacknowledgedStanzas m) in
  m <| m_unacknowledgedStanzas := [] |>.

End Sm.

(** ** The specification: a FIFO queue

    [base] stanzas of the session are acknowledged, [pending] are not. *)

Record Queue := {
  q_on : bool;
  base : Z;
  pending : list QXmppPacket;
  q_in : Z;
  q_sock : XmppSocket;
  q_reports : list (nat * SendResult);
}.
#[export] Instance Queue_eta : Eta Queue := fun r =>
  {| q_on := q_on r; base := base r; pending := pending r; q_in := q_in r;
     q_sock := q_sock r; q_reports := q_reports r |}.

Module Spec.

Definition write (data : Dom) (q : Queue) : Queue := q <| q_sock := (sendData data (q_sock q)).1 |>.
Definition writes (ds : list Dom) (q : Queue) : Queue := foldl (fun q d => write d q) q ds.
Definition report (r : SendResult) (ps : list QXmppPacket) (q : Queue) : Queue :=
  q <| q_reports ::= (fun l => l ++ map (fun p => (m_promise p, r)) ps) |>.
Definition request (q : Queue) : Queue :=
  if q_on q then write (serializeXml (toXml Build_SmRequest)) q else q.

(** How many of the pending stanzas an acknowledgement of [h] covers. *)
Definition covered (h : Z) (q : Queue) : nat := Z.to_nat (h - base q) `min` length (pending q).

Definition acknowledge (h : Z) (q : Queue) : Queue :=
  let n := covered h q in
  (report (SendSuccess true) (take n (pending q)) q)
    <| base := base q + Z.of_nat n |> <| pending := drop n (pending q) |>.

Definition send (p : QXmppPacket) (q : Queue) : Queue :=
  let ok := isConnected (q_sock q) in
  let q := write (m_data p) q in
  if q_on q && m_isXmppStanza p then request (q <| pending ::= (fun l => l ++ [p]) |>)
  else report (if ok then SendSuccess false else SendFailure SocketWriteError) [p] q.

Definition enable (reset : bool) (q : Queue) : Queue :=
  let q := q <| q_on := true |> in
  let q := if reset then q <| base := 0 |> <| q_in := 0 |> else q in
  match pending q with
  | [] => q
  | ps => request (writes (map m_data ps) q)
  end.

Definition receive (el : Dom) (q : Queue) : Queue :=
  match fromDom el with
  | Some ack => if q_on q then acknowledge (seqNo ack) q else q
  | None =>
      match (fromDom el : option SmRequest) with
      | Some _ => if q_on q then write (serializeXml (toXml {| seqNo := q_in q |})) q else q
      | None =>
          if Sm.is_stanza_tag (tagName el) then q <| q_in ::= (fun n => u32 (n + 1)) |> else q
      end
  end.

Definition reset (q : Queue) : Queue :=
  (report (SendFailure Disconnected) (pending q) q)
    <| base := base q + len (pending q) |> <| pending := [] |>.
End Spec.

(** The operations of the manager and the state of the connection. *)
Inductive SmOp :=
  | OSend (p : QXmppPacket) | OReceive (el : Dom) | OEnable (reset : bool)
  | OResumed (h : Z) | OSessionClosed | OResetCache | OConnection (up : bool).

Definition sm_op (m : StreamAckManager) (o : SmOp) : StreamAckManager :=
  match o with
  | OSend p => Sm.send p m
  | OReceive el => (Sm.handleStanza el m).1
  | OEnable r => Sm.enableStreamManagement r m
  | OResumed h => Sm.enableStreamManagement false (Sm.setAcknowledgedSequenceNumber h m)
  | OSessionClosed => Sm.onSessionClosed m
  | OResetCache => Sm.resetCache m
  | OConnection up => m <| socket ::= (fun s => s <| isConnected := up |>) |>
  end.
Definition sm_run (ops : list SmOp) (m : StreamAckManager) : StreamAckManager := foldl sm_op m ops.

Definition spec_op (q : Queue) (o : SmOp) : Queue :=
  match o with
  | OSend p => Spec.send p q
  | OReceive el => Spec.receive el q
  | OEnable r => Spec.enable r q
  | OResumed h => Spec.enable false (Spec.acknowledge h q)
  | OSessionClosed => q <| q_on := false |>
  | OResetCache => Spec.reset q
  | OConnection up => q <| q_sock ::= (fun s => s <| isConnected := up |>) |>
  end.
Definition spec_run (ops : list SmOp) (q : Queue) : Queue := foldl spec_op q ops.

Fixpoint numbered (b : Z) (ps : list QXmppPacket) : QMap QXmppPacket :=
  match ps with [] => [] | p :: ps' => (b + 1, p) :: numbered (b + 1) ps' end.

(** The manager that implements the queue [q]. *)
Definition impl (q : Queue) : StreamAckManager :=
  {| m_enabled := q_on q; m_unacknowledgedStanzas := numbered (base q) (pending q);
     m_lastOutgoingSequenceNumber := base q + len (pending q);
     m_lastIncomingSequenceNumber := q_in q; socket := q_sock q; reports := q_reports q |}.

(** The last sequence number of the session. *)
Definition top (q : Queue) : Z := base q + len (pending q).

(** The condition under which the sequence numbers do not wrap around. *)
Definition fits (q : Queue) : Prop := 0 <= base q /\ top q < 2 ^ 32.

(** ** Each operation implements its specification *)

Lemma numbered_snoc b ps p : numbered b (ps ++ [p]) = numbered b ps ++ [(b + len ps + 1, p)].
Proof.
  revert b. induction ps as [|p' ps IH]; intros b; simpl.
  - do 2 f_equal. unfold len. simpl. lia.
  - rewrite IH. unfold len. simpl length. do 4 f_equal. lia.
Qed.

Lemma numbered_keys b ps : Forall (fun e => e.1 < b + len ps + 1) (numbered b ps).
Proof.
  revert b. induction ps as [|p ps IH]; intros b; simpl; constructor; unfold len; simpl; [lia|].
  eapply Forall_impl; [apply IH|]. intros e. unfold len. simpl. lia.
Qed.

Lemma numbered_data b ps : map (fun e => m_data e.2) (numbered b ps) = map m_data ps.
Proof. revert b. induction ps as [|p ps IH]; intros b; simpl; [done|]. by rewrite IH. Qed.

Lemma impl_write d q : Sm.write d (impl q) = impl (Spec.write d q).
Proof. done. Qed.

Lemma impl_request q : Sm.sendAcknowledgementRequest (impl q) = impl (Spec.request q).
Proof. unfold Sm.sendAcknowledgementRequest, Spec.request. simpl. by destruct (q_on q). Qed.

Lemma impl_enqueue p q : 0 <= base q -> top q + 1 < 2 ^ 32 ->
  Sm.enqueue p (impl q) = impl (q <| pending ::= (fun l => l ++ [p]) |>).
Proof.
  intros Hb Ht. unfold top, Sm.enqueue, impl, len in *. simpl. rewrite length_app. simpl.
  unfold u32. rewrite uwrap_small by lia.
  rewrite numbered_snoc, qm_insert_last.
  - f_equal; lia.
  - eapply Forall_impl; [apply numbered_keys|]. unfold len. simpl. lia.
Qed.

Lemma acknowledge_step h q p ps : pending q = p :: ps -> base q + 1 <= h ->
  Spec.acknowledge h ((Spec.report (SendSuccess true) [p] q)
    <| base := base q + 1 |> <| pending := ps |>) = Spec.acknowledge h q.
Proof.
  intros Hp Hh. unfold Spec.acknowledge, Spec.covered. rewrite Hp. simpl.
  replace (Z.to_nat (h - base q)) with (S (Z.to_nat (h - (base q + 1)))) by lia. simpl.
  unfold Spec.report. simpl. rewrite <-app_assoc. simpl. f_equal. lia.
Qed.

Lemma impl_ack_loop h ps q : pending q = ps ->
  Sm.ack_loop h (numbered (base q) ps) (impl q) = impl (Spec.acknowledge h q).
Proof.
  revert q. induction ps as [|p ps IH]; intros q Hp; simpl.
  - unfold Spec.acknowledge, Spec.covered. rewrite Hp. simpl. rewrite Nat.min_0_r. simpl.
    unfold impl, Spec.report. rewrite Hp. simpl. rewrite app_nil_r. f_equal; f_equal; lia.
  - destruct (Z.leb_spec (base q + 1) h) as [Hh|Hh].
    + rewrite <-(acknowledge_step h q p ps) by done. rewrite <-IH by done. simpl.
      f_equal. unfold impl, Sm.reportFinished, Spec.report. rewrite Hp. simpl.
      rewrite Z.eqb_refl. f_equal. unfold len. simpl length. lia.
    + unfold Spec.acknowledge, Spec.covered.
      replace (Z.to_nat (h - base q)) with 0%nat by lia. simpl.
      unfold impl, Spec.report. simpl. rewrite app_nil_r. f_equal; f_equal; lia.
Qed.

Lemma impl_acknowledge h q :
  Sm.setAcknowledgedSequenceNumber h (impl q) = impl (Spec.acknowledge h q).
Proof. by apply impl_ack_loop. Qed.

Lemma impl_writes b ps q :
  foldl (fun m e => Sm.write (m_data e.2) m) (impl q) (numbered b ps) =
  impl (Spec.writes (map m_data ps) q).
Proof. revert b q. induction ps as [|p ps IH]; intros b q; simpl; [done|]. by rewrite impl_write, IH. Qed.

Lemma impl_resend b ps q : 0 <= base q -> top q + len ps < 2 ^ 32 ->
  foldl (fun m e => Sm.write (m_data e.2) (Sm.enqueue e.2 m)) (impl q) (numbered b ps) =
  impl (Spec.writes (map m_data ps) (q <| pending ::= (fun l => l ++ ps) |>)).
Proof.
  revert b q. induction ps as [|p ps IH]; intros b q Hb Ht; simpl.
  - by destruct q as [? ? pend ? ? ?]; simpl; rewrite app_nil_r.
  - unfold top, len in *. simpl in Ht. rewrite impl_enqueue by (unfold top, len; lia).
    rewrite impl_write, IH; simpl; rewrite ?length_app; simpl; [|lia..].
    do 2 f_equal. unfold Spec.write. simpl. by rewrite <-app_assoc.
Qed.

Lemma impl_enable r q : fits q ->
  Sm.enableStreamManagement r (impl q) = impl (Spec.enable r q).
Proof.
  intros [Hb Ht]. unfold Sm.enableStreamManagement, Spec.enable. destruct r; simpl.
  - destruct (pending q) as [|p ps] eqn:Hp; simpl; [by unfold impl; simpl; rewrite ?Hp|].
    set (q0 := q <| q_on := true |> <| base := 0 |> <| q_in := 0 |> <| pending := [] |>).
    pose proof (impl_resend (base q) (p :: ps) q0) as Hr. simpl in Hr.
    rewrite <-impl_request. unfold top in *. rewrite Hp in Ht.
    transitivity (Sm.sendAcknowledgementRequest
      (foldl (fun m e => Sm.write (m_data e.2) (Sm.enqueue e.2 m)) (impl q0)
         (numbered (base q) (p :: ps)))); [done|].
    simpl. rewrite Hr; [|simpl; lia|unfold q0, len in *; simpl in *; lia].
    done.
  - destruct (pending q) as [|p ps] eqn:Hp; simpl; [by unfold impl; simpl; rewrite ?Hp|].
    rewrite <-impl_request. f_equal.
    rewrite <-(impl_writes (base q + 1) ps). unfold impl. simpl. done.
Qed.

Lemma impl_send p q : fits q -> top q + 1 < 2 ^ 32 ->
  Sm.send p (impl q) = impl (Spec.send p q).
Proof.
  intros [Hb _] Ht. unfold Sm.send, Sm.internalSend, Spec.send. simpl.
  pose proof (impl_enqueue p (Spec.write (m_data p) q) Hb Ht) as He. simpl in He.
  destruct (q_on q && m_isXmppStanza p) eqn:Hs.
  - rewrite <-impl_request, <-He. clear He. apply andb_prop in Hs as [Hon Hp].
    unfold Spec.write, impl, sendData. destruct (isConnected (q_sock q)); simpl; by rewrite ?Hon, ?Hp; simpl; rewrite ?Hon.
  - unfold Spec.write, impl, sendData. apply andb_false_iff in Hs.
    destruct (isConnected (q_sock q)); simpl; destruct (q_on q), (m_isXmppStanza p);
      by destruct Hs.
Qed.

Lemma impl_receive el q : (Sm.handleStanza el (impl q)).1 = impl (Spec.receive el q).
Proof.
  unfold Sm.handleStanza, Spec.receive.
  destruct (fromDom el) as [ack|].
  { unfold Sm.handleAcknowledgement. simpl. destruct (q_on q); [apply impl_acknowledge|done]. }
  destruct (fromDom el : option SmRequest).
  { unfold Sm.sendAcknowledgement. simpl. by destruct (q_on q). }
  by destruct (Sm.is_stanza_tag (tagName el)).
Qed.

Lemma impl_report b ps q :
  foldl (fun m e => Sm.reportFinished e.2 (SendFailure Disconnected) m) (impl q) (numbered b ps) =
  impl (Spec.report (SendFailure Disconnected) ps q).
Proof.
  revert b q. induction ps as [|p ps IH]; intros b q; simpl.
  - unfold impl, Spec.report. simpl. by rewrite app_nil_r.
  - change (Sm.reportFinished p (SendFailure Disconnected) (impl q))
      with (impl (Spec.report (SendFailure Disconnected) [p] q)).
    rewrite IH. unfold impl, Spec.report. simpl. by rewrite <-app_assoc.
Qed.

Lemma impl_reset q : Sm.resetCache (impl q) = impl (Spec.reset q).
Proof.
  unfold Sm.resetCache. simpl. rewrite impl_report. unfold impl, Spec.reset. simpl.
  f_equal. unfold len. simpl. lia.
Qed.

Lemma acknowledge_top h q : top (Spec.acknowledge h q) = top q.
Proof. unfold top, Spec.acknowledge, Spec.covered, len. simpl. rewrite length_drop. lia. Qed.

Lemma acknowledge_fits h q : fits q -> fits (Spec.acknowledge h q).
Proof.
  intros [Hb Ht]. split; [|by rewrite acknowledge_top].
  unfold Spec.acknowledge. simpl. lia.
Qed.

Lemma impl_op q o : fits q -> top q + 1 < 2 ^ 32 -> sm_op (impl q) o = impl (spec_op q o).
Proof.
  intros Hf Ht. destruct o; cbn [sm_op spec_op].
  - by apply impl_send.
  - apply impl_receive.
  - by apply impl_enable.
  - rewrite impl_acknowledge. by apply impl_enable, acknowledge_fits.
  - done.
  - apply impl_reset.
  - done.
Qed.

(** ** The bound on the sequence numbers is kept *)

Lemma writes_frame ds q : base (Spec.writes ds q) = base q /\ pending (Spec.writes ds q) = pending q.
Proof. revert q. induction ds as [|d ds IH]; intros q; simpl; [done|]. by destruct (IH (Spec.write d q)) as [-> ->]. Qed.

Lemma request_frame q : base (Spec.request q) = base q /\ pending (Spec.request q) = pending q.
Proof. unfold Spec.request. by destruct (q_on q). Qed.

Lemma enable_frame r q : pending (Spec.enable r q) = pending q /\
  base (Spec.enable r q) = if r then 0 else base q.
Proof.
  unfold Spec.enable. destruct r; simpl; destruct (pending q) as [|p ps] eqn:Hp; simpl;
    rewrite ?(proj1 (request_frame _)), ?(proj2 (request_frame _)),
      ?(proj1 (writes_frame _ _)), ?(proj2 (writes_frame _ _)); simpl; by rewrite ?Hp.
Qed.

Lemma enable_top r q : fits q -> fits (Spec.enable r q) /\ top (Spec.enable r q) <= top q.
Proof.
  intros [Hb Ht]. destruct (enable_frame r q) as [Hp Hbase].
  unfold fits, top in *. rewrite Hp, Hbase. destruct r; lia.
Qed.

Lemma send_top p q : top (Spec.send p q) <= top q + 1 /\ base (Spec.send p q) = base q.
Proof.
  unfold Spec.send. cbv zeta.
  change (q_on (Spec.write (m_data p) q)) with (q_on q). destruct (q_on q && m_isXmppStanza p).
  - unfold top. rewrite (proj1 (request_frame _)), (proj2 (request_frame _)). unfold len. simpl.
    rewrite length_app. simpl. lia.
  - unfold top, Spec.report. simpl. lia.
Qed.

Lemma receive_top el q : fits q -> fits (Spec.receive el q) /\ top (Spec.receive el q) = top q.
Proof.
  intros Hf. unfold Spec.receive. destruct (fromDom el) as [ack|].
  { destruct (q_on q); [|done]. by split; [apply acknowledge_fits|apply acknowledge_top]. }
  destruct (fromDom el : option SmRequest); [by destruct (q_on q)|].
  by destruct (Sm.is_stanza_tag (tagName el)).
Qed.

Lemma spec_op_fits q o : fits q -> top q + 1 < 2 ^ 32 ->
  fits (spec_op q o) /\ top (spec_op q o) <= top q + 1.
Proof.
  intros Hf Ht. destruct o as [p|el|r|h| | |up]; cbn [spec_op].
  - destruct (send_top p q). destruct Hf. unfold fits. lia.
  - destruct (receive_top el q Hf) as [? ->]. split; [done|lia].
  - destruct (enable_top r q Hf). split; [done|lia].
  - destruct (enable_top false _ (acknowledge_fits h q Hf)) as [? Hle].
    rewrite acknowledge_top in Hle. split; [done|lia].
  - destruct Hf as [Hb Htop]. unfold fits, top in *. simpl. lia.
  - destruct Hf as [Hb Htop]. unfold fits, top, Spec.reset, Spec.report, len in *. simpl. lia.
  - destruct Hf as [Hb Htop]. unfold fits, top in *. simpl. lia.
Qed.

Lemma sm_run_impl ops q : 0 <= base q -> top q + len ops < 2 ^ 32 ->
  sm_run ops (impl q) = impl (spec_run ops q) /\ fits (spec_run ops q).
Proof.
  unfold sm_run, spec_run, len. revert q. induction ops as [|o ops IH]; intros q Hb Ht;
    cbn [foldl length] in *; [split; [done|]; unfold fits; lia|].
  assert (fits q) as Hf by (unfold fits; lia).
  rewrite impl_op by (done || lia). destruct (spec_op_fits q o) as [Hf' Ht']; [done|lia|].
  apply IH; destruct Hf'; lia.
Qed.

(** ** Accounting: a packet is waiting or was reported *)

Definition sent_by (o : SmOp) : list nat := match o with OSend p => [m_promise p] | _ => [] end.
Definition held (q : Queue) : list nat := (q_reports q).*1 ++ map m_promise (pending q).

Lemma report_promises (r : SendResult) (ps : list QXmppPacket) :
  (map (fun p => (m_promise p, r)) ps).*1 = map m_promise ps.
Proof. induction ps as [|p ps IH]; simpl; [done|]. by f_equal. Qed.

Lemma held_writes ds q : held (Spec.writes ds q) = held q.
Proof. revert q. induction ds as [|d ds IH]; intros q; simpl; [done|]. by rewrite IH. Qed.

Lemma held_request q : held (Spec.request q) = held q.
Proof. unfold Spec.request. by destruct (q_on q). Qed.

Lemma held_acknowledge h q : held (Spec.acknowledge h q) = held q.
Proof.
  unfold held, Spec.acknowledge, Spec.report. simpl.
  rewrite fmap_app, report_promises, <-app_assoc, <-map_app, take_drop. done.
Qed.

Lemma held_enable r q : held (Spec.enable r q) = held q.
Proof.
  unfold Spec.enable. destruct r; simpl; destruct (pending q) eqn:Hp;
    rewrite ?held_request, ?held_writes; unfold held; simpl; by rewrite ?Hp.
Qed.

Lemma held_op q o : held (spec_op q o) ≡ₚ held q ++ sent_by o.
Proof.
  destruct o as [p|el|r|h| | |up]; cbn [spec_op sent_by]; rewrite ?app_nil_r.
  - unfold Spec.send. cbv zeta.
    change (q_on (Spec.write (m_data p) q)) with (q_on q). destruct (q_on q && m_isXmppStanza p).
    + rewrite held_request. unfold held. simpl. by rewrite map_app, app_assoc.
    + unfold held, Spec.report. simpl. rewrite fmap_app. simpl.
      rewrite <-!app_assoc. f_equiv. by rewrite Permutation_app_comm.
  - unfold Spec.receive. destruct (fromDom el); [destruct (q_on q); by rewrite ?held_acknowledge|].
    destruct (fromDom el : option SmRequest); [by destruct (q_on q)|].
    by destruct (Sm.is_stanza_tag (tagName el)).
  - by rewrite held_enable.
  - by rewrite held_enable, held_acknowledge.
  - done.
  - unfold held, Spec.reset, Spec.report. simpl. rewrite fmap_app, report_promises, app_nil_r. done.
  - done.
Qed.

Lemma held_run ops q : held (spec_run ops q) ≡ₚ held q ++ concat (map sent_by ops).
Proof.
  unfold spec_run. revert q. induction ops as [|o ops IH]; intros q; simpl; [by rewrite app_nil_r|].
  rewrite IH, held_op. by rewrite <-app_assoc.
Qed.

Definition new_queue (s : XmppSocket) : Queue :=
  {| q_on := false; base := 0; pending := []; q_in := 0; q_sock := s; q_reports := [] |}.

Lemma numbered_packets b ps : (numbered b ps).*2 = ps.
Proof. revert b. induction ps as [|p ps IH]; intros b; simpl; [done|]. by rewrite IH. Qed.

(** *** The nonzas read back *)

#[local] Opaque number toUInt toULongLong.

Lemma toULongLong_empty : toULongLong "" = 0.
Proof. done. Qed.

Lemma enable_roundtrip resume max : 0 <= max < 2 ^ 64 ->
  let e := {| en_resume := resume; en_max := max |} in fromDom (serializeXml (toXml e)) = Some e.
Proof.
  intros Hmax e. subst e. cbn [fromDom toXml SmEnable_xml en_resume en_max].
  pose proof (toULongLong_number max Hmax) as Hn.
  destruct (Z.ltb_spec 0 max), resume; cbv; rewrite ?Hn, ?toULongLong_empty; try done;
    do 2 f_equal; lia.
Qed.

Lemma enabled_roundtrip resume id max location : 0 <= max < 2 ^ 64 ->
  let e := {| ed_resume := resume; ed_id := id; ed_max := max; ed_location := location |} in
  fromDom (serializeXml (toXml e)) = Some e.
Proof.
  intros Hmax e. subst e. cbn [fromDom toXml SmEnabled_xml ed_resume ed_id ed_max ed_location].
  pose proof (toULongLong_number max Hmax) as Hn.
  destruct (Z.ltb_spec 0 max), resume, id, location; cbv; rewrite ?Hn, ?toULongLong_empty;
    try done; do 2 f_equal; lia.
Qed.

Lemma resume_roundtrip h previd : 0 <= h < 2 ^ 32 ->
  let r := {| re_h := h; re_previd := previd |} in fromDom (serializeXml (toXml r)) = Some r.
Proof. intros Hh r. subst r. pose proof (toUInt_number h Hh) as Hn. cbv. by rewrite Hn. Qed.

Lemma resumed_roundtrip h previd : 0 <= h < 2 ^ 32 ->
  let r := {| rd_h := h; rd_previd := previd |} in fromDom (serializeXml (toXml r)) = Some r.
Proof. intros Hh r. subst r. pose proof (toUInt_number h Hh) as Hn. cbv. by rewrite Hn. Qed.

Lemma failed_roundtrip c : c <> NoCondition ->
  let f := {| fa_error := Some c |} in fromDom (serializeXml (toXml f)) = Some f.
Proof. intros Hc f. subst f. destruct c; done. Qed.

Lemma ack_roundtrip h : 0 <= h < 2 ^ 32 ->
  let a := {| seqNo := h |} in fromDom (serializeXml (toXml a)) = Some a.
Proof. intros Hh a. subst a. pose proof (toUInt_number h Hh) as Hn. cbv. by rewrite Hn. Qed.

(** ** Theorems *)

(** C11: over fewer than 2^32 operations StreamAckManager behaves as the FIFO
    queue of the specification: the stanzas not acknowledged, in the order
    they were sent, the counters, the data written and the reports agree. *)
Theorem sm_refines_queue (s : XmppSocket) (ops : list SmOp) :
  len ops < 2 ^ 32 ->
  sm_run ops (newStreamAckManager s) = impl (spec_run ops (new_queue s)).
Proof.
  intros Ho. change (newStreamAckManager s) with (impl (new_queue s)).
  apply sm_run_impl; [done|]. unfold top, new_queue, len in *. simpl. lia.
Qed.

(** C12: whatever happens, the promises of the packets sent so far are exactly
    those reported and those of the packets waiting for an acknowledgement:
    none is lost and none is reported twice. *)
Theorem sm_each_packet_once (s : XmppSocket) (ops : list SmOp) :
  len ops < 2 ^ 32 ->
  let m := sm_run ops (newStreamAckManager s) in
  (reports m).*1 ++ map m_promise (m_unacknowledgedStanzas m).*2
    ≡ₚ concat (map sent_by ops).
Proof.
  intros Ho m. subst m. change (newStreamAckManager s) with (impl (new_queue s)).
  rewrite (proj1 (sm_run_impl ops (new_queue s) ltac:(done)
    ltac:(unfold top, new_queue, len in *; simpl; lia))).
  simpl. rewrite numbered_packets. apply held_run.
Qed.

Definition msg (n : nat) : QXmppPacket :=
  {| m_promise := n; m_data := Elem "message" "jabber:client" [] []; m_isXmppStanza := true |}.
Definition up : XmppSocket := {| isConnected := true; written := [] |}.
Definition sm_sample : list SmOp :=
  [OEnable true; OSend (msg 1); OSend (msg 2); OSend (msg 3);
   OReceive (serializeXml (toXml {| seqNo := 2 |})); OSessionClosed; OSend (msg 4);
   OResumed 2; OSend (msg 5); OResetCache].

Lemma sm_refines_queue_witness :
  len sm_sample < 2 ^ 32 /\
  sm_run sm_sample (newStreamAckManager up) = impl (spec_run sm_sample (new_queue up)) /\
  reports (sm_run sm_sample (newStreamAckManager up)) =
    [(1%nat, SendSuccess true); (2%nat, SendSuccess true); (4%nat, SendSuccess false);
     (3%nat, SendFailure Disconnected); (5%nat, SendFailure Disconnected)].
Proof.
  split; [by vm_compute|]. split; [|by vm_compute].
  apply (sm_refines_queue up sm_sample). by vm_compute.
Defined.

Lemma sm_each_packet_once_witness :
  (reports (sm_run sm_sample (newStreamAckManager up))).*1 ++
    map m_promise (m_unacknowledgedStanzas (sm_run sm_sample (newStreamAckManager up))).*2
    ≡ₚ [1; 2; 3; 4; 5]%nat.
Proof. apply (sm_each_packet_once up sm_sample). by vm_compute. Defined.

(** C38: each nonza written is parsed back to the same value, numbers within
    their width, except that a <failed/> without a condition comes back with
    the condition NoCondition. *)
Theorem sm_nonzas_roundtrip (resume : bool) (max h : Z) (id location previd : string)
    (c : Condition) :
  0 <= max < 2 ^ 64 -> 0 <= h < 2 ^ 32 -> c <> NoCondition ->
  (let e := {| en_resume := resume; en_max := max |} in fromDom (serializeXml (toXml e)) = Some e) /\
  (let e := {| ed_resume := resume; ed_id := id; ed_max := max; ed_location := location |} in
   fromDom (serializeXml (toXml e)) = Some e) /\
  (let r := {| re_h := h; re_previd := previd |} in fromDom (serializeXml (toXml r)) = Some r) /\
  (let r := {| rd_h := h; rd_previd := previd |} in fromDom (serializeXml (toXml r)) = Some r) /\
  (let f := {| fa_error := Some c |} in fromDom (serializeXml (toXml f)) = Some f) /\
  (let f := {| fa_error := None |} in
   fromDom (serializeXml (toXml f)) = Some {| fa_error := Some NoCondition |}) /\
  (let a := {| seqNo := h |} in fromDom (serializeXml (toXml a)) = Some a) /\
  fromDom (serializeXml (toXml Build_SmRequest)) = Some Build_SmRequest.
Proof.
  intros Hmax Hh Hc. split_and!; try done.
  - by apply enable_roundtrip.
  - by apply enabled_roundtrip.
  - by apply resume_roundtrip.
  - by apply resumed_roundtrip.
  - by apply failed_roundtrip.
  - by apply ack_roundtrip.
Qed.

Lemma sm_nonzas_roundtrip_witness :
  fromDom (serializeXml (toXml {| ed_resume := true; ed_id := "some id"; ed_max := 300;
                                  ed_location := "[::1]:5222" |})) =
  Some {| ed_resume := true; ed_id := "some id"; ed_max := 300; ed_location := "[::1]:5222" |}.
Proof.
  apply (sm_nonzas_roundtrip true 300 7 "some id" "[::1]:5222" "prev" Gone); done.
Defined.

(** after 2^32 - 1 stanzas the next one gets the sequence number 0 and is
    placed before the ones that wait: the acknowledgement of the older ones
    also reports it as acknowledged by the server. *)
Theorem sm_wrap_reports_unreceived (q : Queue) (p p' : QXmppPacket) :
  q_on q = true -> base q = 2 ^ 32 - 2 -> pending q = [p] -> m_isXmppStanza p' = true ->
  let m := Sm.setAcknowledgedSequenceNumber (2 ^ 32 - 1) (Sm.send p' (impl q)) in
  (m_promise p', SendSuccess true) ∈ reports m /\ m_unacknowledgedStanzas m = [].
Proof.
  intros Hon Hb Hp Hs. destruct q as [on b pend qi [up w] rs]. simpl in *. subst.
  unfold Sm.send, Sm.internalSend, sendData, Sm.setAcknowledgedSequenceNumber. simpl.
  destruct up; simpl; rewrite Hs; simpl; (split; [set_solver|done]).
Qed.

Lemma sm_wrap_reports_unreceived_witness :
  let q := {| q_on := true; base := 2 ^ 32 - 2; pending := [msg 1]; q_in := 0; q_sock := up;
              q_reports := [] |} in
  (2%nat, SendSuccess true) ∈
    reports (Sm.setAcknowledgedSequenceNumber (2 ^ 32 - 1) (Sm.send (msg 2) (impl q))).
Proof. intros q. by apply (sm_wrap_reports_unreceived q (msg 1) (msg 2)). Defined.
