(* ===== verification/StreamSession.v ===== *)
(** * A stream session between two stream managements

    Two StreamAckManagers connected by a channel in each direction that
    delivers in order until the connection breaks and then loses what is in
    flight, and the resumption of the stream, in which each side learns the
    other's counter of handled stanzas (C2sStreamManager::onResumed in
    src/src/client/QXmppOutgoingClient.cpp). The stanzas each side handles are
    the stanzas the other sent, each once and in order. *)
From S2P Require Import Prelude DataStream Utils Dom QMap StreamManagement.

Record Endpoint := {
  manager : StreamAckManager;
  sent : list QXmppPacket;      (* the stanzas sent while the session was on *)
  handled : list Dom;           (* the elements handed on to the client *)
}.
#[export] Instance Endpoint_eta : Eta Endpoint := fun r =>
  {| manager := manager r; sent := sent r; handled := handled r |}.

Record System := {
  left_end : Endpoint;
  right_end : Endpoint;
  to_right : list Dom;
  to_left : list Dom;
}.
#[export] Instance System_eta : Eta System := fun r =>
  {| left_end := left_end r; right_end := right_end r;
     to_right := to_right r; to_left := to_left r |}.

Definition swap (s : System) : System :=
  {| left_end := right_end s; right_end := left_end s;
     to_right := to_left s; to_left := to_right s |}.

(** An operation of the left side: what it writes goes to the right. *)
Definition act (o : SmOp) (s : System) : System :=
  let m := sm_op (manager (left_end s)) o in
  s <| to_right ::= (fun ch => ch ++ written (socket m)) |>
    <| left_end ::= (fun e => e <| manager :=
         m <| socket ::= (fun k => k <| written := [] |>) |> |>) |>.

Inductive SysOp :=
  | SSend (onLeft : bool) (p : QXmppPacket)
  | SDeliver (onLeft : bool)
  | SBreak
  | SResume.

Definition send_left (p : QXmppPacket) (s : System) : System :=
  let counted := m_enabled (manager (left_end s)) && m_isXmppStanza p in
  (act (OSend p) s)
    <| left_end ::= (fun e => if counted then e <| sent ::= (fun l => l ++ [p]) |> else e) |>.

Definition deliver_left (s : System) : System :=
  match to_left s with
  | [] => s
  | el :: ch =>
      let accepted := (Sm.handleStanza el (manager (left_end s))).2 in
      (act (OReceive el) (s <| to_left := ch |>))
        <| left_end ::= (fun e =>
             if accepted then e else e <| handled ::= (fun l => l ++ [el]) |>) |>
  end.

Definition break_left (s : System) : System :=
  (act OSessionClosed (act (OConnection false) s)) <| to_right := [] |>.
Definition resume_left (h : Z) (s : System) : System :=
  act (OResumed h) (act (OConnection true) s).

Definition sys_step (s : System) (o : SysOp) : System :=
  match o with
  | SSend true p => send_left p s
  | SSend false p => swap (send_left p (swap s))
  | SDeliver true => deliver_left s
  | SDeliver false => swap (deliver_left (swap s))
  | SBreak => swap (break_left (swap (break_left s)))
  | SResume =>
      if isConnected (socket (manager (left_end s))) then s
      else
        let hl := m_lastIncomingSequenceNumber (manager (left_end s)) in
        let hr := m_lastIncomingSequenceNumber (manager (right_end s)) in
        swap (resume_left hl (swap (resume_left hr s)))
  end.
Definition sys_run (ops : list SysOp) (s : System) : System := foldl sys_step s ops.

(** Both sides connected and stream management just enabled. *)
Definition new_end : Endpoint :=
  {| manager := Sm.enableStreamManagement true
       (newStreamAckManager {| isConnected := true; written := [] |});
     sent := []; handled := [] |}.
Definition new_system : System :=
  {| left_end := new_end; right_end := new_end; to_right := []; to_left := [] |}.

Definition is_stanza (el : Dom) : bool := Sm.is_stanza_tag (tagName el).
Definition stanzas (l : list Dom) : list Dom := filter (fun el => is_stanza el = true) l.

(** A packet's flag says whether its data is a stanza, and no packet forges
    an acknowledgement. *)
Definition packet_ok (p : QXmppPacket) : Prop :=
  is_stanza (m_data p) = m_isXmppStanza p /\ (fromDom (m_data p) : option SmAck) = None.
Definition op_ok (o : SysOp) : Prop :=
  match o with SSend _ p => packet_ok p | _ => True end.

(** ** Elements *)

Lemma stanza_not_nonza el : is_stanza el = true ->
  (fromDom el : option SmAck) = None /\ (fromDom el : option SmRequest) = None.
Proof.
  unfold is_stanza, Sm.is_stanza_tag, fromDom, SmAck_xml, SmRequest_xml, elementXmlTag.
  intros Hs. split; (rewrite decide_False; [done|]); intros Ht;
    apply (f_equal fst) in Ht; simpl in Ht; by rewrite Ht in Hs.
Qed.

Lemma ack_not_stanza el a : (fromDom el : option SmAck) = Some a -> is_stanza el = false.
Proof. intros Ha. destruct (is_stanza el) eqn:Hs; [|done]. apply stanza_not_nonza in Hs as []. congruence. Qed.

Lemma req_not_stanza el a : (fromDom el : option SmRequest) = Some a -> is_stanza el = false.
Proof. intros Ha. destruct (is_stanza el) eqn:Hs; [|done]. apply stanza_not_nonza in Hs as []. congruence. Qed.

Abbreviation request_el := (serializeXml (toXml Build_SmRequest)).
Abbreviation ack_el h := (serializeXml (toXml {| seqNo := h |})).

Lemma stanzas_app l k : stanzas (l ++ k) = stanzas l ++ stanzas k.
Proof. apply filter_app. Qed.

Lemma stanzas_cons el l :
  stanzas (el :: l) = if is_stanza el then el :: stanzas l else stanzas l.
Proof. unfold stanzas. rewrite filter_cons. case_decide as H; [by rewrite H|]. by destruct (is_stanza el). Qed.

Lemma stanzas_sent ps : Forall packet_ok ps -> Forall (fun p => m_isXmppStanza p = true) ps ->
  stanzas (map m_data ps) = map m_data ps.
Proof.
  intros Hp Hs. apply filter_all, Forall_map. rewrite Forall_forall in *. intros p Hin.
  destruct (Hp p Hin) as [Hq _]. simpl. by rewrite Hq, Hs.
Qed.

(** ** The effect of each operation on a queue

    The network has taken what was written before the operation. *)

Record Side (c : bool) (q : Queue) : Prop := {
  side_on : q_on q = c;
  side_up : isConnected (q_sock q) = c;
  side_written : written (q_sock q) = [];
}.

Definition flush (q : Queue) : Queue := q <| q_sock ::= (fun k => k <| written := [] |>) |>.

(** The acknowledgement reports of a queue. *)
Definition acked (q : Queue) (x : nat) : Prop := (x, SendSuccess true) ∈ q_reports q.

Lemma flush_frame q : base (flush q) = base q /\ pending (flush q) = pending q /\
  q_in (flush q) = q_in q /\ q_reports (flush q) = q_reports q.
Proof. done. Qed.

Lemma writes_up ds q : isConnected (q_sock q) = true ->
  Spec.writes ds q = q <| q_sock ::= (fun k => k <| written ::= (fun w => w ++ ds) |>) |>.
Proof.
  revert q. induction ds as [|d ds IH]; intros q Hc; simpl.
  { destruct q as [? ? ? ? [] ?]; simpl. by rewrite app_nil_r. }
  rewrite IH; unfold Spec.write, sendData; destruct (q_sock q) as [up w]; simpl in *; subst; [|done].
  simpl. by rewrite <-app_assoc.
Qed.

Lemma send_effect c p q : Side c q ->
  let q' := Spec.send p q in
  written (q_sock q') = (if c then m_data p :: (if m_isXmppStanza p then [request_el] else []) else [])
  /\ pending q' = (if c && m_isXmppStanza p then pending q ++ [p] else pending q)
  /\ base q' = base q /\ q_in q' = q_in q /\ (forall x, acked q' x -> acked q x)
  /\ Side c (flush q').
Proof.
  destruct q as [on b pend i [up w] rs]. intros [Hon Hup Hw]. simpl in *. subst on up w.
  unfold Spec.send, Spec.request, Spec.write, Spec.report, sendData, flush, acked.
  destruct c, (m_isXmppStanza p); simpl; split_and!; try done; set_solver.
Qed.

Lemma receive_request_effect c el q r : Side c q ->
  (fromDom el : option SmAck) = None -> fromDom el = Some r ->
  let q' := Spec.receive el q in
  written (q_sock q') = (if c then [ack_el (q_in q)] else [])
  /\ flush q' = q.
Proof.
  intros [Hon Hup Hw] Ha Hr q'. subst q'. unfold Spec.receive. rewrite Ha, Hr.
  destruct q as [on b pend i [up w] rs]. simpl in *. subst on up w.
  destruct c; done.
Qed.

Lemma receive_other_effect el q : written (q_sock q) = [] ->
  (fromDom el : option SmAck) = None -> (fromDom el : option SmRequest) = None ->
  let q' := Spec.receive el q in
  written (q_sock q') = [] /\
  flush q' = (if is_stanza el then q <| q_in ::= (fun n => u32 (n + 1)) |> else q).
Proof.
  intros Hw Ha Hr q'. subst q'. unfold Spec.receive, is_stanza. rewrite Ha, Hr.
  destruct q as [on b pend i [up w] rs]. simpl in *. subst w.
  by destruct (Sm.is_stanza_tag (tagName el)).
Qed.

Lemma acknowledge_effect h q :
  let q' := Spec.acknowledge h q in
  base q' = base q + Z.of_nat (Spec.covered h q)
  /\ pending q' = drop (Spec.covered h q) (pending q)
  /\ q_in q' = q_in q /\ q_sock q' = q_sock q /\ q_on q' = q_on q
  /\ (forall x, acked q' x -> acked q x \/ x ∈ map m_promise (take (Spec.covered h q) (pending q))).
Proof.
  split_and!; try done. intros x. unfold acked, Spec.acknowledge, Spec.report. simpl.
  rewrite elem_of_app, list_elem_of_fmap. intros [?|(p & Hp & Hin)]; [by left|].
  right. apply list_elem_of_fmap. exists p. by simplify_eq.
Qed.

(** Resumption on a fresh connection. *)
Lemma resume_effect h q : Side false q ->
  let q' := Spec.enable false (Spec.acknowledge h (q <| q_sock ::= (fun k => k <| isConnected := true |>) |>)) in
  let q'' := Spec.acknowledge h q in
  written (q_sock q') = map m_data (pending q'') ++ (match pending q'' with [] => [] | _ => [request_el] end)
  /\ base q' = base q'' /\ pending q' = pending q'' /\ q_in q' = q_in q
  /\ q_reports q' = q_reports q'' /\ Side true (flush q').
Proof.
  destruct q as [on b pend i [up w] rs]. intros [Hon Hup Hw]. simpl in *. subst on up w.
  unfold Spec.acknowledge, Spec.report, Spec.covered. simpl.
  unfold Spec.enable. simpl. destruct (drop _ pend) as [|p ps]; simpl; [by split_and!|].
  change (Spec.writes (map m_data ps) (Spec.write (m_data p) ?x)) with (Spec.writes (map m_data (p :: ps)) x).
  rewrite writes_up by done. unfold Spec.request, Spec.write, sendData. simpl.
  by split_and!.
Qed.

(** ** One direction of the session

    [q] sends the stanzas [snt]; [r] of them are handled by the other side,
    which keeps [got]; [ch] is in flight to it, [back] from it. *)

Record Dir (c : bool) (q : Queue) (snt : list QXmppPacket) (r : Z) (got ch back : list Dom) :
    Prop := {
  dir_base : 0 <= base q <= r;
  dir_handled : r <= len snt;
  dir_pending : pending q = drop (Z.to_nat (base q)) snt;
  dir_got : stanzas got = map m_data (take (Z.to_nat r) snt);
  dir_flight : stanzas ch = if c then map m_data (drop (Z.to_nat r) snt) else [];
  dir_acks : forall el a, el ∈ back -> fromDom el = Some a -> seqNo a <= r;
  dir_acked : forall x, acked q x -> x ∈ map m_promise (take (Z.to_nat (base q)) snt);
  dir_ok : Forall packet_ok snt;
  dir_stanzas : Forall (fun p => m_isXmppStanza p = true) snt;
}.

Lemma dir_top c q snt r got ch back : Dir c q snt r got ch back -> top q = len snt.
Proof.
  intros [Hb Hr Hp]. unfold top. rewrite Hp. unfold len in *. rewrite length_drop. lia.
Qed.

Lemma request_not_ack a : (fromDom request_el : option SmAck) <> Some a.
Proof. done. Qed.

Lemma take_mono_elem {A} (x : A) n m l : (n <= m)%nat -> x ∈ take n l -> x ∈ take m l.
Proof.
  intros Hnm. replace n with (n `min` m)%nat by lia. rewrite <-take_take. intros Hx.
  apply (subseteq_take n) in Hx. done.
Qed.

(** What the sender does. *)
Lemma dir_send c q snt r got ch back p : Side c q -> packet_ok p ->
  Dir c q snt r got ch back ->
  let q' := Spec.send p q in
  Dir c (flush q') (if c && m_isXmppStanza p then snt ++ [p] else snt) r got
    (ch ++ written (q_sock q')) back.
Proof.
  intros Hside Hp HD q'. destruct (send_effect c p q Hside) as (Hw & Hpend & Hb & _ & Hack & _).
  fold q' in Hw, Hpend, Hb, Hack.
  destruct HD as [Db Dr Dp Dg Df Da Dk Do Ds].
  assert (is_stanza request_el = false) as Hreq by done.
  pose proof (proj1 Hp) as Hst.
  rewrite Hw.
  destruct c, (m_isXmppStanza p) eqn:Hx; simpl in *; split; simpl;
    rewrite ?Hpend, ?Hb, ?stanzas_app, ?stanzas_cons, ?Hst, ?Hreq, ?app_nil_r; try done;
    try (unfold len in *; rewrite ?length_app in *; simpl in *; lia);
    try (by intros x Hk; apply Dk, Hack); try done.
  - rewrite Dp, drop_app_le by (unfold len in *; lia). done.
  - rewrite take_app_le by (unfold len in *; lia). done.
  - rewrite Df, drop_app_le, map_app by (unfold len in *; lia). done.
  - intros x Hk. rewrite take_app_le by (unfold len in *; lia). by apply Dk, Hack.
  - apply Forall_app; split; [done|by apply Forall_singleton].
  - apply Forall_app; split; [done|by apply Forall_singleton].
Qed.

(** New elements on the way back that are not acknowledgements beyond [r]. *)
Lemma dir_back c q snt r got ch back back' :
  (forall el a, el ∈ back' -> fromDom el = Some a -> el ∈ back \/ seqNo a <= r) ->
  Dir c q snt r got ch back -> Dir c q snt r got ch back'.
Proof.
  intros Hb [Db Dr Dp Dg Df Da Dk Do Ds]. split; try done.
  intros el a Hin Ha. destruct (Hb el a Hin Ha); [by eapply Da|done].
Qed.

(** The receiver takes a stanza. *)
Lemma dir_stanza c q snt r got el ch back : is_stanza el = true ->
  Dir c q snt r got (el :: ch) back -> Dir c q snt (r + 1) (got ++ [el]) ch back.
Proof.
  intros Hel [Db Dr Dp Dg Df Da Dk Do Ds].
  rewrite stanzas_cons, Hel in Df. destruct c; [|done].
  destruct (drop (Z.to_nat r) snt) as [|p l] eqn:Hd; simpl in Df; simplify_eq.
  assert (snt !! Z.to_nat r = Some p) as Hl.
  { rewrite <-(Nat.add_0_r (Z.to_nat r)), <-lookup_drop, Hd. done. }
  assert (r < len snt) as Hlt by (apply lookup_lt_Some in Hl; unfold len; lia).
  replace (r + 1) with (Z.succ r) by lia.
  split; rewrite ?Z2Nat.inj_succ by lia; try done; try lia.
  - rewrite stanzas_app, Dg, (take_S_r _ _ p Hl), map_app. f_equal.
    rewrite stanzas_cons, Hel. by simplify_eq.
  - rewrite <-Nat.add_1_r, <-drop_drop, Hd. simpl. by rewrite drop_0.
  - intros e a Hin Ha. etrans; [by eapply Da|lia].
Qed.

(** The receiver takes another element. *)
Lemma dir_other c q snt r got got' el ch back : is_stanza el = false ->
  stanzas got' = stanzas got ->
  Dir c q snt r got (el :: ch) back -> Dir c q snt r got' ch back.
Proof.
  intros Hel Hg [Db Dr Dp Dg Df Da Dk Do Ds]. split; try done; [congruence|].
  by rewrite stanzas_cons, Hel in Df.
Qed.

(** The sender takes an acknowledgement of [h] handled stanzas. *)
Lemma dir_acknowledge c q snt r got ch back h : h <= r ->
  Dir c q snt r got ch back -> Dir c (Spec.acknowledge h q) snt r got ch back.
Proof.
  intros Hh [Db Dr Dp Dg Df Da Dk Do Ds].
  destruct (acknowledge_effect h q) as (Hb & Hp & _ & _ & _ & Hk).
  set (n := Spec.covered h q) in *.
  assert (base q + Z.of_nat n <= r) as Hn.
  { subst n. unfold Spec.covered. lia. }
  split; rewrite ?Hb; try done; try lia.
  - rewrite Hp, Dp, drop_drop. f_equal. lia.
  - intros x Hx. destruct (Hk x Hx) as [Hx'|Hx'].
    + apply Dk in Hx'. rewrite list_elem_of_fmap in *.
      destruct Hx' as (p & -> & Hin). exists p. split; [done|].
      eapply take_mono_elem; [|done]. lia.
    + rewrite list_elem_of_fmap in *. destruct Hx' as (p & -> & Hin). exists p. split; [done|].
      rewrite Dp in Hin. replace (Z.to_nat (base q + Z.of_nat n)) with (Z.to_nat (base q) + n)%nat by lia.
      rewrite take_drop_commute in Hin. by eapply subseteq_drop.
Qed.

Lemma acknowledge_side c h q : Side c q -> Side c (Spec.acknowledge h q).
Proof. by intros [? ? ?]. Qed.

(** Acknowledging what the other side handled leaves what it did not. *)
Lemma acknowledge_exact c q snt r got ch back :
  Dir c q snt r got ch back -> base (Spec.acknowledge r q) = r.
Proof.
  intros HD. pose proof (dir_top _ _ _ _ _ _ _ HD) as Ht.
  destruct HD as [Db Dr Dp]. destruct (acknowledge_effect r q) as (-> & _).
  unfold Spec.covered, top, len in *. lia.
Qed.

(** ** The invariant of the system *)

Record Inv (c : bool) (ql qr : Queue) (s : System) : Prop := {
  inv_left : manager (left_end s) = impl ql;
  inv_right : manager (right_end s) = impl qr;
  inv_side_l : Side c ql;
  inv_side_r : Side c qr;
  inv_dir_l : Dir c ql (sent (left_end s)) (q_in qr) (handled (right_end s)) (to_right s) (to_left s);
  inv_dir_r : Dir c qr (sent (right_end s)) (q_in ql) (handled (left_end s)) (to_left s) (to_right s);
}.

Lemma inv_swap c ql qr s : Inv c ql qr s -> Inv c qr ql (swap s).
Proof. by intros [? ? ? ? ? ?]. Qed.

Lemma swap_swap s : swap (swap s) = s.
Proof. by destruct s. Qed.

(** The number of stanzas sent by a side stays below 2^32. *)
Definition room (s : System) : Prop :=
  len (sent (left_end s)) + 1 < 2 ^ 32 /\ len (sent (right_end s)) + 1 < 2 ^ 32.

Lemma inv_fits c ql qr s : Inv c ql qr s -> room s ->
  fits ql /\ top ql + 1 < 2 ^ 32 /\ q_in ql + 1 < 2 ^ 32.
Proof.
  intros [_ _ _ _ Dl Dr] [Hl Hr]. rewrite (dir_top _ _ _ _ _ _ _ Dl).
  pose proof (dir_top _ _ _ _ _ _ _ Dl) as Ht. destruct Dl as [? _], Dr as [? ? _].
  unfold fits. rewrite Ht. lia.
Qed.

(** An operation of the left side on the queues. *)
Lemma act_impl o ql s : manager (left_end s) = impl ql -> fits ql -> top ql + 1 < 2 ^ 32 ->
  act o s = s <| to_right ::= (fun ch => ch ++ written (q_sock (spec_op ql o))) |>
              <| left_end ::= (fun e => e <| manager := impl (flush (spec_op ql o)) |>) |>.
Proof. intros Hm Hf Ht. unfold act. by rewrite Hm, impl_op. Qed.

Lemma packet_ok_back p back (r : Z) : packet_ok p -> forall el a,
  el ∈ back ++ (m_data p :: (if m_isXmppStanza p then [request_el] else [])) ->
  (fromDom el : option SmAck) = Some a -> el ∈ back \/ seqNo a <= r.
Proof.
  intros [_ Hp] el a Hin Ha. left. apply elem_of_app in Hin as [Hin|Hin]; [done|].
  exfalso. apply elem_of_cons in Hin as [->|Hin]; [congruence|].
  destruct (m_isXmppStanza p); [|by rewrite elem_of_nil in Hin].
  apply list_elem_of_singleton in Hin as ->. by eapply request_not_ack.
Qed.

Lemma inv_send c ql qr s p : Inv c ql qr s -> room s -> packet_ok p ->
  Inv c (flush (Spec.send p ql)) qr (send_left p s).
Proof.
  intros HI Hroom Hp. destruct (inv_fits c ql qr s HI Hroom) as (Hf & Ht & _).
  destruct HI as [Hl Hr Sl Sr Dl Dr]. unfold send_left.
  rewrite (act_impl (OSend p) ql s Hl Hf Ht). rewrite Hl. cbn [spec_op].
  change (m_enabled (impl ql)) with (q_on ql). rewrite (side_on _ _ Sl).
  destruct (send_effect c p ql Sl) as (Hw & _ & _ & Hin & _ & Hs).
  split; try done.
  - simpl. by destruct (c && m_isXmppStanza p).
  - pose proof (dir_send _ _ _ _ _ _ _ p Sl Hp Dl) as HD. cbv zeta in HD.
    simpl. by destruct (c && m_isXmppStanza p).
  - simpl. rewrite Hin.
    assert (Dir c qr (sent (right_end s)) (q_in ql) (handled (left_end s)) (to_left s)
      (to_right s ++ written (q_sock (Spec.send p ql)))) as HD.
    { eapply dir_back; [|done]. rewrite Hw. destruct c; [|rewrite app_nil_r; by left].
      apply (packet_ok_back p (to_right s) _ Hp). }
    by destruct (c && m_isXmppStanza p).
Qed.

Lemma dir_ext c q q' snt r got ch ch' back :
  base q' = base q -> pending q' = pending q -> (forall x, acked q' x -> acked q x) ->
  stanzas ch' = stanzas ch ->
  Dir c q snt r got ch back -> Dir c q' snt r got ch' back.
Proof.
  intros Hb Hp Hk Hc [Db Dr Dp Dg Df Da Dk Do Ds].
  split; rewrite ?Hb, ?Hp, ?Hc; try done. intros x Hx. by apply Dk, Hk.
Qed.

Lemma dir_back_tail c q snt r got ch el back :
  Dir c q snt r got ch (el :: back) -> Dir c q snt r got ch back.
Proof. apply dir_back. intros e a Hin Ha. left. by apply elem_of_cons; right. Qed.

Lemma stanzas_snoc_other l el : is_stanza el = false -> stanzas (l ++ [el]) = stanzas l.
Proof. intros He. rewrite stanzas_app, stanzas_cons, He. apply app_nil_r. Qed.

Lemma handle_accepts el m :
  (Sm.handleStanza el m).2 =
  match (fromDom el : option SmAck), (fromDom el : option SmRequest) with
  | None, None => false | _, _ => true
  end.
Proof. unfold Sm.handleStanza. by destruct (fromDom el), (fromDom el : option SmRequest). Qed.

(** The left side takes an element: an acknowledgement, a request, a stanza or
    another element. *)
Lemma inv_deliver c ql qr s el ch : Inv c ql qr s -> room s -> to_left s = el :: ch ->
  exists ql', Inv c ql' qr (deliver_left s).
Proof.
  intros HI Hroom Hch. destruct (inv_fits c ql qr s HI Hroom) as (Hf & Ht & Hin).
  destruct HI as [Hl Hr Sl Sr Dl Dr]. rewrite Hch in Dl, Dr.
  unfold deliver_left. rewrite Hch. cbv zeta. set (s' := s <| to_left := ch |>).
  rewrite (act_impl (OReceive el) ql s' Hl Hf Ht). rewrite handle_accepts.
  exists (flush (spec_op ql (OReceive el))). cbn [spec_op].
  pose proof (dir_back_tail _ _ _ _ _ _ _ _ Dl) as Dl'.
  destruct (fromDom el : option SmAck) as [a|] eqn:Ha.
  - assert (flush (Spec.receive el ql) = flush (if c then Spec.acknowledge (seqNo a) ql else ql)
      /\ written (q_sock (Spec.receive el ql)) = []) as [-> ->].
    { unfold Spec.receive. rewrite Ha, (side_on _ _ Sl). destruct c; split; try done; apply Sl. }
    pose proof (ack_not_stanza _ _ Ha) as Hns.
    split; simpl; rewrite ?app_nil_r; try done.
    + destruct c; by destruct Sl.
    + assert (seqNo a <= q_in qr) as Hle.
      { eapply dir_acks; [exact Dl|left|exact Ha]. }
      destruct c; [|by eapply dir_ext; [..|exact Dl']].
      by eapply dir_ext; [..|apply (dir_acknowledge true _ _ _ _ _ _ _ Hle Dl')].
    + assert (q_in (if c then Spec.acknowledge (seqNo a) ql else ql) = q_in ql) as Hi
        by (by destruct c).
      destruct c; by eapply dir_other; [..|exact Dr].
  - destruct (fromDom el : option SmRequest) as [r|] eqn:Hr'.
    + destruct (receive_request_effect c el ql r Sl Ha Hr') as [-> ->].
      pose proof (req_not_stanza _ _ Hr') as Hns.
      split; simpl; try done.
      * eapply dir_ext; [..|exact Dl']; try done. destruct c; [|by rewrite app_nil_r].
        by rewrite stanzas_snoc_other.
      * eapply dir_back; [|by eapply dir_other; [..|exact Dr]].
        intros e a' He Ha'. apply elem_of_app in He as [He|He]; [by left|]. right.
        destruct c; [|by apply elem_of_nil in He]. apply list_elem_of_singleton in He as ->.
        assert (Some a' = Some {| seqNo := q_in ql |}) as Heq; [|by simplify_eq].
        rewrite <-Ha'. apply ack_roundtrip. destruct Dr. lia.
    + destruct (receive_other_effect el ql (side_written _ _ Sl) Ha Hr') as [-> ->].
      destruct (is_stanza el) eqn:Hs; simpl.
      * split; simpl; rewrite ?app_nil_r; try done.
        { by destruct Sl. }
        { by eapply dir_ext; [..|exact Dl']. }
        { unfold u32. rewrite uwrap_small by (destruct Dr as [? ? _]; lia).
          by eapply dir_stanza. }
      * split; simpl; rewrite ?app_nil_r; try done.
        eapply dir_other; [done| |exact Dr]. by rewrite stanzas_snoc_other.
Qed.

(** *** The connection breaks *)

Definition broken (q : Queue) : Queue :=
  q <| q_on := false |> <| q_sock := {| isConnected := false; written := [] |} |>.

Lemma break_left_impl c ql s : Side c ql -> manager (left_end s) = impl ql ->
  fits ql -> top ql + 1 < 2 ^ 32 ->
  break_left s = s <| to_right := [] |> <| left_end ::= (fun e => e <| manager := impl (broken ql) |>) |>.
Proof.
  intros [Hon Hup Hw] Hl Hf Ht. unfold break_left.
  rewrite (act_impl (OConnection false) ql s Hl Hf Ht). cbn [spec_op].
  unfold act. simpl. unfold impl, broken, flush. simpl. done.
Qed.

Lemma dir_broken c q q' snt r got ch back :
  base q' = base q -> pending q' = pending q -> (forall x, acked q' x -> acked q x) ->
  Dir c q snt r got ch back -> Dir false q' snt r got [] [].
Proof.
  intros Hb Hp Hk [Db Dr Dp Dg Df Da Dk Do Ds].
  split; rewrite ?Hb, ?Hp; try done.
  - intros el a Hin. by apply elem_of_nil in Hin.
  - intros x Hx. by apply Dk, Hk.
Qed.

Lemma inv_break c ql qr s : Inv c ql qr s -> room s ->
  Inv false (broken ql) (broken qr) (sys_step s SBreak).
Proof.
  intros HI Hroom. destruct (inv_fits c ql qr s HI Hroom) as (Hf & Ht & _).
  destruct (inv_fits c qr ql (swap s) (inv_swap _ _ _ _ HI) (conj (proj2 Hroom) (proj1 Hroom)))
    as (Hf' & Ht' & _).
  destruct HI as [Hl Hr Sl Sr Dl Dr]. cbn [sys_step].
  rewrite (break_left_impl c ql s Sl Hl Hf Ht).
  rewrite (break_left_impl c qr); [|exact Sr|exact Hr|exact Hf'|exact Ht'].
  split; simpl; try done;
    [eapply (dir_broken c ql) | eapply (dir_broken c qr)]; done.
Qed.

(** *** The stream is resumed *)

Definition resumed (h : Z) (q : Queue) : Queue :=
  Spec.enable false (Spec.acknowledge h (q <| q_sock ::= (fun k => k <| isConnected := true |>) |>)).

Lemma resume_left_impl h ql s : Side false ql -> manager (left_end s) = impl ql ->
  fits ql -> top ql + 1 < 2 ^ 32 ->
  resume_left h s =
    s <| to_right ::= (fun ch => ch ++ written (q_sock (resumed h ql))) |>
      <| left_end ::= (fun e => e <| manager := impl (flush (resumed h ql)) |>) |>.
Proof.
  intros [Hon Hup Hw] Hl Hf Ht. unfold resume_left.
  rewrite (act_impl (OConnection true) ql s Hl Hf Ht). cbn [spec_op].
  set (q1 := flush (ql <| q_sock ::= (fun k => k <| isConnected := true |>) |>)).
  rewrite (act_impl (OResumed h) q1); [|done|exact Hf|exact Ht]. cbn [spec_op].
  assert (q1 = ql <| q_sock ::= (fun k => k <| isConnected := true |>) |>) as ->.
  { subst q1. destruct ql as [? ? ? ? [] ?]. unfold flush. simpl in *. by subst. }
  fold (resumed h ql). destruct s as [[] ? ? ?]. cbn -[resumed flush impl].
  rewrite Hw, app_nil_r. done.
Qed.

(** What a resumed side writes: the stanzas not handled, and a request. *)
Lemma dir_resume q snt r got ch back ws : Side false q ->
  (forall el a, el ∈ ws -> (fromDom el : option SmAck) <> Some a) ->
  Dir false q snt r got ch back ->
  Dir true (flush (resumed r q)) snt r got (ch ++ written (q_sock (resumed r q))) (back ++ ws).
Proof.
  intros Hs Hws HD. destruct (resume_effect r q Hs) as (Hw & Hb & Hp & _ & Hr & _).
  fold (resumed r q) in Hw, Hb, Hp, Hr.
  pose proof (dir_acknowledge false q snt r got ch back r ltac:(lia) HD) as HA.
  pose proof (acknowledge_exact _ _ _ _ _ _ _ HD) as He.
  destruct HA as [Db Dr Dp Dg Df Da Dk Do Ds].
  rewrite He in Dp.
  assert (stanzas (written (q_sock (resumed r q))) = map m_data (drop (Z.to_nat r) snt)) as Hf.
  { rewrite Hw, stanzas_app, Dp, stanzas_sent by (by apply Forall_drop).
    by destruct (drop _ snt); rewrite ?app_nil_r. }
  split; simpl; rewrite ?Hb, ?Hp, ?He; try done; try lia.
  - rewrite stanzas_app, Df, Hf. done.
  - intros el a Hin Ha. apply elem_of_app in Hin as [Hin|Hin]; [by eapply Da|].
    by destruct (Hws el a Hin).
  - intros x Hx. rewrite <-He at 1. apply Dk. unfold acked in *. simpl in Hx. by rewrite Hr in Hx.
Qed.

Lemma resumed_no_acks r q snt got ch back el a : Side false q ->
  Dir false q snt r got ch back -> el ∈ written (q_sock (resumed r q)) ->
  (fromDom el : option SmAck) <> Some a.
Proof.
  intros Hs HD Hin Ha. destruct (resume_effect r q Hs) as (Hw & _).
  fold (resumed r q) in Hw. rewrite Hw in Hin.
  pose proof (dir_acknowledge false q snt r got ch back r ltac:(lia) HD) as HA.
  apply elem_of_app in Hin as [Hin|Hin].
  - apply list_elem_of_fmap in Hin as (p & -> & Hin). destruct HA as [_ _ Dp _ _ _ _ Do _].
    rewrite Dp in Hin. apply subseteq_drop in Hin.
    rewrite Forall_forall in Do. destruct (Do p Hin). congruence.
  - destruct (pending _); [by apply elem_of_nil in Hin|].
    apply list_elem_of_singleton in Hin as ->. by eapply request_not_ack.
Qed.

Lemma inv_resume ql qr s : Inv false ql qr s -> room s ->
  Inv true (flush (resumed (q_in qr) ql)) (flush (resumed (q_in ql) qr)) (sys_step s SResume).
Proof.
  intros HI Hroom. destruct (inv_fits false ql qr s HI Hroom) as (Hf & Ht & _).
  destruct (inv_fits false qr ql (swap s) (inv_swap _ _ _ _ HI) (conj (proj2 Hroom) (proj1 Hroom)))
    as (Hf' & Ht' & _).
  destruct HI as [Hl Hr Sl Sr Dl Dr]. cbn [sys_step]. rewrite Hl, Hr.
  change (isConnected (socket (impl ql))) with (isConnected (q_sock ql)).
  rewrite (side_up _ _ Sl).
  change (m_lastIncomingSequenceNumber (impl ?q)) with (q_in q).
  rewrite (resume_left_impl (q_in qr) ql s Sl Hl Hf Ht).
  rewrite (resume_left_impl (q_in ql) qr); [|exact Sr|exact Hr|exact Hf'|exact Ht'].
  destruct (resume_effect (q_in qr) ql Sl) as (_ & _ & _ & Hi & _ & Sl').
  destruct (resume_effect (q_in ql) qr Sr) as (_ & _ & _ & Hi' & _ & Sr').
  fold (resumed (q_in qr) ql) in Hi, Sl'. fold (resumed (q_in ql) qr) in Hi', Sr'.
  split; simpl; try done.
  - rewrite Hi'. apply dir_resume; [done| |done].
    intros el a Hin. exact (resumed_no_acks _ _ _ _ _ _ el a Sr Dr Hin).
  - rewrite Hi. apply dir_resume; [done| |done].
    intros el a Hin. exact (resumed_no_acks _ _ _ _ _ _ el a Sl Dl Hin).
Qed.

(** ** Runs *)

Lemma send_left_sent p s :
  len (sent (left_end (send_left p s))) <= len (sent (left_end s)) + 1 /\
  sent (right_end (send_left p s)) = sent (right_end s).
Proof.
  unfold send_left, act, len. simpl. split; [|done].
  destruct (m_enabled _ && _); simpl; rewrite ?length_app; simpl; lia.
Qed.

Lemma deliver_left_sent s : sent (left_end (deliver_left s)) = sent (left_end s) /\
  sent (right_end (deliver_left s)) = sent (right_end s).
Proof.
  unfold deliver_left, act. destruct (to_left s); [done|]. cbv zeta.
  by destruct (Sm.handleStanza _ _).2.
Qed.

(** The length of both lists of sent stanzas. *)
Definition below (n : Z) (s : System) : Prop :=
  len (sent (left_end s)) <= n /\ len (sent (right_end s)) <= n.

Lemma below_step n s o : below n s -> below (n + 1) (sys_step s o).
Proof.
  intros [Hl Hr]. unfold below. destruct o as [[] p|[]| |]; cbn [sys_step];
    cbn [left_end right_end swap].
  - destruct (send_left_sent p s) as [? ->]. lia.
  - destruct (send_left_sent p (swap s)) as [Hs ->].
    cbn [left_end right_end swap] in *. lia.
  - destruct (deliver_left_sent s) as [-> ->]. lia.
  - destruct (deliver_left_sent (swap s)) as [-> ->]. cbn [left_end right_end swap]. lia.
  - simpl. lia.
  - destruct (isConnected _); simpl; lia.
Qed.

Lemma below_run ops n s : below n s -> below (n + len ops) (sys_run ops s).
Proof.
  unfold sys_run, len. revert n s. induction ops as [|o ops IH]; intros n s Hb; cbn [foldl length].
  { by rewrite Z.add_0_r. }
  replace (n + Z.of_nat (S (length ops))) with (n + 1 + Z.of_nat (length ops)) by lia.
  by apply IH, below_step.
Qed.

Lemma inv_step c ql qr s o : Inv c ql qr s -> room s -> op_ok o ->
  exists c' ql' qr', Inv c' ql' qr' (sys_step s o).
Proof.
  intros HI Hroom Ho. assert (room (swap s)) as Hroom' by (by destruct Hroom).
  destruct o as [[] p|[]| |]; cbn [sys_step].
  - do 3 eexists. by apply inv_send.
  - do 3 eexists. apply inv_swap. apply inv_send; [by apply inv_swap|done|done].
  - destruct (to_left s) as [|el ch] eqn:Hch.
    + exists c, ql, qr. unfold deliver_left. by rewrite Hch.
    + destruct (inv_deliver _ _ _ _ _ _ HI Hroom Hch) as [ql' HI']. by eauto.
  - destruct (to_left (swap s)) as [|el ch] eqn:Hch.
    + exists c, ql, qr. unfold deliver_left. by rewrite Hch, swap_swap.
    + destruct (inv_deliver _ _ _ _ _ _ (inv_swap _ _ _ _ HI) Hroom' Hch) as [qr' HI'].
      apply inv_swap in HI'. by eauto.
  - do 3 eexists. by eapply inv_break.
  - destruct c.
    + exists true, ql, qr. destruct HI as [Hl ? Sl]. rewrite Hl.
      change (isConnected (socket (impl ql))) with (isConnected (q_sock ql)).
      by rewrite (side_up _ _ Sl).
    + do 3 eexists. by apply inv_resume.
Qed.

Lemma inv_run ops c ql qr s n : Inv c ql qr s -> below n s -> n + len ops < 2 ^ 32 ->
  Forall op_ok ops -> exists c' ql' qr', Inv c' ql' qr' (sys_run ops s).
Proof.
  unfold sys_run. revert c ql qr s n. induction ops as [|o ops IH]; intros c ql qr s n HI Hb Hn Hok;
    cbn [foldl]; [by eauto|].
  inversion Hok as [|? ? Ho Hok']; subst. unfold len in *. cbn [length] in Hn.
  destruct (inv_step c ql qr s o HI) as (c' & ql' & qr' & HI');
    [destruct Hb; unfold room, below, len in *; lia|done|].
  apply (IH c' ql' qr' _ (n + 1)); [done|by apply below_step|lia|done].
Qed.

Lemma inv_new : exists ql qr, Inv true ql qr new_system.
Proof.
  set (q := Spec.enable true (new_queue {| isConnected := true; written := [] |})).
  exists q, q. subst q. split; try done; (split; try done);
    try (intros el a Hin; by apply elem_of_nil in Hin);
    intros x Hx; by apply elem_of_nil in Hx.
Qed.

Lemma deliver_right_to_right s : to_right (sys_step s (SDeliver false)) = tail (to_right s).
Proof.
  cbn [sys_step]. unfold deliver_left, act. simpl. destruct (to_right s) eqn:Hs; [|done].
  simpl. by rewrite Hs.
Qed.

Lemma drain n s ql qr : Inv true ql qr s -> room s -> length (to_right s) = n ->
  let s' := sys_run (replicate n (SDeliver false)) s in
  (exists ql' qr', Inv true ql' qr' s') /\ to_right s' = [] /\
  sent (left_end s') = sent (left_end s).
Proof.
  unfold sys_run. revert s ql qr. induction n as [|n IH]; intros s ql qr HI Hroom Hn; cbn [replicate foldl].
  { apply length_zero_iff_nil in Hn. split_and!; [eauto|done|done]. }
  destruct (to_right s) as [|el ch] eqn:Hch; [done|].
  assert (room (swap s)) as Hroom' by (by destruct Hroom).
  destruct (inv_deliver _ _ _ (swap s) el ch (inv_swap _ _ _ _ HI) Hroom' Hch) as [q' HI'].
  apply inv_swap in HI'. change (swap (deliver_left (swap s))) with (sys_step s (SDeliver false)) in HI'.
  destruct (deliver_left_sent (swap s)) as [Hsr Hsl].
  assert (sent (left_end (sys_step s (SDeliver false))) = sent (left_end s)) as Hsl'.
  { exact Hsl. }
  destruct (IH _ _ _ HI') as (HI'' & Htr & Hs).
  - destruct Hroom as [? ?]. split; [by rewrite Hsl'|].
    cbn [sys_step]. cbn [right_end swap]. by rewrite Hsr.
  - rewrite deliver_right_to_right, Hch. simpl in *. lia.
  - split_and!; [done|done|]. by rewrite Hs.
Qed.

(** ** Theorems *)

(** The right side handled the first [r] stanzas of the left one, in order and
    each once; what is reported as acknowledged is among them; and once no
    stanza is in flight on a live connection it handled them all. *)
Definition delivers (s : System) : Prop :=
  let snt := sent (left_end s) in
  let got := stanzas (handled (right_end s)) in
  exists r : nat,
    got = map m_data (take r snt) /\
    (forall x, (x, SendSuccess true) ∈ reports (manager (left_end s)) ->
       x ∈ map m_promise (take r snt)) /\
    (isConnected (socket (manager (left_end s))) = true -> stanzas (to_right s) = [] ->
       got = map m_data snt).

Lemma inv_delivers c ql qr s : Inv c ql qr s -> delivers s.
Proof.
  intros [Hl Hr Sl Sr Dl Dr]. exists (Z.to_nat (q_in qr)). rewrite Hl.
  destruct Dl as [Db Dh Dp Dg Df Da Dk Do Ds]. split_and!; [done| |].
  - intros x Hx. apply Dk in Hx. rewrite list_elem_of_fmap in *. destruct Hx as (p & -> & Hin).
    exists p. split; [done|]. eapply take_mono_elem; [|done]. lia.
  - change (isConnected (socket (impl ql))) with (isConnected (q_sock ql)).
    rewrite (side_up _ _ Sl). intros -> Hch. rewrite Hch in Df. rewrite Dg.
    symmetry in Df. apply map_eq_nil in Df.
    rewrite <-(take_drop (Z.to_nat (q_in qr)) (sent (left_end s))) at 2.
    by rewrite Df, app_nil_r.
Qed.

(** C2: through any interleaving of sending, delivery, loss of the connection
    and resumption, each side handles the stanzas of the other in order and
    each exactly once, and reports a packet as acknowledged only when the
    other side handled it. *)
Theorem sm_exactly_once (ops : list SysOp) :
  len ops < 2 ^ 32 -> Forall op_ok ops ->
  let s := sys_run ops new_system in delivers s /\ delivers (swap s).
Proof.
  intros Hn Hok s. destruct inv_new as (ql & qr & HI).
  destruct (inv_run ops true ql qr new_system 0 HI) as (c & ql' & qr' & HI'); [done|lia|done|].
  split; [by eapply inv_delivers|]. eapply inv_delivers, inv_swap, HI'.
Qed.

(** C3: after any run, once a connection is up, delivering what is in flight
    makes the other side handle every stanza sent in the session: also those
    lost with the connections before. *)
Theorem sm_drains (ops : list SysOp) :
  len ops + 1 < 2 ^ 32 -> Forall op_ok ops ->
  let s := sys_run ops new_system in
  isConnected (socket (manager (left_end s))) = true ->
  let s' := sys_run (replicate (length (to_right s)) (SDeliver false)) s in
  stanzas (handled (right_end s')) = map m_data (sent (left_end s)).
Proof.
  intros Hn Hok s Hup s'. destruct inv_new as (ql & qr & HI).
  assert (room s) as Hroom.
  { destruct (below_run ops 0 new_system) as [Hsl Hsr]; [done|].
    fold s in Hsl, Hsr. unfold room. lia. }
  destruct (inv_run ops true ql qr new_system 0 HI) as (c & ql' & qr' & HI'); [done|lia|done|].
  fold s in HI'. assert (c = true) as ->.
  { destruct HI' as [Hl _ Sl _ _ _]. rewrite Hl in Hup. rewrite <-(side_up _ _ Sl). exact Hup. }
  destruct (drain _ s _ _ HI' Hroom eq_refl) as ((ql2 & qr2 & HI2) & Htr & Hs).
  fold s' in HI2, Htr, Hs. destruct (inv_delivers _ _ _ _ HI2) as (r & _ & _ & Hall).
  rewrite <-Hs. apply Hall; [|by rewrite Htr].
  destruct HI2 as [Hl _ Sl _ _ _]. rewrite Hl. exact (side_up _ _ Sl).
Qed.

Definition stanza_of (n : nat) (body : string) : QXmppPacket :=
  {| m_promise := n; m_data := Elem "message" "jabber:client" [("id", body)] [];
     m_isXmppStanza := true |}.

(** The second and third message and the first acknowledgement are lost. *)
Definition session_sample : list SysOp :=
  [SSend true (stanza_of 1 "a"); SDeliver false; SDeliver false;
   SSend true (stanza_of 2 "b"); SSend true (stanza_of 3 "c"); SDeliver false;
   SSend false (stanza_of 4 "d"); SBreak; SSend true (stanza_of 5 "lost"); SResume].

Lemma sm_exactly_once_witness :
  len session_sample < 2 ^ 32 /\ delivers (sys_run session_sample new_system) /\
  delivers (swap (sys_run session_sample new_system)).
Proof.
  split; [done|]. apply (sm_exactly_once session_sample); [done|]. by repeat constructor.
Defined.

Lemma sm_drains_witness :
  map (fun el => attribute el "id") (handled (right_end
    (sys_run (replicate (length (to_right (sys_run session_sample new_system))) (SDeliver false))
       (sys_run session_sample new_system)))) = ["a"; "b"; "c"] /\
  stanzas (handled (right_end
    (sys_run (replicate (length (to_right (sys_run session_sample new_system))) (SDeliver false))
       (sys_run session_sample new_system)))) =
  map m_data (sent (left_end (sys_run session_sample new_system))).
Proof.
  split; [by vm_compute|]. apply (sm_drains session_sample); try done; by repeat constructor.
Defined.
