(* ===== verification/IqManager.v ===== *)
(** * Outgoing IQ requests (OutgoingIqManager, src/src/client/QXmppOutgoingClient.cpp)

    The table of requests waiting for a response, and its use of the stream
    management that sends the packets: a request is finished by a response, by
    the failure of its packet, or by the end of the session. A promise is a
    number; std::unordered_map is a gmap, whose order the cancellation follows.
    The parsed content of an error response is not modelled, nor are
    continuations of a request's task that call back into the manager. *)
From S2P Require Import Prelude DataStream Utils Dom QMap StreamManagement.

Record IqState := { iq_promise : nat; iq_jid : string }.

(** How the task of a request ends. *)
Inductive IqResult :=
  | IqElement (el : Dom)            (* the response stanza *)
  | IqStanzaError (el : Dom)        (* an error response *)
  | IqSendFailed (e : SendError)
  | IqCancelled
  | IqInvalidId
  | IqNoTo.

Record OutgoingIqManager := {
  m_requests : gmap string IqState;
  iq_finished : list (nat * IqResult);          (* in order *)
  iq_started : list (nat * (string * string));  (* promise, id and addressee *)
}.
#[export] Instance OutgoingIqManager_eta : Eta OutgoingIqManager := fun r =>
  {| m_requests := m_requests r; iq_finished := iq_finished r; iq_started := iq_started r |}.

Definition newIqManager : OutgoingIqManager :=
  {| m_requests := ∅; iq_finished := []; iq_started := [] |}.

Module Iq.

(** [promise.finish(result)] *)
Definition complete (p : nat) (r : IqResult) (m : OutgoingIqManager) : OutgoingIqManager :=
  m <| iq_finished ::= (fun l => l ++ [(p, r)]) |>.

Definition hasId (id : string) (m : OutgoingIqManager) : bool :=
  bool_decide (is_Some (m_requests m !! id)).
Definition isIdValid (id : string) (m : OutgoingIqManager) : bool :=
  negb (bool_decide (id = "")) && negb (hasId id m).

(** The new task's promise, and whether the task is not finished yet. *)
Definition start (id to : string) (m : OutgoingIqManager) : OutgoingIqManager * nat * bool :=
  let p := length (iq_started m) in
  let m := m <| iq_started ::= (fun l => l ++ [(p, (id, to))]) |> in
  if negb (isIdValid id m) then (complete p IqInvalidId m, p, false)
  else if decide (to = "") then (complete p IqNoTo m, p, false)
  else (m <| m_requests ::= <[id := {| iq_promise := p; iq_jid := to |}]> |>, p, true).

Definition finish (id : string) (result : IqResult) (m : OutgoingIqManager) : OutgoingIqManager :=
  match m_requests m !! id with
  | Some st => (complete (iq_promise st) result m) <| m_requests ::= delete id |>
  | None => m
  end.

Definition cancelAll (m : OutgoingIqManager) : OutgoingIqManager :=
  let m := foldl (fun m e => complete (iq_promise e.2) IqCancelled m) m (map_to_list (m_requests m)) in
  m <| m_requests := ∅ |>.

Definition onSessionOpened (smResumed : bool) (m : OutgoingIqManager) : OutgoingIqManager :=
  if negb smResumed then cancelAll m else m.
Definition onSessionClosed (smCanResume : bool) (m : OutgoingIqManager) : OutgoingIqManager :=
  if negb smCanResume then cancelAll m else m.

Definition handleStanza (stanza : Dom) (m : OutgoingIqManager) : OutgoingIqManager * bool :=
  if negb (bool_decide (tagName stanza = "iq")) then (m, false)
  else
    let iqType := attribute stanza "type" in
    if negb (bool_decide (iqType = "result")) && negb (bool_decide (iqType = "error")) then (m, false)
    else
      let id := attribute stanza "id" in
      match m_requests m !! id with
      | None => (m, false)
      | Some st =>
          let expectedFrom := iq_jid st in
          let from := attribute stanza "from" in
          if negb (bool_decide (from = "")) && negb (bool_decide (from = expectedFrom))
          then (m, false)
          else
            let m := complete (iq_promise st)
              (if decide (iqType = "error") then IqStanzaError stanza else IqElement stanza) m in
            (m <| m_requests ::= delete id |>, true)
      end.

End Iq.

(** ** The stream: packets and requests *)

Record Stream := {
  acks : StreamAckManager;
  iqs : OutgoingIqManager;
  packets : nat;                        (* packets created so far *)
  awaiting : list (nat * string);       (* packet promise -> id of the request *)
}.
#[export] Instance Stream_eta : Eta Stream := fun r =>
  {| acks := acks r; iqs := iqs r; packets := packets r; awaiting := awaiting r |}.

Definition newStream (s : XmppSocket) : Stream :=
  {| acks := newStreamAckManager s; iqs := newIqManager; packets := 0; awaiting := [] |}.

Fixpoint awaits (p : nat) (l : list (nat * string)) : option string :=
  match l with
  | [] => None
  | (p', id) :: l' => if decide (p' = p) then Some id else awaits p l'
  end.

(** The continuation sendIq sets on its packet: a failure finishes the IQ. *)
Definition continue (aw : list (nat * string)) (m : OutgoingIqManager) (r : nat * SendResult) :
    OutgoingIqManager :=
  match r.2, awaits r.1 aw with
  | SendFailure e, Some id => Iq.finish id (IqSendFailed e) m
  | _, _ => m
  end.

(** An operation of the ack manager and the continuations it runs. *)
Definition with_acks (f : StreamAckManager -> StreamAckManager) (s : Stream) : Stream :=
  let a := f (acks s) in
  let new := drop (length (reports (acks s))) (reports a) in
  s <| acks := a |> <| iqs ::= (fun m => foldl (continue (awaiting s)) m new) |>.

(** [sendIq(iq, to)]: [uuid] is the id generated when the IQ's own is empty or
    in use; [data id] is the IQ serialised with the id. *)
Definition sendIq (data : string -> Dom) (id to uuid : string) (s : Stream) : Stream :=
  let id := if decide (id = "") then uuid else id in
  let id := if Iq.hasId id (iqs s) then uuid else id in
  let '(m, p, pending) := Iq.start id to (iqs s) in
  let s := s <| iqs := m |> in
  if negb pending then s
  else
    let packet := {| m_promise := packets s; m_data := data id; m_isXmppStanza := true |} in
    let s := s <| packets ::= S |> <| awaiting ::= (fun l => l ++ [(m_promise packet, id)]) |> in
    with_acks (Sm.send packet) s.

Definition sendPacket (data : Dom) (isXmppStanza : bool) (s : Stream) : Stream :=
  let packet := {| m_promise := packets s; m_data := data; m_isXmppStanza := isXmppStanza |} in
  with_acks (Sm.send packet) (s <| packets ::= S |>).

Inductive StreamOp :=
  | SIq (data : string -> Dom) (id to uuid : string)
  | SPacket (data : Dom) (isXmppStanza : bool)
  | SReceive (el : Dom)
  | SAck (o : SmOp)                      (* an operation of the session layer *)
  | SOpened (smResumed : bool)
  | SClosed (smCanResume : bool).

(** QXmppOutgoingClient::handleElement tries the ack manager, then the IQs. *)
Definition stream_op (s : Stream) (o : StreamOp) : Stream :=
  match o with
  | SIq data id to uuid => sendIq data id to uuid s
  | SPacket data st => sendPacket data st s
  | SReceive el =>
      let accepted := (Sm.handleStanza el (acks s)).2 in
      let s := with_acks (fun a => (Sm.handleStanza el a).1) s in
      if accepted then s else s <| iqs ::= (fun m => (Iq.handleStanza el m).1) |>
  | SAck o => with_acks (fun a => sm_op a o) s
  | SOpened r => s <| iqs ::= Iq.onSessionOpened r |>
  | SClosed r => (with_acks Sm.onSessionClosed s) <| iqs ::= Iq.onSessionClosed r |>
  end.
Definition stream_run (ops : list StreamOp) (s : Stream) : Stream := foldl stream_op s ops.

(** ** The invariant of the table *)

Definition waiting (m : OutgoingIqManager) : list nat :=
  map (fun e => iq_promise e.2) (map_to_list (m_requests m)).

(** A response matches the request it finishes. *)
Definition response (r : IqResult) : option (Dom * string) :=
  match r with
  | IqElement el => Some (el, "result")
  | IqStanzaError el => Some (el, "error")
  | _ => None
  end.
Definition answers (el : Dom) (type id to : string) : Prop :=
  tagName el = "iq" /\ attribute el "type" = type /\ attribute el "id" = id /\
  (attribute el "from" = "" \/ attribute el "from" = to).

Record iq_inv (m : OutgoingIqManager) : Prop := {
  iq_promises : (iq_started m).*1 = seq 0 (length (iq_started m));
  iq_account : seq 0 (length (iq_started m)) ≡ₚ (iq_finished m).*1 ++ waiting m;
  iq_known : forall id st, m_requests m !! id = Some st ->
    (iq_promise st, (id, iq_jid st)) ∈ iq_started m;
  iq_authentic_inv : forall p r el type, (p, r) ∈ iq_finished m -> response r = Some (el, type) ->
    exists id to, (p, (id, to)) ∈ iq_started m /\ answers el type id to;
}.

Lemma iq_inv_new : iq_inv newIqManager.
Proof.
  split; try done.
  intros p r el type Hin. by apply elem_of_nil in Hin.
Qed.

Lemma waiting_delete m id st : m_requests m !! id = Some st ->
  waiting m ≡ₚ iq_promise st :: map (fun e => iq_promise e.2) (map_to_list (delete id (m_requests m))).
Proof. intros Hl. unfold waiting. by rewrite <-(map_to_list_delete _ _ _ Hl). Qed.

(** Finishing a request that waits. *)
Lemma iq_inv_complete m id st r : iq_inv m -> m_requests m !! id = Some st ->
  (forall el type, response r = Some (el, type) -> answers el type id (iq_jid st)) ->
  iq_inv ((Iq.complete (iq_promise st) r m) <| m_requests ::= delete id |>).
Proof.
  intros [Hp Ha Hk Hau] Hl Hr. split; simpl.
  - done.
  - rewrite Ha, (waiting_delete _ _ _ Hl), fmap_app. simpl. by rewrite <-app_assoc.
  - intros id' st' Hl'. apply lookup_delete_Some in Hl' as [_ Hl']. by apply Hk.
  - intros p r' el type Hin Hre. apply elem_of_app in Hin as [Hin|Hin]; [by eapply Hau|].
    apply list_elem_of_singleton in Hin. simplify_eq. exists id, (iq_jid st).
    split; [by apply Hk|]. by apply Hr.
Qed.

Lemma iq_inv_finish id e m : iq_inv m -> iq_inv (Iq.finish id (IqSendFailed e) m).
Proof.
  intros Hm. unfold Iq.finish. destruct (m_requests m !! id) eqn:Hl; [|done].
  by apply iq_inv_complete.
Qed.

Lemma iq_inv_handle el m : iq_inv m -> iq_inv (Iq.handleStanza el m).1.
Proof.
  intros Hm. unfold Iq.handleStanza.
  destruct (negb (bool_decide (tagName el = "iq"))) eqn:Ht; [done|].
  destruct (negb _ && negb _) eqn:Hty; [done|].
  destruct (m_requests m !! _) as [st|] eqn:Hl; [|done].
  destruct (negb (bool_decide (attribute el "from" = "")) && _) eqn:Hf; [done|]. simpl.
  apply iq_inv_complete; [done|done|]. intros el' type Heq. bools.
  apply andb_false_iff in Hf. case_decide as He; simplify_eq/=;
    split_and!; try done; try (destruct Hf; bools; auto).
  all: apply andb_false_iff in Hty as [Hty|Hty]; bools; congruence.
Qed.

(** A new task; it waits exactly when it is not finished at once. *)
Lemma iq_inv_start id to m : iq_inv m -> iq_inv (Iq.start id to m).1.1.
Proof.
  intros [Hp Ha Hk Hau]. unfold Iq.start, Iq.isIdValid, Iq.hasId. cbn [m_requests].
  set (p := length (iq_started m)).
  assert (forall r, response r = None ->
    iq_inv (Iq.complete p r (m <| iq_started ::= (fun l => l ++ [(p, (id, to))]) |>))) as Hfail.
  { intros r Hr. split; simpl.
    - rewrite fmap_app, length_app, Hp, seq_app. done.
    - rewrite length_app, seq_app, fmap_app, Ha. simpl. rewrite <-!app_assoc. f_equiv.
      by rewrite Permutation_app_comm.
    - intros id' st' Hl. apply elem_of_app. left. by apply Hk.
    - intros q r' el type Hin Hre. apply elem_of_app in Hin as [Hin|Hin].
      + destruct (Hau q r' el type Hin Hre) as (i & t & Hin' & Han). exists i, t.
        rewrite elem_of_app. auto.
      + apply list_elem_of_singleton in Hin. by simplify_eq. }
  destruct (negb (_ && _)) eqn:Hv; [by apply Hfail|].
  destruct (decide (to = "")); [by apply Hfail|]. simpl in *.
  apply negb_false_iff, andb_prop in Hv as [_ Hv].
  apply negb_true_iff, bool_decide_eq_false in Hv.
  split; simpl.
  - rewrite fmap_app, length_app, Hp, seq_app. done.
  - rewrite length_app, seq_app, Ha. unfold waiting. simpl.
    assert (m_requests m !! id = None) as Hn.
    { apply eq_None_not_Some. done. }
    rewrite (map_to_list_insert _ _ _ Hn). simpl. rewrite <-app_assoc. f_equiv.
    by rewrite Permutation_app_comm.
  - intros id' st' Hl. apply lookup_insert_Some in Hl as [[<- <-]|[_ Hl]].
    + apply elem_of_app. right. by apply list_elem_of_singleton.
    + apply elem_of_app. left. by apply Hk.
  - intros q r' el type Hin Hre. destruct (Hau q r' el type Hin Hre) as (i & t & Hin' & Han).
    exists i, t. rewrite elem_of_app. auto.
Qed.

Lemma cancel_loop l m :
  foldl (fun m e => Iq.complete (iq_promise (snd e)) IqCancelled m) m l =
  m <| iq_finished ::= (fun f => f ++ map (fun e : string * IqState => (iq_promise e.2, IqCancelled)) l) |>.
Proof.
  revert m. induction l as [|e l IH]; intros m; simpl.
  - destruct m; simpl. by rewrite app_nil_r.
  - rewrite IH. unfold Iq.complete. simpl. by rewrite <-app_assoc.
Qed.

Lemma iq_inv_cancel m : iq_inv m -> iq_inv (Iq.cancelAll m).
Proof.
  intros [Hp Ha Hk Hau]. unfold Iq.cancelAll. rewrite cancel_loop. split; simpl.
  - done.
  - rewrite Ha, fmap_app. unfold waiting. simpl. rewrite map_to_list_empty, app_nil_r. f_equiv.
    by rewrite <-list_fmap_compose.
  - intros id st Hl. by rewrite lookup_empty in Hl.
  - intros p r el type Hin Hre. apply elem_of_app in Hin as [Hin|Hin]; [by eapply Hau|].
    apply list_elem_of_fmap in Hin as (? & ? & _). by simplify_eq.
Qed.

Lemma iq_inv_continue aw l m : iq_inv m -> iq_inv (foldl (continue aw) m l).
Proof.
  revert m. induction l as [|[p r] l IH]; intros m Hm; simpl; [done|]. apply IH.
  unfold continue. simpl. destruct r; [done|]. destruct (awaits p aw); [|done].
  by apply iq_inv_finish.
Qed.

Lemma started_continue aw l m : iq_started (foldl (continue aw) m l) = iq_started m.
Proof.
  revert m. induction l as [|[p r] l IH]; intros m; simpl; [done|]. rewrite IH.
  unfold continue, Iq.finish. simpl. destruct r; [done|]. destruct (awaits p aw); [|done].
  by destruct (m_requests m !! _).
Qed.

Lemma started_acks f s : iq_started (iqs (with_acks f s)) = iq_started (iqs s).
Proof. apply started_continue. Qed.

Lemma iq_inv_acks f s : iq_inv (iqs s) -> iq_inv (iqs (with_acks f s)).
Proof. apply iq_inv_continue. Qed.
#[export] Hint Resolve iq_inv_acks iq_inv_cancel iq_inv_handle : qx.

Lemma iq_inv_op s o : iq_inv (iqs s) -> iq_inv (iqs (stream_op s o)).
Proof.
  intros Hs. destruct o as [data id to uuid|data st|el|o|r|r]; cbn [stream_op].
  - unfold sendIq. cbv zeta.
    set (id2 := if Iq.hasId _ _ then _ else _).
    pose proof (iq_inv_start id2 to (iqs s) Hs) as Hst.
    destruct (Iq.start id2 to (iqs s)) as [[m p] pend]. simpl in Hst.
    destruct pend; [|done]. by apply iq_inv_acks.
  - by apply iq_inv_acks.
  - destruct (Sm.handleStanza el (acks s)).2; [by apply iq_inv_acks|].
    refine (iq_inv_handle el (iqs (with_acks _ s)) _). by apply iq_inv_acks.
  - by apply iq_inv_acks.
  - simpl. unfold Iq.onSessionOpened. destruct r; simpl; auto with qx.
  - destruct r; [by apply (iq_inv_acks Sm.onSessionClosed s)|].
    refine (iq_inv_cancel (iqs (with_acks _ s)) _). by apply iq_inv_acks.
Qed.

Lemma iq_inv_run ops s : iq_inv (iqs (stream_run ops (newStream s))).
Proof.
  unfold stream_run. assert (iq_inv (iqs (newStream s))) as H by apply iq_inv_new.
  revert H. generalize (newStream s). induction ops as [|o ops IH]; intros t Ht; simpl; [done|].
  apply IH. by apply iq_inv_op.
Qed.

(** ** Theorems *)

(** C26: every request started is finished or waiting, and never finished
    twice; when the session ends without the chance of resumption, or a new
    one begins, every request has been finished exactly once. *)
Theorem iq_finished_once (s : XmppSocket) (ops : list StreamOp) :
  let m := iqs (stream_run ops (newStream s)) in
  let promises := seq 0 (length (iq_started m)) in
  promises ≡ₚ (iq_finished m).*1 ++ waiting m /\
  promises ≡ₚ (iq_finished (iqs (stream_op (stream_run ops (newStream s)) (SClosed false)))).*1 /\
  promises ≡ₚ (iq_finished (iqs (stream_op (stream_run ops (newStream s)) (SOpened false)))).*1.
Proof.
  intros m promises. pose proof (iq_inv_run ops s) as Hm. split; [by apply iq_account|].
  assert (forall m', iq_inv m' -> iq_started m' = iq_started m -> m_requests m' = ∅ ->
    promises ≡ₚ (iq_finished m').*1) as Hall.
  { intros m' Hm' Hs Hr. subst promises. rewrite <-Hs, (iq_account _ Hm').
    unfold waiting. by rewrite Hr, map_to_list_empty, app_nil_r. }
  split; (apply Hall; [by apply iq_inv_op| |done]).
  - simpl. unfold Iq.cancelAll. rewrite cancel_loop. apply started_continue.
  - simpl. unfold Iq.cancelAll. by rewrite cancel_loop.
Qed.

(** C27: a request is answered only by an IQ of type result or error that has
    its id and comes from the server or from the addressee of the request. *)
Theorem iq_response_authentic (s : XmppSocket) (ops : list StreamOp) (p : nat) (r : IqResult)
    (el : Dom) (type : string) :
  let m := iqs (stream_run ops (newStream s)) in
  (p, r) ∈ iq_finished m -> response r = Some (el, type) ->
  exists id to, (p, (id, to)) ∈ iq_started m /\ answers el type id to.
Proof. intros m. apply iq_authentic_inv, iq_inv_run. Qed.

Definition iq_el (type id from : string) : Dom :=
  Elem "iq" "jabber:client" [("type", type); ("id", id); ("from", from)] [].
Definition iq_sample : list StreamOp :=
  [SAck (OEnable true);
   SIq (fun id => iq_el "get" id "") "q1" "juliet@capulet.lit" "u1";
   SIq (fun id => iq_el "get" id "") "q1" "montague.lit" "u2";
   SReceive (iq_el "result" "q1" "mallory@example.org");
   SReceive (iq_el "result" "q1" "juliet@capulet.lit");
   SReceive (iq_el "error" "u2" "");
   SIq (fun id => iq_el "get" id "") "q3" "montague.lit" "u3";
   SAck OResetCache].

Lemma iq_response_authentic_witness :
  iq_finished (iqs (stream_run iq_sample (newStream up))) =
    [(0%nat, IqElement (iq_el "result" "q1" "juliet@capulet.lit"));
     (1%nat, IqStanzaError (iq_el "error" "u2" "")); (2%nat, IqSendFailed Disconnected)] /\
  exists id to, (0%nat, (id, to)) ∈ iq_started (iqs (stream_run iq_sample (newStream up))) /\
    answers (iq_el "result" "q1" "juliet@capulet.lit") "result" id to.
Proof.
  split; [by vm_compute|].
  apply (iq_response_authentic up iq_sample 0 (IqElement (iq_el "result" "q1" "juliet@capulet.lit")));
    [|done].
  rewrite list_elem_of_lookup. exists 0%nat. by vm_compute.
Defined.
