(* ===== verification/ClientSession.v ===== *)
(** * The session of a client (src/src/client/QXmppOutgoingClient.cpp)

    C2sStreamManager, BindManager and the part of QXmppOutgoingClient that
    negotiates a session after authentication and dispatches the elements it
    receives: resumption, resource binding, enabling of stream management,
    opening and closing of the session. Authentication, TLS and the choice of
    the server address are not modelled: the events start with a stream that
    is authenticated. *)
From S2P Require Import Prelude DataStream Utils Dom QMap StreamManagement IqManager.

Definition ns_bind : string := "urn:ietf:params:xml:ns:xmpp-bind".
Definition ns_client : string := "jabber:client".
Definition XMPP_DEFAULT_PORT : Z := 5222.

(** ** C2sStreamManager *)

Inductive SmRequestState := NoRequest | ResumeRequest | EnableRequest.
#[export] Instance SmRequestState_eq_dec : EqDecision SmRequestState.
Proof. solve_decision. Defined.

Record C2sStreamManager := {
  m_request : SmRequestState;
  m_smAvailable : bool;
  m_smId : string;
  m_canResume : bool;
  m_resumeHost : string;
  m_resumePort : Z;
  c2s_enabled : bool;
  m_streamResumed : bool;
}.
#[export] Instance C2sStreamManager_eta : Eta C2sStreamManager := fun r =>
  {| m_request := m_request r; m_smAvailable := m_smAvailable r; m_smId := m_smId r;
     m_canResume := m_canResume r; m_resumeHost := m_resumeHost r; m_resumePort := m_resumePort r;
     c2s_enabled := c2s_enabled r; m_streamResumed := m_streamResumed r |}.
Definition newC2s : C2sStreamManager :=
  {| m_request := NoRequest; m_smAvailable := false; m_smId := ""; m_canResume := false;
     m_resumeHost := ""; m_resumePort := 0; c2s_enabled := false; m_streamResumed := false |}.

Record SessionBegin := { smEnabled : bool; smResumed : bool }.

(** What the client reports to its user. *)
Inductive Signal :=
  | SigConnected (s : SessionBegin)
  | SigDisconnected (smCanResume : bool)
  | SigError (text : string)
  | SigBindError (el : Dom)
  | SigStanza (el : Dom).

(** The element handler in charge. *)
Inductive Listener := LClient | LC2s | LBind (m_iqId : string).
Definition listener_index (l : Listener) : nat :=
  match l with LClient => 0 | LC2s => 1 | LBind _ => 2 end.

Record OutgoingClient := {
  stream : Stream;
  c2s : C2sStreamManager;
  listener : Listener;
  bindModeAvailable : bool;
  sessionStarted : bool;
  acceptInput : bool;               (* XmppSocket::m_acceptInput *)
  resource : string;                (* QXmppConfiguration::resource *)
  address : string * string;        (* user and domain *)
  idCounter : Z;                    (* generateSequentialStanzaId *)
  redirect : option (string * Z);   (* where a stream error sent us *)
  signals : list Signal;
  assertionsHold : bool;            (* no Q_ASSERT has failed; without checks the code goes on *)
}.
#[export] Instance OutgoingClient_eta : Eta OutgoingClient := fun r =>
  {| stream := stream r; c2s := c2s r; listener := listener r;
     bindModeAvailable := bindModeAvailable r; sessionStarted := sessionStarted r;
     acceptInput := acceptInput r; resource := resource r; address := address r;
     idCounter := idCounter r; redirect := redirect r; signals := signals r;
     assertionsHold := assertionsHold r |}.

Section Client.
(** QUrl's host and port of an address, and whether an application handler
    consumes an element (the signal elementReceived). *)
Variable parseHostAddress : string -> string * Z.
Variable handledByExtension : Dom -> bool.


Definition canRequestResume (m : C2sStreamManager) : bool :=
  m_smAvailable m && negb (c2s_enabled m) && m_canResume m.
Definition canRequestEnable (m : C2sStreamManager) : bool :=
  m_smAvailable m && negb (c2s_enabled m).
Definition hasResumeAddress (m : C2sStreamManager) : bool :=
  m_canResume m && negb (bool_decide (m_resumeHost m = "")) && negb (m_resumePort m =? 0).
Definition hasOngoingRequest (m : C2sStreamManager) : bool :=
  negb (bool_decide (m_request m = NoRequest)).

Definition onStreamStart (m : C2sStreamManager) : C2sStreamManager :=
  m <| m_streamResumed := false |> <| c2s_enabled := false |> <| m_request := NoRequest |>.
Definition onStreamClosed (m : C2sStreamManager) : C2sStreamManager := m <| m_canResume := false |>.

Definition setResumeAddress (addr : string) (m : C2sStreamManager) : C2sStreamManager :=
  let '(host, port) := parseHostAddress addr in
  if decide (host <> "") then
    m <| m_resumeHost := host |>
      <| m_resumePort := if 0 <? port then u16 port else XMPP_DEFAULT_PORT |>
  else m <| m_resumeHost := "" |> <| m_resumePort := 0 |>.

Definition onEnabled (enabled : SmEnabled) (c : OutgoingClient) : OutgoingClient :=
  let m := (c2s c) <| m_smId := ed_id enabled |> <| m_canResume := ed_resume enabled |> in
  let m := if ed_resume enabled && negb (bool_decide (ed_location enabled = ""))
           then setResumeAddress (ed_location enabled) m else m in
  c <| c2s := m <| c2s_enabled := true |> |>
    <| stream ::= (fun s => stream_op s (SAck (OEnable true))) |>.

(** setAcknowledgedSequenceNumber and enableStreamManagement(false). *)
Definition onResumed (resumed : SmResumed) (c : OutgoingClient) : OutgoingClient :=
  c <| c2s ::= (fun m => m <| m_streamResumed := true |> <| c2s_enabled := true |>) |>
    <| stream ::= (fun s => stream_op s (SAck (OResumed (rd_h resumed)))) |>.

(** ** Sessions *)

Definition emit (s : Signal) (c : OutgoingClient) : OutgoingClient :=
  c <| signals ::= (fun l => l ++ [s]) |>.
Definition sendElement (el : Dom) (c : OutgoingClient) : OutgoingClient :=
  c <| stream ::= (fun s => s <| acks ::= Sm.write el |>) |>.

(** Q_ASSERT *)
Definition assert (b : bool) (c : OutgoingClient) : OutgoingClient := c <| assertionsHold ::= andb b |>.

Definition openSession (c : OutgoingClient) : OutgoingClient :=
  let c := assert (negb (sessionStarted c)) c in
  let c := c <| sessionStarted := true |> in
  let session := {| smEnabled := c2s_enabled (c2s c); smResumed := m_streamResumed (c2s c) |} in
  let c := c <| stream ::= (fun s => stream_op s (SOpened (smResumed session))) |> in
  emit (SigConnected session) c.

Definition closeSession (c : OutgoingClient) : OutgoingClient :=
  let c := c <| sessionStarted := false |> in
  let smCanResume := m_canResume (c2s c) in
  let c := c <| stream ::= (fun s => stream_op s (SClosed smCanResume)) |> in
  emit (SigDisconnected smCanResume) c.

Definition disconnectFromHost (c : OutgoingClient) : OutgoingClient :=
  let c := c <| c2s ::= onStreamClosed |> in
  let c := sendElement (Text "</stream:stream>") c in
  c <| acceptInput := false |>.

(** ** Negotiation *)

Definition requestResume (c : OutgoingClient) : OutgoingClient :=
  let c := assert (negb (hasOngoingRequest (c2s c))) c in
  let c := c <| c2s ::= (fun m => m <| m_request := ResumeRequest |>) |> in
  sendElement (serializeXml (toXml {|
    re_h := m_lastIncomingSequenceNumber (acks (stream c)); re_previd := m_smId (c2s c) |})) c.

Definition requestEnable (c : OutgoingClient) : OutgoingClient :=
  let c := assert (negb (hasOngoingRequest (c2s c))) c in
  let c := c <| c2s ::= (fun m => m <| m_request := EnableRequest |>) |> in
  sendElement (serializeXml (toXml {| en_resume := true; en_max := 0 |})) c.

Definition startSmResume (c : OutgoingClient) : OutgoingClient :=
  requestResume (c <| listener := LC2s |>).
Definition startSmEnable (c : OutgoingClient) : OutgoingClient :=
  requestEnable (c <| listener := LClient |>).

(** BindManager::bindAddress *)
Definition bind_iq (id resource : string) : Dom :=
  serializeXml (WElem "iq" None [WAttr "id" id; WAttr "type" "set";
    Element ("bind", ns_bind) [OptionalTextElement ("resource", ns_bind) resource]]).
Definition startResourceBinding (c : OutgoingClient) : OutgoingClient :=
  let '(id, n) := Random.generateSequentialStanzaId (idCounter c) in
  sendElement (bind_iq id (resource c)) (c <| idCounter := n |> <| listener := LBind id |>).

(** What follows a resumption that succeeded or failed. *)
Definition afterResume (c : OutgoingClient) : OutgoingClient :=
  if m_streamResumed (c2s c) then openSession c
  else if bindModeAvailable c then startResourceBinding c
  else openSession c.

(** The end of handleStreamFeatures, after authentication. *)
Definition handleStreamFeatures (bind sm : bool) (c : OutgoingClient) : OutgoingClient :=
  let c := c <| bindModeAvailable := bind |> <| c2s ::= (fun m => m <| m_smAvailable := sm |>) |> in
  if canRequestResume (c2s c) then startSmResume c
  else if bindModeAvailable c then startResourceBinding c
  else if canRequestEnable (c2s c) then startSmEnable c
  else openSession c.

(** C2sStreamManager::handleElement with the continuations of its requests. *)
Definition c2s_handleElement (el : Dom) (c : OutgoingClient) : OutgoingClient * HandleElementResult :=
  match m_request (c2s c) with
  | ResumeRequest =>
      let c := c <| c2s ::= (fun m => m <| m_request := NoRequest |>) |> in
      match fromDom el with
      | Some resumed => (afterResume (onResumed resumed c), Finished)
      | None =>
          match (fromDom el : option SmFailed) with
          | Some _ => (afterResume c, Finished)
          | None => (c, Rejected)
          end
      end
  | EnableRequest =>
      let c := c <| c2s ::= (fun m => m <| m_request := NoRequest |>) |> in
      match fromDom el with
      | Some enabled => (openSession (onEnabled enabled c), Finished)
      | None =>
          match (fromDom el : option SmFailed) with
          | Some _ => (openSession c, Finished)
          | None => (c, Rejected)
          end
      end
  | NoRequest => (c, Rejected)
  end.
(** ** BindManager *)

Inductive BindResult :=
  | BoundAddress (user domain resource : string)
  | BindStanzaError (el : Dom)
  | ProtocolError (text : string).

(** The longest prefix without '@' and '/', and the rest. *)
Fixpoint jid_span (s : string) : string * string :=
  match s with
  | "" => ("", "")
  | String ch s' =>
      if bool_decide (ch = "@"%char) || bool_decide (ch = "/"%char) then ("", s)
      else let '(a, b) := jid_span s' in (String ch a, b)
  end.
(** The regular expression ^([^@/]+)@([^@/]+)/(.+)$ *)
Definition jidRegex (s : string) : option (string * string * string) :=
  match jid_span s with
  | (String _ _ as user, String "@" rest) =>
      match jid_span rest with
      | (String _ _ as domain, String "/" (String _ _ as res)) => Some (user, domain, res)
      | _ => None
      end
  | _ => None
  end.

Fixpoint text_of (nodes : list Dom) : string :=
  match nodes with
  | [] => ""
  | Text s :: l => s +:+ text_of l
  | _ :: l => text_of l
  end.
Definition elements (el : Dom) : list Dom :=
  filter (fun n => isElementNode n = true) (childNodes el).
Definition lastChildElement (el : Dom) : Dom := default nullElement (last (elements el)).

(** BindElement::fromDom, the jid only. *)
Definition bind_jid (el : Dom) : option string :=
  if decide (elementXmlTag el = ("bind", ns_bind))
  then Some (text_of (childNodes (firstChildElement el "jid" ""))) else None.

Definition bindResult (el : Dom) : BindResult :=
  let type := attribute el "type" in
  if decide (type = "result") then
    match bind_jid (firstChildElement el "" "") with
    | Some jid =>
        if decide (jid = "") then ProtocolError "Server did not return JID upon resource binding."
        else
          match jidRegex jid with
          | Some (u, d, r) => BoundAddress u d r
          | None => ProtocolError "Bind IQ received with invalid JID"
          end
    | None => ProtocolError "Failed to parse IQ result payload"
    end
  else if decide (type = "error") then BindStanzaError (lastChildElement el)
  else ProtocolError "Received unexpected IQ type".

Definition afterBind (r : BindResult) (c : OutgoingClient) : OutgoingClient :=
  match r with
  | BoundAddress u d res =>
      let c := c <| address := (u, d) |> <| resource := res |> in
      if canRequestEnable (c2s c) then startSmEnable c else openSession c
  | ProtocolError text =>
      disconnectFromHost (emit (SigError ("Resource binding failed: " +:+ text)) c)
  | BindStanzaError e => disconnectFromHost (emit (SigBindError e) c)
  end.

Definition bind_handleElement (m_iqId : string) (el : Dom) (c : OutgoingClient) :
    OutgoingClient * HandleElementResult :=
  if bool_decide (tagName el = "iq")
     && bool_decide (elementXmlTag (firstChildElement el "" "") = ("bind", ns_bind))
     && bool_decide (attribute el "id" = m_iqId)
  then (afterBind (bindResult el) c, Finished)
  else (c, Rejected).

(** ** The elements of an established session *)

(** QXmppOutgoingClient::handleStanza: what nobody else took. *)
Definition handleStanza (stanza : Dom) (c : OutgoingClient) : OutgoingClient * bool :=
  if decide (tagName stanza = "iq") then
    let type := attribute stanza "type" in
    if bool_decide (type = "result") || bool_decide (type = "error")
    then (emit (SigStanza stanza) c, true)
    else if bool_decide (type = "get") || bool_decide (type = "set") then
      let reply := Elem "iq" ns_client
        [("id", attribute stanza "id"); ("to", attribute stanza "from"); ("type", "error")]
        [Elem "error" ns_client [("type", "cancel")]
           [Elem (toString FeatureNotImplemented) ns_stanza [] []]] in
      (c <| stream ::= (fun s => stream_op s (SPacket reply true)) |>, true)
    else (c, false)
  else if bool_decide (tagName stanza = "presence") || bool_decide (tagName stanza = "message")
  then (emit (SigStanza stanza) c, true)
  else (c, false).

(** What arrives: the features of the stream, a stream error, which may name
    another host, or another element. *)
Inductive Incoming :=
  | InFeatures (bind sm : bool)
  | InStreamError (seeOtherHost : option (string * Z)) (text : string)
  | InElement (el : Dom).

(** Only the socket is disconnected on a redirection. *)
Definition handleStreamError (seeOtherHost : option (string * Z)) (text : string)
    (c : OutgoingClient) : OutgoingClient :=
  match seeOtherHost with
  | Some host =>
      let c := sendElement (Text "</stream:stream>") (c <| redirect := Some host |>) in
      c <| acceptInput := false |>
  | None => emit (SigError ("Received stream error: " +:+ text)) c
  end.

(** Whether the ack manager or the IQ manager takes the element. *)
Definition stream_accepts (el : Dom) (s : Stream) : bool :=
  (Sm.handleStanza el (acks s)).2
  || (Iq.handleStanza el (iqs (with_acks (fun a => (Sm.handleStanza el a).1) s))).2.

Definition handleElement (i : Incoming) (c : OutgoingClient) : OutgoingClient * HandleElementResult :=
  match i with
  | InFeatures bind sm => (handleStreamFeatures bind sm c, Accepted)
  | InStreamError other text => (handleStreamError other text c, Accepted)
  | InElement el =>
      let taken := stream_accepts el (stream c) in
      let c := c <| stream ::= (fun s => stream_op s (SReceive el)) |> in
      if taken then (c, Accepted)
      else if handledByExtension el then (c, Accepted)
      else if decide (namespaceURI el = ns_client) then
        let '(c, ok) := handleStanza el c in (c, if ok then Accepted else Rejected)
      else if hasOngoingRequest (c2s c) then
        let '(c, r) := c2s_handleElement el c in
        (c, if decide (r = Rejected) then Rejected else Accepted)
      else (c, Rejected)
  end.

Definition TaskName (l : Listener) : string :=
  match l with
  | LClient => "client session" | LC2s => "stream management" | LBind _ => "resource binding"
  end.

(** XmppSocket::processData and QXmppOutgoingClient::handlePacketReceived *)
Definition handlePacketReceived (i : Incoming) (c : OutgoingClient) : OutgoingClient :=
  if negb (acceptInput c) then c
  else
    let before := listener c in
    let '(c, r) :=
      match before, i with
      | LClient, _ => handleElement i c
      | LC2s, InElement el => c2s_handleElement el c
      | LBind id, InElement el => bind_handleElement id el c
      | _, _ => (c, Rejected)
      end in
    match r with
    | Accepted => c
    | Rejected =>
        disconnectFromHost (emit (SigError
          ("Unexpected element received while handling " +:+ TaskName (listener c) +:+ ".")) c)
    | Finished =>
        if decide (listener_index (listener c) = listener_index before)
        then c <| listener := LClient |> else c
    end.

(** The connection of an authenticated stream: XmppSocket's connected and
    QXmppOutgoingClient::handleStart; and its loss. *)
Definition handleStart (c : OutgoingClient) : OutgoingClient :=
  let c := c <| acceptInput := true |>
    <| stream ::= (fun s => stream_op s (SAck (OConnection true))) |> in
  let c := c <| listener := LClient |> <| c2s ::= onStreamStart |> in
  sendElement (Text "<stream:stream>") c.

(** A redirection connects to the other host; the result is the address the
    socket connects to. *)
Definition handleSocketDisconnected (c : OutgoingClient) : OutgoingClient * option (string * Z) :=
  let c := c <| stream ::= (fun s => stream_op s (SAck (OConnection false))) |> in
  match redirect c with
  | Some host => (c <| redirect := None |>, Some host)
  | None => (closeSession c, None)
  end.

Inductive ClientEvent :=
  | EStart | EIncoming (i : Incoming) | EDisconnected
  | EDisconnect                                   (* the application disconnects *)
  | ESend (o : StreamOp).                         (* it sends a packet or an IQ *)

Definition client_step (c : OutgoingClient) (e : ClientEvent) : OutgoingClient :=
  match e with
  | EStart => handleStart c
  | EIncoming i => handlePacketReceived i c
  | EDisconnected => (handleSocketDisconnected c).1
  | EDisconnect => disconnectFromHost c
  | ESend (SIq d i t u) => c <| stream ::= (fun s => stream_op s (SIq d i t u)) |>
  | ESend (SPacket d b) => c <| stream ::= (fun s => stream_op s (SPacket d b)) |>
  | ESend _ => c
  end.
Definition client_run (evs : list ClientEvent) (c : OutgoingClient) : OutgoingClient :=
  foldl client_step c evs.

Definition newClient : OutgoingClient :=
  {| stream := newStream {| isConnected := false; written := [] |}; c2s := newC2s;
     listener := LClient; bindModeAvailable := false; sessionStarted := false;
     acceptInput := true; resource := ""; address := ("", ""); idCounter := 0; redirect := None;
     signals := []; assertionsHold := true |}.

(** ** The negotiation *)

#[local] Arguments fromDom : simpl never.
#[local] Arguments toXml : simpl never.
#[local] Arguments stream_op : simpl never.
#[local] Arguments serializeXml : simpl never.

Lemma start_state c : let c0 := handleStart c in
  acceptInput c0 = true /\ listener c0 = LClient /\ c2s_enabled (c2s c0) = false /\
  m_streamResumed (c2s c0) = false /\ m_canResume (c2s c0) = m_canResume (c2s c) /\
  signals c0 = signals c /\ idCounter c0 = idCounter c.
Proof. done. Qed.

(** Elements of the stream management name space reach C2sStreamManager. *)
Lemma sm_element_passes el s tag : elementXmlTag el = (tag, ns_stream_management) ->
  tag <> "a" -> tag <> "r" -> tag <> "iq" -> stream_accepts el s = false.
Proof.
  intros He Ha Hr Hi. apply (f_equal fst) in He as Ht. simpl in Ht.
  unfold stream_accepts. apply orb_false_intro.
  - unfold Sm.handleStanza, fromDom, SmAck_xml, SmRequest_xml.
    rewrite !decide_False by (rewrite He; congruence). done.
  - unfold Iq.handleStanza. rewrite bool_decide_eq_false_2 by congruence. done.
Qed.

Lemma enabled_tag el e : (fromDom el : option SmEnabled) = Some e ->
  elementXmlTag el = ("enabled", ns_stream_management).
Proof. unfold fromDom, SmEnabled_xml. by case_decide. Qed.
Lemma failed_tag el e : (fromDom el : option SmFailed) = Some e ->
  elementXmlTag el = ("failed", ns_stream_management).
Proof. unfold fromDom, SmFailed_xml. by case_decide. Qed.
Lemma resumed_tag el e : (fromDom el : option SmResumed) = Some e ->
  elementXmlTag el = ("resumed", ns_stream_management).
Proof. unfold fromDom, SmResumed_xml. by case_decide. Qed.
Lemma failed_not_resumed el e : (fromDom el : option SmFailed) = Some e ->
  (fromDom el : option SmResumed) = None.
Proof.
  intros Hf. destruct (fromDom el : option SmResumed) eqn:Hr; [|done].
  apply failed_tag in Hf. apply resumed_tag in Hr. congruence.
Qed.
Lemma failed_not_enabled el e : (fromDom el : option SmFailed) = Some e ->
  (fromDom el : option SmEnabled) = None.
Proof.
  intros Hf. destruct (fromDom el : option SmEnabled) eqn:Hr; [|done].
  apply failed_tag in Hf. apply enabled_tag in Hr. congruence.
Qed.

(** Open and quiet: a session with these flags has been reported. *)
Definition opened (c : OutgoingClient) (before : list Signal) (sm resumed : bool) : Prop :=
  sessionStarted c = true /\ assertionsHold c = true /\ acceptInput c = true /\ listener c = LClient /\
  m_request (c2s c) = NoRequest /\
  signals c = before ++ [SigConnected {| smEnabled := sm; smResumed := resumed |}].
(** Closing without a session, for an error that has been reported. *)
Definition refused (c : OutgoingClient) (before : list Signal) (s : Signal) : Prop :=
  sessionStarted c = false /\ assertionsHold c = true /\ acceptInput c = false /\ signals c = before ++ [s].

(** No session yet. *)
Definition fresh (c : OutgoingClient) : Prop := sessionStarted c = false /\ assertionsHold c = true.
(** Waiting for the answer to <enable/> with stream management off. *)
Definition enabling (c : OutgoingClient) (before : list Signal) : Prop :=
  fresh c /\ acceptInput c = true /\ listener c = LClient /\ m_request (c2s c) = EnableRequest /\
  c2s_enabled (c2s c) = false /\ m_streamResumed (c2s c) = false /\ signals c = before.

Lemma onEnabled_frame e c : let c' := onEnabled e c in
  c2s_enabled (c2s c') = true /\ m_streamResumed (c2s c') = m_streamResumed (c2s c) /\
  m_request (c2s c') = m_request (c2s c) /\ signals c' = signals c /\
  listener c' = listener c /\ acceptInput c' = acceptInput c /\
  (fresh c -> fresh c') /\ address c' = address c /\ resource c' = resource c.
Proof.
  unfold onEnabled, setResumeAddress, fresh. destruct (ed_resume e && _); [|done].
  destruct (parseHostAddress _) as [host port]. by case_decide.
Qed.

Lemma openSession_frame c : fresh c -> let c' := openSession c in
  sessionStarted c' = true /\ assertionsHold c' = true /\ acceptInput c' = acceptInput c /\
  listener c' = listener c /\ c2s c' = c2s c /\
  signals c' = signals c ++
    [SigConnected {| smEnabled := c2s_enabled (c2s c); smResumed := m_streamResumed (c2s c) |}] /\
  address c' = address c /\ resource c' = resource c.
Proof. intros [Hs Ha]. split_and!; try done. simpl. by rewrite Hs, Ha. Qed.

(** The request for stream management answered, one way or the other. *)
Lemma enable_answered c before el (sm : bool) : enabling c before -> handledByExtension el = false ->
  (if sm then is_Some (fromDom el : option SmEnabled) else is_Some (fromDom el : option SmFailed)) ->
  let c' := handlePacketReceived (InElement el) c in
  opened c' before sm false /\ address c' = address c /\ resource c' = resource c.
Proof.
  intros (Hfr & Ha & Hl & Hr & He & Hs & Hsig) Hx Hel.
  assert (exists tag, elementXmlTag el = (tag, ns_stream_management) /\
    tag <> "a" /\ tag <> "r" /\ tag <> "iq") as (tag & Ht & ? & ? & ?).
  { destruct sm, Hel as [e Hel]; [apply enabled_tag in Hel|apply failed_tag in Hel]; by eexists. }
  apply (f_equal snd) in Ht as Hns. simpl in Hns.
  unfold handlePacketReceived. rewrite Ha, Hl. cbn [negb handleElement].
  rewrite (sm_element_passes el _ tag Ht), Hx, decide_False by (done || by rewrite Hns).
  unfold hasOngoingRequest, c2s_handleElement. cbn. rewrite Hr, bool_decide_eq_false_2 by done. cbn.
  destruct sm, Hel as [e Hel].
  - rewrite Hel. cbn. rewrite decide_False by done.
    match goal with |- context [onEnabled e ?x] => set (c1 := x) end.
    destruct (onEnabled_frame e c1) as (E1 & E2 & E3 & E4 & E5 & E6 & E7 & E8 & E9).
    destruct (openSession_frame (onEnabled e c1)) as (O1 & O2 & O3 & O4 & O5 & O6 & O7 & O8); [by apply E7|].
    split; [|by rewrite O7, O8, E8, E9].
    split_and!; [done|done|by rewrite O3, E6|by rewrite O4, E5|by rewrite O5, E3|].
    rewrite O6, E1, E2, E4. simpl. by rewrite Hsig, Hs.
  - rewrite (failed_not_enabled _ _ Hel), Hel. cbn. rewrite decide_False by done.
    match goal with |- context [openSession ?x] => set (c1 := x) end.
    destruct (openSession_frame c1) as (O1 & O2 & O3 & O4 & O5 & O6 & O7 & O8); [exact Hfr|].
    split; [|by rewrite O7, O8].
    split_and!; [done|done|by rewrite O3|by rewrite O4|by rewrite O5|].
    rewrite O6. simpl. by rewrite Hsig, He, Hs.
Qed.

(** Waiting for the address with stream management off. *)
Definition binding (c : OutgoingClient) (id : string) (before : list Signal) : Prop :=
  fresh c /\ acceptInput c = true /\ listener c = LBind id /\ m_request (c2s c) = NoRequest /\
  c2s_enabled (c2s c) = false /\ m_streamResumed (c2s c) = false /\ signals c = before.

Lemma append_empty (s : string) : s +:+ "" = s.
Proof. induction s as [|a s IH]; [done|]. apply (f_equal (String a) IH). Qed.

(** An answer of the server to the binding request [id]. *)
Definition bound_iq (id jid : string) : Dom :=
  Elem "iq" ns_client [("id", id); ("type", "result")]
    [Elem "bind" ns_bind [] [Elem "jid" ns_bind [] [Text jid]]].

(** What BindManager takes for the answer to the request [id]. *)
Definition bind_answer (id : string) (el : Dom) : Prop :=
  tagName el = "iq" /\ elementXmlTag (firstChildElement el "" "") = ("bind", ns_bind) /\
  attribute el "id" = id.
Lemma bound_iq_answer id jid u d r : jidRegex jid = Some (u, d, r) ->
  bind_answer id (bound_iq id jid) /\ bindResult (bound_iq id jid) = BoundAddress u d r.
Proof.
  intros Hj. split; [by split_and!|]. unfold bindResult.
  assert (attribute (bound_iq id jid) "type" = "result") as -> by reflexivity.
  assert (bind_jid (firstChildElement (bound_iq id jid) "" "") = Some jid) as ->.
  { transitivity (Some (jid +:+ "")); [reflexivity|]. by rewrite append_empty. }
  rewrite decide_True by done. destruct (decide (jid = "")) as [->|_]; [done|]. by rewrite Hj.
Qed.

Lemma bind_answered c id before el : binding c id before -> bind_answer id el ->
  let c' := handlePacketReceived (InElement el) c in
  match bindResult el with
  | BoundAddress u d r =>
      (if m_smAvailable (c2s c) then enabling c' before else opened c' before false false) /\
      address c' = (u, d) /\ resource c' = r
  | ProtocolError text => refused c' before (SigError ("Resource binding failed: " +:+ text))
  | BindStanzaError e => refused c' before (SigBindError e)
  end.
Proof.
  intros ([Hst Has] & Ha & Hl & Hr & He & Hs & Hsig) (Ht & Hb & Hi). cbv zeta.
  unfold handlePacketReceived. rewrite Ha, Hl. cbn [negb]. unfold bind_handleElement.
  rewrite Ht, Hb, Hi, !bool_decide_eq_true_2 by done. cbn [andb].
  destruct (bindResult el) as [u d r|e|text]; unfold afterBind, canRequestEnable; cbn.
  - rewrite He. destruct (m_smAvailable (c2s c)) eqn:Hav; cbn.
    + unfold startSmEnable, requestEnable, assert, hasOngoingRequest. cbn. rewrite Hr, Has. cbn.
      rewrite Hst. by split_and!.
    + rewrite Hl. cbn. unfold opened. cbn. by rewrite Hsig, Hs, He, Hst, Has.
  - rewrite Hl. cbn. unfold refused. cbn. by rewrite Hsig.
  - rewrite Hl. cbn. unfold refused. cbn. by rewrite Hsig.
Qed.

(** Waiting for the answer to <resume/>. *)
Definition resuming (c : OutgoingClient) (before : list Signal) : Prop :=
  fresh c /\ acceptInput c = true /\ listener c = LC2s /\ m_request (c2s c) = ResumeRequest /\
  c2s_enabled (c2s c) = false /\ m_streamResumed (c2s c) = false /\
  bindModeAvailable c = true /\ signals c = before.

Lemma resume_answered c before el (ok : bool) : resuming c before ->
  (if ok then is_Some (fromDom el : option SmResumed) else is_Some (fromDom el : option SmFailed)) ->
  let c' := handlePacketReceived (InElement el) c in
  if ok then opened c' before true true
  else binding c' (Random.generateSequentialStanzaId (idCounter c)).1 before /\
       m_smAvailable (c2s c') = m_smAvailable (c2s c).
Proof.
  intros ([Hst Has] & Ha & Hl & Hr & He & Hs & Hb & Hsig) Hel.
  unfold handlePacketReceived. rewrite Ha, Hl. cbn [negb]. unfold c2s_handleElement. rewrite Hr.
  destruct ok, Hel as [e Hel].
  - rewrite Hel. unfold afterResume. cbn. rewrite Hl. cbn. unfold opened. cbn. by rewrite Hsig, Hst, Has.
  - rewrite (failed_not_resumed _ _ Hel), Hel. unfold afterResume. cbn. rewrite Hs, Hb. cbn.
    by split_and!.
Qed.

(** The features of an authenticated stream. *)
Lemma features_handled c (sm : bool) : fresh c -> let c0 := handleStart c in
  let c' := handlePacketReceived (InFeatures true sm) c0 in
  if sm && m_canResume (c2s c) then
    resuming c' (signals c) /\ idCounter c' = idCounter c /\ m_smAvailable (c2s c') = sm
  else
    binding c' (Random.generateSequentialStanzaId (idCounter c)).1 (signals c) /\
    m_smAvailable (c2s c') = sm.
Proof.
  intros [Hst Has]. unfold handlePacketReceived, handleStart, handleStreamFeatures, canRequestResume.
  cbn. destruct sm; cbn; [|by split_and!].
  unfold handleStreamFeatures, canRequestResume.
  cbn. destruct (m_canResume (c2s c)); by split_and!.
Qed.

(** The outcome of the answer [el] to the binding request, with stream management as [sm]. *)
Definition bound_as (el : Dom) (before : list Signal) (sm : bool) (c : OutgoingClient) : Prop :=
  match bindResult el with
  | BoundAddress u d r => opened c before sm false /\ address c = (u, d) /\ resource c = r
  | ProtocolError text => refused c before (SigError ("Resource binding failed: " +:+ text))
  | BindStanzaError e => refused c before (SigBindError e)
  end.

Lemma binding_handled c id before (sm r3 : bool) el2 el3 :
  binding c id before -> m_smAvailable (c2s c) = sm -> bind_answer id el2 ->
  handledByExtension el3 = false ->
  (if r3 then is_Some (fromDom el3 : option SmEnabled) else is_Some (fromDom el3 : option SmFailed)) ->
  bound_as el2 before (sm && r3)
    (client_run (map (fun el => EIncoming (InElement el)) (el2 :: (if sm then [el3] else []))) c).
Proof.
  intros Hb Hsm Hj Hx Hel. pose proof (bind_answered c id before el2 Hb Hj) as Hc. cbv zeta in Hc.
  unfold bound_as. rewrite Hsm in Hc. destruct sm; cbn [map client_run foldl client_step andb]; [|done].
  set (c1 := handlePacketReceived (InElement el2) c) in *. clearbody c1.
  assert (acceptInput c1 = false -> handlePacketReceived (InElement el3) c1 = c1) as Hstop
    by (intros E; unfold handlePacketReceived; by rewrite E).
  destruct (bindResult el2) as [u d r|e|text].
  - destruct Hc as (Hen & Had & Hre). destruct (enable_answered _ _ _ r3 Hen Hx Hel) as (Ho & Ea & Er).
    split_and!; [exact Ho|by rewrite Ea|by rewrite Er].
  - rewrite Hstop; [exact Hc|apply Hc].
  - rewrite Hstop; [exact Hc|apply Hc].
Qed.

(** C28: Let a client without an open session negotiate an authenticated stream that offers
    resource binding, let the server answer a request to resume with <resumed/> or <failed/>, the
    binding request with an IQ of its id with a <bind/>, and the request to enable stream
    management with <enabled/> or <failed/> (which no extension takes away). Then exactly one
    session is opened, reported as resumed exactly when the server resumed it, and as having
    stream management exactly when it was resumed or enabled, and else bound to the address of
    the answer; or, if that is an error or names no full address, the error is reported and the
    stream closed without a session. No assertion fails. *)
Theorem client_negotiates (c : OutgoingClient) (sm r1 r3 : bool) (el1 el2 el3 : Dom) :
  let asks := sm && m_canResume (c2s c) in
  let id := (Random.generateSequentialStanzaId (idCounter c)).1 in
  sessionStarted c = false -> assertionsHold c = true ->
  (if r1 then is_Some (fromDom el1 : option SmResumed) else is_Some (fromDom el1 : option SmFailed)) ->
  bind_answer id el2 ->
  (if r3 then is_Some (fromDom el3 : option SmEnabled) else is_Some (fromDom el3 : option SmFailed)) ->
  handledByExtension el3 = false ->
  let answers :=
    (if asks then [el1] else []) ++ (if asks && r1 then [] else el2 :: (if sm then [el3] else [])) in
  let c' := client_run (EStart :: EIncoming (InFeatures true sm) ::
              map (fun el => EIncoming (InElement el)) answers) c in
  if asks && r1 then opened c' (signals c) true true
  else bound_as el2 (signals c) (sm && r3) c'.
Proof.
  intros asks id Hst Has H1 H2 H3 Hx answers. subst asks id answers.
  pose proof (features_handled c sm (conj Hst Has)) as Hf. cbv zeta in Hf.
  cbn [client_run foldl client_step].
  set (c1 := handlePacketReceived (InFeatures true sm) (handleStart c)) in *.
  destruct (sm && m_canResume (c2s c)) eqn:Hask; cbn [andb app].
  - destruct Hf as (Hres & Hid & Hav).
    pose proof (resume_answered c1 _ el1 r1 Hres H1) as Ha. cbv zeta in Ha.
    cbn [map foldl client_step]. destruct r1; cbn [map foldl]; [exact Ha|].
    destruct Ha as [Hb Hav']. rewrite Hid in Hb.
    exact (binding_handled _ _ _ sm r3 el2 el3 Hb (eq_trans Hav' Hav) H2 Hx H3).
  - destruct Hf as [Hb Hav].
    exact (binding_handled _ _ _ sm r3 el2 el3 Hb Hav H2 Hx H3).
Qed.

(** an error response to resource binding that does not repeat the request
    is not taken as the answer: the stream is closed for an unexpected
    element, and no binding error is reported. *)
Theorem client_bind_error_unexpected (c : OutgoingClient) (id : string) (before : list Signal)
    (err : Dom) :
  binding c id before -> elementXmlTag err = ("error", ns_client) ->
  let el := Elem "iq" ns_client [("id", id); ("type", "error")] [err] in
  let c' := handlePacketReceived (InElement el) c in
  signals c' = before ++
    [SigError "Unexpected element received while handling resource binding."] /\
  acceptInput c' = false.
Proof.
  intros (_ & Ha & Hl & Hr & He & Hs & Hsig) Herr el c'. subst c'.
  unfold handlePacketReceived. rewrite Ha, Hl. cbn [negb]. unfold bind_handleElement.
  assert (firstChildElement el "" "" = err) as ->.
  { unfold el, firstChildElement. cbn. unfold child_matches. destruct err; [|done].
    cbn. done. }
  rewrite Herr, (bool_decide_eq_false_2 (("error", ns_client) = ("bind", ns_bind))) by done.
  rewrite andb_false_r. cbn. rewrite Hl. cbn. by rewrite Hsig.
Qed.

Lemma acks_sack s o : acks (stream_op s (SAck o)) = sm_op (acks s) o.
Proof. done. Qed.

(** a redirection during a session disconnects the socket without closing
    the session: on the new stream the session still counts as started and
    the ack manager as enabled, so that a stanza sent before the stream is
    resumed is written to it and kept for an acknowledgement. *)
Theorem client_redirect_keeps_session (c : OutgoingClient) (host : string) (port : Z)
    (p : QXmppPacket) :
  acceptInput c = true -> listener c = LClient -> sessionStarted c = true ->
  m_enabled (acks (stream c)) = true ->
  isConnected (socket (acks (stream c))) = true -> m_isXmppStanza p = true ->
  let c' := client_run [EIncoming (InStreamError (Some (host, port)) ""); EDisconnected; EStart] c in
  sessionStarted c' = true /\ signals c' = signals c /\ c2s_enabled (c2s c') = false /\
  let m := acks (stream c') in
  m_enabled m = true /\
  m_data p ∈ written (socket (Sm.send p m)).
Proof.
  intros Ha Hl Hs Hen Hup Hp. unfold client_run. cbn [foldl client_step].
  unfold handlePacketReceived. rewrite Ha, Hl. cbn [negb handleElement handleStreamError].
  unfold handleSocketDisconnected. cbn. rewrite acks_sack. split_and!; try done.
  destruct (acks (stream c)) as [en un lo li [up w] rs]. cbn in *. subst.
  unfold Sm.send, Sm.internalSend, Sm.enqueue, sendData. cbn. rewrite Hp. cbn. set_solver.
Qed.
End Client.

(** ** Witnesses *)

Definition no_address (a : string) : string * Z := ("", -1).
Definition no_extension (el : Dom) : bool := false.
Definition stanza_packet (n : nat) : QXmppPacket :=
  {| m_promise := n; m_data := Elem "message" ns_client [] []; m_isXmppStanza := true |}.
Definition enabled_el : Dom :=
  serializeXml (toXml {| ed_resume := true; ed_id := "sm1"; ed_max := 0; ed_location := "" |}).
Definition resumed_el (h : Z) : Dom := serializeXml (toXml {| rd_h := h; rd_previd := "sm1" |}).
Definition failed_el : Dom := serializeXml (toXml {| fa_error := Some ItemNotFound |}).

Lemma client_negotiates_witness :
  opened (client_run no_address no_extension
    [EStart; EIncoming (InFeatures true true);
     EIncoming (InElement (bound_iq "qx1" "juliet@capulet.lit/balcony"));
     EIncoming (InElement enabled_el)] newClient) [] true false.
Proof.
  pose proof (client_negotiates no_address no_extension newClient true false true failed_el
    (bound_iq "qx1" "juliet@capulet.lit/balcony") enabled_el eq_refl eq_refl) as Hn. cbv zeta in Hn.
  apply Hn; by (done || eexists).
Defined.

(** A session that is resumed after the connection broke: what the server did
    not handle is sent again. *)
Definition session_events : list ClientEvent :=
  [EStart; EIncoming (InFeatures true true);
   EIncoming (InElement (bound_iq "qx1" "juliet@capulet.lit/balcony"));
   EIncoming (InElement enabled_el);
   ESend (SPacket (Elem "message" ns_client [("id", "m1")] []) true);
   ESend (SPacket (Elem "message" ns_client [("id", "m2")] []) true);
   EDisconnected; EStart; EIncoming (InFeatures true true);
   EIncoming (InElement (resumed_el 1))].

Example session_resumed :
  let c := client_run no_address no_extension session_events newClient in
  signals c = [SigConnected {| smEnabled := true; smResumed := false |}; SigDisconnected true;
               SigConnected {| smEnabled := true; smResumed := true |}] /\
  map (fun el => (tagName el, attribute el "id")) (drop 7 (written (socket (acks (stream c))))) =
    [("", ""); ("resume", ""); ("message", "m2"); ("r", "")].
Proof. by vm_compute. Qed.

Lemma client_bind_error_unexpected_witness :
  let c := client_run no_address no_extension
             [EStart; EIncoming (InFeatures true true)] newClient in
  signals (handlePacketReceived no_address no_extension (InElement (Elem "iq" ns_client
    [("id", "qx1"); ("type", "error")] [Elem "error" ns_client [("type", "cancel")] []])) c) =
  [SigError "Unexpected element received while handling resource binding."].
Proof.
  intros c. apply (client_bind_error_unexpected no_address no_extension c "qx1" []
    (Elem "error" ns_client [("type", "cancel")] [])); by vm_compute.
Defined.

Lemma client_redirect_keeps_session_witness :
  let c := client_run no_address no_extension
    [EStart; EIncoming (InFeatures true true);
     EIncoming (InElement (bound_iq "qx1" "juliet@capulet.lit/balcony"));
     EIncoming (InElement enabled_el)] newClient in
  sessionStarted (client_run no_address no_extension
    [EIncoming (InStreamError (Some ("other.lit", 5222)) ""); EDisconnected; EStart] c) = true.
Proof.
  intros c. apply (client_redirect_keeps_session no_address no_extension c "other.lit" 5222
    (stanza_packet 9)); by vm_compute.
Defined.
