(* ===== verification/Socks.v ===== *)
(** * SOCKS5 (src/src/base/QXmppSocks.cpp)

    QXmppSocksClient and one connection of QXmppSocksServer: the encoding of a
    host and port, and the handshake of both sides. A socket is its unread
    input and the data written to it; each arrival of data calls
    slotReadyRead once, with whatever has arrived. *)
From S2P Require Import Prelude DataStream.

Definition SocksVersion : Z := 5.
Definition NoAuthentication : Z := 0.
Definition NoAcceptableMethod : Z := 255.
Definition ConnectCommand : Z := 1.
Definition DomainName : Z := 3.
Definition Succeeded : Z := 0.

Inductive SocksState := ConnectState | CommandState | ReadyState.
#[export] Instance SocksState_eq_dec : EqDecision SocksState.
Proof. solve_decision. Defined.

(** ** Host and port *)

(** The length is a quint8; writeRawData writes that many bytes of the host. *)
Definition encodeHostAndPort (type : Z) (host : bytes) (port : Z) : bytes :=
  let hostLength := u8 (len host) in
  w8 type ++ w8 hostLength ++ left hostLength host ++ w16 port.

(** The type, host and port, and the stream after them. *)
Definition parseHostAndPort (stream : ReadStream) : option (Z * bytes * Z) * ReadStream :=
  let '(type, stream) := readUInt 1 stream in
  let '(hostLength, stream) := readUInt 1 stream in
  if negb (rs_ok stream) then (None, stream)
  else
    let '(host, stream) := readBlock hostLength stream in
    if negb (len host =? hostLength) then (None, stream)
    else
      let '(port, stream) := readUInt 2 stream in
      (if rs_ok stream then Some (type, host, port) else None, stream).

(** ** Sockets *)

Record TcpSocket := { input : bytes; output : list bytes; is_open : bool }.
#[export] Instance TcpSocket_eta : Eta TcpSocket := fun r =>
  {| input := input r; output := output r; is_open := is_open r |}.
Definition newSocket : TcpSocket := {| input := []; output := []; is_open := true |}.

Definition write (data : bytes) (s : TcpSocket) : TcpSocket :=
  s <| output ::= (fun o => o ++ [data]) |>.
Definition close (s : TcpSocket) : TcpSocket := s <| is_open := false |> <| input := [] |>.
(** [buffer.at(i)] is a signed char. *)
Definition at_ (buffer : bytes) (i : nat) : Z := i8 (nth i buffer 0).

(** ** QXmppSocksClient *)

Record SocksClient := {
  c_socket : TcpSocket;
  m_hostName : bytes;               (* hostName.toLatin1() *)
  m_hostPort : Z;
  m_step : SocksState;
  c_listening : bool;               (* readyRead is connected *)
  c_ready : bool;                   (* ready() was emitted *)
}.
#[export] Instance SocksClient_eta : Eta SocksClient := fun r =>
  {| c_socket := c_socket r; m_hostName := m_hostName r; m_hostPort := m_hostPort r;
     m_step := m_step r; c_listening := c_listening r; c_ready := c_ready r |}.

Module SocksClient.

Definition connectToHost (hostName : bytes) (hostPort : Z) : SocksClient :=
  {| c_socket := newSocket; m_hostName := hostName; m_hostPort := hostPort;
     m_step := ConnectState; c_listening := true; c_ready := false |}.

Definition slotConnected (c : SocksClient) : SocksClient :=
  c <| m_step := ConnectState |>
    <| c_socket ::= write [SocksVersion; 1; NoAuthentication] |>.

Definition slotReadyRead (c : SocksClient) : SocksClient :=
  match m_step c with
  | ConnectState =>
      let buffer := input (c_socket c) in
      let c := c <| c_socket ::= (fun s => s <| input := [] |>) |> in
      if negb (len buffer =? 2) || negb (at_ buffer 0 =? SocksVersion)
         || negb (at_ buffer 1 =? NoAuthentication)
      then c <| c_socket ::= close |>
      else
        c <| m_step := CommandState |>
          <| c_socket ::= write ([SocksVersion; ConnectCommand; 0]
               ++ encodeHostAndPort DomainName (m_hostName c) (m_hostPort c)) |>
  | CommandState =>
      let c := c <| c_listening := false |> in
      let buffer := left 3 (input (c_socket c)) in
      let c := c <| c_socket ::= (fun s => s <| input ::= mid 3 |>) |> in
      if negb (len buffer =? 3) || negb (at_ buffer 0 =? SocksVersion)
         || negb (at_ buffer 1 =? Succeeded) || negb (at_ buffer 2 =? 0)
      then c <| c_socket ::= close |>
      else
        let '(parsed, stream) := parseHostAndPort (open_stream (input (c_socket c))) in
        let c := c <| c_socket ::= (fun s => s <| input := rs_rest stream |>) |> in
        match parsed with
        | None => c <| c_socket ::= close |>
        | Some _ => c <| m_step := ReadyState |> <| c_ready := true |>
        end
  | ReadyState => c
  end.

(** Data arrives. *)
Definition receive (data : bytes) (c : SocksClient) : SocksClient :=
  if negb (is_open (c_socket c)) then c
  else
    let c := c <| c_socket ::= (fun s => s <| input ::= (fun i => i ++ data) |>) |> in
    if c_listening c then slotReadyRead c else c.

End SocksClient.

(** ** One connection of QXmppSocksServer *)

Record SocksServer := {
  s_socket : TcpSocket;
  m_state : SocksState;             (* m_states.value(socket) *)
  s_listening : bool;
  newConnection : option (bytes * Z);
}.
#[export] Instance SocksServer_eta : Eta SocksServer := fun r =>
  {| s_socket := s_socket r; m_state := m_state r; s_listening := s_listening r;
     newConnection := newConnection r |}.

Module SocksServer.

Definition slotNewConnection : SocksServer :=
  {| s_socket := newSocket; m_state := ConnectState; s_listening := true; newConnection := None |}.

Definition foundMethod (buffer : bytes) : bool :=
  existsb (fun i => at_ buffer i =? NoAuthentication) (seq 2 (length buffer - 2)).

Definition slotReadyRead (c : SocksServer) : SocksServer :=
  match m_state c with
  | ConnectState =>
      let buffer := input (s_socket c) in
      let c := c <| s_socket ::= (fun s => s <| input := [] |>) |> in
      if (len buffer <? 3) || negb (at_ buffer 0 =? SocksVersion)
         || negb (at_ buffer 1 + 2 =? len buffer)
      then c <| s_socket ::= close |>
      else if negb (foundMethod buffer) then
        c <| s_socket ::= write [SocksVersion; NoAcceptableMethod] |> <| s_socket ::= close |>
      else
        c <| m_state := CommandState |>
          <| s_socket ::= write [SocksVersion; NoAuthentication] |>
  | CommandState =>
      let c := c <| s_listening := false |> in
      let buffer := left 3 (input (s_socket c)) in
      let c := c <| s_socket ::= (fun s => s <| input ::= mid 3 |>) |> in
      if negb (len buffer =? 3) || negb (at_ buffer 0 =? SocksVersion)
         || negb (at_ buffer 1 =? ConnectCommand) || negb (at_ buffer 2 =? 0)
      then c <| s_socket ::= close |>
      else
        let '(parsed, stream) := parseHostAndPort (open_stream (input (s_socket c))) in
        let c := c <| s_socket ::= (fun s => s <| input := rs_rest stream |>) |> in
        match parsed with
        | None => c <| s_socket ::= close |>
        | Some (_, hostName, hostPort) =>
            c <| m_state := ReadyState |> <| newConnection := Some (hostName, hostPort) |>
              <| s_socket ::= write ([SocksVersion; Succeeded; 0]
                   ++ encodeHostAndPort DomainName hostName hostPort) |>
        end
  | ReadyState => c
  end.

Definition receive (data : bytes) (c : SocksServer) : SocksServer :=
  if negb (is_open (s_socket c)) then c
  else
    let c := c <| s_socket ::= (fun s => s <| input ::= (fun i => i ++ data) |>) |> in
    if s_listening c then slotReadyRead c else c.

Definition run (chunks : list bytes) (c : SocksServer) : SocksServer :=
  foldl (fun c d => receive d c) c chunks.

End SocksServer.

(** ** Encoding *)

Lemma host_port_roundtrip type host port rest ok :
  byte_ok type -> len host <= 255 -> 0 <= port < 65536 ->
  parseHostAndPort (mkReadStream (encodeHostAndPort type host port ++ rest) ok) =
  if ok then (Some (type, host, port), mkReadStream rest true)
  else (None, mkReadStream (left (len host) host ++ w16 port ++ rest) false).
Proof.
  intros Ht Hh Hp. unfold parseHostAndPort, encodeHostAndPort, w8, w16, u8.
  pose proof (len_nonneg host). rewrite uwrap_small by lia.
  rewrite <-!app_assoc, !readUInt_app by (unfold byte_ok in *; lia). cbn [rs_ok].
  destruct ok; cbn [negb]; [|done].
  unfold readBlock. cbn [rs_rest rs_ok]. rewrite (left_all host) by lia.
  rewrite left_app, mid_app, Z.eqb_refl by done. cbn [negb].
  rewrite len_app. pose proof (len_nonneg (be 2 port ++ rest)).
  rewrite (proj2 (Z.leb_le _ _)) by lia. cbn [andb].
  rewrite readUInt_app by lia. done.
Qed.

(** ** The messages of the handshake *)

Lemma parse_encoded host port : len host <= 255 -> 0 <= port < 65536 ->
  parseHostAndPort (open_stream (encodeHostAndPort DomainName host port)) =
  (Some (DomainName, host, port), mkReadStream [] true).
Proof.
  intros Hh Hp. pose proof (host_port_roundtrip DomainName host port [] true) as H.
  rewrite app_nil_r in H. apply H; [done|done|done].
Qed.

(** Three bytes and what follows. *)
Lemma left_3 a b c (l : bytes) : left 3 (a :: b :: c :: l) = [a; b; c].
Proof. done. Qed.
Lemma mid_3 a b c (l : bytes) : mid 3 (a :: b :: c :: l) = l.
Proof. done. Qed.

Lemma server_connect (o : list bytes) :
  SocksServer.receive [SocksVersion; 1; NoAuthentication]
    {| s_socket := {| input := []; output := o; is_open := true |}; m_state := ConnectState;
       s_listening := true; newConnection := None |} =
  {| s_socket := {| input := []; output := o ++ [[SocksVersion; NoAuthentication]]; is_open := true |};
     m_state := CommandState; s_listening := true; newConnection := None |}.
Proof. done. Qed.

Lemma client_command host port (o : list bytes) :
  SocksClient.receive [SocksVersion; NoAuthentication]
    {| c_socket := {| input := []; output := o; is_open := true |}; m_hostName := host;
       m_hostPort := port; m_step := ConnectState; c_listening := true; c_ready := false |} =
  {| c_socket := {| input := []; output := o ++ [[SocksVersion; ConnectCommand; 0] ++
       encodeHostAndPort DomainName host port]; is_open := true |}; m_hostName := host;
     m_hostPort := port; m_step := CommandState; c_listening := true; c_ready := false |}.
Proof. done. Qed.

Lemma server_command host port (o : list bytes) : len host <= 255 -> 0 <= port < 65536 ->
  SocksServer.receive ([SocksVersion; ConnectCommand; 0] ++ encodeHostAndPort DomainName host port)
    {| s_socket := {| input := []; output := o; is_open := true |}; m_state := CommandState;
       s_listening := true; newConnection := None |} =
  {| s_socket := {| input := []; output := o ++ [[SocksVersion; Succeeded; 0] ++
       encodeHostAndPort DomainName host port]; is_open := true |};
     m_state := ReadyState; s_listening := false; newConnection := Some (host, port) |}.
Proof.
  intros Hh Hp. pose proof (parse_encoded host port Hh Hp) as Hparse.
  unfold SocksServer.receive, SocksServer.slotReadyRead.
  cbn [s_socket is_open input negb upd m_state s_listening TcpSocket_eta SocksServer_eta app].
  set (enc := encodeHostAndPort DomainName host port) in *.
  cbn [upd s_socket is_open input output m_state s_listening newConnection].
  rewrite left_3, mid_3. rewrite Hparse. done.
Qed.

Lemma client_ready host port (o : list bytes) : len host <= 255 -> 0 <= port < 65536 ->
  SocksClient.receive ([SocksVersion; Succeeded; 0] ++ encodeHostAndPort DomainName host port)
    {| c_socket := {| input := []; output := o; is_open := true |}; m_hostName := host;
       m_hostPort := port; m_step := CommandState; c_listening := true; c_ready := false |} =
  {| c_socket := {| input := []; output := o; is_open := true |}; m_hostName := host;
     m_hostPort := port; m_step := ReadyState; c_listening := false; c_ready := true |}.
Proof.
  intros Hh Hp. pose proof (parse_encoded host port Hh Hp) as Hparse.
  unfold SocksClient.receive, SocksClient.slotReadyRead.
  set (enc := encodeHostAndPort DomainName host port) in *.
  cbn [upd c_socket is_open input output m_step c_listening negb app].
  rewrite left_3, mid_3, Hparse. done.
Qed.

(** ** Theorems *)

(** a client and a server whose messages arrive whole complete the
    handshake: the client becomes ready and the server announces the host and
    port the client asked for, for names of up to 255 bytes. *)
Theorem socks_handshake (host : bytes) (port : Z) :
  len host <= 255 -> 0 <= port < 65536 ->
  let c0 := SocksClient.slotConnected (SocksClient.connectToHost host port) in
  let s1 := SocksServer.receive (nth 0 (output (c_socket c0)) []) SocksServer.slotNewConnection in
  let c1 := SocksClient.receive (nth 0 (output (s_socket s1)) []) c0 in
  let s2 := SocksServer.receive (nth 1 (output (c_socket c1)) []) s1 in
  let c2 := SocksClient.receive (nth 1 (output (s_socket s2)) []) c1 in
  newConnection s2 = Some (host, port) /\ m_state s2 = ReadyState /\
  m_step c2 = ReadyState /\ c_ready c2 = true /\
  is_open (c_socket c2) = true /\ is_open (s_socket s2) = true.
Proof.
  intros Hh Hp c0 s1 c1 s2 c2.
  assert (s1 = {| s_socket := {| input := []; output := [[SocksVersion; NoAuthentication]];
    is_open := true |}; m_state := CommandState; s_listening := true; newConnection := None |})
    as Hs1 by apply (server_connect []).
  assert (c1 = {| c_socket := {| input := []; output := [[SocksVersion; 1; NoAuthentication];
     [SocksVersion; ConnectCommand; 0] ++ encodeHostAndPort DomainName host port];
     is_open := true |}; m_hostName := host; m_hostPort := port; m_step := CommandState;
     c_listening := true; c_ready := false |}) as Hc1.
  { unfold c1. rewrite Hs1. apply (client_command host port [[SocksVersion; 1; NoAuthentication]]). }
  pose proof (server_command host port [[SocksVersion; NoAuthentication]] Hh Hp) as Hs2.
  assert (c2 = SocksClient.receive ([SocksVersion; Succeeded; 0] ++
    encodeHostAndPort DomainName host port) c1) as Hc2.
  { unfold c2, s2. rewrite Hs1, Hc1. cbn [c_socket output nth]. by rewrite Hs2. }
  unfold s2. rewrite Hc2, Hc1, Hs1. cbn [c_socket output nth].
  rewrite Hs2, client_ready by done. done.
Qed.

Lemma socks_handshake_witness :
  newConnection (SocksServer.run
    [[5; 1; 0]; [5; 1; 0] ++ encodeHostAndPort DomainName (latin1 "xmpp.example") 7777]
    SocksServer.slotNewConnection) = Some (latin1 "xmpp.example", 7777).
Proof. apply (socks_handshake (latin1 "xmpp.example") 7777); [by vm_compute|lia]. Defined.

(** A greeting the server accepts: the version, the number of methods and the
    methods, no authentication among them. *)
Definition greeting (buffer : bytes) : Prop :=
  exists methods, buffer = SocksVersion :: len methods :: methods /\
    len methods <= 127 /\ NoAuthentication ∈ methods.

Lemma i8_byte b : byte_ok b -> i8 b = if b <? 128 then b else b - 256.
Proof.
  intros Hb. unfold i8, iwrap, byte_ok in *. rewrite uwrap_small by lia.
  change (2 ^ (8 - 1)) with 128. change (2 ^ 8) with 256. done.
Qed.

(** What is parsed was encoded. *)
Lemma parse_sound data type host port stream : bytes_ok data ->
  parseHostAndPort (open_stream data) = (Some (type, host, port), stream) ->
  data = encodeHostAndPort type host port ++ rs_rest stream.
Proof.
  intros Hd. unfold parseHostAndPort, open_stream.
  destruct data as [|t [|n data]]; [done|done|].
  inversion_clear Hd as [|? ? Ht Hd']. inversion_clear Hd' as [|? ? Hn Hd].
  pose proof (readUInt_app 1 t (n :: data) true Ht) as H1.
  pose proof (be_1 t Ht) as Ht1. pose proof (be_1 n Hn) as Hn1.
  rewrite Ht1 in H1. cbn [app] in H1. rewrite H1.
  pose proof (readUInt_app 1 n data true Hn) as H2. rewrite Hn1 in H2. cbn [app] in H2. rewrite H2.
  cbn [rs_ok negb]. unfold readBlock. cbn [rs_rest rs_ok andb].
  destruct (len (left n data) =? n) eqn:Hlen; [|done]. cbn [negb]. bools.
  unfold byte_ok in Hn. rewrite len_left in Hlen by lia.
  rewrite (proj2 (Z.leb_le _ _)) by lia.
  unfold readUInt, readBlock. cbn [rs_rest rs_ok andb].
  destruct (Z.leb_spec (Z.of_nat 2) (len (mid n data))) as [H2'|]; [|done].
  intros Heq. simplify_eq. cbn [rs_rest].
  unfold encodeHostAndPort, w8, w16, u8.
  rewrite !len_left by lia. rewrite !(Z.min_l) by lia. rewrite Z.eqb_refl.
  rewrite (uwrap_small 8) by lia.
  rewrite Ht1, Hn1. rewrite (left_all (left n data)) by (rewrite len_left; lia).
  set (p := left (Z.of_nat 2) (mid n data)).
  assert (bytes_ok p) as Hp by (apply Forall_take, Forall_drop, Hd).
  assert (length p = 2%nat) as Hpl.
  { unfold p, left, mid, len in *. rewrite length_take, length_drop in *. lia. }
  rewrite <-Hpl at 1. rewrite (be_be_dec p Hp). unfold p, left, mid. cbn [app].
  by rewrite <-!app_assoc, take_drop, take_drop.
Qed.

(** ** What the server accepts *)

Lemma at_byte buffer i b : bytes_ok buffer -> nth_error buffer i = Some b ->
  at_ buffer i = if b <? 128 then b else b - 256.
Proof.
  intros Hb Hi. unfold at_. rewrite (nth_error_nth _ _ 0 Hi). apply i8_byte.
  apply nth_error_In in Hi. by apply (proj1 (List.Forall_forall _ _) Hb).
Qed.

Lemma foundMethod_spec a b methods : bytes_ok methods ->
  SocksServer.foundMethod (a :: b :: methods) = true <-> NoAuthentication ∈ methods.
Proof.
  intros Hm. unfold SocksServer.foundMethod. cbn [length].
  replace (S (S (length methods)) - 2)%nat with (length methods) by lia.
  rewrite existsb_exists. split.
  - intros (i & Hi & Ha). apply in_seq in Hi. bools.
    destruct i as [|[|i]]; [lia|lia|]. unfold at_ in Ha. cbn [nth] in Ha.
    destruct (nth_error methods i) as [v|] eqn:Hv; [|apply nth_error_None in Hv; lia].
    rewrite (nth_error_nth _ _ 0 Hv) in Ha. apply nth_error_In in Hv.
    rewrite i8_byte in Ha by (by apply (proj1 (List.Forall_forall _ _) Hm)).
    unfold NoAuthentication in *. pose proof (proj1 (List.Forall_forall _ _) Hm v Hv) as [? ?].
    apply list_elem_of_In. destruct (Z.ltb_spec v 128); [by subst|lia].
  - intros Hin. apply list_elem_of_In, In_nth_error in Hin as [i Hi].
    exists (S (S i)). split.
    + apply in_seq. assert (i < length methods)%nat by (apply nth_error_Some; congruence). lia.
    + unfold at_. cbn [nth]. by rewrite (nth_error_nth _ _ 0 Hi).
Qed.

(** The first arrival of data. *)
Lemma server_greeting buffer : bytes_ok buffer ->
  let s := SocksServer.receive buffer SocksServer.slotNewConnection in
  newConnection s = None /\ s_listening s = true /\ input (s_socket s) = [] /\
  ((is_open (s_socket s) = true /\ m_state s = CommandState /\ greeting buffer) \/
   is_open (s_socket s) = false).
Proof.
  intros Hb. unfold SocksServer.receive, SocksServer.slotReadyRead.
  cbn -[at_ SocksServer.foundMethod Z.ltb Z.eqb].
  destruct ((len buffer <? 3) || negb (at_ buffer 0 =? SocksVersion)
    || negb (at_ buffer 1 + 2 =? len buffer)) eqn:Hg.
  { cbn. auto. }
  destruct (SocksServer.foundMethod buffer) eqn:Hf; cbn [negb]; [|cbn; auto 10].
  split_and!; [done..|left]. split_and!; [done..|]. bools.
  destruct buffer as [|v [|n methods]]; [exfalso; len_simpl; lia..|].
  inversion_clear Hb as [|? ? Hv Hb']. inversion_clear Hb' as [|? ? Hn Hm].
  unfold at_ in *. cbn [nth] in *. rewrite i8_byte in * by done.
  autorewrite with qx_simpl in *. unfold SocksVersion, byte_ok in *.
  apply foundMethod_spec in Hf; [|done]. pose proof (len_nonneg methods).
  exists methods. destruct (Z.ltb_spec v 128), (Z.ltb_spec n 128); try lia.
  split_and!; [|lia|done]. unfold SocksVersion. do 2 f_equal; lia.
Qed.

(** Nothing is announced by a connection that is closed or no longer reads. *)
Lemma server_settled chunks s :
  is_open (s_socket s) = false \/ s_listening s = false ->
  newConnection (SocksServer.run chunks s) = newConnection s.
Proof.
  unfold SocksServer.run. revert s. induction chunks as [|d chunks IH]; intros s Hs; [done|].
  cbn [foldl]. unfold SocksServer.receive at 2. destruct (is_open (s_socket s)) eqn:Ho.
  - destruct Hs as [|Hl]; [done|]. cbn [negb]. cbn. rewrite Hl. cbn. rewrite IH; [done|]. by right.
  - cbn. apply IH. by left.
Qed.

(** The second arrival of data. *)
Lemma server_request buffer s : bytes_ok buffer -> is_open (s_socket s) = true ->
  m_state s = CommandState -> s_listening s = true -> input (s_socket s) = [] ->
  newConnection s = None ->
  let s' := SocksServer.receive buffer s in
  s_listening s' = false /\
  (forall host port, newConnection s' = Some (host, port) -> exists type rest,
     buffer = [SocksVersion; ConnectCommand; 0] ++ encodeHostAndPort type host port ++ rest).
Proof.
  intros Hb Ho Hm Hl Hi Hnone. unfold SocksServer.receive. rewrite Ho. cbn [negb].
  unfold SocksServer.slotReadyRead. cbn -[at_ Z.eqb left mid parseHostAndPort]. rewrite Hl, Hm, Hi.
  cbn -[at_ Z.eqb left mid parseHostAndPort]. set (b3 := left 3 buffer).
  destruct (negb (len b3 =? 3) || negb (at_ b3 0 =? SocksVersion)
    || negb (at_ b3 1 =? ConnectCommand) || negb (at_ b3 2 =? 0)) eqn:Hg.
  { cbn. split; [done|]. intros host port. by rewrite Hnone. }
  destruct (parseHostAndPort (open_stream (mid 3 buffer))) as [[[[type host] port]|] stream] eqn:Hp;
    cbn; [|split; [done|]; intros ? ?; by rewrite Hnone].
  split; [done|]. intros host' port' Heq. simplify_eq.
  apply parse_sound in Hp; [|by apply Forall_drop]. exists type, (rs_rest stream). rewrite <-Hp.
  rewrite <-(take_drop 3 buffer) at 1. change (take 3 buffer) with b3.
  change (drop 3 buffer) with (mid 3 buffer). f_equal. bools.
  assert (bytes_ok b3) as Hb3 by (by apply Forall_take).
  destruct b3 as [|x [|y [|z [|? ?]]]]; len_simpl; try lia; [|pose proof (len_nonneg l); lia].
  inversion_clear Hb3 as [|? ? Hx Hb']. inversion_clear Hb' as [|? ? Hy Hb''].
  inversion_clear Hb'' as [|? ? Hz _]. unfold at_ in *. cbn [nth] in *.
  rewrite i8_byte in * by done. unfold SocksVersion, ConnectCommand, byte_ok in *.
  destruct (Z.ltb_spec x 128), (Z.ltb_spec y 128), (Z.ltb_spec z 128); try lia.
  assert (x = 5) as -> by lia. assert (y = 1) as -> by lia. assert (z = 0) as -> by lia. done.
Qed.

(** whatever arrives, and however it is split, the server announces a
    connection only after a greeting that offers no authentication and a
    CONNECT request for exactly the host and port it announces. *)
Theorem socks_server_announces (chunks : list bytes) (host : bytes) (port : Z) :
  Forall bytes_ok chunks ->
  newConnection (SocksServer.run chunks SocksServer.slotNewConnection) = Some (host, port) ->
  exists hello request chunks', chunks = hello :: request :: chunks' /\ greeting hello /\
    exists type rest,
      request = [SocksVersion; ConnectCommand; 0] ++ encodeHostAndPort type host port ++ rest.
Proof.
  intros Hok Hn. destruct chunks as [|hello chunks]; [done|].
  inversion_clear Hok as [|? ? Hh Hok']. unfold SocksServer.run in Hn. cbn [foldl] in Hn.
  destruct (server_greeting hello Hh) as (H1 & H2 & H3 & Hcase).
  set (s1 := SocksServer.receive hello SocksServer.slotNewConnection) in *.
  fold (SocksServer.run chunks s1) in Hn.
  destruct Hcase as [(Ho & Hm & Hg)|Hc].
  2: { rewrite server_settled in Hn by (by left). congruence. }
  destruct chunks as [|request chunks]; [unfold SocksServer.run in Hn; cbn [foldl] in Hn; congruence|].
  inversion_clear Hok' as [|? ? Hr Hok'']. unfold SocksServer.run in Hn. cbn [foldl] in Hn.
  fold (SocksServer.run chunks (SocksServer.receive request s1)) in Hn.
  destruct (server_request request s1 Hr Ho Hm H2 H3 H1) as [Hl Hreq].
  rewrite server_settled in Hn by (by right).
  exists hello, request, chunks. split_and!; [done|done|]. by apply Hreq.
Qed.

Lemma socks_server_announces_witness :
  exists hello request chunks',
    [[5; 2; 2; 0]; [5; 1; 0; 3; 1; 120; 0; 80; 1; 2]] = hello :: request :: chunks' /\
    greeting hello /\ exists type rest,
      request = [SocksVersion; ConnectCommand; 0] ++ encodeHostAndPort type [120] 80 ++ rest.
Proof.
  apply (socks_server_announces [[5; 2; 2; 0]; [5; 1; 0; 3; 1; 120; 0; 80; 1; 2]] [120] 80);
    [by repeat constructor|by vm_compute].
Defined.

(** a greeting that offers 128 methods or more is refused, whatever the
    methods: the number is read as a signed char. *)
Theorem socks_server_refuses_many_methods (methods : bytes) :
  128 <= len methods <= 255 ->
  is_open (s_socket (SocksServer.receive (SocksVersion :: len methods :: methods)
    SocksServer.slotNewConnection)) = false.
Proof.
  intros Hm. unfold SocksServer.receive, SocksServer.slotReadyRead.
  cbn -[at_ SocksServer.foundMethod Z.ltb Z.eqb].
  assert (at_ (SocksVersion :: len methods :: methods) 1 = len methods - 256) as Ha.
  { unfold at_. cbn [nth]. rewrite i8_byte by (unfold byte_ok; lia).
    destruct (Z.ltb_spec (len methods) 128); [lia|done]. }
  rewrite Ha. len_simpl.
  rewrite (proj2 (Z.eqb_neq (len methods - 256 + 2) _)) by lia. by rewrite orb_true_r.
Qed.

Lemma socks_server_refuses_many_methods_witness :
  is_open (s_socket (SocksServer.receive (5 :: 128 :: replicate 128 0)
    SocksServer.slotNewConnection)) = false.
Proof. apply (socks_server_refuses_many_methods (replicate 128 0)). by vm_compute. Defined.

(** a handshake whose first reply arrives in two pieces fails: the client
    closes the socket on the first byte, although the reply is valid. *)
Theorem socks_client_split_reply (host : bytes) (port : Z) :
  let c0 := SocksClient.slotConnected (SocksClient.connectToHost host port) in
  let whole := SocksClient.receive [SocksVersion; NoAuthentication] c0 in
  let split := SocksClient.receive [NoAuthentication] (SocksClient.receive [SocksVersion] c0) in
  m_step whole = CommandState /\ is_open (c_socket whole) = true /\
  m_step split = ConnectState /\ is_open (c_socket split) = false.
Proof. done. Qed.
