(* ===== verification/TrustStorage.v ===== *)
(** * Trust storage (QXmppTrustStorage.h, QXmppTrustMemoryStorage.cpp,
      QXmppAtmTrustStorage.h, QXmppAtmTrustMemoryStorage.cpp)

    The interface of the storages of trust levels and of postponed trust
    decisions as a class of operations with a class of laws, and the memory
    storages, which satisfy them. QMap and QHash keyed by the encryption are
    gmaps; a QMultiHash is the list of its entries, the most recently inserted
    first, as find() and values() go through the entries of one key. The order
    of different keys, which Qt leaves open, is that of their last insertion.
    The memory storages complete every task at once. *)
From S2P Require Import Prelude.

(** ** QMultiHash<QString, QByteArray> *)

Definition MultiHash : Type := list (string * string).

Section MultiHash.
Implicit Types (m : MultiHash) (k v : string).

Definition mh_insert k v m : MultiHash := (k, v) :: m.
Definition mh_values k m : list string := (filter (fun p => p.1 = k) m).*2.
Definition mh_remove k m : MultiHash := filter (fun p => p.1 <> k) m.
Definition mh_contains k v m : bool := bool_decide ((k, v) ∈ m).
Definition uniqueKeys m : list string := remove_dups m.*1.

Lemma elem_of_mh_values k v m : v ∈ mh_values k m <-> (k, v) ∈ m.
Proof.
  unfold mh_values. rewrite list_elem_of_fmap. setoid_rewrite list_elem_of_filter.
  split; [intros [[? ?] [-> [<- ?]]]; done|].
  intros. exists (k, v). auto.
Qed.

Lemma elem_of_uniqueKeys k m : k ∈ uniqueKeys m <-> exists v, (k, v) ∈ m.
Proof.
  unfold uniqueKeys. rewrite elem_of_remove_dups, list_elem_of_fmap.
  split; [intros [[k' v'] [-> ?]]; eauto|intros [v ?]; by exists (k, v)].
Qed.
End MultiHash.

(** ** Trust levels and security policies *)

Inductive TrustLevel :=
  | Undecided | AutomaticallyDistrusted | ManuallyDistrusted | AutomaticallyTrusted
  | ManuallyTrusted | Authenticated.
#[export] Instance TrustLevel_eq_dec : EqDecision TrustLevel.
Proof. solve_decision. Defined.

Definition level_value (l : TrustLevel) : Z :=
  match l with
  | Undecided => 1 | AutomaticallyDistrusted => 2 | ManuallyDistrusted => 4
  | AutomaticallyTrusted => 8 | ManuallyTrusted => 16 | Authenticated => 32
  end.

(** QFlags<TrustLevel>: the levels combined with [|]; none is 0. *)
Definition TrustLevels : Type := Z.
Definition flags (ls : list TrustLevel) : TrustLevels := foldr Z.lor 0 (map level_value ls).
Definition testFlag (f : TrustLevels) (l : TrustLevel) : bool :=
  Z.land f (level_value l) =? level_value l.

Inductive TrustSecurityPolicy := NoSecurityPolicy | Toakafa.
#[export] Instance TrustSecurityPolicy_eq_dec : EqDecision TrustSecurityPolicy.
Proof. solve_decision. Defined.

(** QXmppTrustMessageKeyOwner. *)
Record KeyOwner := { ko_jid : string; trustedKeys : list string; distrustedKeys : list string }.

(** ** The interfaces *)

(** QXmppTrustStorage; [setTrustLevel] and [setTrustLevelOf] are the two
    overloads, which return the modified keys of the encryption. *)
Class TrustStorage (S : Type) := {
  setSecurityPolicy : string -> TrustSecurityPolicy -> S -> S;
  resetSecurityPolicy : string -> S -> S;
  securityPolicy : string -> S -> TrustSecurityPolicy;
  addKeys : string -> string -> list string -> TrustLevel -> S -> S;
  keysOfLevel : string -> TrustLevels -> S -> TrustLevel -> MultiHash;
  setTrustLevel : string -> MultiHash -> TrustLevel -> S -> MultiHash * S;
  setTrustLevelOf : string -> list string -> TrustLevel -> TrustLevel -> S -> MultiHash * S;
  trustLevel : string -> string -> string -> S -> TrustLevel;
}.

(** QXmppAtmTrustStorage. *)
Class AtmTrustStorage (S : Type) `{TrustStorage S} := {
  addKeysForPostponed : string -> string -> list KeyOwner -> S -> S;
  removeKeysForPostponed : string -> list string -> list string -> S -> S;
  removeKeysForPostponedOf : string -> list string -> S -> S;
  keysForPostponed : string -> list string -> S -> bool -> MultiHash;
}.

(** The postponed decision [trust] on the key [id] of [owner], sent with the
    key [sender]. *)
Record UnprocessedKey := {
  u_id : string; u_ownerJid : string; u_senderKeyId : string; u_trust : bool }.
#[export] Instance UnprocessedKey_eq_dec : EqDecision UnprocessedKey.
Proof. solve_decision. Defined.

(** A key of a key owner of a trust message, and the decision on it. *)
Definition decides (ko : KeyOwner) (id : string) (trust : bool) : Prop :=
  id ∈ (if trust then trustedKeys ko else distrustedKeys ko).

(** What the managers rely on: [postponed] is the set of decisions stored. *)
Class AtmLaws (S : Type) `{AtmTrustStorage S} := {
  postponed : string -> S -> list UnprocessedKey;
  level_setTrustLevel e ks l s e' j k :
    trustLevel e' j k (setTrustLevel e ks l s).2 =
    if decide (e' = e /\ (j, k) ∈ ks) then l else trustLevel e' j k s;
  level_setTrustLevelOf e js o n s e' j k : o <> Undecided ->
    trustLevel e' j k (setTrustLevelOf e js o n s).2 =
    if decide (e' = e /\ j ∈ js /\ trustLevel e j k s = o) then n else trustLevel e' j k s;
  level_addPostponed e sk kos s e' j k :
    trustLevel e' j k (addKeysForPostponed e sk kos s) = trustLevel e' j k s;
  level_removePostponed e a d s e' j k :
    trustLevel e' j k (removeKeysForPostponed e a d s) = trustLevel e' j k s;
  level_removePostponedOf e sks s e' j k :
    trustLevel e' j k (removeKeysForPostponedOf e sks s) = trustLevel e' j k s;
  policy_setTrustLevel e ks l s e' :
    securityPolicy e' (setTrustLevel e ks l s).2 = securityPolicy e' s;
  policy_setTrustLevelOf e js o n s e' :
    securityPolicy e' (setTrustLevelOf e js o n s).2 = securityPolicy e' s;
  policy_addPostponed e sk kos s e' :
    securityPolicy e' (addKeysForPostponed e sk kos s) = securityPolicy e' s;
  policy_removePostponed e a d s e' :
    securityPolicy e' (removeKeysForPostponed e a d s) = securityPolicy e' s;
  policy_removePostponedOf e sks s e' :
    securityPolicy e' (removeKeysForPostponedOf e sks s) = securityPolicy e' s;
  postponed_setTrustLevel e ks l s e' :
    postponed e' (setTrustLevel e ks l s).2 = postponed e' s;
  postponed_setTrustLevelOf e js o n s e' :
    postponed e' (setTrustLevelOf e js o n s).2 = postponed e' s;
  (** A new decision is one of the message, the old ones keep their sender. *)
  postponed_add e sk kos s e' u : u ∈ postponed e' (addKeysForPostponed e sk kos s) ->
    u ∈ postponed e' s \/
    e' = e /\ u_senderKeyId u = sk /\
    exists ko, ko ∈ kos /\ u_ownerJid u = ko_jid ko /\ decides ko (u_id u) (u_trust u);
  postponed_add_nil e sk s e' : postponed e' (addKeysForPostponed e sk [] s) = postponed e' s;
  postponed_remove e a d s e' :
    postponed e' (removeKeysForPostponed e a d s) =
    if decide (e' = e)
    then filter (fun u => ~ (u_id u ∈ (if u_trust u then a else d))) (postponed e s)
    else postponed e' s;
  postponed_removeOf e sks s e' :
    postponed e' (removeKeysForPostponedOf e sks s) =
    if decide (e' = e) then filter (fun u => ~ (u_senderKeyId u ∈ sks)) (postponed e s)
    else postponed e' s;
  keysForPostponed_spec e sks s t j k :
    (j, k) ∈ keysForPostponed e sks s t <->
    exists u, u ∈ postponed e s /\ (u_senderKeyId u ∈ sks \/ sks = []) /\
      u_trust u = t /\ u_ownerJid u = j /\ u_id u = k;
}.

(** ** The memory storages *)

Record Key := { k_id : string; k_ownerJid : string; k_trustLevel : TrustLevel }.

(** QXmppTrustMemoryStoragePrivate and QXmppAtmTrustMemoryStoragePrivate. *)
Record MemoryStorage := {
  securityPolicies : gmap string TrustSecurityPolicy;
  ownKeys : gmap string string;
  m_keys : gmap string (list Key);
  unprocessed : gmap string (list UnprocessedKey);
}.
#[export] Instance MemoryStorage_eta : Eta MemoryStorage := fun r =>
  {| securityPolicies := securityPolicies r; ownKeys := ownKeys r; m_keys := m_keys r;
     unprocessed := unprocessed r |}.

Module Memory.

Definition empty : MemoryStorage :=
  {| securityPolicies := ∅; ownKeys := ∅; m_keys := ∅; unprocessed := ∅ |}.

(** The entries of an encryption in a QMultiHash. *)
Definition values {A} (encryption : string) (m : gmap string (list A)) : list A :=
  default [] (m !! encryption).

Definition setSecurityPolicy (encryption : string) (p : TrustSecurityPolicy) (s : MemoryStorage) :=
  s <| securityPolicies ::= <[encryption := p]> |>.
Definition resetSecurityPolicy (encryption : string) (s : MemoryStorage) :=
  s <| securityPolicies ::= delete encryption |>.
Definition securityPolicy (encryption : string) (s : MemoryStorage) : TrustSecurityPolicy :=
  default NoSecurityPolicy (securityPolicies s !! encryption).

Definition setOwnKey (encryption keyId : string) (s : MemoryStorage) :=
  s <| ownKeys ::= <[encryption := keyId]> |>.
Definition resetOwnKey (encryption : string) (s : MemoryStorage) :=
  s <| ownKeys ::= delete encryption |>.
(** [operator[]] inserts the empty key it returns. *)
Definition ownKey (encryption : string) (s : MemoryStorage) : string * MemoryStorage :=
  let key := default "" (ownKeys s !! encryption) in
  (key, s <| ownKeys ::= <[encryption := key]> |>).

Definition set_keys (encryption : string) (ks : list Key) (s : MemoryStorage) : MemoryStorage :=
  s <| m_keys ::= <[encryption := ks]> |>.
Definition keys_of (encryption : string) (s : MemoryStorage) : list Key :=
  values encryption (m_keys s).

Definition addKeys (encryption keyOwnerJid : string) (keyIds : list string) (l : TrustLevel)
    (s : MemoryStorage) : MemoryStorage :=
  set_keys encryption
    (foldl (fun ks keyId => {| k_id := keyId; k_ownerJid := keyOwnerJid; k_trustLevel := l |} :: ks)
       (keys_of encryption s) keyIds) s.

Definition removeKeysById (encryption : string) (keyIds : list string) (s : MemoryStorage) :=
  set_keys encryption (filter (fun key => k_id key ∉ keyIds) (keys_of encryption s)) s.
Definition removeKeysOf (encryption keyOwnerJid : string) (s : MemoryStorage) :=
  set_keys encryption (filter (fun key => k_ownerJid key <> keyOwnerJid) (keys_of encryption s)) s.
Definition removeKeys (encryption : string) (s : MemoryStorage) :=
  s <| m_keys ::= delete encryption |>.

(** [keys(encryption, trustLevels)]: the keys under each level. *)
Definition keys (encryption : string) (trustLevels : TrustLevels) (s : MemoryStorage)
    (l : TrustLevel) : MultiHash :=
  foldl (fun m key =>
      if decide (k_trustLevel key = l) then
        if testFlag trustLevels l || (trustLevels =? 0)
        then mh_insert (k_ownerJid key) (k_id key) m else m
      else m) [] (keys_of encryption s).

(** [keys(encryption, keyOwnerJids, trustLevels)]. *)
Definition keysOf (encryption : string) (keyOwnerJids : list string) (trustLevels : TrustLevels)
    (s : MemoryStorage) : gmap string (gmap string TrustLevel) :=
  foldl (fun (m : gmap string (gmap string TrustLevel)) key =>
      if bool_decide (k_ownerJid key ∈ keyOwnerJids)
         && (testFlag trustLevels (k_trustLevel key) || (trustLevels =? 0))
      then <[k_ownerJid key := <[k_id key := k_trustLevel key]> (default ∅ (m !! k_ownerJid key))]> m
      else m) ∅ (keys_of encryption s).

Definition hasKey (encryption keyOwnerJid : string) (trustLevels : TrustLevels)
    (s : MemoryStorage) : bool :=
  existsb (fun key => bool_decide (k_ownerJid key = keyOwnerJid)
                      && testFlag trustLevels (k_trustLevel key)) (keys_of encryption s).

(** The loop over the entries of the encryption: the entries with the first
    match updated, and whether that changed it; [None] without a match. *)
Fixpoint update_key (keyOwnerJid keyId : string) (l : TrustLevel) (ks : list Key) :
    option (list Key * bool) :=
  match ks with
  | [] => None
  | key :: ks' =>
      if decide (k_id key = keyId /\ k_ownerJid key = keyOwnerJid) then
        Some ({| k_id := k_id key; k_ownerJid := k_ownerJid key; k_trustLevel := l |} :: ks',
              negb (bool_decide (k_trustLevel key = l)))
      else '(ks', b) ← update_key keyOwnerJid keyId l ks'; Some (key :: ks', b)
  end.

(** One round of the loop of setTrustLevel. *)
Definition set_one (encryption : string) (l : TrustLevel) (acc : MultiHash * MemoryStorage)
    (p : string * string) : MultiHash * MemoryStorage :=
  let '(modified, s) := acc in let '(keyOwnerJid, keyId) := p in
  match update_key keyOwnerJid keyId l (keys_of encryption s) with
  | Some (ks, true) => (mh_insert keyOwnerJid keyId modified, set_keys encryption ks s)
  | Some (ks, false) => (modified, s)
  | None =>
      (mh_insert keyOwnerJid keyId modified,
       set_keys encryption ({| k_id := keyId; k_ownerJid := keyOwnerJid; k_trustLevel := l |}
                            :: keys_of encryption s) s)
  end.
Definition setTrustLevel (encryption : string) (keyIds : MultiHash) (l : TrustLevel)
    (s : MemoryStorage) : MultiHash * MemoryStorage :=
  foldl (set_one encryption l) ([], s) keyIds.

Definition level_matches (keyOwnerJids : list string) (old : TrustLevel) (key : Key) : bool :=
  bool_decide (k_ownerJid key ∈ keyOwnerJids) && bool_decide (k_trustLevel key = old).
Definition setTrustLevelOf (encryption : string) (keyOwnerJids : list string)
    (oldTrustLevel newTrustLevel : TrustLevel) (s : MemoryStorage) : MultiHash * MemoryStorage :=
  let ks := keys_of encryption s in
  (foldl (fun m key =>
       if level_matches keyOwnerJids oldTrustLevel key then mh_insert (k_ownerJid key) (k_id key) m
       else m) [] ks,
   set_keys encryption
     (map (fun key =>
        if level_matches keyOwnerJids oldTrustLevel key
        then {| k_id := k_id key; k_ownerJid := k_ownerJid key; k_trustLevel := newTrustLevel |}
        else key) ks) s).

Fixpoint find_level (keyOwnerJid keyId : string) (ks : list Key) : option TrustLevel :=
  match ks with
  | [] => None
  | key :: ks' =>
      if decide (k_id key = keyId /\ k_ownerJid key = keyOwnerJid) then Some (k_trustLevel key)
      else find_level keyOwnerJid keyId ks'
  end.
Definition trustLevel (encryption keyOwnerJid keyId : string) (s : MemoryStorage) : TrustLevel :=
  default Undecided (find_level keyOwnerJid keyId (keys_of encryption s)).

(** *** Postponed decisions *)

Definition unprocessed_of (encryption : string) (s : MemoryStorage) : list UnprocessedKey :=
  values encryption (unprocessed s).
Definition set_unprocessed (encryption : string) (us : list UnprocessedKey) (s : MemoryStorage) :=
  s <| unprocessed ::= <[encryption := us]> |>.

(** Updates the first entry for the key, owner and sender, or adds one. *)
Fixpoint update_unprocessed (u : UnprocessedKey) (us : list UnprocessedKey) :
    option (list UnprocessedKey) :=
  match us with
  | [] => None
  | v :: us' =>
      if decide (u_id v = u_id u /\ u_ownerJid v = u_ownerJid u /\ u_senderKeyId v = u_senderKeyId u)
      then Some ({| u_id := u_id v; u_ownerJid := u_ownerJid v; u_senderKeyId := u_senderKeyId v;
                    u_trust := u_trust u |} :: us')
      else (fun us' => v :: us') <$> update_unprocessed u us'
  end.
Definition add_unprocessed (us : list UnprocessedKey) (u : UnprocessedKey) : list UnprocessedKey :=
  default (u :: us) (update_unprocessed u us).

Definition owner_decisions (senderKeyId : string) (ko : KeyOwner) : list UnprocessedKey :=
  let decision trust keyId :=
    {| u_id := keyId; u_ownerJid := ko_jid ko; u_senderKeyId := senderKeyId; u_trust := trust |} in
  map (decision true) (trustedKeys ko) ++ map (decision false) (distrustedKeys ko).

Definition addKeysForPostponed (encryption senderKeyId : string) (keyOwners : list KeyOwner)
    (s : MemoryStorage) : MemoryStorage :=
  set_unprocessed encryption
    (foldl add_unprocessed (unprocessed_of encryption s)
       (concat (map (owner_decisions senderKeyId) keyOwners))) s.

Definition removeKeysForPostponed (encryption : string)
    (keyIdsForAuthentication keyIdsForDistrusting : list string) (s : MemoryStorage) :=
  set_unprocessed encryption
    (filter (fun u => ~ (u_id u ∈ (if u_trust u then keyIdsForAuthentication
                                    else keyIdsForDistrusting)))
       (unprocessed_of encryption s)) s.
Definition removeKeysForPostponedOf (encryption : string) (senderKeyIds : list string)
    (s : MemoryStorage) :=
  set_unprocessed encryption
    (filter (fun u => ~ (u_senderKeyId u ∈ senderKeyIds)) (unprocessed_of encryption s)) s.
Definition removeAllKeysForPostponed (encryption : string) (s : MemoryStorage) :=
  s <| unprocessed ::= delete encryption |>.

Definition keysForPostponed (encryption : string) (senderKeyIds : list string)
    (s : MemoryStorage) (trust : bool) : MultiHash :=
  foldl (fun m u =>
      if bool_decide (u_senderKeyId u ∈ senderKeyIds) || bool_decide (senderKeyIds = [])
      then if eqb (u_trust u) trust then mh_insert (u_ownerJid u) (u_id u) m else m
      else m) [] (unprocessed_of encryption s).

(** QXmppTrustMemoryStorage::resetAll, then QXmppAtmTrustMemoryStorage::resetAll. *)
Definition trust_resetAll (encryption : string) (s : MemoryStorage) : MemoryStorage :=
  s <| securityPolicies ::= delete encryption |> <| ownKeys ::= delete encryption |>
    <| m_keys ::= delete encryption |>.
Definition resetAll (encryption : string) (s : MemoryStorage) : MemoryStorage :=
  (trust_resetAll encryption s) <| unprocessed ::= delete encryption |>.

End Memory.

#[export] Instance Memory_TrustStorage : TrustStorage MemoryStorage := {
  setSecurityPolicy := Memory.setSecurityPolicy;
  resetSecurityPolicy := Memory.resetSecurityPolicy;
  securityPolicy := Memory.securityPolicy;
  addKeys := Memory.addKeys;
  keysOfLevel := Memory.keys;
  setTrustLevel := Memory.setTrustLevel;
  setTrustLevelOf := Memory.setTrustLevelOf;
  trustLevel := Memory.trustLevel;
}.
#[export] Instance Memory_AtmTrustStorage : AtmTrustStorage MemoryStorage := {
  addKeysForPostponed := Memory.addKeysForPostponed;
  removeKeysForPostponed := Memory.removeKeysForPostponed;
  removeKeysForPostponedOf := Memory.removeKeysForPostponedOf;
  keysForPostponed := Memory.keysForPostponed;
}.

(** ** The memory storages satisfy the laws *)

Module MemoryFacts.
Import Memory.

Lemma values_insert {A} e e' (l : list A) m :
  values e' (<[e := l]> m) = if decide (e' = e) then l else values e' m.
Proof.
  unfold values. case_decide as He; [subst; by rewrite lookup_insert_eq|].
  by rewrite lookup_insert_ne.
Qed.

Lemma keys_of_set e e' ks s :
  keys_of e' (set_keys e ks s) = if decide (e' = e) then ks else keys_of e' s.
Proof. apply values_insert. Qed.

Lemma unprocessed_of_set e e' us s :
  unprocessed_of e' (set_unprocessed e us s) = if decide (e' = e) then us else unprocessed_of e' s.
Proof. apply values_insert. Qed.

Lemma find_update j k l ks j' k' :
  match update_key j k l ks with
  | Some (ks', b) =>
      find_level j' k' ks' = (if decide (j' = j /\ k' = k) then Some l else find_level j' k' ks) /\
      (b = false -> ks' = ks)
  | None => find_level j k ks = None
  end.
Proof.
  induction ks as [|[i o lv] ks IH]; simpl; [done|].
  destruct (decide (i = k /\ o = j)) as [[-> ->]|Hne].
  - split; simpl; [by repeat case_decide; naive_solver|].
    intros Hb. apply negb_false_iff, bool_decide_eq_true in Hb. by subst.
  - destruct (update_key j k l ks) as [[ks' b]|]; simpl; [|done].
    destruct IH as [-> IH]. split; [repeat case_decide; naive_solver|].
    intros Hb. by rewrite IH.
Qed.

Lemma set_one_level e l m s j k e' j' k' :
  trustLevel e' j' k' (set_one e l (m, s) (j, k)).2 =
  if decide (e' = e /\ j' = j /\ k' = k) then l else trustLevel e' j' k' s.
Proof.
  pose proof (find_update j k l (keys_of e s) j' k') as Hf. unfold set_one, trustLevel.
  destruct (update_key j k l (keys_of e s)) as [[ks []]|] eqn:Hu; simpl; rewrite ?keys_of_set.
  - destruct Hf as [Hf _]. destruct (decide (e' = e)) as [->|]; [rewrite Hf|];
      repeat case_decide; naive_solver.
  - destruct Hf as [Hf Hks]. specialize (Hks eq_refl). subst.
    destruct (decide (e' = e /\ j' = j /\ k' = k)) as [(-> & -> & ->)|]; [|done].
    rewrite (decide_True (P := j = j /\ k = k)) in Hf by done. by rewrite Hf.
  - destruct (decide (e' = e)) as [->|]; simpl; repeat case_decide; naive_solver.
Qed.

(** Whatever a round keeps, the loop keeps. *)
Lemma set_loop_keeps {A} (f : MemoryStorage -> A) e l ks acc :
  (forall ks s, f (set_keys e ks s) = f s) ->
  f (foldl (set_one e l) acc ks).2 = f acc.2.
Proof.
  intros Hf. revert acc. induction ks as [|[j k] ks IH]; intros [m s]; simpl; [done|].
  rewrite IH. destruct (update_key _ _ _ _) as [[? []]|]; simpl; by rewrite ?Hf.
Qed.

Lemma setTrustLevel_level e ks l s e' j k :
  trustLevel e' j k (setTrustLevel e ks l s).2 =
  if decide (e' = e /\ (j, k) ∈ ks) then l else trustLevel e' j k s.
Proof.
  unfold setTrustLevel. generalize (@nil (string * string)) as m. revert s.
  induction ks as [|[j0 k0] ks IH]; intros s m; simpl.
  { rewrite decide_False; [done|]. intros [_ H]. by apply elem_of_nil in H. }
  pose proof (set_one_level e l m s j0 k0 e' j k) as Ho. simpl in Ho.
  match goal with |- context [foldl _ ?acc ks] => destruct acc as [m' s'] end.
  rewrite IH. simpl in Ho.
  rewrite Ho. pose proof (elem_of_cons ks (j, k) (j0, k0)).
  repeat case_decide; naive_solver.
Qed.

Lemma find_level_matching js o n j k ks :
  find_level j k (map (fun key => if level_matches js o key
      then {| k_id := k_id key; k_ownerJid := k_ownerJid key; k_trustLevel := n |} else key) ks) =
  (fun l => if decide (j ∈ js /\ l = o) then n else l) <$> find_level j k ks.
Proof.
  induction ks as [|[i ow lv] ks IH]; simpl; [done|].
  unfold level_matches in *. simpl in *.
  destruct (bool_decide (ow ∈ js) && bool_decide (lv = o))%bool eqn:Hm; simpl;
    destruct (decide (i = k /\ ow = j)) as [[-> ->]|]; simpl; [| done | |done].
  - bools. by rewrite decide_True.
  - rewrite decide_False; [done|]. intros [? ?].
    by rewrite !bool_decide_eq_true_2 in Hm.
Qed.

Lemma setTrustLevelOf_level e js o n s e' j k : o <> Undecided ->
  trustLevel e' j k (setTrustLevelOf e js o n s).2 =
  if decide (e' = e /\ j ∈ js /\ trustLevel e j k s = o) then n else trustLevel e' j k s.
Proof.
  intros Ho. unfold trustLevel, setTrustLevelOf. simpl. rewrite keys_of_set.
  destruct (decide (e' = e)) as [->|]; [|rewrite decide_False; naive_solver].
  rewrite find_level_matching.
  destruct (find_level j k (keys_of e s)); simpl; repeat case_decide; naive_solver.
Qed.

Lemma update_unprocessed_elem u us us' v :
  update_unprocessed u us = Some us' -> v ∈ us' -> v ∈ us \/ v = u.
Proof.
  revert us'. induction us as [|w us IH]; simpl; [done|]. intros us'.
  case_decide as Hw.
  - intros [= <-]. rewrite !elem_of_cons. intros [->|?]; [|auto].
    right. destruct u, w; simpl in *. naive_solver.
  - destruct (update_unprocessed u us) as [us0|]; simpl; [|done].
    intros [= <-]. rewrite !elem_of_cons. intros [->|?]; [auto|].
    destruct (IH us0); auto.
Qed.

Lemma add_unprocessed_elem ds us v : v ∈ foldl add_unprocessed us ds -> v ∈ us \/ v ∈ ds.
Proof.
  revert us. induction ds as [|u ds IH]; simpl; [auto|]. intros us Hv.
  rewrite elem_of_cons. destruct (IH _ Hv) as [Hin|]; [|auto].
  unfold add_unprocessed in Hin. destruct (update_unprocessed u us) eqn:Hu; simpl in Hin.
  - destruct (update_unprocessed_elem _ _ _ _ Hu Hin); auto.
  - apply elem_of_cons in Hin as [->|?]; auto.
Qed.

Lemma owner_decisions_elem sk ko u : u ∈ owner_decisions sk ko <->
  u_senderKeyId u = sk /\ u_ownerJid u = ko_jid ko /\ decides ko (u_id u) (u_trust u).
Proof.
  unfold owner_decisions, decides. rewrite elem_of_app, !list_elem_of_fmap. split.
  - intros [(k & -> & ?)|(k & -> & ?)]; done.
  - destruct u as [i j s []]; simpl; intros (-> & -> & ?); [left|right]; eauto.
Qed.

Lemma keysForPostponed_elem e sks s t j k :
  (j, k) ∈ keysForPostponed e sks s t <->
  exists u, u ∈ unprocessed_of e s /\ (u_senderKeyId u ∈ sks \/ sks = []) /\
    u_trust u = t /\ u_ownerJid u = j /\ u_id u = k.
Proof.
  unfold keysForPostponed.
  assert (forall us m, (j, k) ∈ foldl (fun m u =>
      if bool_decide (u_senderKeyId u ∈ sks) || bool_decide (sks = [])
      then if eqb (u_trust u) t then mh_insert (u_ownerJid u) (u_id u) m else m else m) m us <->
      (j, k) ∈ m \/ exists u, u ∈ us /\ (u_senderKeyId u ∈ sks \/ sks = []) /\
        u_trust u = t /\ u_ownerJid u = j /\ u_id u = k) as H.
  { induction us as [|u us IH]; intros m; simpl; [set_solver|]. rewrite IH.
    setoid_rewrite elem_of_cons.
    destruct (bool_decide (u_senderKeyId u ∈ sks) || bool_decide (sks = []))%bool eqn:Hs.
    - apply orb_true_iff in Hs. rewrite !bool_decide_eq_true in Hs.
      destruct (eqb (u_trust u) t) eqn:Ht.
      + apply eqb_prop in Ht. unfold mh_insert. rewrite elem_of_cons. naive_solver.
      + apply eqb_false_iff in Ht. naive_solver.
    - apply orb_false_iff in Hs as [? ?]. bools. naive_solver. }
  rewrite H. set_solver.
Qed.

End MemoryFacts.

#[export] Instance Memory_AtmLaws : AtmLaws MemoryStorage.
Proof.
  unshelve econstructor; [exact Memory.unprocessed_of|..];
    unfold trustLevel, securityPolicy, setTrustLevel, setTrustLevelOf, addKeysForPostponed,
      removeKeysForPostponed, removeKeysForPostponedOf, keysForPostponed; simpl; intros; try done.
  - apply MemoryFacts.setTrustLevel_level.
  - by apply MemoryFacts.setTrustLevelOf_level.
  - by apply (MemoryFacts.set_loop_keeps (Memory.securityPolicy e')).
  - by apply (MemoryFacts.set_loop_keeps (Memory.unprocessed_of e')).
  - unfold Memory.addKeysForPostponed in H. rewrite MemoryFacts.unprocessed_of_set in H.
    destruct (decide (e' = e)) as [->|]; [|auto].
    apply MemoryFacts.add_unprocessed_elem in H as [|H]; [auto|right].
    apply elem_of_concat in H as (ds & Hds & Hu).
    apply list_elem_of_fmap in Hds as (ko & -> & Hko).
    apply MemoryFacts.owner_decisions_elem in Hu. naive_solver.
  - unfold Memory.addKeysForPostponed. rewrite MemoryFacts.unprocessed_of_set. simpl.
    by case_decide; subst.
  - apply MemoryFacts.unprocessed_of_set.
  - apply MemoryFacts.unprocessed_of_set.
  - apply MemoryFacts.keysForPostponed_elem.
Defined.
