(* ===== verification/AtmManager.v ===== *)
(** * Automatic trust management (QXmppTrustManager.cpp, QXmppAtmManager.cpp)

    The trust managers over any storage that satisfies the interface of
    TrustStorage: manual trust decisions with the trust messages they send,
    automatic decisions from trust messages, decisions postponed until the
    sender's key is authenticated, and the TOAKAFA policy. Tasks of the storage
    are taken as completed when they return, as those of the memory storages
    are. The recursion through postponed decisions runs on fuel, the number of
    postponed decisions plus two being enough. *)
From S2P Require Import Prelude Utils TrustStorage.

(** QXmppConfiguration's address. *)
Record Configuration := { user : string; domain : string; resource : string }.

Definition jidBare (c : Configuration) : string :=
  if decide (user c = "") then domain c else user c +:+ "@" +:+ domain c.
Definition jid (c : Configuration) : string :=
  if decide (user c = "") then domain c else jidBare c +:+ "/" +:+ resource c.

Definition ns_atm : string := "urn:xmpp:atm:1".

(** QXmppTrustMessageElement, and what handleMessage reads of a QXmppMessage. *)
Record TrustMessageElement := {
  usage : string; tm_encryption : string; keyOwners : list KeyOwner }.
Record Message := {
  from : string;
  trustMessageElement : option TrustMessageElement;
  senderKey : string;               (* empty without e2eeMetadata *)
}.

Record TrustMessage := { tm_to : string; tm_element : TrustMessageElement }.

Record Atm (S : Type) := {
  storage : S;
  trustLevelsChanged : list (string * MultiHash);   (* the signals emitted *)
  sent : list TrustMessage;
}.
Arguments storage {S}. Arguments trustLevelsChanged {S}. Arguments sent {S}.
#[export] Instance Atm_eta {S} : Eta (Atm S) := fun r =>
  {| storage := storage r; trustLevelsChanged := trustLevelsChanged r; sent := sent r |}.

Section Manager.
Context {S : Type} `{AtmTrustStorage S}.
Variable config : Configuration.
(** [!carbonManager || !carbonManager->carbonsEnabled()] *)
Variable isMessageCarbonsDisabled : bool.

(** ** QXmppTrustManager *)

Definition mgr_setTrustLevel (encryption : string) (keyIds : MultiHash) (l : TrustLevel)
    (a : Atm S) : Atm S :=
  let '(modifiedKeys, s) := setTrustLevel encryption keyIds l (storage a) in
  a <| storage := s |>
    <| trustLevelsChanged ::= (fun t => t ++ [(encryption, modifiedKeys)]) |>.

Definition mgr_setTrustLevelOf (encryption : string) (keyOwnerJids : list string)
    (oldTrustLevel newTrustLevel : TrustLevel) (a : Atm S) : Atm S :=
  let '(modifiedKeys, s) :=
    setTrustLevelOf encryption keyOwnerJids oldTrustLevel newTrustLevel (storage a) in
  a <| storage := s |>
    <| trustLevelsChanged ::= (fun t => t ++ [(encryption, modifiedKeys)]) |>.

(** ** Automatic decisions *)

Definition distrustAutomaticallyTrustedKeys (encryption : string) (keyOwnerJids : list string) :=
  mgr_setTrustLevelOf encryption keyOwnerJids AutomaticallyTrusted AutomaticallyDistrusted.

Definition distrust (encryption : string) (keyIds : MultiHash) (a : Atm S) : Atm S :=
  if decide (keyIds = []) then a
  else
    (mgr_setTrustLevel encryption keyIds ManuallyDistrusted a)
      <| storage ::= removeKeysForPostponedOf encryption keyIds.*2 |>.

(** [auth] is authenticate. *)
Definition makeTrustDecisions_by (auth : string -> MultiHash -> Atm S -> option (Atm S))
    (encryption : string) (keyIdsForAuthentication keyIdsForDistrusting : MultiHash)
    (a : Atm S) : option (Atm S) :=
  a ← auth encryption keyIdsForAuthentication a;
  Some (distrust encryption keyIdsForDistrusting a).

Definition makePostponedTrustDecisions_by (auth : string -> MultiHash -> Atm S -> option (Atm S))
    (encryption : string) (senderKeyIds : list string) (a : Atm S) : option (Atm S) :=
  let ks := keysForPostponed encryption senderKeyIds (storage a) in
  let a := a <| storage ::= removeKeysForPostponed encryption (ks true).*2 (ks false).*2 |> in
  makeTrustDecisions_by auth encryption (ks true) (ks false) a.

(** The trust levels authenticate sets before the postponed decisions. *)
Definition authenticate_levels (encryption : string) (keyIds : MultiHash) (a : Atm S) : Atm S :=
  let a := mgr_setTrustLevel encryption keyIds Authenticated a in
  if decide (securityPolicy encryption (storage a) = Toakafa)
  then distrustAutomaticallyTrustedKeys encryption (uniqueKeys keyIds) a else a.

Fixpoint authenticate (fuel : nat) (encryption : string) (keyIds : MultiHash) (a : Atm S) :
    option (Atm S) :=
  match fuel with
  | O => None
  | Datatypes.S fuel =>
      if decide (keyIds = []) then Some a
      else
        makePostponedTrustDecisions_by (authenticate fuel) encryption keyIds.*2
          (authenticate_levels encryption keyIds a)
  end.

Definition makeTrustDecisions (fuel : nat) := makeTrustDecisions_by (authenticate fuel).

(** ** Trust messages received *)

Definition keys_of_owners (part : KeyOwner -> list string) (kos : list KeyOwner) : MultiHash :=
  concat (map (fun ko => map (pair (ko_jid ko)) (part ko)) kos).

Definition isSenderQualified (senderJid : string) (ko : KeyOwner) : bool :=
  bool_decide (senderJid = jidBare config) || bool_decide (senderJid = ko_jid ko).

Definition handleMessage (fuel : nat) (message : Message) (a : Atm S) : option (Atm S) :=
  match trustMessageElement message with
  | Some el =>
      if decide (usage el = ns_atm /\ from message <> jid config) then
        let senderJid := Jid.jidToBareJid (from message) in
        let encryption := tm_encryption el in
        let isSenderKeyAuthenticated :=
          bool_decide (trustLevel encryption senderJid (senderKey message) (storage a)
                       = Authenticated) in
        let qualified := filter (fun ko => isSenderQualified senderJid ko = true) (keyOwners el) in
        let now := if isSenderKeyAuthenticated then qualified else [] in
        let later := if isSenderKeyAuthenticated then [] else qualified in
        makeTrustDecisions fuel encryption (keys_of_owners trustedKeys now)
          (keys_of_owners distrustedKeys now)
          (a <| storage ::= addKeysForPostponed encryption (senderKey message) later |>)
      else Some a
  | None => Some a
  end.

(** ** Manual decisions *)

Definition sendTrustMessage (encryption : string) (kos : list KeyOwner) (recipientJid : string)
    (a : Atm S) : Atm S :=
  a <| sent ::= (fun l => l ++ [{| tm_to := recipientJid;
         tm_element := {| usage := ns_atm; tm_encryption := encryption; keyOwners := kos |} |}]) |>.

Definition has_keys (ko : KeyOwner) : bool :=
  negb (bool_decide (trustedKeys ko = []) && bool_decide (distrustedKeys ko = [])).

(** What is sent after the decisions on own keys: the keys of all contacts and
    the own keys. *)
Definition all_key_owners (authenticatedKeys manuallyDistrustedKeys : MultiHash)
    (ownJid : string) (ownKeyOwner : KeyOwner) : list KeyOwner :=
  let contactsAuthenticatedKeys := mh_remove ownJid authenticatedKeys in
  let contactsManuallyDistrustedKeys := mh_remove ownJid manuallyDistrustedKeys in
  let contactJids :=
    remove_dups (merge_sort String.le (uniqueKeys contactsManuallyDistrustedKeys
                                ++ uniqueKeys contactsAuthenticatedKeys)) in
  map (fun contactJid =>
         {| ko_jid := Jid.jidToBareJid contactJid;
            trustedKeys := mh_values contactJid contactsAuthenticatedKeys;
            distrustedKeys :=
              if decide (contactsManuallyDistrustedKeys = []) then []
              else mh_values contactJid contactsManuallyDistrustedKeys |}) contactJids
  ++ (if has_keys ownKeyOwner then [ownKeyOwner] else []).

Definition makeManualDecisions (fuel : nat) (encryption keyOwnerJid : string)
    (keyIdsForAuthentication keyIdsForDistrusting : list string) (a : Atm S) : option (Atm S) :=
  let keys := keysOfLevel encryption (flags [Authenticated; ManuallyDistrusted]) (storage a) in
  let authenticatedKeys := keys Authenticated in
  let manuallyDistrustedKeys := keys ManuallyDistrusted in
  let ownJid := jidBare config in
  let ownAuthenticatedKeys := mh_values ownJid authenticatedKeys in
  let modifiedAuthenticatedKeys :=
    filter (fun k => mh_contains keyOwnerJid k authenticatedKeys = false) keyIdsForAuthentication in
  let modifiedManuallyDistrustedKeys :=
    filter (fun k => mh_contains keyOwnerJid k manuallyDistrustedKeys = false) keyIdsForDistrusting in
  if decide (modifiedAuthenticatedKeys = [] /\ modifiedManuallyDistrustedKeys = []) then Some a
  else
    let keyOwner := {| ko_jid := Jid.jidToBareJid keyOwnerJid; trustedKeys := modifiedAuthenticatedKeys;
                       distrustedKeys := modifiedManuallyDistrustedKeys |} in
    let keysBeingAuthenticated := map (pair keyOwnerJid) modifiedAuthenticatedKeys in
    let keysBeingDistrusted := map (pair keyOwnerJid) modifiedManuallyDistrustedKeys in
    let ownKeyOwner := {| ko_jid := Jid.jidToBareJid ownJid; trustedKeys := ownAuthenticatedKeys;
                          distrustedKeys := mh_values ownJid manuallyDistrustedKeys |} in
    if decide (keyOwnerJid = ownJid) then
      let contactsAuthenticatedKeys := mh_remove ownJid authenticatedKeys in
      let a := foldl (fun a contactJid => sendTrustMessage encryption [keyOwner] contactJid a) a
                 (uniqueKeys contactsAuthenticatedKeys) in
      let a :=
        if isMessageCarbonsDisabled
           || (bool_decide (contactsAuthenticatedKeys = [])
               && negb (bool_decide (ownAuthenticatedKeys = [])))
        then sendTrustMessage encryption [keyOwner] ownJid a else a in
      a ← makeTrustDecisions fuel encryption keysBeingAuthenticated keysBeingDistrusted a;
      let all := all_key_owners authenticatedKeys manuallyDistrustedKeys ownJid ownKeyOwner in
      Some (if negb (bool_decide (modifiedAuthenticatedKeys = [])) && negb (bool_decide (all = []))
            then sendTrustMessage encryption all ownJid a else a)
    else
      let a := if decide (ownAuthenticatedKeys = []) then a
               else sendTrustMessage encryption [keyOwner] ownJid a in
      a ← makeTrustDecisions fuel encryption keysBeingAuthenticated keysBeingDistrusted a;
      Some (if negb (bool_decide (modifiedAuthenticatedKeys = [])) && has_keys ownKeyOwner
            then sendTrustMessage encryption [ownKeyOwner] keyOwnerJid a else a).

End Manager.

(** ** Justified decisions

    The decisions that follow from the keys [A] to authenticate and [D] to
    distrust when the decisions [P] are postponed. The storage keeps the key
    id of a postponed decision's sender without the sender, so the decision
    follows once that key id is authenticated for anybody; [authorised] below
    is the stricter notion that the code's comments describe. *)
Inductive justified (P : list UnprocessedKey) (A D : MultiHash) : bool -> string -> string -> Prop :=
  | just_auth j k : (j, k) ∈ A -> justified P A D true j k
  | just_distrust j k : (j, k) ∈ D -> justified P A D false j k
  | just_postponed j u :
      justified P A D true j (u_senderKeyId u) -> u ∈ P ->
      justified P A D (u_trust u) (u_ownerJid u) (u_id u).
#[export] Hint Constructors justified : qx.

Lemma justified_mono P A D P' A' D' t j k :
  justified P A D t j k ->
  (forall u, u ∈ P -> u ∈ P') ->
  (forall j k, (j, k) ∈ A -> justified P' A' D' true j k) ->
  (forall j k, (j, k) ∈ D -> justified P' A' D' false j k) ->
  justified P' A' D' t j k.
Proof. induction 1; eauto with qx. Qed.

Section Theory.
Context {S : Type} `{AtmLaws S}.
Implicit Types (a : Atm S) (e : string) (ks A D : MultiHash).

Notation level a e j k := (trustLevel e j k (storage a)).
Notation policy a e := (securityPolicy e (storage a)).
Notation pending a e := (postponed e (storage a)).

(** What a run of decisions may do to the encryption [e]. *)
Record allowed e A D (a a' : Atm S) : Prop := {
  al_level j k :
    level a' e j k = level a e j k \/
    level a' e j k = Authenticated /\ justified (pending a e) A D true j k \/
    level a' e j k = ManuallyDistrusted /\ justified (pending a e) A D false j k \/
    level a' e j k = AutomaticallyDistrusted /\ level a e j k = AutomaticallyTrusted /\
      policy a e = Toakafa /\ exists k', justified (pending a e) A D true j k';
  al_pending u : u ∈ pending a' e -> u ∈ pending a e;
  al_length : (length (pending a' e) <= length (pending a e))%nat;
  al_policy e' : policy a' e' = policy a e';
  al_other e' j k : e' <> e -> level a' e' j k = level a e' j k;
  al_other_pending e' : e' <> e -> pending a' e' = pending a e';
  al_sent : sent a' = sent a;
}.

Lemma allowed_refl e A D a : allowed e A D a a.
Proof. split; eauto. Qed.

(** Two runs in a row, each justified by what the whole run is. *)
Lemma allowed_trans e A D A1 D1 A2 D2 a a1 a2 :
  allowed e A1 D1 a a1 -> allowed e A2 D2 a1 a2 ->
  (forall t j k, justified (pending a e) A1 D1 t j k -> justified (pending a e) A D t j k) ->
  (forall t j k, justified (pending a1 e) A2 D2 t j k -> justified (pending a e) A D t j k) ->
  allowed e A D a a2.
Proof.
  intros [L1 P1 N1 O1 E1 F1 S1] [L2 P2 N2 O2 E2 F2 S2] J1 J2. split; eauto with lia; try congruence.
  - intros j k. specialize (L1 j k). specialize (L2 j k). rewrite O1 in L2.
    destruct L2 as [L2|[[]|[[]|(? & L2 & ? & k' & ?)]]]; [|by eauto 6..|].
    + rewrite L2. destruct L1 as [|[[]|[[]|(? & ? & ? & k' & ?)]]]; eauto 10.
    + destruct L1 as [L1|[[]|[[]|(? & ? & ? & k'' & ?)]]]; [|congruence..].
      rewrite L1 in L2. eauto 10.
  - intros. rewrite E2, E1; done.
  - intros. rewrite F2, F1; done.
Qed.

(** ** The single steps *)

Lemma setTrustLevel_storage e ks l a :
  storage (mgr_setTrustLevel e ks l a) = (setTrustLevel e ks l (storage a)).2 /\
  sent (mgr_setTrustLevel e ks l a) = sent a.
Proof. unfold mgr_setTrustLevel. by destruct (setTrustLevel _ _ _ _). Qed.

Lemma setTrustLevelOf_storage e js o n a :
  storage (mgr_setTrustLevelOf e js o n a) = (setTrustLevelOf e js o n (storage a)).2 /\
  sent (mgr_setTrustLevelOf e js o n a) = sent a.
Proof. unfold mgr_setTrustLevelOf. by destruct (setTrustLevelOf _ _ _ _ _). Qed.

Lemma authenticate_level_levels e ks a j k :
  level (authenticate_levels e ks a) e j k =
  if decide ((j, k) ∈ ks) then Authenticated
  else if decide (policy a e = Toakafa /\ j ∈ uniqueKeys ks /\ level a e j k = AutomaticallyTrusted)
  then AutomaticallyDistrusted else level a e j k.
Proof.
  unfold authenticate_levels, distrustAutomaticallyTrustedKeys.
  destruct (setTrustLevel_storage e ks Authenticated a) as [-> _].
  rewrite policy_setTrustLevel. destruct (decide (policy a e = Toakafa)) as [Hp|Hp].
  - rewrite (proj1 (setTrustLevelOf_storage _ _ _ _ _)), level_setTrustLevelOf by done.
    rewrite (proj1 (setTrustLevel_storage e ks Authenticated a)), !level_setTrustLevel.
    repeat case_decide; naive_solver.
  - rewrite (proj1 (setTrustLevel_storage e ks Authenticated a)), !level_setTrustLevel.
    repeat case_decide; naive_solver.
Qed.

Lemma authenticate_levels_pending e ks a e' : pending (authenticate_levels e ks a) e' = pending a e'.
Proof.
  unfold authenticate_levels, distrustAutomaticallyTrustedKeys. case_decide.
  - rewrite (proj1 (setTrustLevelOf_storage _ _ _ _ _)), postponed_setTrustLevelOf.
    by rewrite (proj1 (setTrustLevel_storage _ _ _ _)), postponed_setTrustLevel.
  - by rewrite (proj1 (setTrustLevel_storage _ _ _ _)), postponed_setTrustLevel.
Qed.

Lemma authenticate_levels_allowed e ks a : allowed e ks [] a (authenticate_levels e ks a).
Proof.
  split.
  - intros j k. rewrite authenticate_level_levels. repeat case_decide; eauto 6 with qx.
    destruct_and?. right. right. right. repeat split; try done.
    destruct (proj1 (elem_of_uniqueKeys j ks)) as [k' ?]; [done|]. eauto with qx.
  - intros u. by rewrite authenticate_levels_pending.
  - by rewrite authenticate_levels_pending.
  - intros e'. unfold authenticate_levels, distrustAutomaticallyTrustedKeys. case_decide.
    + rewrite (proj1 (setTrustLevelOf_storage _ _ _ _ _)), policy_setTrustLevelOf.
      by rewrite (proj1 (setTrustLevel_storage _ _ _ _)), policy_setTrustLevel.
    + by rewrite (proj1 (setTrustLevel_storage _ _ _ _)), policy_setTrustLevel.
  - intros e' j k Hne. unfold authenticate_levels, distrustAutomaticallyTrustedKeys. case_decide.
    + rewrite (proj1 (setTrustLevelOf_storage _ _ _ _ _)), level_setTrustLevelOf by done.
      rewrite decide_False by naive_solver.
      rewrite (proj1 (setTrustLevel_storage _ _ _ _)), level_setTrustLevel.
      by rewrite decide_False by naive_solver.
    + rewrite (proj1 (setTrustLevel_storage _ _ _ _)), level_setTrustLevel.
      by rewrite decide_False by naive_solver.
  - intros. by rewrite authenticate_levels_pending.
  - unfold authenticate_levels, distrustAutomaticallyTrustedKeys. case_decide.
    + rewrite (proj2 (setTrustLevelOf_storage _ _ _ _ _)). apply setTrustLevel_storage.
    + apply setTrustLevel_storage.
Qed.

Lemma distrust_level e ks a e' j k :
  level (distrust e ks a) e' j k =
  if decide (e' = e /\ (j, k) ∈ ks) then ManuallyDistrusted else level a e' j k.
Proof.
  unfold distrust. case_decide as Hks.
  - subst. rewrite decide_False; [done|]. intros [_ Hin]. by apply elem_of_nil in Hin.
  - simpl. rewrite level_removePostponedOf.
    by rewrite (proj1 (setTrustLevel_storage _ _ _ _)), level_setTrustLevel.
Qed.

Lemma distrust_pending e ks a e' :
  pending (distrust e ks a) e' =
  if decide (e' = e) then filter (fun u => ~ (u_senderKeyId u ∈ ks.*2)) (pending a e)
  else pending a e'.
Proof.
  unfold distrust. case_decide as Hks.
  - subst. simpl. case_decide; [subst|done]. symmetry. apply filter_all.
    apply Forall_forall. intros u _ Hin. by apply elem_of_nil in Hin.
  - simpl. rewrite postponed_removeOf.
    by rewrite (proj1 (setTrustLevel_storage _ _ _ _)), !postponed_setTrustLevel.
Qed.

Lemma distrust_allowed e ks a : allowed e [] ks a (distrust e ks a).
Proof.
  split.
  - intros j k. rewrite distrust_level. case_decide; [|auto].
    destruct_and?. eauto 6 with qx.
  - intros u. rewrite distrust_pending, decide_True by done. rewrite list_elem_of_filter. tauto.
  - rewrite distrust_pending, decide_True by done. apply length_filter.
  - intros e'. unfold distrust. case_decide; [done|]. simpl.
    by rewrite policy_removePostponedOf, (proj1 (setTrustLevel_storage _ _ _ _)), policy_setTrustLevel.
  - intros e' j k Hne. rewrite distrust_level. by rewrite decide_False by naive_solver.
  - intros e' Hne. by rewrite distrust_pending, decide_False.
  - unfold distrust. case_decide; [done|]. simpl. apply setTrustLevel_storage.
Qed.

(** ** Runs *)

Definition auth_allowed (auth : string -> MultiHash -> Atm S -> option (Atm S)) : Prop :=
  forall e ks a a', auth e ks a = Some a' -> allowed e ks [] a a'.

Lemma makeTrustDecisions_by_allowed auth e A D a a' :
  auth_allowed auth -> makeTrustDecisions_by auth e A D a = Some a' -> allowed e A D a a'.
Proof.
  unfold makeTrustDecisions_by. intros Hauth Hrun.
  destruct (auth e A a) as [a1|] eqn:Ha; simplify_eq/=.
  apply Hauth in Ha. eapply allowed_trans; [exact Ha|apply distrust_allowed|..].
  - intros t j k Hj. eapply justified_mono; eauto with qx. intros ? ? Hin. by apply elem_of_nil in Hin.
  - intros t j k Hj. eapply justified_mono; eauto using al_pending with qx.
    intros ? ? Hin. by apply elem_of_nil in Hin.
Qed.

(** The keys of the postponed decisions sent with the keys of [ks]. *)
Lemma postponed_keys e ks a t j k : ks <> [] ->
  (j, k) ∈ keysForPostponed e ks.*2 (storage a) t <->
  exists j' u, (j', u_senderKeyId u) ∈ ks /\ u ∈ pending a e /\
    u_trust u = t /\ u_ownerJid u = j /\ u_id u = k.
Proof.
  intros Hks. rewrite keysForPostponed_spec. split.
  - intros (u & Hu & [Hin|Hin] & ?); [|by destruct ks].
    apply list_elem_of_fmap in Hin as ([j' k'] & Hk & Hin). simpl in *.
    exists j', u. by rewrite Hk.
  - intros (j' & u & Hin & Hu & ?). exists u. split_and!; [done| |naive_solver..].
    left. apply list_elem_of_fmap. by exists (j', u_senderKeyId u).
Qed.

(** Taking out the decisions that are made now. *)
Notation take_out e ks a :=
  (a <| storage ::= removeKeysForPostponed e (keysForPostponed e ks (storage a) true).*2
                      (keysForPostponed e ks (storage a) false).*2 |>).

Lemma take_out_pending e (sks : list string) a e' :
  pending (take_out e sks a) e' =
  if decide (e' = e)
  then filter (fun u => ~ (u_id u ∈ (keysForPostponed e sks (storage a) (u_trust u)).*2)) (pending a e)
  else pending a e'.
Proof.
  simpl. rewrite postponed_remove. case_decide; [|done].
  apply list_filter_iff. intros u. by destruct (u_trust u).
Qed.

Lemma take_out_allowed e (sks : list string) a A D : allowed e A D a (take_out e sks a).
Proof.
  split.
  - intros j k. left. simpl. apply level_removePostponed.
  - intros u. rewrite take_out_pending, decide_True by done. rewrite list_elem_of_filter. tauto.
  - rewrite take_out_pending, decide_True by done. apply length_filter.
  - intros. simpl. apply policy_removePostponed.
  - intros. simpl. apply level_removePostponed.
  - intros e' Hne. by rewrite take_out_pending, decide_False.
  - done.
Qed.

Lemma take_out_shrinks e (sks : list string) a :
  keysForPostponed e sks (storage a) true <> [] ->
  (length (pending (take_out e sks a) e) < length (pending a e))%nat.
Proof.
  intros Hks. rewrite take_out_pending, decide_True by done.
  destruct (keysForPostponed e sks (storage a) true) as [|[j k] l] eqn:Hl; [done|].
  assert ((j, k) ∈ keysForPostponed e sks (storage a) true) as Hin by (rewrite Hl; set_solver).
  pose proof Hin as Hin'. apply keysForPostponed_spec in Hin' as (u & Hu & _ & Ht & <- & <-).
  apply length_filter_lt with (x := u); [done|]. rewrite Ht. intros Hn. apply Hn.
  apply list_elem_of_fmap. by exists (u_ownerJid u, u_id u).
Qed.

Lemma makePostponed_allowed auth e ks a a' :
  auth_allowed auth -> ks <> [] ->
  makePostponedTrustDecisions_by auth e ks.*2 a = Some a' -> allowed e ks [] a a'.
Proof.
  intros Hauth Hks Hrun. unfold makePostponedTrustDecisions_by in Hrun.
  apply (makeTrustDecisions_by_allowed _ _ _ _ _ _ Hauth) in Hrun.
  eapply allowed_trans; [apply (take_out_allowed e ks.*2 a ks [])|exact Hrun|done|].
  intros t j k Hj. eapply justified_mono; [exact Hj|..].
  - apply (al_pending _ _ _ _ _ (take_out_allowed e ks.*2 a [] [])).
  - intros j' k' (j0 & u & ? & ? & Ht & <- & <-)%(postponed_keys e ks a true); [|done].
    rewrite <-Ht. eauto with qx.
  - intros j' k' (j0 & u & ? & ? & Ht & <- & <-)%(postponed_keys e ks a false); [|done].
    rewrite <-Ht. eauto with qx.
Qed.

Lemma authenticate_allowed n : auth_allowed (authenticate n).
Proof.
  induction n as [|n IH]; intros e ks a a' Hrun; simpl in Hrun; [done|].
  case_decide as Hks; [simplify_eq; apply allowed_refl|].
  apply makePostponed_allowed in Hrun; [|done..].
  eapply allowed_trans; [apply authenticate_levels_allowed|exact Hrun|done|].
  by rewrite authenticate_levels_pending.
Qed.

Lemma makeTrustDecisions_allowed n e A D a a' :
  makeTrustDecisions n e A D a = Some a' -> allowed e A D a a'.
Proof. apply makeTrustDecisions_by_allowed, authenticate_allowed. Qed.

(** ** Termination *)

Lemma authenticate_terminates n e ks a :
  (length (pending a e) + 1 < n)%nat -> is_Some (authenticate n e ks a).
Proof.
  revert ks a. induction n as [|n IH]; intros ks a Hn; [lia|]. simpl.
  case_decide as Hks; [by eexists|].
  unfold makePostponedTrustDecisions_by, makeTrustDecisions_by.
  set (a1 := authenticate_levels e ks a).
  assert (pending a1 e = pending a e) as Hp by apply authenticate_levels_pending.
  set (A := keysForPostponed e ks.*2 (storage a1) true).
  destruct (decide (A = [])) as [HA|HA].
  - rewrite HA. destruct n; [lia|]. simpl. eauto.
  - destruct (IH A (take_out e ks.*2 a1)) as [a2 Ha2].
    { pose proof (take_out_shrinks e ks.*2 a1 HA). rewrite Hp in *. lia. }
    subst A. rewrite Ha2. simpl. eauto.
Qed.

Lemma makeTrustDecisions_terminates n e A D a :
  (length (pending a e) + 1 < n)%nat -> is_Some (makeTrustDecisions n e A D a).
Proof.
  intros Hn. unfold makeTrustDecisions, makeTrustDecisions_by.
  destruct (authenticate_terminates n e A a Hn) as [a' ->]. simpl. eauto.
Qed.

(** ** The decisions are made *)

(** A decision to trust [j]'s key [k], unless another one distrusts it. *)
Definition decided e A D a a' j k : Prop :=
  level a' e j k = Authenticated \/
  level a' e j k = ManuallyDistrusted /\ justified (pending a e) A D false j k.

Lemma decided_later e A D a a1 a2 j k :
  level a1 e j k = Authenticated -> allowed e A D a1 a2 ->
  (forall t j k, justified (pending a1 e) A D t j k -> justified (pending a e) A D t j k) ->
  decided e A D a a2 j k.
Proof.
  intros Ha Hal Hj. destruct (al_level _ _ _ _ _ Hal j k) as [Hl|[[Hl _]|[[Hl ?]|(_ & Hl & _)]]].
  - left. congruence.
  - by left.
  - right. auto.
  - congruence.
Qed.

Lemma justified_pending P P' A D t j k :
  (forall u, u ∈ P -> u ∈ P') -> justified P A D t j k -> justified P' A D t j k.
Proof. intros HP Hj. eapply justified_mono; eauto with qx. Qed.

Lemma justified_empty P A1 A D t j k :
  (forall j k, (j, k) ∈ A1 -> (j, k) ∈ A) ->
  justified P A1 [] t j k -> justified P A D t j k.
Proof.
  intros HA Hj. eapply justified_mono; eauto with qx. intros ? ? Hin. by apply elem_of_nil in Hin.
Qed.

Lemma authenticate_decides n e ks a a' j k :
  authenticate n e ks a = Some a' -> (j, k) ∈ ks -> decided e ks [] a a' j k.
Proof.
  destruct n as [|n]; [done|]. simpl. intros Hrun Hin.
  rewrite decide_False in Hrun by (intros ->; by apply elem_of_nil in Hin).
  apply makePostponed_allowed in Hrun; [|apply authenticate_allowed|by intros ->; apply elem_of_nil in Hin].
  eapply decided_later; [|exact Hrun|by rewrite authenticate_levels_pending].
  by rewrite authenticate_level_levels, decide_True.
Qed.

Lemma makeTrustDecisions_decides n e A D a a' j k :
  makeTrustDecisions n e A D a = Some a' -> (j, k) ∈ A -> decided e A D a a' j k.
Proof.
  unfold makeTrustDecisions, makeTrustDecisions_by. intros Hrun Hin.
  destruct (authenticate n e A a) as [a1|] eqn:Ha; simplify_eq/=. unfold decided.
  rewrite distrust_level. case_decide; [destruct_and?; eauto with qx|].
  destruct (authenticate_decides _ _ _ _ _ _ _ Ha Hin) as [|[? ?]]; [auto|].
  right. split; [done|]. by eapply justified_empty.
Qed.

Lemma makeTrustDecisions_distrusts n e A D a a' j k :
  makeTrustDecisions n e A D a = Some a' -> (j, k) ∈ D -> level a' e j k = ManuallyDistrusted.
Proof.
  unfold makeTrustDecisions, makeTrustDecisions_by. intros Hrun Hin.
  destruct (authenticate n e A a) as [a1|]; simplify_eq/=.
  by rewrite distrust_level, decide_True.
Qed.

Lemma distrust_keeps_distrust e D a j k :
  level a e j k = ManuallyDistrusted -> level (distrust e D a) e j k = ManuallyDistrusted.
Proof. intros Hl. rewrite distrust_level. by case_decide. Qed.

(** The postponed decisions of the keys that are authenticated. *)
Lemma authenticate_postponed n e ks a a' j u :
  authenticate n e ks a = Some a' -> (j, u_senderKeyId u) ∈ ks -> u ∈ pending a e ->
  if u_trust u then decided e ks [] a a' (u_ownerJid u) (u_id u)
  else level a' e (u_ownerJid u) (u_id u) = ManuallyDistrusted.
Proof.
  destruct n as [|n]; [done|]. simpl. intros Hrun Hin Hu.
  assert (ks <> []) as Hks by (intros ->; by apply elem_of_nil in Hin).
  rewrite decide_False in Hrun by done. unfold makePostponedTrustDecisions_by in Hrun.
  set (a1 := authenticate_levels e ks a) in *.
  assert (pending a1 e = pending a e) as Hp by apply authenticate_levels_pending.
  assert (forall t, u_trust u = t ->
    (u_ownerJid u, u_id u) ∈ keysForPostponed e ks.*2 (storage a1) t) as Hk.
  { intros t Ht. apply postponed_keys; [done|]. exists j, u. by rewrite Hp. }
  destruct (u_trust u); [|by eapply makeTrustDecisions_distrusts in Hrun; [|apply Hk]].
  pose proof (makeTrustDecisions_decides _ _ _ _ _ _ _ _ Hrun (Hk true eq_refl)) as [|[Hl Hj]];
    [by left|right]. split; [done|].
  eapply justified_mono; [exact Hj|..].
  - intros v Hv. rewrite <-Hp. by eapply al_pending; [apply (take_out_allowed e ks.*2 a1 [] [])|].
  - intros j' k' (j0 & v & ? & ? & Ht & <- & <-)%(postponed_keys e ks a1 true); [|done].
    rewrite Hp in *. rewrite <-Ht. eauto with qx.
  - intros j' k' (j0 & v & ? & ? & Ht & <- & <-)%(postponed_keys e ks a1 false); [|done].
    rewrite Hp in *. rewrite <-Ht. eauto with qx.
Qed.

(** Under TOAKAFA the owners keep no automatically trusted key. *)
Lemma authenticate_toakafa n e ks a a' j k k' :
  authenticate n e ks a = Some a' -> (j, k) ∈ ks -> policy a e = Toakafa ->
  level a' e j k' <> AutomaticallyTrusted.
Proof.
  destruct n as [|n]; [done|]. simpl. intros Hrun Hin Hp Hl.
  assert (ks <> []) as Hks by (intros ->; by apply elem_of_nil in Hin).
  rewrite decide_False in Hrun by done.
  apply makePostponed_allowed in Hrun; [|apply authenticate_allowed|done].
  destruct (al_level _ _ _ _ _ Hrun j k') as [Hk|[[? _]|[[? _]|(? & _)]]]; [|congruence..].
  rewrite Hl, authenticate_level_levels in Hk.
  assert (j ∈ uniqueKeys ks) by (apply elem_of_uniqueKeys; eauto).
  repeat case_decide; naive_solver.
Qed.

Lemma justified_trusting P A t j k :
  Forall (fun u => u_trust u = true) P -> justified P A [] t j k -> t = true.
Proof.
  intros HP. induction 1 as [|j k Hin|j u _ _ Hu]; [done|by apply elem_of_nil in Hin|].
  rewrite Forall_forall in HP. auto.
Qed.

(** *** Everything that follows is decided *)

(** Postponed decisions that all trust, and that agree on the owner of a key id. *)
Definition trusting (P : list UnprocessedKey) : Prop := Forall (fun u => u_trust u = true) P.
Definition one_owner (P : list UnprocessedKey) : Prop :=
  forall u v, u ∈ P -> v ∈ P -> u_id u = u_id v -> u_ownerJid u = u_ownerJid v.

(** What follows from the keys [ks] is one of them, or follows from the decisions that were
    sent with them. *)
Lemma justified_next e ks a t j k : ks <> [] -> trusting (pending a e) -> one_owner (pending a e) ->
  justified (pending a e) ks [] t j k ->
  (j, k) ∈ ks \/
  justified (pending (take_out e ks.*2 a) e) (keysForPostponed e ks.*2 (storage a) true) [] t j k.
Proof.
  intros Hks Ht Ho. unfold trusting in Ht. rewrite Forall_forall in Ht.
  induction 1 as [j k Hin|j k Hin|j u Hj IH Hu]; [by left|by apply elem_of_nil in Hin|right].
  rewrite (Ht u Hu). destruct IH as [Hin|IH].
  - apply just_auth. apply postponed_keys; [done|]. exists j, u. by rewrite (Ht u Hu).
  - destruct (decide (u_id u ∈ (keysForPostponed e ks.*2 (storage a) true).*2)) as [Hin|Hout].
    + apply list_elem_of_fmap in Hin as ([j' k'] & Hk & Hin). simpl in Hk. subst k'.
      pose proof Hin as Hin'. apply postponed_keys in Hin' as (j0 & v & _ & Hv & _ & <- & Hid); [|done].
      rewrite (Ho u v Hu Hv) by done. by apply just_auth.
    + rewrite <-(Ht u Hu) at 3. apply (just_postponed _ _ _ j); [exact IH|].
      rewrite take_out_pending, decide_True by done. apply list_elem_of_filter.
      split; [by rewrite (Ht u Hu)|done].
Qed.

Lemma authenticate_all n e ks a a' j k :
  authenticate n e ks a = Some a' -> trusting (pending a e) -> one_owner (pending a e) ->
  justified (pending a e) ks [] true j k ->
  level a' e j k = Authenticated /\
  (policy a e = Toakafa -> forall k', level a' e j k' <> AutomaticallyTrusted).
Proof.
  revert ks a a' j k. induction n as [|n IH]; intros ks a a' j k Hrun Ht Ho Hj; [done|].
  destruct (decide (ks = [])) as [->|Hks].
  { exfalso. remember true as t. clear -Hj. induction Hj as [j k Hin|j k Hin|]; [by apply elem_of_nil in Hin..|done]. }
  pose proof Hrun as Hrun'. simpl in Hrun. rewrite decide_False in Hrun by done.
  set (a1 := authenticate_levels e ks a) in *.
  assert (pending a1 e = pending a e) as Hp by apply authenticate_levels_pending.
  rewrite <-Hp in Ht, Ho, Hj. pose proof (justified_next e ks a1 true j k Hks Ht Ho Hj) as Hnext.
  pose proof (makePostponed_allowed _ _ _ _ _ (authenticate_allowed n) Hks Hrun) as Hal.
  destruct Hnext as [Hin|Hnext].
  - split; [|intros Hpol k'; by eapply authenticate_toakafa].
    assert (level a1 e j k = Authenticated) as Hl
      by (unfold a1; by rewrite authenticate_level_levels, decide_True).
    destruct (al_level _ _ _ _ _ Hal j k) as [E|[[E _]|[[_ E]|(_ & E & _)]]]; [congruence|done| |congruence].
    by apply justified_trusting in E.
  - unfold makePostponedTrustDecisions_by, makeTrustDecisions_by in Hrun.
    pose proof (take_out_allowed e ks.*2 a1 [] []) as Hout. set (a2 := take_out e ks.*2 a1) in *.
    assert (keysForPostponed e ks.*2 (storage a1) false = []) as HD.
    { destruct (keysForPostponed e ks.*2 (storage a1) false) as [|[j' k'] l] eqn:E; [done|].
      assert ((j', k') ∈ keysForPostponed e ks.*2 (storage a1) false) as Hin by (rewrite E; left).
      apply postponed_keys in Hin as (_ & u & _ & Hu & Hf & _); [|done].
      unfold trusting in Ht. rewrite Forall_forall in Ht. by rewrite Ht in Hf. }
    rewrite HD in Hrun. set (A := keysForPostponed e ks.*2 (storage a1) true) in *. clearbody a2.
    destruct (authenticate n e A a2) as [a3|] eqn:Ha3; [|done]. injection Hrun as <-.
    assert (policy a2 e = policy a e) as Hpol.
    { rewrite (al_policy _ _ _ _ _ Hout). apply (al_policy _ _ _ _ _ (authenticate_levels_allowed e ks a)). }
    rewrite <-Hpol. apply (IH A a2); [done| | |exact Hnext].
    + unfold trusting in *. rewrite Forall_forall in *. intros u Hu. by apply Ht, (al_pending _ _ _ _ _ Hout).
    + intros u v Hu Hv. by apply Ho; apply (al_pending _ _ _ _ _ Hout).
Qed.

(** ** Messages *)

Variable config : Configuration.

(** The keys a message decides on for which its sender may decide. *)
Definition sender_keys (part : KeyOwner -> list string) (message : Message)
    (el : TrustMessageElement) : MultiHash :=
  keys_of_owners part
    (filter (fun ko => isSenderQualified config (Jid.jidToBareJid (from message)) ko = true)
       (keyOwners el)).

(** Messages that are handled: ATM messages not sent by this client. *)
Definition handled (message : Message) (el : TrustMessageElement) : Prop :=
  trustMessageElement message = Some el /\ usage el = ns_atm /\ from message <> jid config.

Definition sender_level (message : Message) (el : TrustMessageElement) a : TrustLevel :=
  level a (tm_encryption el) (Jid.jidToBareJid (from message)) (senderKey message).

Lemma handleMessage_authenticated n message el a : handled message el ->
  sender_level message el a = Authenticated ->
  handleMessage config n message a =
  makeTrustDecisions n (tm_encryption el) (sender_keys trustedKeys message el)
    (sender_keys distrustedKeys message el)
    (a <| storage ::= addKeysForPostponed (tm_encryption el) (senderKey message) [] |>).
Proof.
  intros (Hel & Hu & Hf) Hl. unfold handleMessage. rewrite Hel, decide_True by done.
  by rewrite bool_decide_eq_true_2.
Qed.

Lemma handleMessage_postponed n message el a : handled message el ->
  sender_level message el a <> Authenticated ->
  exists kos, handleMessage config (Datatypes.S n) message a =
    Some (a <| storage ::= addKeysForPostponed (tm_encryption el) (senderKey message) kos |>).
Proof.
  intros (Hel & Hu & Hf) Hl. unfold handleMessage. rewrite Hel, decide_True by done.
  rewrite bool_decide_eq_false_2 by done. eexists. reflexivity.
Qed.

Lemma handleMessage_unhandled n message a :
  (forall el, ~ handled message el) -> handleMessage config n message a = Some a.
Proof.
  intros Hn. unfold handleMessage. destruct (trustMessageElement message) as [el|] eqn:Hel; [|done].
  rewrite decide_False; [done|]. intros [? ?]. by apply (Hn el).
Qed.

(** Storing no decision is no step. *)
Lemma add_nothing e e' sk a A D n a' :
  makeTrustDecisions n e A D (a <| storage ::= addKeysForPostponed e' sk [] |>) = Some a' ->
  allowed e A D (a <| storage ::= addKeysForPostponed e' sk [] |>) a' /\
  pending (a <| storage ::= addKeysForPostponed e' sk [] |>) e = pending a e.
Proof.
  intros Hrun. split; [by apply makeTrustDecisions_allowed in Hrun|]. simpl. apply postponed_add_nil.
Qed.

(** *** One message *)

(** A new level, by decisions for which [just] holds. *)
Definition changed_by (just : bool -> string -> string -> Prop) e a a' j k : Prop :=
  level a' e j k = Authenticated /\ just true j k \/
  level a' e j k = ManuallyDistrusted /\ just false j k \/
  level a' e j k = AutomaticallyDistrusted /\ level a e j k = AutomaticallyTrusted /\
    policy a e = Toakafa /\ exists k', just true j k'.
Lemma changed_by_mono (just just' : bool -> string -> string -> Prop) e a a' j k :
  (forall t j k, just t j k -> just' t j k) ->
  changed_by just e a a' j k -> changed_by just' e a a' j k.
Proof. unfold changed_by. naive_solver. Qed.

Lemma message_justified n message a a' e j k :
  handleMessage config n message a = Some a' -> level a' e j k <> level a e j k ->
  exists el, handled message el /\ tm_encryption el = e /\
    sender_level message el a = Authenticated /\
    changed_by (justified (pending a e) (sender_keys trustedKeys message el)
      (sender_keys distrustedKeys message el)) e a a' j k.
Proof.
  intros Hrun Hne. destruct (trustMessageElement message) as [el|] eqn:Hel.
  2:{ rewrite handleMessage_unhandled in Hrun; [by simplify_eq|]. intros ? [? _]. congruence. }
  destruct (decide (usage el = ns_atm /\ from message <> jid config)) as [[Hu Hf]|Hn].
  2:{ rewrite handleMessage_unhandled in Hrun; [by simplify_eq|].
      intros el' (? & ? & ?). apply Hn. by simplify_eq. }
  assert (handled message el) as Hh by done.
  destruct (decide (sender_level message el a = Authenticated)) as [Hs|Hs].
  - rewrite (handleMessage_authenticated n message el a) in Hrun by done.
    apply add_nothing in Hrun as [Hal Hp]. exists el.
    destruct (decide (tm_encryption el = e)) as [<-|He].
    + pose proof (al_level _ _ _ _ _ Hal j k) as Hl. rewrite Hp in Hl. simpl in Hl.
      rewrite level_addPostponed, policy_addPostponed in Hl. split_and!; [done..|]. destruct Hl as [?|Hl]; [congruence|exact Hl].
    + destruct Hne. rewrite (al_other _ _ _ _ _ Hal) by done. simpl. apply level_addPostponed.
  - destruct n as [|n].
    + unfold handleMessage in Hrun. by rewrite Hel, decide_True in Hrun.
    + destruct (handleMessage_postponed n message el a Hh Hs) as [kos Hk].
      rewrite Hk in Hrun. simplify_eq. destruct Hne. simpl. apply level_addPostponed.
Qed.

(** *** Runs *)

(** What happens to a manager: messages arrive and the user decides. *)
Inductive AtmEvent :=
  | MessageReceived (message : Message)
  | KeysDecided (carbonsDisabled : bool) (encryption owner : string) (auths dists : list string).
Definition atm_step (n : nat) (ev : AtmEvent) a : option (Atm S) :=
  match ev with
  | MessageReceived message => handleMessage config n message a
  | KeysDecided cd e owner auths dists => makeManualDecisions config cd n e owner auths dists a
  end.
Definition atm_run_events (n : nat) (evs : list AtmEvent) a : option (Atm S) :=
  foldl (fun r ev => a ← r; atm_step n ev a) (Some a) evs.

Definition decisions (t : bool) (ko : KeyOwner) : list string := if t then trustedKeys ko else distrustedKeys ko.
(** The bare address of the sender. *)
Definition sender (message : Message) : string := Jid.jidToBareJid (from message).

(** A message of the encryption [e] that decides on a key as its sender may. *)
Definition says e (message : Message) (t : bool) (j k : string) : Prop :=
  exists el, handled message el /\ tm_encryption el = e /\ (j, k) ∈ sender_keys (decisions t) message el.

(** The decisions that follow from a message of an authenticated key: those it makes, and those
    that an earlier message made whose sender's own key is authenticated by them. *)
Inductive authorised e (evs : list AtmEvent) (message : Message) : bool -> string -> string -> Prop :=
  | authorised_now t j k : says e message t j k -> authorised e evs message t j k
  | authorised_earlier m t j k :
      MessageReceived m ∈ evs -> says e m t j k ->
      authorised e evs message true (sender m) (senderKey m) ->
      authorised e evs message t j k.
#[local] Hint Constructors authorised : qx.

(** No message claims that somebody else owns a key with which a message was sent. *)
Definition key_ids_identify e (evs : list AtmEvent) : Prop :=
  forall m m' j, MessageReceived m ∈ evs -> MessageReceived m' ∈ evs ->
    says e m' true j (senderKey m) -> j = sender m.

(** The postponed decisions were made by messages of the run. *)
Definition recorded (evs : list AtmEvent) a : Prop :=
  forall e u, u ∈ pending a e -> exists m, MessageReceived m ∈ evs /\ senderKey m = u_senderKeyId u /\
    says e m (u_trust u) (u_ownerJid u) (u_id u).

Lemma recorded_fewer evs evs' a a' : recorded evs a ->
  (forall e u, u ∈ pending a' e -> u ∈ pending a e) -> (forall ev, ev ∈ evs -> ev ∈ evs') -> recorded evs' a'.
Proof. intros Hr Hp Hin e u Hu. destruct (Hr e u (Hp _ _ Hu)) as (m & ? & ? & ?). exists m. auto. Qed.

Lemma decisions_fewer n e A D a a' : makeTrustDecisions n e A D a = Some a' ->
  forall e' u, u ∈ pending a' e' -> u ∈ pending a e'.
Proof.
  intros Hal%makeTrustDecisions_allowed e' u. destruct (decide (e' = e)) as [->|He].
  - apply (al_pending _ _ _ _ _ Hal).
  - by rewrite (al_other_pending _ _ _ _ _ Hal).
Qed.
Lemma sends_storage e kos js a :
  storage (foldl (fun a j => sendTrustMessage e kos j a) a js) = storage a.
Proof. revert a. induction js as [|j js IH]; intros a; [done|]. simpl. by rewrite IH. Qed.

Lemma send_if_storage e kos j (b : bool) a :
  storage (if b then sendTrustMessage e kos j a else a) = storage a.
Proof. by destruct b. Qed.

Lemma manual_fewer cd n e owner auths dists a a' :
  makeManualDecisions config cd n e owner auths dists a = Some a' ->
  forall e' u, u ∈ pending a' e' -> u ∈ pending a e'.
Proof.
  unfold makeManualDecisions. intros Hrun e' u Hu. case_decide; [by simplify_eq|].
  revert Hrun. case_decide; match goal with |- context [makeTrustDecisions n e ?A ?D ?x] =>
    destruct (makeTrustDecisions n e A D x) as [a1|] eqn:Hd end; try done; intros [= <-];
    rewrite send_if_storage in Hu; apply (decisions_fewer _ _ _ _ _ _ Hd) in Hu.
  - by rewrite send_if_storage, sends_storage in Hu.
  - revert Hu. by case_decide.
Qed.

Lemma handled_decisions message el t ko u : handled message el ->
  ko ∈ filter (fun ko => isSenderQualified config (sender message) ko = true) (keyOwners el) ->
  u_ownerJid u = ko_jid ko -> decides ko (u_id u) t ->
  says (tm_encryption el) message t (u_ownerJid u) (u_id u).
Proof.
  intros Hh Hko Ho Hd. exists el. split_and!; [done|done|].
  unfold sender_keys, keys_of_owners. apply elem_of_concat.
  exists (map (pair (ko_jid ko)) (decisions t ko)). rewrite Ho. split.
  - apply list_elem_of_fmap. exists ko. done.
  - apply list_elem_of_fmap. by exists (u_id u).
Qed.

Lemma message_recorded n evs message a a' : recorded evs a ->
  handleMessage config n message a = Some a' -> recorded (evs ++ [MessageReceived message]) a'.
Proof.
  intros Hr Hrun. assert (forall ev, ev ∈ evs -> ev ∈ evs ++ [MessageReceived message]) as Hsub by set_solver.
  unfold handleMessage in Hrun. destruct (trustMessageElement message) as [el|] eqn:Hel.
  2:{ injection Hrun as <-. by apply (recorded_fewer evs _ a). }
  case_decide as Hh; [|injection Hrun as <-; by apply (recorded_fewer evs _ a)].
  assert (handled message el) as Hm by (destruct Hh; done).
  eapply recorded_fewer; [|by eapply decisions_fewer|exact (fun ev Hev => Hev)].
  intros e u Hu. simpl in Hu. apply postponed_add in Hu as [Hu|(-> & Hs & ko & Hko & Ho & Hd)].
  { destruct (Hr e u Hu) as (m & ? & ? & ?). exists m. auto. }
  exists message. split_and!; [set_solver|done|].
  case_bool_decide; [by apply elem_of_nil in Hko|]. by eapply handled_decisions.
Qed.
Lemma run_recorded n evs a0 a : (forall e, pending a0 e = []) ->
  atm_run_events n evs a0 = Some a -> recorded evs a.
Proof.
  intros Hn. revert a. induction evs as [|ev evs IH] using rev_ind; intros a Hrun.
  { injection Hrun as <-. intros e u Hu. rewrite Hn in Hu. by apply elem_of_nil in Hu. }
  unfold atm_run_events in Hrun. rewrite foldl_app in Hrun. simpl in Hrun.
  fold (atm_run_events n evs a0) in Hrun. destruct (atm_run_events n evs a0) as [a1|]; [|done].
  specialize (IH a1 eq_refl). simpl in Hrun. destruct ev as [message|cd e owner auths dists].
  - by eapply message_recorded.
  - eapply recorded_fewer; [exact IH|by eapply manual_fewer|set_solver].
Qed.

(** If key ids identify their owners, what is justified is authorised. *)
Lemma justified_authorised e evs message el a t j k :
  recorded evs a -> key_ids_identify e (evs ++ [MessageReceived message]) ->
  handled message el -> tm_encryption el = e ->
  justified (pending a e) (sender_keys trustedKeys message el) (sender_keys distrustedKeys message el) t j k ->
  authorised e evs message t j k /\
  exists m, MessageReceived m ∈ evs ++ [MessageReceived message] /\ says e m t j k.
Proof.
  intros Hr Hid Hh He. induction 1 as [j k Hin|j k Hin|j u _ [IH (m' & Hm' & Hs')] Hu].
  - assert (says e message true j k) by by exists el.
    split; [by apply authorised_now|]. exists message. split; [set_solver|done].
  - assert (says e message false j k) by by exists el.
    split; [by apply authorised_now|]. exists message. split; [set_solver|done].
  - destruct (Hr e u Hu) as (m & Hm & Hk & Hs). split; [|exists m; split; [set_solver|done]].
    rewrite <-Hk in Hs', IH. apply (authorised_earlier _ _ _ m); [done|done|].
    by rewrite <-(Hid m m' j) by (done || set_solver).
Qed.

(** C16: In every run, a message changes the trust level of a key only if it is an ATM message of
    another client whose sender's key is authenticated, in the encryption of the message. The
    change follows by the key ids: the key is authenticated (or distrusted) by a decision of the
    message that its sender may make, own endpoints for everyone and contacts for themselves, or
    by a postponed decision that was sent with a key id authenticated that way, under whichever
    owner; or it was automatically trusted and loses that under TOAKAFA. As long as no message
    ascribes the key id of a sender to somebody else, every postponed decision that is made was
    sent by an earlier message that may make it, and the key of that very sender is authenticated
    by decisions of the same kind. Without that condition the code goes further than its comments
    say, see atm_contact_releases_others. *)
Theorem atm_decisions_justified n evs message a0 a a' e j k :
  (forall e, pending a0 e = []) -> atm_run_events n evs a0 = Some a ->
  handleMessage config n message a = Some a' -> level a' e j k <> level a e j k ->
  exists el, handled message el /\ tm_encryption el = e /\
    sender_level message el a = Authenticated /\
    changed_by (justified (pending a e) (sender_keys trustedKeys message el)
      (sender_keys distrustedKeys message el)) e a a' j k /\
    (key_ids_identify e (evs ++ [MessageReceived message]) ->
     changed_by (authorised e evs message) e a a' j k).
Proof.
  intros Hn Hevs Hrun Hne. destruct (message_justified _ _ _ _ _ _ _ Hrun Hne) as (el & Hh & He & Hs & Hc).
  exists el. split_and!; try done. intros Hid. eapply changed_by_mono; [|exact Hc].
  intros t j' k' Hj. eapply justified_authorised; [by eapply run_recorded|exact Hid|done|done|exact Hj].
Qed.

(** A message of an authenticated key, with what its decisions lead to. *)
Lemma atm_run n message el a :
  handled message el -> sender_level message el a = Authenticated ->
  (length (pending a (tm_encryption el)) + 1 < n)%nat ->
  let e := tm_encryption el in
  let A := sender_keys trustedKeys message el in
  let D := sender_keys distrustedKeys message el in
  exists a', handleMessage config n message a = Some a' /\
    (forall j k, (j, k) ∈ D -> level a' e j k = ManuallyDistrusted) /\
    (forall j k, (j, k) ∈ A -> decided e A D a a' j k) /\
    (forall j u, (j, u_senderKeyId u) ∈ A -> u ∈ pending a e ->
      if u_trust u then decided e A D a a' (u_ownerJid u) (u_id u)
      else level a' e (u_ownerJid u) (u_id u) = ManuallyDistrusted) /\
    (forall j k k', (j, k) ∈ A -> policy a e = Toakafa -> level a' e j k' <> AutomaticallyTrusted) /\
    (D = [] -> trusting (pending a e) -> one_owner (pending a e) ->
     forall j k, justified (pending a e) A D true j k ->
       level a' e j k = Authenticated /\
       (policy a e = Toakafa -> forall k', level a' e j k' <> AutomaticallyTrusted)).
Proof.
  intros Hh Hs Hn e A D. rewrite (handleMessage_authenticated n message el a) by done.
  fold e A D. set (a0 := a <| storage ::= addKeysForPostponed e (senderKey message) [] |>).
  assert (pending a0 e = pending a e) as Hp by apply postponed_add_nil.
  destruct (makeTrustDecisions_terminates n e A D a0) as [a' Hrun]; [by rewrite Hp|].
  exists a'. split; [done|].
  assert (forall j k, decided e A D a0 a' j k -> decided e A D a a' j k) as Hd
    by (unfold decided; rewrite Hp; auto).
  split_and!.
  - intros j k ?. by eapply makeTrustDecisions_distrusts.
  - intros j k ?. apply Hd. by eapply makeTrustDecisions_decides.
  - intros j u Hj Hu. unfold makeTrustDecisions, makeTrustDecisions_by in Hrun.
    destruct (authenticate n e A a0) as [a1|] eqn:Ha; simplify_eq/=.
    rewrite <-Hp in Hu. pose proof (authenticate_postponed _ _ _ _ _ _ _ Ha Hj Hu) as Hpost.
    destruct (u_trust u); [|by apply distrust_keeps_distrust].
    apply Hd. unfold decided. rewrite distrust_level. case_decide; [destruct_and?; eauto with qx|].
    destruct Hpost as [|[? ?]]; [auto|right]. split; [done|]. by eapply justified_empty.
  - intros j k k' Hj Ht. unfold makeTrustDecisions, makeTrustDecisions_by in Hrun.
    destruct (authenticate n e A a0) as [a1|] eqn:Ha; simplify_eq/=.
    rewrite distrust_level. case_decide; [done|].
    eapply authenticate_toakafa; [exact Ha|done|]. simpl. by rewrite policy_addPostponed.
  - intros HD Ht Ho j k Hj. unfold makeTrustDecisions, makeTrustDecisions_by in Hrun. rewrite HD in Hrun, Hj.
    destruct (authenticate n e A a0) as [a1|] eqn:Ha; [|done]. injection Hrun as <-.
    rewrite <-Hp in Ht, Ho, Hj. assert (policy a0 e = policy a e) as <- by apply policy_addPostponed.
    by eapply authenticate_all.
Qed.

(** C17: A message of an authenticated key is handled to the end; fuel beyond the number of
    postponed decisions suffices. Every key it distrusts is manually distrusted. Every key it
    trusts is authenticated unless a decision of the same run distrusts it, and so is every key
    trusted by a postponed decision that was sent with a key the message itself trusts; the keys
    such postponed decisions distrust are manually distrusted. Under TOAKAFA the owners of the
    keys the message itself trusts keep no automatically trusted key. If neither the message nor a
    postponed decision distrusts a key, and the postponed decisions agree on the owner of each key
    id, then all keys that follow through any chain of postponed decisions are authenticated, and
    under TOAKAFA none of their owners keeps an automatically trusted key. *)
Theorem atm_makes_decisions n message el a :
  handled message el -> sender_level message el a = Authenticated ->
  (length (pending a (tm_encryption el)) + 1 < n)%nat ->
  let e := tm_encryption el in
  let A := sender_keys trustedKeys message el in
  let D := sender_keys distrustedKeys message el in
  exists a', handleMessage config n message a = Some a' /\
    (forall j k, (j, k) ∈ D -> level a' e j k = ManuallyDistrusted) /\
    (forall j k, (j, k) ∈ A -> decided e A D a a' j k) /\
    (forall j u, (j, u_senderKeyId u) ∈ A -> u ∈ pending a e ->
      if u_trust u then decided e A D a a' (u_ownerJid u) (u_id u)
      else level a' e (u_ownerJid u) (u_id u) = ManuallyDistrusted) /\
    (forall j k k', (j, k) ∈ A -> policy a e = Toakafa -> level a' e j k' <> AutomaticallyTrusted) /\
    (D = [] -> trusting (pending a e) -> one_owner (pending a e) ->
     forall j k, justified (pending a e) A D true j k ->
       level a' e j k = Authenticated /\
       (policy a e = Toakafa -> forall k', level a' e j k' <> AutomaticallyTrusted)).
Proof. apply atm_run. Qed.

(** ** Manual decisions *)

Lemma send_all_sent e kos js a :
  let a' := foldl (fun a j => sendTrustMessage e kos j a) a js in
  storage a' = storage a /\
  sent a' = sent a ++ map (fun j => {| tm_to := j; tm_element :=
    {| usage := ns_atm; tm_encryption := e; keyOwners := kos |} |}) js.
Proof.
  revert a. induction js as [|j js IH]; intros a; simpl; [by rewrite app_nil_r|].
  destruct (IH (sendTrustMessage e kos j a)) as [-> ->]. simpl. by rewrite <-app_assoc.
Qed.

(** Who may be told which keys: own endpoints anything, a contact only the keys of this
    account, and only one with an authenticated key or whose key is now authenticated. *)
Definition may_tell (e owner : string) (auths : list string) a (m : TrustMessage) : Prop :=
  tm_to m = jidBare config \/
  Forall (fun ko => ko_jid ko = Jid.jidToBareJid (jidBare config)) (keyOwners (tm_element m)) /\
  ((exists k, (tm_to m, k) ∈
      keysOfLevel e (flags [Authenticated; ManuallyDistrusted]) (storage a) Authenticated) \/
   tm_to m = owner /\ auths <> []).

Definition tells e owner auths a a' : Prop :=
  exists ms, sent a' = sent a ++ ms /\ Forall (may_tell e owner auths a) ms.

Lemma tells_refl e owner auths a a' : sent a' = sent a -> tells e owner auths a a'.
Proof. intros Hs. exists []. by rewrite app_nil_r. Qed.

Lemma tells_send e owner auths a a1 kos j (b : bool) :
  tells e owner auths a a1 ->
  (b = true -> may_tell e owner auths a {| tm_to := j; tm_element :=
     {| usage := ns_atm; tm_encryption := e; keyOwners := kos |} |}) ->
  tells e owner auths a (if b then sendTrustMessage e kos j a1 else a1).
Proof.
  intros (ms & Hs & Hms) Hm. destruct b; [|by exists ms].
  eexists (ms ++ [_]). simpl. rewrite Hs, <-app_assoc. split; [done|].
  apply Forall_app. split; [done|]. constructor; [by apply Hm|constructor].
Qed.

Lemma tells_decisions n e owner auths A D a a1 a2 :
  tells e owner auths a a1 -> makeTrustDecisions n e A D a1 = Some a2 -> tells e owner auths a a2.
Proof.
  intros (ms & Hs & Hms) Hrun. exists ms. split; [|done].
  apply makeTrustDecisions_allowed in Hrun. by rewrite (al_sent _ _ _ _ _ Hrun).
Qed.

(** A manual decision tells contacts only about the keys of this account, and only the
    contacts that have an authenticated key or the one whose key is being authenticated;
    everything else goes to own endpoints. *)
Theorem atm_manual_messages cd n e owner auths dists a a' :
  makeManualDecisions config cd n e owner auths dists a = Some a' ->
  tells e owner auths a a'.
Proof.
  unfold makeManualDecisions.
  set (K := keysOfLevel e (flags [Authenticated; ManuallyDistrusted]) (storage a)).
  set (mA := filter (fun k => mh_contains owner k (K Authenticated) = false) auths).
  set (mD := filter (fun k => mh_contains owner k (K ManuallyDistrusted) = false) dists).
  case_decide as Hsome; [intros; simplify_eq; by apply tells_refl|].
  assert (mA <> [] -> auths <> []) as Hauths by (intros Hm ->; by apply Hm).
  case_decide as Hown.
  - subst owner. destruct (send_all_sent e [{| ko_jid := Jid.jidToBareJid (jidBare config);
        trustedKeys := mA; distrustedKeys := mD |}]
        (uniqueKeys (mh_remove (jidBare config) (K Authenticated))) a) as [_ Hs].
    set (a0 := foldl _ a _) in *.
    assert (tells e (jidBare config) auths a a0) as Ht.
    { eexists. split; [exact Hs|]. apply Forall_fmap, Forall_forall. intros j Hj. right.
      split; [by repeat constructor|]. left. simpl.
      apply elem_of_uniqueKeys in Hj as [k Hk]. exists k.
      unfold mh_remove in Hk. apply list_elem_of_filter in Hk as [_ Hk]. exact Hk. }
    match goal with |- context [makeTrustDecisions n e ?A ?D ?x] =>
      destruct (makeTrustDecisions n e A D x) as [a2|] eqn:Hrun end; [|done].
    intros [= <-]. apply tells_send; [|by left].
    eapply tells_decisions; [|exact Hrun]. apply tells_send; [done|by left].
  - match goal with |- context [makeTrustDecisions n e ?A ?D ?x] =>
      destruct (makeTrustDecisions n e A D x) as [a2|] eqn:Hrun end; [|done].
    intros [= <-]. apply tells_send.
    + eapply tells_decisions; [|exact Hrun]. case_decide; [by apply tells_refl|].
      apply (tells_send _ _ _ _ _ _ _ true); [by apply tells_refl|by left].
    + intros Hb. apply andb_prop in Hb as [Hb _]. apply negb_true_iff, bool_decide_eq_false in Hb.
      right. split; [by repeat constructor|]. auto.
Qed.

(** Postponed decisions are looked up by the id of the sender's key alone: a contact that
    claims the key id of somebody else as its own releases that sender's postponed decisions,
    although the sender's own key is not authenticated. *)
Theorem atm_contact_releases_others n message el a u :
  let e := tm_encryption el in let contact := Jid.jidToBareJid (from message) in
  handled message el -> sender_level message el a = Authenticated ->
  (length (pending a e) + 1 < n)%nat ->
  contact <> jidBare config -> u_ownerJid u <> contact ->
  (contact, u_senderKeyId u) ∈ sender_keys trustedKeys message el ->
  sender_keys distrustedKeys message el = [] ->
  Forall (fun u => u_trust u = true) (pending a e) -> u ∈ pending a e ->
  level a e (u_ownerJid u) (u_senderKeyId u) <> Authenticated ->
  exists a', handleMessage config n message a = Some a' /\
    level a' e (u_ownerJid u) (u_id u) = Authenticated.
Proof.
  intros e contact Hh Hs Hn _ _ HA HD HP Hu _.
  destruct (atm_run n message el a Hh Hs Hn) as (a' & Hrun & _ & _ & Hpost & _).
  exists a'. split; [done|]. specialize (Hpost _ _ HA Hu).
  rewrite Forall_forall in HP. rewrite (HP u Hu) in Hpost.
  destruct Hpost as [|[_ Hj]]; [done|]. rewrite HD in Hj.
  apply justified_trusting in Hj; [done|]. by apply Forall_forall.
Qed.
End Theory.

(** ** Examples *)

Definition example_config : Configuration :=
  {| user := "me"; domain := "example.org"; resource := "r" |}.
Definition example_atm (s : MemoryStorage) : Atm MemoryStorage :=
  {| storage := s; trustLevelsChanged := []; sent := [] |}.
(** bob's key B is authenticated, carol's key C sent a decision on her key C2. *)
Definition example_storage : MemoryStorage :=
  Memory.addKeysForPostponed "omemo" "C"
    [{| ko_jid := "carol@example.org"; trustedKeys := ["C2"]; distrustedKeys := [] |}]
    (Memory.setTrustLevel "omemo" [("bob@example.org", "B")] Authenticated Memory.empty).2.
Definition example_element (ids : list string) : TrustMessageElement :=
  {| usage := ns_atm; tm_encryption := "omemo";
     keyOwners := [{| ko_jid := "bob@example.org"; trustedKeys := ids; distrustedKeys := [] |}] |}.
Definition example_message (ids : list string) : Message :=
  {| from := "bob@example.org/phone"; trustMessageElement := Some (example_element ids);
     senderKey := "B" |}.

Lemma example_handled ids : handled example_config (example_message ids) (example_element ids).
Proof. done. Qed.

(** carol's key C, which is not authenticated, sends a decision on her key C2; then bob's
    authenticated key B sends one on B2. *)
Definition carol_message : Message :=
  {| from := "carol@example.org/phone"; senderKey := "C";
     trustMessageElement := Some {| usage := ns_atm; tm_encryption := "omemo";
       keyOwners := [{| ko_jid := "carol@example.org"; trustedKeys := ["C2"]; distrustedKeys := [] |}] |} |}.
Definition bob_atm : Atm MemoryStorage :=
  example_atm (Memory.setTrustLevel "omemo" [("bob@example.org", "B")] Authenticated Memory.empty).2.
Definition postponed_atm : Atm MemoryStorage :=
  default bob_atm (atm_run_events example_config 4 [MessageReceived carol_message] bob_atm).
Definition trusted_atm : Atm MemoryStorage :=
  default bob_atm (handleMessage example_config 4 (example_message ["B2"]) postponed_atm).
Lemma example_identify :
  key_ids_identify example_config "omemo"
    ([MessageReceived carol_message] ++ [MessageReceived (example_message ["B2"])]).
Proof.
  intros m m' j Hm Hm' (el & (Hel & _) & _ & Hin). simpl in Hm, Hm'.
  repeat (apply elem_of_cons in Hm as [[= ->]|Hm]; [|apply elem_of_cons in Hm as [[= ->]|Hm];
    [|by apply elem_of_nil in Hm]]);
  repeat (apply elem_of_cons in Hm' as [[= ->]|Hm']; [|apply elem_of_cons in Hm' as [[= ->]|Hm'];
    [|by apply elem_of_nil in Hm']]);
  injection Hel as <-; vm_compute in Hin; apply elem_of_cons in Hin as [[=]|Hin];
    by apply elem_of_nil in Hin.
Qed.
Lemma atm_decisions_justified_witness :
  handleMessage example_config 4 (example_message ["B2"]) postponed_atm = Some trusted_atm /\
  changed_by (authorised example_config "omemo" [MessageReceived carol_message] (example_message ["B2"]))
    "omemo" postponed_atm trusted_atm "bob@example.org" "B2".
Proof.
  destruct (atm_decisions_justified example_config 4 [MessageReceived carol_message] (example_message ["B2"])
    bob_atm postponed_atm trusted_atm "omemo" "bob@example.org" "B2") as (el & _ & _ & _ & _ & Hc).
  - intros e. vm_compute. reflexivity.
  - vm_compute. reflexivity.
  - vm_compute. reflexivity.
  - vm_compute. discriminate.
  - split; [vm_compute; reflexivity|]. apply Hc, example_identify.
Defined.

Lemma atm_makes_decisions_witness :
  exists a', handleMessage example_config 3 (example_message ["B2"]) (example_atm example_storage)
    = Some a'.
Proof.
  destruct (atm_makes_decisions example_config 3 (example_message ["B2"]) (example_element ["B2"])
    (example_atm example_storage)) as (a' & Hrun & _).
  - apply example_handled.
  - reflexivity.
  - vm_compute. lia.
  - exists a'. exact Hrun.
Defined.

Lemma atm_manual_messages_witness :
  exists a', tells example_config "omemo" "carol@example.org" ["C"] (example_atm example_storage) a'.
Proof.
  destruct (makeManualDecisions example_config true 4 "omemo" "carol@example.org" ["C"] []
              (example_atm example_storage)) as [a'|] eqn:Hrun; [|vm_compute in Hrun; discriminate].
  exists a'. exact (atm_manual_messages example_config _ _ _ _ _ _ _ a' Hrun).
Defined.

Lemma atm_contact_releases_others_witness :
  exists a', trustLevel "omemo" "carol@example.org" "C2" (storage a') = Authenticated /\
    handleMessage example_config 3 (example_message ["C"]) (example_atm example_storage) = Some a'.
Proof.
  destruct (atm_contact_releases_others example_config 3 (example_message ["C"])
    (example_element ["C"]) (example_atm example_storage)
    {| u_id := "C2"; u_ownerJid := "carol@example.org"; u_senderKeyId := "C"; u_trust := true |})
    as (a' & Hrun & Hl).
  - apply example_handled.
  - vm_compute. reflexivity.
  - vm_compute. lia.
  - vm_compute. discriminate.
  - vm_compute. discriminate.
  - vm_compute. constructor.
  - vm_compute. reflexivity.
  - vm_compute. repeat constructor.
  - vm_compute. constructor.
  - vm_compute. discriminate.
  - exists a'. split; [exact Hl|exact Hrun].
Defined.
