(* ===== verification/Base64.v ===== *)
(** * Base64 (QByteArray::toBase64 and fromBase64, parseBase64 of QXmppUtils.cpp)

    Byte arrays are strings of 8-bit characters. Decoding skips characters
    outside the alphabet and drops the bits left over at the end, which is
    what Qt's default options do; parseBase64 uses these, so it never fails. *)
From S2P Require Import Prelude.

Definition byte_of (a : ascii) : Z := Z.of_N (N_of_ascii a).
Definition of_byte (n : Z) : ascii := ascii_of_N (Z.to_N n).

Lemma of_byte_of a : of_byte (byte_of a) = a.
Proof. unfold of_byte, byte_of. by rewrite N2Z.id, ascii_N_embedding. Qed.

Lemma byte_of_range a : 0 <= byte_of a < 256.
Proof. unfold byte_of. pose proof (N_ascii_bounded a). lia. Qed.

Definition b64_alphabet : string :=
  "ABCDEFGHIJKLMNOPQRSTUVWXYZabcdefghijklmnopqrstuvwxyz0123456789+/".
Definition b64_char (n : Z) : ascii :=
  match String.get (Z.to_nat n) b64_alphabet with Some c => c | None => "A"%char end.
Definition b64_value (c : ascii) : option Z :=
  match String.index 0 (String c "") b64_alphabet with Some n => Some (Z.of_nat n) | None => None end.

Fixpoint toBase64 (s : string) : string :=
  match s with
  | String a (String b (String c s')) =>
      let n := byte_of a * 65536 + byte_of b * 256 + byte_of c in
      String (b64_char (n / 262144)) (String (b64_char (n / 4096 mod 64))
        (String (b64_char (n / 64 mod 64)) (String (b64_char (n mod 64)) (toBase64 s'))))
  | String a (String b "") =>
      let n := byte_of a * 1024 + byte_of b * 4 in
      String (b64_char (n / 4096)) (String (b64_char (n / 64 mod 64))
        (String (b64_char (n mod 64)) "="))
  | String a "" =>
      let n := byte_of a * 16 in
      String (b64_char (n / 64)) (String (b64_char (n mod 64)) "==")
  | "" => ""
  end.

(** The loop: the bits read but not yet written out, and their number. *)
Fixpoint decode64 (buf nbits : Z) (s : string) : string :=
  match s with
  | "" => ""
  | String c s' =>
      match b64_value c with
      | Some d =>
          let buf := buf * 64 + d in let nbits := nbits + 6 in
          if 8 <=? nbits
          then String (of_byte (buf / 2 ^ (nbits - 8))) (decode64 (buf mod 2 ^ (nbits - 8)) (nbits - 8) s')
          else decode64 buf nbits s'
      | None => decode64 buf nbits s'
      end
  end.
Definition fromBase64 (s : string) : string := decode64 0 0 s.

(** fromBase64Encoding with its default options reports no error. *)
Definition parseBase64 (text : string) : option string := Some (fromBase64 text).

(** ** Decoding what was encoded *)

#[local] Ltac Zify.zify_post_hook ::= Z.to_euclidean_division_equations.

Lemma b64_value_char n : 0 <= n < 64 -> b64_value (b64_char n) = Some n.
Proof.
  intros Hn. assert (forall k, (k < 64)%nat ->
    bool_decide (b64_value (b64_char (Z.of_nat k)) = Some (Z.of_nat k)) = true) as H.
  { intros k Hk. do 64 (destruct k as [|k]; [reflexivity|]). lia. }
  specialize (H (Z.to_nat n) ltac:(lia)). rewrite Z2Nat.id in H by lia.
  by apply bool_decide_eq_true in H.
Qed.

(** The four characters of a group. *)
Lemma decode64_1 d s : 0 <= d < 64 -> decode64 0 0 (String (b64_char d) s) = decode64 d 6 s.
Proof. intros Hd. simpl. by rewrite b64_value_char. Qed.
Lemma decode64_2 buf d s : 0 <= d < 64 ->
  decode64 buf 6 (String (b64_char d) s) =
  String (of_byte ((buf * 64 + d) / 16)) (decode64 ((buf * 64 + d) mod 16) 4 s).
Proof. intros Hd. simpl. by rewrite b64_value_char. Qed.
Lemma decode64_3 buf d s : 0 <= d < 64 ->
  decode64 buf 4 (String (b64_char d) s) =
  String (of_byte ((buf * 64 + d) / 4)) (decode64 ((buf * 64 + d) mod 4) 2 s).
Proof. intros Hd. simpl. by rewrite b64_value_char. Qed.
Lemma decode64_4 buf d s : 0 <= d < 64 ->
  decode64 buf 2 (String (b64_char d) s) = String (of_byte (buf * 64 + d)) (decode64 0 0 s).
Proof. intros Hd. simpl. rewrite b64_value_char by done. simpl. by rewrite Z.div_1_r, Z.mod_1_r. Qed.

Lemma string3_ind (P : string -> Prop) :
  P "" -> (forall a, P (String a "")) -> (forall a b, P (String a (String b ""))) ->
  (forall a b c s, P s -> P (String a (String b (String c s)))) -> forall s, P s.
Proof.
  intros H0 H1 H2 H3. assert (forall n s, (String.length s <= n)%nat -> P s) as H.
  { induction n as [|n IH]; intros s Hn.
    - destruct s; [done|simpl in Hn; lia].
    - destruct s as [|a [|b [|c s]]]; [done..|]. apply H3, IH. simpl in Hn. lia. }
  intros s. by apply (H (String.length s)).
Qed.

Lemma of_byte_eq n a : n = byte_of a -> of_byte n = a.
Proof. intros ->. apply of_byte_of. Qed.

Lemma base64_roundtrip s : fromBase64 (toBase64 s) = s.
Proof.
  unfold fromBase64. induction s as [|a|a b|a b c s IH] using string3_ind; [done| | |];
    pose proof (byte_of_range a); cbn [toBase64].
  - rewrite decode64_1, decode64_2 by lia. simpl. f_equal. apply of_byte_eq. lia.
  - pose proof (byte_of_range b). rewrite decode64_1, decode64_2, decode64_3 by lia.
    simpl. f_equal; [|f_equal]; apply of_byte_eq; lia.
  - pose proof (byte_of_range b). pose proof (byte_of_range c).
    rewrite decode64_1, decode64_2, decode64_3, decode64_4 by lia. rewrite IH.
    f_equal; [|f_equal; [|f_equal]]; apply of_byte_eq; lia.
Qed.

Lemma parseBase64_roundtrip s : parseBase64 (toBase64 s) = Some s.
Proof. unfold parseBase64. by rewrite base64_roundtrip. Qed.

Lemma toBase64_empty s : toBase64 s = "" <-> s = "".
Proof. destruct s as [|a [|b [|c s]]]; simpl; split; congruence. Qed.

#[export] Hint Rewrite base64_roundtrip parseBase64_roundtrip : qx_simpl.
