(* ===== verification/XmlCodec.v ===== *)
(** * Codecs of XML elements

    The parsing helpers of QXmppUtils_p.h and the writers of XmlWriter.h that
    handle optional and repeated children, and the law of a codec: what toXml
    writes, in whatever name space, is one element with the type's tag that
    fromDom reads back. A codec of several children is proved piecewise: the
    items of an element are a list of segments, each of which a look-up either
    finds or skips. *)
From S2P Require Import Prelude Utils Dom Base64.

(** ** Parsing helpers *)

(** QDomElement::text. *)
Fixpoint domText (n : Dom) : string :=
  match n with
  | Text s => s
  | Elem _ _ _ children => String.concat "" (map domText children)
  end.

Definition parseOptionalElement (T : Type) `{XmlElement T} (el : Dom) : option T :=
  if isNull el then None else fromDom el.
Definition parseOptionalChildElement (T : Type) `{XmlElement T} (el : Dom) : option T :=
  parseOptionalElement T (firstChildElement el (XmlTag T).1 (XmlTag T).2).
Definition parseChildElements (T : Type) `{XmlElement T} (el : Dom) : list T :=
  omap fromDom (iterChildElements el (XmlTag T).1 (XmlTag T).2).
Definition parseTextElements (el : Dom) (tag xmlns : string) : list string :=
  map domText (iterChildElements el tag xmlns).
Definition parseSingleAttributeElements (el : Dom) (tag xmlns attr : string) : list string :=
  map (fun c => attribute c attr) (iterChildElements el tag xmlns).

(** ** Writers

    An element written with its name only is in the name space around it. *)

Definition ElementN (tag : string) (values : list (list Item)) : Item :=
  WElem tag None (concat values).
Definition OptionalCharacters (value : string) : list Item :=
  if decide (value = "") then [] else [WChars value].
Definition TextElementN (tag value : string) : list Item :=
  [ElementN tag [OptionalCharacters value]].
Definition OptionalTextElementN (tag value : string) : list Item :=
  if decide (value = "") then [] else TextElementN tag value.
Definition TextElements (tag : string) (values : list string) : list Item :=
  concat (map (TextElementN tag) values).
Definition has_value {A} (o : option A) : bool := match o with Some _ => true | None => false end.
(** OptionalAttribute of an optional number. *)
Definition OptionalNumber (name : string) (o : option Z) : list Item :=
  match o with Some n => Attribute name (number n) | None => [] end.
(** A value of a type with toXml, an optional one and a list of them. *)
Definition Child {T} `{XmlElement T} (t : T) : list Item := [toXml t].
Definition OptionalChild {T} `{XmlElement T} (o : option T) : list Item :=
  match o with Some t => [toXml t] | None => [] end.
Definition Children {T} `{XmlElement T} (ts : list T) : list Item := map toXml ts.

(** ** The law of a codec *)

(** [codec_ok]: the values the code can represent, e.g. numbers of their width;
    [codec_ctx]: the name spaces the element may be written in, its own for a
    type whose toXml writes no name space. *)
Class XmlCodec (T : Type) `{XmlElement T} := {
  codec_ok : T -> Prop;
  codec_ctx : string -> Prop;
  codec_tag : (XmlTag T).1 <> "" /\ (XmlTag T).2 <> "";
  codec_own : codec_ctx (XmlTag T).2;
  codec_law (t : T) (ns : string) : codec_ctx ns -> exists attrs children,
    toDom ns (toXml t) = [Elem (XmlTag T).1 (XmlTag T).2 attrs children] /\
    (codec_ok t -> fromDom (Elem (XmlTag T).1 (XmlTag T).2 attrs children) = Some t);
}.
Arguments codec_ok {T _ _} t.
Arguments codec_ctx T {_ _} ns.

Lemma codec_name T `{XmlCodec T} : (XmlTag T).1 <> "".
Proof. exact (proj1 codec_tag). Qed.
Lemma codec_ns T `{XmlCodec T} : (XmlTag T).2 <> "".
Proof. exact (proj2 codec_tag). Qed.
#[export] Hint Resolve codec_name codec_ns : qx.

(** The round trip of a value on its own. *)
Lemma codec_roundtrip {T} `{XmlCodec T} (t : T) :
  codec_ctx T "" -> codec_ok t -> fromDom (serializeXml (toXml t)) = Some t.
Proof.
  intros Hc Hok. destruct (codec_law t "" Hc) as (attrs & children & Hd & Hr).
  unfold serializeXml. rewrite Hd. simpl. by apply Hr.
Qed.

Definition opt_ok {T} `{XmlCodec T} (o : option T) : Prop :=
  match o with Some t => codec_ok t | None => True end.
Definition all_ok {T} `{XmlCodec T} (ts : list T) : Prop := Forall codec_ok ts.

(** ** Segments *)

Definition atts (items : list Item) : list (string * string) := omap item_attr items.
Definition seg (ns : string) (items : list Item) : list Dom := concat (map (toDom ns) items).

Lemma atts_app a b : atts (a ++ b) = atts a ++ atts b.
Proof. apply omap_app. Qed.
Lemma seg_app ns a b : seg ns (a ++ b) = seg ns a ++ seg ns b.
Proof. unfold seg. by rewrite map_app, concat_app. Qed.
Lemma seg_nil ns : seg ns [] = [].
Proof. done. Qed.
Lemma atts_nil : atts [] = [].
Proof. done. Qed.

Lemma toDom_Element ns0 tag ns values :
  toDom ns0 (Element (tag, ns) values) =
  [Elem tag ns (atts (concat values)) (seg ns (concat values))].
Proof. done. Qed.
Lemma toDom_ElementN ns tag values :
  toDom ns (ElementN tag values) = [Elem tag ns (atts (concat values)) (seg ns (concat values))].
Proof. done. Qed.

(** Attributes take no part in the children, elements none in the attributes. *)
Lemma seg_Attribute ns n v : seg ns (Attribute n v) = [].
Proof. done. Qed.
Lemma seg_OptionalAttribute ns n v : seg ns (OptionalAttribute n v) = [].
Proof. unfold OptionalAttribute. by case_decide. Qed.
Lemma seg_OptionalBoolAttribute ns n v d : seg ns (OptionalBoolAttribute n v d) = [].
Proof. unfold OptionalBoolAttribute. by destruct (eqb v d). Qed.
Lemma atts_OptionalTextElementN t v : atts (OptionalTextElementN t v) = [].
Proof. unfold OptionalTextElementN. by case_decide. Qed.
Lemma atts_TextElementN t v : atts (TextElementN t v) = [].
Proof. done. Qed.
Lemma atts_TextElements t vs : atts (TextElements t vs) = [].
Proof. unfold TextElements. induction vs as [|v vs IH]; [done|]. simpl. by rewrite IH. Qed.
Lemma atts_OptionalCharacters v : atts (OptionalCharacters v) = [].
Proof. unfold OptionalCharacters. by case_decide. Qed.
Lemma seg_OptionalCharacters ns v :
  seg ns (OptionalCharacters v) = if decide (v = "") then [] else [Text v].
Proof. unfold OptionalCharacters. by case_decide. Qed.
Lemma atts_SingleAttributeElements t a vs : atts (SingleAttributeElements t a vs) = [].
Proof. induction vs as [|v vs IH]; [done|]. simpl. by rewrite <-IH. Qed.

Lemma item_attr_codec {T} `{XmlCodec T} (t : T) : item_attr (toXml t) = None.
Proof.
  destruct (codec_law t _ codec_own) as (attrs & children & Hd & _). by destruct (toXml t).
Qed.
Lemma atts_OptionalChild {T} `{XmlCodec T} (o : option T) : atts (OptionalChild o) = [].
Proof. destruct o as [t|]; [|done]. unfold atts. simpl. by rewrite item_attr_codec. Qed.
Lemma atts_Child {T} `{XmlCodec T} (t : T) : atts (Child t) = [].
Proof. unfold atts. simpl. by rewrite item_attr_codec. Qed.
Lemma atts_Children {T} `{XmlCodec T} (ts : list T) : atts (Children ts) = [].
Proof.
  unfold Children. induction ts as [|t ts IH]; [done|].
  unfold atts in *. simpl. by rewrite item_attr_codec.
Qed.

Create Rewrite HintDb seg.
#[export] Hint Rewrite atts_app seg_app seg_nil atts_nil @seg_Attribute seg_OptionalAttribute
  seg_OptionalBoolAttribute atts_OptionalTextElementN atts_TextElementN atts_TextElements
  atts_OptionalCharacters seg_OptionalCharacters atts_SingleAttributeElements
  @app_nil_l @app_nil_r : seg.

(** ** Finding a child *)

Fixpoint find_child (tag xmlns : string) (nodes : list Dom) : option Dom :=
  match nodes with
  | [] => None
  | n :: nodes' => if child_matches tag xmlns n then Some n else find_child tag xmlns nodes'
  end.

Lemma firstChildElement_find t n a c tag xmlns :
  firstChildElement (Elem t n a c) tag xmlns = default nullElement (find_child tag xmlns c).
Proof.
  unfold firstChildElement. simpl. induction c as [|x c IH]; simpl; [done|].
  by destruct (child_matches tag xmlns x).
Qed.

Lemma find_child_app tag xmlns a b :
  find_child tag xmlns (a ++ b) =
  match find_child tag xmlns a with Some c => Some c | None => find_child tag xmlns b end.
Proof. induction a as [|x a IH]; simpl; [done|]. by destruct (child_matches tag xmlns x). Qed.

Lemma child_matches_elem tag xmlns t n a c : tag <> "" -> xmlns <> "" ->
  child_matches tag xmlns (Elem t n a c) = bool_decide (n = xmlns) && bool_decide (t = tag).
Proof.
  intros Ht Hx. unfold child_matches. simpl.
  by rewrite (bool_decide_eq_false_2 (xmlns = "")), (bool_decide_eq_false_2 (tag = "")) by done.
Qed.

(** The element an optional child is written as. *)
Definition child_of {T} `{XmlElement T} (ns : string) (o : option T) : option Dom :=
  match o with Some t => nth_error (toDom ns (toXml t)) 0 | None => None end.

Lemma find_child_Optional {T} `{XmlCodec T} (o : option T) ns tag xmlns : codec_ctx T ns ->
  (tag, xmlns) = XmlTag T ->
  find_child tag xmlns (seg ns (OptionalChild o)) = child_of ns o.
Proof.
  intros Hc Heq. destruct o as [t|]; [|done]. unfold seg. simpl. rewrite app_nil_r.
  destruct (codec_law t ns Hc) as (attrs & children & -> & _). simpl.
  assert (tag = (XmlTag T).1 /\ xmlns = (XmlTag T).2) as [-> ->] by by rewrite <-Heq.
  rewrite child_matches_elem by eauto with qx. by rewrite !bool_decide_eq_true_2.
Qed.

Lemma find_child_skip {T} `{XmlCodec T} (o : option T) ns tag xmlns : codec_ctx T ns ->
  tag <> "" -> xmlns <> "" ->
  (tag, xmlns) <> XmlTag T -> find_child tag xmlns (seg ns (OptionalChild o)) = None.
Proof.
  intros Hc Ht Hx Hne. destruct o as [t|]; [|done]. unfold seg. simpl. rewrite app_nil_r.
  destruct (codec_law t ns Hc) as (attrs & children & -> & _). simpl.
  rewrite child_matches_elem by done. destruct (XmlTag T) as [tg nx]. simpl.
  destruct (bool_decide_reflect (nx = xmlns)), (bool_decide_reflect (tg = tag)); simpl; congruence.
Qed.

(** The child of its own type is read back. *)
Lemma parse_found {T} `{XmlCodec T} (o : option T) ns : codec_ctx T ns -> opt_ok o ->
  match child_of ns o with Some c => parseOptionalElement T c | None => None end = o.
Proof.
  intros Hc Hok. destruct o as [t|]; [|done]. unfold child_of.
  destruct (codec_law t ns Hc) as (attrs & children & -> & Hr).
  simpl. unfold parseOptionalElement, isNull. simpl.
  rewrite bool_decide_eq_false_2 by eauto with qx. by apply Hr.
Qed.

Lemma found_or_none (o : option Dom) : match o with Some c => Some c | None => None end = o.
Proof. by destruct o. Qed.

Lemma parseOptionalChild_find {T} `{XmlElement T} t n a c :
  parseOptionalChildElement T (Elem t n a c) =
  match find_child (XmlTag T).1 (XmlTag T).2 c with
  | Some el => parseOptionalElement T el
  | None => None
  end.
Proof.
  unfold parseOptionalChildElement. rewrite firstChildElement_find.
  by destruct (find_child _ _ c).
Qed.

Lemma find_child_TextElementN t v ns tag xmlns : tag <> "" -> xmlns <> "" ->
  find_child tag xmlns (seg ns (TextElementN t v)) =
  if decide (t = tag /\ ns = xmlns)
  then Some (Elem t ns [] (if decide (v = "") then [] else [Text v])) else None.
Proof.
  intros Ht Hx. unfold TextElementN, seg.
  change (concat (map (toDom ns) [ElementN t [OptionalCharacters v]]))
    with (toDom ns (ElementN t [OptionalCharacters v]) ++ []).
  rewrite toDom_ElementN, app_nil_r. cbn [concat]. autorewrite with seg. cbn [find_child].
  rewrite child_matches_elem by done.
  destruct (decide (t = tag /\ ns = xmlns)) as [[-> ->]|Hne];
    [by rewrite !bool_decide_eq_true_2|].
  destruct (bool_decide_reflect (ns = xmlns)), (bool_decide_reflect (t = tag)); simpl; naive_solver.
Qed.

Lemma find_text_own tag v xmlns : tag <> "" -> xmlns <> "" ->
  find_child tag xmlns (seg xmlns (TextElementN tag v)) =
  Some (Elem tag xmlns [] (if decide (v = "") then [] else [Text v])).
Proof. intros Ht Hx. rewrite find_child_TextElementN by done. by rewrite decide_True. Qed.
Lemma find_text_skip t v ns tag xmlns : tag <> "" -> xmlns <> "" -> (t, ns) <> (tag, xmlns) ->
  find_child tag xmlns (seg ns (TextElementN t v)) = None.
Proof. intros Ht Hx Hne. rewrite find_child_TextElementN by done. rewrite decide_False; naive_solver. Qed.

Lemma find_child_OptionalTextElementN t v ns tag xmlns : tag <> "" -> xmlns <> "" ->
  find_child tag xmlns (seg ns (OptionalTextElementN t v)) =
  if decide (t = tag /\ ns = xmlns /\ v <> "") then Some (Elem t ns [] [Text v]) else None.
Proof.
  intros Ht Hx. unfold OptionalTextElementN. destruct (decide (v = "")) as [->|Hv].
  - rewrite decide_False; [done|]. naive_solver.
  - rewrite find_child_TextElementN by done. rewrite (decide_False (P := v = "")) by done.
    repeat case_decide; naive_solver.
Qed.

Lemma find_opt_text tag v xmlns : tag <> "" -> xmlns <> "" ->
  find_child tag xmlns (seg xmlns (OptionalTextElementN tag v)) =
  if decide (v = "") then None else Some (Elem tag xmlns [] [Text v]).
Proof.
  intros Ht Hx. rewrite find_child_OptionalTextElementN by done.
  repeat case_decide; naive_solver.
Qed.
Lemma skip_opt_text t v ns tag xmlns : tag <> "" -> xmlns <> "" -> (t, ns) <> (tag, xmlns) ->
  find_child tag xmlns (seg ns (OptionalTextElementN t v)) = None.
Proof.
  intros Ht Hx Hne. rewrite find_child_OptionalTextElementN by done.
  rewrite decide_False; naive_solver.
Qed.
Lemma text_of_opt t ns a v :
  domText (default nullElement (if decide (v = "") then None else Some (Elem t ns a [Text v]))) = v.
Proof. case_decide as Hv; simpl; [by subst|done]. Qed.

(** The text of an optional or plain text child. *)
Lemma text_of_text t ns a (v : string) :
  domText (Elem t ns a (if decide (v = "") then [] else [Text v])) = v.
Proof. case_decide; simpl; [by subst|]. done. Qed.

(** ** Iterating over children *)

Lemma iterChildElements_eq t n a c tag xmlns :
  iterChildElements (Elem t n a c) tag xmlns = filter (fun n => child_matches tag xmlns n = true) c.
Proof. done. Qed.

Lemma filter_TextElements t vs ns tag xmlns : tag <> "" -> xmlns <> "" ->
  filter (fun n => child_matches tag xmlns n = true) (seg ns (TextElements t vs)) =
  if decide (t = tag /\ ns = xmlns)
  then map (fun v => Elem t ns [] (if decide (v = "") then [] else [Text v])) vs else [].
Proof.
  intros Ht Hx. unfold TextElements. induction vs as [|v vs IH]; [simpl; by case_decide|].
  cbn [map concat]. rewrite seg_app, filter_app, IH. unfold TextElementN.
  unfold seg at 1. cbn [map concat]. rewrite toDom_ElementN, app_nil_r. cbn [concat].
  autorewrite with seg. destruct (decide (t = tag /\ ns = xmlns)) as [[-> ->]|Hne].
  - rewrite filter_cons_True; [done|]. rewrite child_matches_elem by done.
    by rewrite !bool_decide_eq_true_2.
  - rewrite filter_cons_False; [done|]. rewrite child_matches_elem by done.
    destruct (bool_decide_reflect (ns = xmlns)), (bool_decide_reflect (t = tag)); simpl; naive_solver.
Qed.

Lemma filter_texts_own vs tag xmlns : tag <> "" -> xmlns <> "" ->
  filter (fun n => child_matches tag xmlns n = true) (seg xmlns (TextElements tag vs)) =
  map (fun v => Elem tag xmlns [] (if decide (v = "") then [] else [Text v])) vs.
Proof. intros Ht Hx. rewrite filter_TextElements by done. by rewrite decide_True. Qed.
Lemma filter_texts_skip t vs ns tag xmlns : tag <> "" -> xmlns <> "" -> (t, ns) <> (tag, xmlns) ->
  filter (fun n => child_matches tag xmlns n = true) (seg ns (TextElements t vs)) = [].
Proof. intros Ht Hx Hne. rewrite filter_TextElements by done. rewrite decide_False; naive_solver. Qed.

Lemma texts_of_TextElements t ns vs :
  map domText (map (fun v => Elem t ns [] (if decide (v = "") then [] else [Text v])) vs) = vs.
Proof.
  induction vs as [|v vs IH]; [done|]. cbn [map]. by rewrite text_of_text, IH.
Qed.

Lemma filter_find tag xmlns nodes :
  find_child tag xmlns nodes = head (filter (fun n => child_matches tag xmlns n = true) nodes).
Proof.
  induction nodes as [|n nodes IH]; [done|]. simpl find_child.
  destruct (child_matches tag xmlns n) eqn:Hm.
  - by rewrite filter_cons_True.
  - rewrite filter_cons_False by congruence. done.
Qed.

Lemma find_child_TextElements t vs ns tag xmlns : tag <> "" -> xmlns <> "" ->
  ~ (t = tag /\ ns = xmlns) -> find_child tag xmlns (seg ns (TextElements t vs)) = None.
Proof. intros Ht Hx Hne. by rewrite filter_find, filter_TextElements, decide_False. Qed.

Lemma filter_Optional {T} `{XmlCodec T} (o : option T) ns tag xmlns : codec_ctx T ns ->
  tag <> "" -> xmlns <> "" ->
  (tag, xmlns) <> XmlTag T ->
  filter (fun n => child_matches tag xmlns n = true) (seg ns (OptionalChild o)) = [].
Proof.
  intros Hc Ht Hx Hne. destruct o as [t|]; [|done]. unfold seg. simpl. rewrite app_nil_r.
  destruct (codec_law t ns Hc) as (attrs & children & -> & _).
  rewrite filter_cons_False; [done|]. rewrite child_matches_elem by done.
  destruct (XmlTag T) as [tg nx]. simpl.
  destruct (bool_decide_reflect (nx = xmlns)), (bool_decide_reflect (tg = tag)); simpl; congruence.
Qed.

Lemma filter_Children {T} `{XmlCodec T} (ts : list T) ns : codec_ctx T ns -> all_ok ts ->
  omap fromDom (filter (fun n => child_matches (XmlTag T).1 (XmlTag T).2 n = true)
                  (seg ns (Children ts))) = ts.
Proof.
  intros Hc. induction 1 as [|t ts Hok Hts IH]; [done|]. unfold Children in *. cbn [map].
  change (seg ns (toXml t :: map toXml ts)) with (toDom ns (toXml t) ++ seg ns (map toXml ts)).
  rewrite filter_app, omap_app. rewrite IH.
  destruct (codec_law t ns Hc) as (attrs & children & -> & Hr).
  rewrite filter_cons_True; [simpl; by rewrite Hr|].
  rewrite child_matches_elem by eauto with qx. by rewrite !bool_decide_eq_true_2.
Qed.

(** ** Attributes *)

Lemma attr_own n v : find_attr n (atts (Attribute n v)) = Some v.
Proof. simpl. by rewrite decide_True. Qed.
Lemma attr_skip n m v : m <> n -> find_attr n (atts (Attribute m v)) = None.
Proof. intros Hne. simpl. by rewrite decide_False. Qed.
Lemma opt_attr_own n v :
  find_attr n (atts (OptionalAttribute n v)) = if decide (v = "") then None else Some v.
Proof. unfold OptionalAttribute. case_decide; [done|]. simpl. by rewrite decide_True. Qed.
Lemma opt_attr_skip n m v : m <> n -> find_attr n (atts (OptionalAttribute m v)) = None.
Proof. intros Hne. unfold OptionalAttribute. case_decide; [done|]. simpl. by rewrite decide_False. Qed.
Lemma default_opt_attr (v : string) : default "" (if decide (v = "") then None else Some v) = v.
Proof. by case_decide. Qed.
Lemma bool_attr_own n v d :
  find_attr n (atts (OptionalBoolAttribute n v d)) =
  if eqb v d then None else Some (if v then "true" else "false").
Proof. unfold OptionalBoolAttribute. destruct (eqb v d); [done|]. simpl. by rewrite decide_True. Qed.
Lemma bool_attr_skip n m v d : m <> n -> find_attr n (atts (OptionalBoolAttribute m v d)) = None.
Proof.
  intros Hne. unfold OptionalBoolAttribute. destruct (eqb v d); [done|]. simpl. by rewrite decide_False.
Qed.
Lemma number_attr_own n o : find_attr n (atts (OptionalNumber n o)) = number <$> o.
Proof. destruct o; simpl; [|done]. by rewrite decide_True. Qed.
Lemma number_attr_skip n m o : m <> n -> find_attr n (atts (OptionalNumber m o)) = None.
Proof. intros Hne. destruct o; simpl; [|done]. by rewrite decide_False. Qed.
Lemma find_attr_nil n : find_attr n [] = None.
Proof. done. Qed.
Lemma found_attr (o : option string) : match o with Some v => Some v | None => None end = o.
Proof. by destruct o. Qed.

(** The children of an element written inside. *)
Lemma seg_ElementN ns tag values :
  seg ns [ElementN tag values] = [Elem tag ns (atts (concat values)) (seg ns (concat values))].
Proof. done. Qed.
Lemma seg_Element ns tag n values :
  seg ns [Element (tag, n) values] = [Elem tag n (atts (concat values)) (seg n (concat values))].
Proof. done. Qed.
Lemma find_child_one tag xmlns t n a c : tag <> "" -> xmlns <> "" ->
  find_child tag xmlns [Elem t n a c] =
  if decide (t = tag /\ n = xmlns) then Some (Elem t n a c) else None.
Proof.
  intros Ht Hx. cbn [find_child]. rewrite child_matches_elem by done.
  destruct (decide (t = tag /\ n = xmlns)) as [[-> ->]|Hne]; [by rewrite !bool_decide_eq_true_2|].
  destruct (bool_decide_reflect (n = xmlns)), (bool_decide_reflect (t = tag)); simpl; naive_solver.
Qed.
Lemma find_own tag xmlns a c : tag <> "" -> xmlns <> "" ->
  find_child tag xmlns [Elem tag xmlns a c] = Some (Elem tag xmlns a c).
Proof. intros Ht Hx. rewrite find_child_one by done. by rewrite decide_True. Qed.
Lemma find_skip tag xmlns t n a c : tag <> "" -> xmlns <> "" -> (t, n) <> (tag, xmlns) ->
  find_child tag xmlns [Elem t n a c] = None.
Proof. intros Ht Hx Hne. rewrite find_child_one by done. rewrite decide_False; naive_solver. Qed.
Lemma find_child_nil tag xmlns : find_child tag xmlns [] = None.
Proof. done. Qed.
Lemma isNull_Elem t n a c : t <> "" -> isNull (Elem t n a c) = false.
Proof. intros Ht. unfold isNull. by rewrite bool_decide_eq_false_2. Qed.

(** *** Look-ups in any name space *)

Lemma child_matches_any tag t n a c : tag <> "" ->
  child_matches tag "" (Elem t n a c) = bool_decide (t = tag).
Proof.
  intros Ht. unfold child_matches. simpl. by rewrite (bool_decide_eq_false_2 (tag = "")) by done.
Qed.
Lemma any_own tag ns a c : tag <> "" -> find_child tag "" [Elem tag ns a c] = Some (Elem tag ns a c).
Proof. intros Ht. cbn [find_child]. rewrite child_matches_any by done. by rewrite bool_decide_eq_true_2. Qed.
Lemma any_skip tag t ns a c : tag <> "" -> t <> tag -> find_child tag "" [Elem t ns a c] = None.
Proof. intros Ht Hne. cbn [find_child]. rewrite child_matches_any by done. by rewrite bool_decide_eq_false_2. Qed.
Lemma seg_TextElementN ns t v :
  seg ns (TextElementN t v) = [Elem t ns [] (if decide (v = "") then [] else [Text v])].
Proof.
  unfold TextElementN. rewrite seg_ElementN. cbn [concat].
  by rewrite app_nil_r, seg_OptionalCharacters, atts_OptionalCharacters.
Qed.
Lemma seg_OptionalTextElementN ns t v :
  seg ns (OptionalTextElementN t v) = if decide (v = "") then [] else [Elem t ns [] [Text v]].
Proof.
  unfold OptionalTextElementN. case_decide as Hv; [done|]. rewrite seg_TextElementN.
  by rewrite (decide_False (P := v = "")).
Qed.
Lemma any_text tag v ns : tag <> "" ->
  find_child tag "" (seg ns (TextElementN tag v)) =
  Some (Elem tag ns [] (if decide (v = "") then [] else [Text v])).
Proof. intros Ht. rewrite seg_TextElementN. by apply any_own. Qed.
Lemma any_text_skip tag t v ns : tag <> "" -> t <> tag -> find_child tag "" (seg ns (TextElementN t v)) = None.
Proof. intros Ht Hne. rewrite seg_TextElementN. by apply any_skip. Qed.
Lemma any_opt_text tag v ns : tag <> "" ->
  find_child tag "" (seg ns (OptionalTextElementN tag v)) =
  if decide (v = "") then None else Some (Elem tag ns [] [Text v]).
Proof. intros Ht. rewrite seg_OptionalTextElementN. case_decide; [done|]. by apply any_own. Qed.
Lemma any_opt_text_skip tag t v ns : tag <> "" -> t <> tag ->
  find_child tag "" (seg ns (OptionalTextElementN t v)) = None.
Proof. intros Ht Hne. rewrite seg_OptionalTextElementN. case_decide; [done|]. by apply any_skip. Qed.
Lemma seg_Optional {T} `{XmlCodec T} (o : option T) ns : codec_ctx T ns ->
  seg ns (OptionalChild o) = [] \/
  exists a c, seg ns (OptionalChild o) = [Elem (XmlTag T).1 (XmlTag T).2 a c].
Proof.
  intros Hc. destruct o as [t|]; [right|by left].
  destruct (codec_law t ns Hc) as (attrs & children & Hd & _). exists attrs, children.
  unfold seg. simpl. by rewrite Hd.
Qed.
Lemma seg_Children_all {T} `{XmlCodec T} (ts : list T) ns : codec_ctx T ns ->
  Forall (fun d => exists a c, d = Elem (XmlTag T).1 (XmlTag T).2 a c) (seg ns (Children ts)).
Proof.
  intros Hc. induction ts as [|t ts IH]; [done|]. unfold Children in *. cbn [map].
  change (seg ns (toXml t :: map toXml ts)) with (toDom ns (toXml t) ++ seg ns (map toXml ts)).
  destruct (codec_law t ns Hc) as (attrs & children & -> & _). constructor; [by eexists _, _|done].
Qed.
Lemma find_child_none tag xmlns l : Forall (fun d => child_matches tag xmlns d = false) l ->
  find_child tag xmlns l = None.
Proof. induction 1 as [|d l Hd Hl IH]; [done|]. simpl. by rewrite Hd. Qed.
Lemma filter_child_none tag xmlns l : Forall (fun d => child_matches tag xmlns d = false) l ->
  filter (fun n => child_matches tag xmlns n = true) l = [].
Proof. induction 1 as [|d l Hd Hl IH]; [done|]. rewrite filter_cons_False by congruence. exact IH. Qed.
Lemma children_mismatch {T} `{XmlCodec T} (ts : list T) ns tag xmlns : codec_ctx T ns -> tag <> "" ->
  (xmlns = "" -> (XmlTag T).1 <> tag) -> (xmlns <> "" -> (tag, xmlns) <> XmlTag T) ->
  Forall (fun d => child_matches tag xmlns d = false) (seg ns (Children ts)).
Proof.
  intros Hc Ht H1 H2. eapply Forall_impl; [by apply seg_Children_all|]. intros d (a & c & ->). simpl.
  destruct (decide (xmlns = "")) as [->|Hx].
  - rewrite child_matches_any by done. apply bool_decide_eq_false_2. auto.
  - rewrite child_matches_elem by done. specialize (H2 Hx). destruct (XmlTag T) as [tg nx]. simpl.
    destruct (bool_decide_reflect (nx = xmlns)), (bool_decide_reflect (tg = tag)); simpl; congruence.
Qed.
Lemma find_Children_skip {T} `{XmlCodec T} (ts : list T) ns tag xmlns : codec_ctx T ns -> tag <> "" ->
  (xmlns = "" -> (XmlTag T).1 <> tag) -> (xmlns <> "" -> (tag, xmlns) <> XmlTag T) ->
  find_child tag xmlns (seg ns (Children ts)) = None.
Proof. intros. apply find_child_none. by apply children_mismatch. Qed.
Lemma filter_Children_skip {T} `{XmlCodec T} (ts : list T) ns tag xmlns : codec_ctx T ns -> tag <> "" ->
  (xmlns = "" -> (XmlTag T).1 <> tag) -> (xmlns <> "" -> (tag, xmlns) <> XmlTag T) ->
  filter (fun n => child_matches tag xmlns n = true) (seg ns (Children ts)) = [].
Proof. intros. apply filter_child_none. by apply children_mismatch. Qed.
Lemma any_Optional_skip {T} `{XmlCodec T} (o : option T) ns tag : codec_ctx T ns -> tag <> "" ->
  (XmlTag T).1 <> tag -> find_child tag "" (seg ns (OptionalChild o)) = None.
Proof.
  intros Hc Ht Hne. destruct (seg_Optional o ns Hc) as [->|(a & c & ->)]; [done|]. by apply any_skip.
Qed.
Lemma any_texts_skip t vs ns tag : tag <> "" -> t <> tag ->
  find_child tag "" (seg ns (TextElements t vs)) = None.
Proof.
  intros Ht Hne. unfold TextElements. induction vs as [|v vs IH]; [done|]. cbn [map concat].
  by rewrite seg_app, find_child_app, any_text_skip.
Qed.
Lemma filter_opt_text_skip t v ns tag xmlns : tag <> "" -> t <> tag ->
  filter (fun n => child_matches tag xmlns n = true) (seg ns (OptionalTextElementN t v)) = [].
Proof.
  intros Ht Hne. rewrite seg_OptionalTextElementN. case_decide; [done|]. apply filter_child_none.
  constructor; [|done]. unfold child_matches. simpl.
  rewrite (bool_decide_eq_false_2 (tag = "")), (bool_decide_eq_false_2 (t = tag)) by done.
  by rewrite andb_false_r.
Qed.
Lemma filter_text_skip t v ns tag xmlns : tag <> "" -> t <> tag ->
  filter (fun n => child_matches tag xmlns n = true) (seg ns (TextElementN t v)) = [].
Proof.
  intros Ht Hne. rewrite seg_TextElementN. apply filter_child_none.
  constructor; [|done]. unfold child_matches. simpl.
  rewrite (bool_decide_eq_false_2 (tag = "")), (bool_decide_eq_false_2 (t = tag)) by done.
  by rewrite andb_false_r.
Qed.
Lemma filter_texts_other t vs ns tag xmlns : tag <> "" -> t <> tag ->
  filter (fun n => child_matches tag xmlns n = true) (seg ns (TextElements t vs)) = [].
Proof.
  intros Ht Hne. unfold TextElements. induction vs as [|v vs IH]; [done|]. cbn [map concat].
  by rewrite seg_app, filter_app, filter_text_skip, IH.
Qed.

(** ** Proving a codec *)

Lemma filter_one_skip tag xmlns t n a c : tag <> "" -> xmlns <> "" -> (t, n) <> (tag, xmlns) ->
  filter (fun x => child_matches tag xmlns x = true) [Elem t n a c] = [].
Proof.
  intros Ht Hx Hne. rewrite filter_cons_False; [done|]. rewrite child_matches_elem by done.
  destruct (bool_decide_reflect (n = xmlns)), (bool_decide_reflect (t = tag)); simpl; congruence.
Qed.
Lemma isNull_none : isNull (default nullElement None) = true.
Proof. done. Qed.
Lemma seg_OptionalNumber ns n o : seg ns (OptionalNumber n o) = [].
Proof. by destruct o. Qed.

(** A type written by [Element]: the law from the piecewise reading. *)
Lemma codec_by {T} `{XmlElement T} (values : T -> list (list Item)) (ok : T -> Prop) :
  (forall t, toXml t = Element (XmlTag T) (values t)) ->
  (forall t, ok t -> fromDom (Elem (XmlTag T).1 (XmlTag T).2 (atts (concat (values t)))
                        (seg (XmlTag T).2 (concat (values t)))) = Some t) ->
  forall t ns, True -> exists attrs children,
    toDom ns (toXml t) = [Elem (XmlTag T).1 (XmlTag T).2 attrs children] /\
    (ok t -> fromDom (Elem (XmlTag T).1 (XmlTag T).2 attrs children) = Some t).
Proof. intros Hx Hr t ns _. eexists _, _. split; [by rewrite Hx|]. apply Hr. Qed.

(** From a round trip proved otherwise. *)
Lemma codec_by_roundtrip {T} `{XmlElement T} (values : T -> list (list Item)) (ok : T -> Prop) :
  (forall t, toXml t = Element (XmlTag T) (values t)) ->
  (forall t, ok t -> fromDom (serializeXml (toXml t)) = Some t) ->
  forall t ns, True -> exists attrs children,
    toDom ns (toXml t) = [Elem (XmlTag T).1 (XmlTag T).2 attrs children] /\
    (ok t -> fromDom (Elem (XmlTag T).1 (XmlTag T).2 attrs children) = Some t).
Proof.
  intros Hx Hr. apply codec_by with (values := values); [done|]. intros t Hok.
  specialize (Hr t Hok). by rewrite Hx in Hr.
Qed.

Lemma attribute_eq t n a c name : attribute (Elem t n a c) name = default "" (find_attr name a).
Proof. done. Qed.
Lemma elementXmlTag_eq t n a c : elementXmlTag (Elem t n a c) = (t, n).
Proof. done. Qed.

Lemma default_found (el : Dom) : default nullElement (Some el) = el.
Proof. done. Qed.

Lemma parse_single_attributes t ns a tag attr vs : tag <> "" -> ns <> "" ->
  parseSingleAttributeElements (Elem t ns a (seg ns (SingleAttributeElements tag attr vs)))
    tag ns attr = vs.
Proof.
  intros Ht Hx. unfold parseSingleAttributeElements. rewrite iterChildElements_eq.
  unfold SingleAttributeElements.
  induction vs as [|v vs IH]; [done|]. cbn [map].
  change (seg ns (?i :: ?l)) with (toDom ns i ++ seg ns l). cbn [toDom default map concat app].
  rewrite filter_cons_True.
  - cbn [map]. rewrite IH. f_equal. rewrite attribute_eq. simpl. by rewrite decide_True.
  - rewrite child_matches_elem by done. by rewrite !bool_decide_eq_true_2.
Qed.

Lemma tag_differs {A} (x : string * string) (a b : A) : (if decide (x <> x) then a else b) = b.
Proof. by rewrite decide_False by tauto. Qed.
Lemma tag_same {A} (x : string * string) (a b : A) : (if decide (x = x) then a else b) = a.
Proof. by rewrite decide_True. Qed.

Lemma parse_uint64 n : 0 <= n < 2 ^ 64 ->
  Numbers.parseInt toInteger Numbers.uint64_t (number n) = Some n.
Proof.
  intros Hn. unfold Numbers.parseInt, Numbers.stringToInt, Numbers.qt_to.
  rewrite toInteger_number by lia. cbn [Numbers.type_min Numbers.type_max].
  by rewrite (proj2 (Z.leb_le 0 n)), (proj2 (Z.leb_le n (2 ^ 64 - 1))) by lia.
Qed.
Lemma parse_bool_attr (b d : bool) :
  default d (Numbers.parseBoolean
    (default "" (if eqb b d then None else Some (if b then "true" else "false")))) = b.
Proof. by destruct b, d. Qed.

(** One step of reading, chosen by what the goal looks up. *)
Ltac codec_step :=
  match goal with
  | |- context [elementXmlTag (Elem _ _ _ _)] => rewrite elementXmlTag_eq
  | |- context [if decide (?x <> ?x) then _ else _] => rewrite (tag_differs x)
  | |- context [if decide ((?x, ?y) = (?x, ?y)) then _ else _] => rewrite (tag_same (x, y))
  | |- context [concat _] => progress cbn [concat]
  | |- context [atts (_ ++ _)] => rewrite !atts_app
  | |- context [seg _ (_ ++ _)] => rewrite !seg_app
  | |- context [atts []] => rewrite !atts_nil
  | |- context [seg _ []] => rewrite !seg_nil
  | |- context [_ ++ []] => rewrite !app_nil_r
  | |- context [[] ++ _] => rewrite !app_nil_l
  | |- context [atts (OptionalChild ?o)] => rewrite (atts_OptionalChild o)
  | |- context [atts (Child ?t)] => rewrite (atts_Child t)
  | |- context [atts (Children ?ts)] => rewrite (atts_Children ts)
  | |- context [atts (OptionalTextElementN _ _)] => rewrite !atts_OptionalTextElementN
  | |- context [atts (TextElementN _ _)] => rewrite !atts_TextElementN
  | |- context [atts (TextElements _ _)] => rewrite !atts_TextElements
  | |- context [atts (OptionalCharacters _)] => rewrite !atts_OptionalCharacters
  | |- context [atts (SingleAttributeElements _ _ _)] => rewrite !atts_SingleAttributeElements
  | |- context [seg _ (Attribute _ _)] => rewrite !seg_Attribute
  | |- context [seg _ (OptionalAttribute _ _)] => rewrite !seg_OptionalAttribute
  | |- context [seg _ (OptionalBoolAttribute _ _ _)] => rewrite !seg_OptionalBoolAttribute
  | |- context [seg _ (OptionalNumber _ _)] => rewrite !seg_OptionalNumber
  | |- context [seg _ (OptionalCharacters _)] => rewrite !seg_OptionalCharacters
  | |- context [seg _ [ElementN _ _]] => rewrite !seg_ElementN
  | |- context [seg _ [Element (_, _) _]] => rewrite !seg_Element
  | |- context [attribute (Elem _ _ _ _) _] => rewrite !attribute_eq
  | |- context [parseOptionalChildElement _ (Elem _ _ _ _)] => rewrite parseOptionalChild_find
  | |- context [firstChildElement (Elem _ _ _ _) _ _] => rewrite !firstChildElement_find
  | |- context [parseSingleAttributeElements (Elem _ _ _ (seg _ (SingleAttributeElements _ _ _))) _ _ _] =>
      rewrite parse_single_attributes by discriminate
  | |- context [iterChildElements (Elem _ _ _ _) _ _] => rewrite !iterChildElements_eq
  | |- context [default nullElement (Some _)] => rewrite !default_found
  | |- context [find_attr _ (_ ++ _)] => rewrite !find_attr_app
  | |- context [find_attr _ []] => rewrite !find_attr_nil
  | |- context [find_attr ?n (atts (Attribute ?m ?v))] =>
      first [rewrite (attr_own n v) | rewrite (attr_skip n m v) by discriminate]
  | |- context [find_attr ?n (atts (OptionalAttribute ?m ?v))] =>
      first [rewrite (opt_attr_own n v) | rewrite (opt_attr_skip n m v) by discriminate]
  | |- context [find_attr ?n (atts (OptionalBoolAttribute ?m ?v ?d))] =>
      first [rewrite (bool_attr_own n v d) | rewrite (bool_attr_skip n m v d) by discriminate]
  | |- context [find_attr ?n (atts (OptionalNumber ?m ?o))] =>
      first [rewrite (number_attr_own n o) | rewrite (number_attr_skip n m o) by discriminate]
  | |- context [find_child _ _ (_ ++ _)] => rewrite !find_child_app
  | |- context [find_child _ _ []] => rewrite !find_child_nil
  | |- context [find_child ?t "" (seg ?ns (OptionalChild ?o))] =>
      rewrite (any_Optional_skip o ns t) by (exact I || reflexivity || (cbv; discriminate))
  | |- context [find_child ?t "" (seg ?ns (OptionalTextElementN ?n ?v))] =>
      first [ rewrite (any_opt_text n v ns) by discriminate
            | rewrite (any_opt_text_skip t n v ns) by discriminate ]
  | |- context [find_child ?t "" (seg ?ns (TextElementN ?n ?v))] =>
      first [ rewrite (any_text n v ns) by discriminate
            | rewrite (any_text_skip t n v ns) by discriminate ]
  | |- context [find_child ?t "" (seg ?ns (TextElements ?n ?vs))] =>
      rewrite (any_texts_skip n vs ns t) by discriminate
  | |- context [find_child ?t "" [Elem ?n ?ns ?a ?c]] =>
      first [ rewrite (any_own t ns a c) by discriminate
            | rewrite (any_skip t n ns a c) by discriminate ]
  | |- context [find_child ?t ?x (seg ?ns (Children ?ts))] =>
      rewrite (find_Children_skip ts ns t x)
        by (exact I || reflexivity || discriminate || (intros _; cbv; discriminate) || (intros ?; discriminate))
  | |- context [filter (fun y => child_matches ?t ?x y = true) (seg ?ns (Children ?ts))] =>
      rewrite (filter_Children_skip ts ns t x)
        by (exact I || reflexivity || discriminate || (intros _; cbv; discriminate) || (intros ?; discriminate))
  | |- context [filter (fun y => child_matches ?t ?x y = true) (seg ?ns (OptionalTextElementN ?n ?v))] =>
      rewrite (filter_opt_text_skip n v ns t x) by discriminate
  | |- context [filter (fun y => child_matches ?t ?x y = true) (seg ?ns (TextElementN ?n ?v))] =>
      rewrite (filter_text_skip n v ns t x) by discriminate
  | |- context [find_child ?t ?x (seg ?ns (OptionalChild ?o))] =>
      first [ rewrite (find_child_Optional o ns t x) by (exact I || reflexivity)
            | rewrite (find_child_skip o ns t x) by (exact I || reflexivity || (cbv; discriminate)) ]
  | |- context [find_child ?t ?x (seg ?ns (OptionalTextElementN ?n ?v))] =>
      first [ rewrite (find_opt_text n v ns) by discriminate
            | rewrite (skip_opt_text n v ns t x) by (cbv; discriminate) ]
  | |- context [find_child ?t ?x (seg ?ns (TextElementN ?n ?v))] =>
      first [ rewrite (find_text_own n v ns) by discriminate
            | rewrite (find_text_skip n v ns t x) by (cbv; discriminate) ]
  | |- context [find_child ?t ?x (seg ?ns (TextElements ?n ?vs))] =>
      rewrite (find_child_TextElements n vs ns t x) by (cbv; first [discriminate | intros [? ?]; discriminate])
  | |- context [find_child ?t ?x [Elem ?n ?ns ?a ?c]] =>
      first [ rewrite (find_own t x a c) by discriminate
            | rewrite (find_skip t x n ns a c) by (cbv; discriminate) ]
  | |- context [filter _ (_ ++ _)] => rewrite !filter_app
  | |- context [filter _ (seg ?ns (TextElements ?n ?vs))] =>
      first [ rewrite (filter_texts_own vs n ns) by discriminate
            | rewrite (filter_texts_skip n vs ns) by (cbv; discriminate) ]
  | |- context [filter (fun x => child_matches ?t ?x0 x = true) [Elem ?n ?ns ?a ?c]] =>
      rewrite (filter_one_skip t x0 n ns a c) by (cbv; discriminate)
  | |- context [filter (fun c => child_matches ?t ?x c = true) (seg ?ns (OptionalChild ?o))] =>
      rewrite (filter_Optional o ns t x) by (exact I || reflexivity || (cbv; discriminate))
  | |- context [match ?o with Some c => Some c | None => None end] =>
      first [rewrite (found_or_none o) | rewrite (found_attr o)]
  | |- context [match child_of ?ns ?o with Some c => parseOptionalElement _ c | None => None end] =>
      rewrite (parse_found o ns) by (exact I || reflexivity || assumption)
  | |- context [isNull (default nullElement None)] => rewrite !isNull_none
  | |- context [isNull (Elem _ _ _ _)] => rewrite isNull_Elem by discriminate
  | |- context [domText (default nullElement (if decide (_ = "") then None else Some _))] =>
      rewrite !text_of_opt
  | |- context [domText (Elem _ _ _ (if decide (_ = "") then [] else _))] => rewrite !text_of_text
  | |- context [map domText (map _ _)] => rewrite texts_of_TextElements
  | |- context [default "" (if decide (_ = "") then None else Some _)] => rewrite !default_opt_attr
  | |- context [default _ (Numbers.parseBoolean (default "" (if eqb _ _ then None else _)))] =>
      rewrite !parse_bool_attr
  | |- context [parseBase64 (toBase64 _)] => rewrite !parseBase64_roundtrip
  end.
Ltac codec_norm := repeat codec_step.

(** Unfolds the type's own parser and writer, leaving the library's functions. *)
Ltac codec_cbn :=
  cbn -[atts seg Attribute OptionalAttribute OptionalBoolAttribute OptionalCharacters
        OptionalTextElementN TextElementN TextElements SingleAttributeElements OptionalContent OptionalNumber
        Element ElementN OptionalChild Child Children elementXmlTag attribute domText firstChildElement
        iterChildElements find_child find_attr parseOptionalChildElement parseOptionalElement
        parseChildElements parseTextElements parseSingleAttributeElements parseBase64 toBase64
 decide hasChild isNull number toUInt toULongLong fromString toString app].
(** A type written in its own name space: [ok] are the values it can hold. *)
Lemma codec_by_inner {T} `{XmlElement T} (values : T -> list (list Item)) (ok : T -> Prop) :
  (forall t, toXml t = ElementN (XmlTag T).1 (values t)) ->
  (forall t, ok t -> fromDom (Elem (XmlTag T).1 (XmlTag T).2 (atts (concat (values t)))
                        (seg (XmlTag T).2 (concat (values t)))) = Some t) ->
  forall t ns, ns = (XmlTag T).2 -> exists attrs children,
    toDom ns (toXml t) = [Elem (XmlTag T).1 (XmlTag T).2 attrs children] /\
    (ok t -> fromDom (Elem (XmlTag T).1 (XmlTag T).2 attrs children) = Some t).
Proof. intros Hx Hr t ns ->. eexists _, _. split; [by rewrite Hx|]. apply Hr. Qed.

(** [codec ok]: a codec for the values [ok]; [codec_inner ok]: written in its name space. *)
Tactic Notation "codec" uconstr(ok) :=
  match goal with |- XmlCodec ?T =>
    let p := constr:(ok : T -> Prop) in
    exists p (fun _ => True); [split; discriminate|exact I|] end.
Ltac codec_inner ok :=
  match goal with |- XmlCodec ?T =>
    exists ok (fun ns => ns = (XmlTag T).2);
      [split; discriminate|reflexivity|eapply codec_by_inner; [intros ?; reflexivity|]] end.
Ltac codec_start := eapply codec_by; [intros ?; reflexivity|].

(** A record read field by field. *)
Ltac codec_fields :=
  codec_cbn; rewrite elementXmlTag_eq, ?tag_differs, ?tag_same;
  cbv beta zeta; f_equal; f_equal; codec_norm; try reflexivity.
