(* ===== verification/SaslXml.v ===== *)
(** * SASL, SASL 2, Bind 2 and FAST elements (QXmppSasl.cpp)

    The elements of the authentication protocols with their parsers and
    writers, each with its codec law. QDateTime and QUuid are parameters: the
    round trip of an element with one needs that its text is read back. *)
From S2P Require Import Prelude Utils Dom Base64 XmlCodec StreamManagement.

Definition ns_sasl : string := "urn:ietf:params:xml:ns:xmpp-sasl".
Definition ns_sasl_2 : string := "urn:xmpp:sasl:2".
Definition ns_bind2 : string := "urn:xmpp:bind:0".
Definition ns_csi : string := "urn:xmpp:csi:0".
Definition ns_carbons : string := "urn:xmpp:carbons:2".
Definition ns_fast : string := "urn:xmpp:fast:0".

(** Qt's types of values. *)
Class QtTypes := {
  QDateTime : Type;
  datetimeFromString : string -> QDateTime;
  datetimeSerialize : QDateTime -> string;
  datetimeIsValid : QDateTime -> bool;
  nullDateTime : QDateTime;              (* default constructed *)
  QUrl : Type;
  urlFromString : string -> QUrl;
  urlToString : QUrl -> string;
  QMimeType : Type;
  mimeTypeForName : string -> QMimeType;
  mimeName : QMimeType -> string;
  QUuid : Type;
  uuidFromString : string -> QUuid;
  uuidToString : QUuid -> string;
  uuidIsNull : QUuid -> bool;
}.

Inductive ErrorCondition :=
  | Aborted | AccountDisabled | CredentialsExpired | EncryptionRequired | IncorrectEncoding
  | InvalidAuthzid | InvalidMechanism | MalformedRequest | MechanismTooWeak | NotAuthorized
  | TemporaryAuthFailure.
#[export] Instance ErrorCondition_eq_dec : EqDecision ErrorCondition.
Proof. solve_decision. Defined.

#[export] Instance ErrorCondition_data : EnumData ErrorCondition := {
  enum_value c := match c with
    | Aborted => 0 | AccountDisabled => 1 | CredentialsExpired => 2 | EncryptionRequired => 3
    | IncorrectEncoding => 4 | InvalidAuthzid => 5 | InvalidMechanism => 6
    | MalformedRequest => 7 | MechanismTooWeak => 8 | NotAuthorized => 9
    | TemporaryAuthFailure => 10
    end;
  Values := [
    (Aborted, "aborted"); (AccountDisabled, "account-disabled");
    (CredentialsExpired, "credentials-expired"); (EncryptionRequired, "encryption-required");
    (IncorrectEncoding, "incorrect-encoding"); (InvalidAuthzid, "invalid-authzid");
    (InvalidMechanism, "invalid-mechanism"); (MalformedRequest, "malformed-request");
    (MechanismTooWeak, "mechanism-too-weak"); (NotAuthorized, "not-authorized");
    (TemporaryAuthFailure, "temporary-auth-failure")]
}.

(** ** SASL *)

Module Sasl.

Record Auth := { auth_mechanism : string; auth_value : string }.
Record Challenge := { challenge_value : string }.
Record Failure := { condition : option ErrorCondition; failure_text : string }.
Record Response := { response_value : string }.
Record Success := {}.

#[global] Instance Auth_xml : XmlElement Auth := {
  XmlTag := ("auth", ns_sasl);
  fromDom el :=
    if decide (elementXmlTag el <> ("auth", ns_sasl)) then None
    else
      value ← parseBase64 (domText el);
      Some {| auth_mechanism := attribute el "mechanism"; auth_value := value |};
  toXml a := Element ("auth", ns_sasl) [
    Attribute "mechanism" (auth_mechanism a); OptionalCharacters (toBase64 (auth_value a))];
}.

#[global] Instance Challenge_xml : XmlElement Challenge := {
  XmlTag := ("challenge", ns_sasl);
  fromDom el :=
    if decide (elementXmlTag el <> ("challenge", ns_sasl)) then None
    else Build_Challenge <$> parseBase64 (domText el);
  toXml c := Element ("challenge", ns_sasl) [OptionalCharacters (toBase64 (challenge_value c))];
}.

#[global] Instance Failure_xml : XmlElement Failure := {
  XmlTag := ("failure", ns_sasl);
  fromDom el :=
    if decide (elementXmlTag el <> ("failure", ns_sasl)) then None
    else
      let errorConditionString := tagName (firstChildElement el "" "") in
      let condition := fromString errorConditionString in
      Some {|
        condition :=
          if decide (condition = None /\ errorConditionString = "bad-auth")
          then Some NotAuthorized else condition;
        failure_text := domText (firstChildElement el "text" "") |};
  toXml f := Element ("failure", ns_sasl) [
    match condition f with Some c => [ElementN (toString c) []] | None => [] end;
    OptionalContent (negb (bool_decide (failure_text f = ""))) [
      [ElementN "text" [Attribute "xml:lang" "en"; Characters (failure_text f)]]]];
}.

#[global] Instance Response_xml : XmlElement Response := {
  XmlTag := ("response", ns_sasl);
  fromDom el :=
    if decide (elementXmlTag el <> ("response", ns_sasl)) then None
    else Build_Response <$> parseBase64 (domText el);
  toXml r := Element ("response", ns_sasl) [OptionalCharacters (toBase64 (response_value r))];
}.

#[global] Instance Success_xml : XmlElement Success := {
  XmlTag := ("success", ns_sasl);
  fromDom el :=
    if decide (elementXmlTag el = ("success", ns_sasl)) then Some Build_Success else None;
  toXml _ := Element ("success", ns_sasl) [];
}.

End Sasl.

(** ** Bind 2 *)

Record Bind2Feature := { features : list string }.
Record Bind2Request := {
  b2_tag : string; csiInactive : bool; carbonsEnable : bool; smEnable : option SmEnable }.
Record Bind2Bound := { b2_smFailed : option SmFailed; b2_smEnabled : option SmEnabled }.

#[export] Instance Bind2Feature_xml : XmlElement Bind2Feature := {
  XmlTag := ("bind", ns_bind2);
  fromDom el :=
    if decide (elementXmlTag el <> ("bind", ns_bind2)) then None
    else Some {| features := parseSingleAttributeElements
                   (firstChildElement el "inline" ns_bind2) "feature" ns_bind2 "var" |};
  toXml f := Element ("bind", ns_bind2) [
    [ElementN "inline" [SingleAttributeElements "feature" "var" (features f)]]];
}.

#[export] Instance Bind2Request_xml : XmlElement Bind2Request := {
  XmlTag := ("bind", ns_bind2);
  fromDom el :=
    if decide (elementXmlTag el <> ("bind", ns_bind2)) then None
    else Some {|
      b2_tag := domText (firstChildElement el "tag" ns_bind2);
      csiInactive := negb (isNull (firstChildElement el "inactive" ns_csi));
      carbonsEnable := negb (isNull (firstChildElement el "enable" ns_carbons));
      smEnable := parseOptionalChildElement SmEnable el |};
  toXml r := Element ("bind", ns_bind2) [
    OptionalTextElementN "tag" (b2_tag r);
    OptionalContent (csiInactive r) [[Element ("inactive", ns_csi) []]];
    OptionalContent (carbonsEnable r) [[Element ("enable", ns_carbons) []]];
    OptionalChild (smEnable r)];
}.

#[export] Instance Bind2Bound_xml : XmlElement Bind2Bound := {
  XmlTag := ("bound", ns_bind2);
  fromDom el :=
    if decide (elementXmlTag el <> ("bound", ns_bind2)) then None
    else Some {| b2_smFailed := parseOptionalChildElement SmFailed el;
                 b2_smEnabled := parseOptionalChildElement SmEnabled el |};
  toXml b := Element ("bound", ns_bind2) [OptionalChild (b2_smFailed b); OptionalChild (b2_smEnabled b)];
}.

(** ** FAST *)

Record FastFeature := { ff_mechanisms : list string; tls0rtt : bool }.
Record FastTokenRequest := { ftr_mechanism : string }.
Record FastRequest := { count : option Z; invalidate : bool }.

#[export] Instance FastFeature_xml : XmlElement FastFeature := {
  XmlTag := ("fast", ns_fast);
  fromDom el :=
    if decide (elementXmlTag el <> ("fast", ns_fast)) then None
    else Some {| ff_mechanisms := parseTextElements el "mechanism" ns_fast;
                 tls0rtt := default false (Numbers.parseBoolean (attribute el "tls-0rtt")) |};
  toXml f := Element ("fast", ns_fast) [TextElements "mechanism" (ff_mechanisms f)];
}.

#[export] Instance FastTokenRequest_xml : XmlElement FastTokenRequest := {
  XmlTag := ("request-token", ns_fast);
  fromDom el :=
    if decide (elementXmlTag el <> ("request-token", ns_fast)) then None
    else Some {| ftr_mechanism := attribute el "mechanism" |};
  toXml r := Element ("request-token", ns_fast) [Attribute "mechanism" (ftr_mechanism r)];
}.

#[export] Instance FastRequest_xml : XmlElement FastRequest := {
  XmlTag := ("fast", ns_fast);
  fromDom el :=
    if decide (elementXmlTag el <> ("fast", ns_fast)) then None
    else Some {| count := Numbers.parseInt toInteger Numbers.uint64_t (attribute el "count");
                 invalidate := default false (Numbers.parseBoolean (attribute el "invalidate")) |};
  toXml r := Element ("fast", ns_fast) [
    OptionalNumber "count" (count r); OptionalBoolAttribute "invalidate" (invalidate r) false];
}.

(** ** SASL 2 *)

Module Sasl2.
Section Sasl2.
Context `{QtTypes}.

Record FastToken := { expiry : QDateTime; token : string }.
Record StreamFeature := {
  sf_mechanisms : list string;
  bind2Feature : option Bind2Feature;
  sf_fast : option FastFeature;
  streamResumptionAvailable : bool;
}.
Record UserAgent := { ua_id : QUuid; software : string; device : string }.
Record Authenticate := {
  mechanism : string;
  initialResponse : string;
  userAgent : option UserAgent;
  bindRequest : option Bind2Request;
  smResume : option SmResume;
  tokenRequest : option FastTokenRequest;
  fast : option FastRequest;
}.
Record Challenge := { challenge_data : string }.
Record Response := { response_data : string }.
Record Success := {
  additionalData : option string;
  authorizationIdentifier : string;
  bound : option Bind2Bound;
  smResumed : option SmResumed;
  smFailed : option SmFailed;
  su_token : option FastToken;
}.
Record Failure := { condition : ErrorCondition; failure_text : string }.
Record Continue := { co_additionalData : string; tasks : list string; continue_text : string }.
Record Abort := { abort_text : string }.

#[global] Instance FastToken_xml : XmlElement FastToken := {
  XmlTag := ("token", ns_fast);
  fromDom el :=
    if decide (elementXmlTag el <> ("token", ns_fast)) then None
    else Some {| expiry := datetimeFromString (attribute el "expiry");
                 token := attribute el "token" |};
  toXml t := Element ("token", ns_fast) [
    Attribute "expiry" (datetimeSerialize (expiry t)); Attribute "token" (token t)];
}.

(** hasChild<SmFeature> looks for the stream management feature. *)
#[global] Instance StreamFeature_xml : XmlElement StreamFeature := {
  XmlTag := ("authentication", ns_sasl_2);
  fromDom el :=
    if decide (elementXmlTag el <> ("authentication", ns_sasl_2)) then None
    else
      let inlineEl := firstChildElement el "inline" ns_sasl_2 in
      let none := isNull inlineEl in
      Some {|
        sf_mechanisms := parseTextElements el "mechanism" ns_sasl_2;
        bind2Feature := if none then None else parseOptionalChildElement Bind2Feature inlineEl;
        sf_fast := if none then None else parseOptionalChildElement FastFeature inlineEl;
        streamResumptionAvailable :=
          if none then false else negb (isNull (firstChildElement inlineEl "sm" ns_stream_management)) |};
  toXml f := Element ("authentication", ns_sasl_2) [
    TextElements "mechanism" (sf_mechanisms f);
    OptionalContent (has_value (bind2Feature f) || has_value (sf_fast f)
                     || streamResumptionAvailable f) [
      [ElementN "inline" [
         OptionalChild (bind2Feature f);
         OptionalChild (sf_fast f);
         OptionalContent (streamResumptionAvailable f) [[Element ("sm", ns_stream_management) []]]]]]];
}.

(** Written without a name space: inside <authenticate/>. *)
#[global] Instance UserAgent_xml : XmlElement UserAgent := {
  XmlTag := ("user-agent", ns_sasl_2);
  fromDom el :=
    if decide (elementXmlTag el <> ("user-agent", ns_sasl_2)) then None
    else Some {|
      ua_id := uuidFromString (attribute el "id");
      software := domText (firstChildElement el "software" ns_sasl_2);
      device := domText (firstChildElement el "device" ns_sasl_2) |};
  toXml u := ElementN "user-agent" [
    OptionalContent (negb (uuidIsNull (ua_id u))) [Attribute "id" (uuidToString (ua_id u))];
    OptionalTextElementN "software" (software u);
    OptionalTextElementN "device" (device u)];
}.

#[global] Instance Authenticate_xml : XmlElement Authenticate := {
  XmlTag := ("authenticate", ns_sasl_2);
  fromDom el :=
    if decide (elementXmlTag el <> ("authenticate", ns_sasl_2)) then None
    else Some {|
      mechanism := attribute el "mechanism";
      initialResponse :=
        default "" (parseBase64 (domText (firstChildElement el "initial-response" ns_sasl_2)));
      userAgent := parseOptionalChildElement UserAgent el;
      bindRequest := parseOptionalChildElement Bind2Request el;
      smResume := parseOptionalChildElement SmResume el;
      tokenRequest := parseOptionalChildElement FastTokenRequest el;
      fast := parseOptionalChildElement FastRequest el |};
  toXml a := Element ("authenticate", ns_sasl_2) [
    Attribute "mechanism" (mechanism a);
    OptionalTextElementN "initial-response" (toBase64 (initialResponse a));
    OptionalChild (userAgent a);
    OptionalChild (bindRequest a);
    OptionalChild (smResume a);
    OptionalChild (tokenRequest a);
    OptionalChild (fast a)];
}.

#[global] Instance Challenge_xml : XmlElement Challenge := {
  XmlTag := ("challenge", ns_sasl_2);
  fromDom el :=
    if decide (elementXmlTag el <> ("challenge", ns_sasl_2)) then None
    else Build_Challenge <$> parseBase64 (domText el);
  toXml c := Element ("challenge", ns_sasl_2) [OptionalCharacters (toBase64 (challenge_data c))];
}.

#[global] Instance Response_xml : XmlElement Response := {
  XmlTag := ("response", ns_sasl_2);
  fromDom el :=
    if decide (elementXmlTag el <> ("response", ns_sasl_2)) then None
    else Build_Response <$> parseBase64 (domText el);
  toXml r := Element ("response", ns_sasl_2) [OptionalCharacters (toBase64 (response_data r))];
}.

(** <additional-data/> of a success: [None] when its Base64 is invalid. *)
Definition parse_additional (el : Dom) : option (option string) :=
  let subEl := firstChildElement el "additional-data" ns_sasl_2 in
  if isNull subEl then Some None else Some <$> parseBase64 (domText subEl).

#[global] Instance Success_xml : XmlElement Success := {
  XmlTag := ("success", ns_sasl_2);
  fromDom el :=
    if decide (elementXmlTag el <> ("success", ns_sasl_2)) then None
    else
      data ← parse_additional el;
      Some {|
        additionalData := data;
        authorizationIdentifier :=
          domText (firstChildElement el "authorization-identifier" ns_sasl_2);
        bound := parseOptionalChildElement Bind2Bound el;
        smResumed := parseOptionalChildElement SmResumed el;
        smFailed := parseOptionalChildElement SmFailed el;
        su_token := parseOptionalChildElement FastToken el |};
  toXml s := Element ("success", ns_sasl_2) [
    match additionalData s with
    | Some d => TextElementN "additional-data" (toBase64 d)
    | None => []
    end;
    TextElementN "authorization-identifier" (authorizationIdentifier s);
    OptionalChild (bound s);
    OptionalChild (smResumed s);
    OptionalChild (smFailed s);
    OptionalChild (su_token s)];
}.

#[global] Instance Failure_xml : XmlElement Failure := {
  XmlTag := ("failure", ns_sasl_2);
  fromDom el :=
    if decide (elementXmlTag el <> ("failure", ns_sasl_2)) then None
    else
      condition ← fromString (tagName (firstChildElement el "" ns_sasl));
      Some {| condition := condition;
              failure_text := domText (firstChildElement el "text" ns_sasl_2) |};
  toXml f := Element ("failure", ns_sasl_2) [
    [Element (toString (condition f), ns_sasl) []]; OptionalTextElementN "text" (failure_text f)];
}.

#[global] Instance Continue_xml : XmlElement Continue := {
  XmlTag := ("continue", ns_sasl_2);
  fromDom el :=
    if decide (elementXmlTag el <> ("continue", ns_sasl_2)) then None
    else
      data ← parse_additional el;
      let tasks := parseTextElements (firstChildElement el "tasks" ns_sasl_2) "task" ns_sasl_2 in
      if decide (tasks = []) then None
      else Some {| co_additionalData := default "" data; tasks := tasks;
                   continue_text := domText (firstChildElement el "text" ns_sasl_2) |};
  toXml c := Element ("continue", ns_sasl_2) [
    OptionalTextElementN "additional-data" (toBase64 (co_additionalData c));
    [ElementN "tasks" [TextElements "task" (tasks c)]];
    OptionalTextElementN "text" (continue_text c)];
}.

#[global] Instance Abort_xml : XmlElement Abort := {
  XmlTag := ("abort", ns_sasl_2);
  fromDom el :=
    if decide (elementXmlTag el <> ("abort", ns_sasl_2)) then None
    else Some {| abort_text := domText (firstChildElement el "text" ns_sasl_2) |};
  toXml a := Element ("abort", ns_sasl_2) [OptionalTextElementN "text" (abort_text a)];
}.

End Sasl2.
Arguments FastToken {_}. Arguments UserAgent {_}. Arguments Authenticate {_}. Arguments Success {_}.
End Sasl2.

(** ** Codec laws *)

#[export] Instance SmEnable_codec : XmlCodec SmEnable.
Proof.
  codec (fun e => 0 <= en_max e < 2 ^ 64).
  eapply codec_by_roundtrip; [intros ?; reflexivity|]. intros [] ?. by apply enable_roundtrip.
Defined.
#[export] Instance SmEnabled_codec : XmlCodec SmEnabled.
Proof.
  codec (fun e => 0 <= ed_max e < 2 ^ 64).
  eapply codec_by_roundtrip; [intros ?; reflexivity|]. intros [] ?. by apply enabled_roundtrip.
Defined.
#[export] Instance SmResume_codec : XmlCodec SmResume.
Proof.
  codec (fun r => 0 <= re_h r < 2 ^ 32).
  eapply codec_by_roundtrip; [intros ?; reflexivity|]. intros [] ?. by apply resume_roundtrip.
Defined.
#[export] Instance SmResumed_codec : XmlCodec SmResumed.
Proof.
  codec (fun r => 0 <= rd_h r < 2 ^ 32).
  eapply codec_by_roundtrip; [intros ?; reflexivity|]. intros [] ?. by apply resumed_roundtrip.
Defined.
(** Without a condition NoCondition is read. *)
#[export] Instance SmFailed_codec : XmlCodec SmFailed.
Proof.
  codec (fun f => exists c, fa_error f = Some c /\ c <> NoCondition).
  eapply codec_by_roundtrip; [intros ?; reflexivity|]. intros [e] (c & He & Hc).
  simpl in He. subst. by apply failed_roundtrip.
Defined.

#[export] Instance Auth_codec : XmlCodec Sasl.Auth.
Proof.
  codec (fun _ => True). codec_start. intros [m v] _. codec_cbn. by codec_norm.
Defined.
#[export] Instance Challenge_codec : XmlCodec Sasl.Challenge.
Proof.
  codec (fun _ => True). codec_start. intros [v] _. codec_cbn. by codec_norm.
Defined.
#[export] Instance Response_codec : XmlCodec Sasl.Response.
Proof.
  codec (fun _ => True). codec_start. intros [v] _. codec_cbn. by codec_norm.
Defined.
#[export] Instance Success_codec : XmlCodec Sasl.Success.
Proof.
  codec (fun _ => True). codec_start. intros [] _. codec_cbn. by codec_norm.
Defined.
#[export] Instance Failure_codec : XmlCodec Sasl.Failure.
Proof.
  codec (fun _ => True). eapply codec_by_roundtrip; [intros ?; reflexivity|].
  intros [[[]|] [|c s]] _; reflexivity.
Defined.

#[export] Instance Bind2Feature_codec : XmlCodec Bind2Feature.
Proof.
  codec (fun _ => True). codec_start. intros [fs] _. codec_cbn. by codec_norm.
Defined.
#[export] Instance Bind2Request_codec : XmlCodec Bind2Request.
Proof.
  codec (fun r => opt_ok (smEnable r)). codec_start. intros [t i c o] Ho. codec_cbn.
  destruct i, c; unfold OptionalContent; cbn [concat]; by codec_norm.
Defined.
#[export] Instance Bind2Bound_codec : XmlCodec Bind2Bound.
Proof.
  codec (fun b => opt_ok (b2_smFailed b) /\ opt_ok (b2_smEnabled b)). codec_start.
  intros [f e] [Hf He]. codec_cbn. by codec_norm.
Defined.
#[export] Instance FastFeature_codec : XmlCodec FastFeature.
Proof.
  codec (fun f => tls0rtt f = false). codec_start. intros [ms z] Hz. simpl in Hz.
  subst. codec_cbn. unfold parseTextElements. by codec_norm.
Defined.
#[export] Instance FastTokenRequest_codec : XmlCodec FastTokenRequest.
Proof. codec (fun _ => True). codec_start. intros [m] _. codec_cbn. by codec_norm. Defined.
#[export] Instance FastRequest_codec : XmlCodec FastRequest.
Proof.
  codec (fun r => match count r with Some n => 0 <= n < 2 ^ 64 | None => True end).
  codec_start. intros [[n|] i] Hn; codec_cbn; codec_norm; [|done].
  simpl. by rewrite parse_uint64.
Defined.


(** *** SASL 2 *)

#[export] Instance Challenge2_codec : XmlCodec Sasl2.Challenge.
Proof.
  codec (fun _ => True). codec_start. intros [v] _. codec_cbn. by codec_norm.
Defined.
#[export] Instance Response2_codec : XmlCodec Sasl2.Response.
Proof.
  codec (fun _ => True). codec_start. intros [v] _. codec_cbn. by codec_norm.
Defined.
#[export] Instance Abort_codec : XmlCodec Sasl2.Abort.
Proof. codec (fun _ => True). codec_start. intros [t] _. codec_cbn. by codec_norm. Defined.
#[export] Instance Failure2_codec : XmlCodec Sasl2.Failure.
Proof.
  codec (fun _ => True). eapply codec_by_roundtrip; [intros ?; reflexivity|].
  intros [[] [|c s]] _; reflexivity.
Defined.

Section Sasl2Codecs.
Context `{QtTypes}.

#[export] Instance FastToken_codec : XmlCodec Sasl2.FastToken.
Proof.
  codec (fun t => datetimeFromString (datetimeSerialize (Sasl2.expiry t)) = Sasl2.expiry t).
  codec_start. intros [e t] He. simpl in He. codec_cbn. codec_norm. simpl. by rewrite He.
Defined.

#[export] Instance Continue_codec : XmlCodec Sasl2.Continue.
Proof.
  codec (fun c => Sasl2.tasks c <> []). codec_start. intros [d ts t] Hts. simpl in Hts.
  codec_cbn. unfold Sasl2.parse_additional. unfold parseTextElements. codec_norm.
  destruct (decide (toBase64 d = "")) as [Hd|Hd]; codec_norm;
    cbn -[decide]; (case_decide; [contradiction|]); [|reflexivity].
  apply (proj1 (toBase64_empty d)) in Hd. by subst.
Defined.

#[export] Instance StreamFeature_codec : XmlCodec Sasl2.StreamFeature.
Proof.
  codec (fun f => opt_ok (Sasl2.sf_fast f)). codec_start. intros [ms b f s] Hf.
  simpl in Hf. assert (opt_ok b) by by destruct b. codec_cbn. unfold OptionalContent.
  unfold parseTextElements. destruct (has_value b || has_value f || s)%bool eqn:Hc.
  - destruct s; by codec_norm.
  - destruct b, f, s; try done. by codec_norm.
Defined.

#[export] Instance Success2_codec : XmlCodec Sasl2.Success.
Proof.
  codec (fun s => opt_ok (Sasl2.bound s) /\ opt_ok (Sasl2.smResumed s) /\
                   opt_ok (Sasl2.smFailed s) /\ opt_ok (Sasl2.su_token s)).
  codec_start. intros [d a b r f t] (Hb & Hr & Hf & Ht). simpl in Hb, Hr, Hf, Ht. codec_cbn.
  unfold Sasl2.parse_additional. destruct d; codec_norm; done.
Defined.

(** <user-agent/> is read back inside <authenticate/>. *)
Definition user_agent_ok (u : Sasl2.UserAgent) : Prop :=
  uuidFromString (if uuidIsNull (Sasl2.ua_id u) then "" else uuidToString (Sasl2.ua_id u))
  = Sasl2.ua_id u.

#[export] Instance UserAgent_codec : XmlCodec Sasl2.UserAgent.
Proof.
  codec_inner user_agent_ok. intros [i s d] Hok. unfold user_agent_ok in Hok. simpl in Hok.
  codec_cbn. unfold OptionalContent. destruct (uuidIsNull i); cbn [negb]; codec_norm; simpl; by rewrite Hok.
Defined.

#[export] Instance Authenticate_codec : XmlCodec Sasl2.Authenticate.
Proof.
  codec (fun a => opt_ok (Sasl2.userAgent a) /\
                   opt_ok (Sasl2.bindRequest a) /\ opt_ok (Sasl2.smResume a) /\
                   opt_ok (Sasl2.tokenRequest a) /\ opt_ok (Sasl2.fast a)).
  codec_start. intros [m i u b s t f] (Hu & Hb & Hs & Ht & Hf). simpl in Hu, Hb, Hs, Ht, Hf.
  codec_fields.
Defined.
End Sasl2Codecs.

(** A FAST feature loses the tls-0rtt flag when it is written. *)
Lemma fast_feature_read (f : FastFeature) :
  fromDom (serializeXml (toXml f)) = Some {| ff_mechanisms := ff_mechanisms f; tls0rtt := false |}.
Proof.
  change (toXml f) with (toXml {| ff_mechanisms := ff_mechanisms f; tls0rtt := false |}).
  by apply codec_roundtrip.
Qed.
Theorem fast_feature_loses_0rtt (ms : list string) :
  fromDom (serializeXml (toXml {| ff_mechanisms := ms; tls0rtt := true |})) =
  Some {| ff_mechanisms := ms; tls0rtt := false |}.
Proof. apply fast_feature_read. Qed.

(** C40: Every SASL, SASL 2, Bind 2 and FAST element that is written on its own is read back from
    what is written, and <user-agent/> inside <authenticate/>, except for what [codec_ok] leaves
    out: the flag tls-0rtt of a FAST feature, which is lost (also in the feature of a stream), a
    <failed/> of stream management without a condition, and values that their text does not
    give back: numbers that do not fit 32 or 64 bits, dates and ids that Qt does not read back. *)
Theorem sasl_roundtrip `{QtTypes} :
  (forall a : Sasl.Auth, fromDom (serializeXml (toXml a)) = Some a) /\
  (forall c : Sasl.Challenge, fromDom (serializeXml (toXml c)) = Some c) /\
  (forall f : Sasl.Failure, fromDom (serializeXml (toXml f)) = Some f) /\
  (forall r : Sasl.Response, fromDom (serializeXml (toXml r)) = Some r) /\
  (forall s : Sasl.Success, fromDom (serializeXml (toXml s)) = Some s) /\
  (forall f : Bind2Feature, fromDom (serializeXml (toXml f)) = Some f) /\
  (forall r : Bind2Request, codec_ok r -> fromDom (serializeXml (toXml r)) = Some r) /\
  (forall b : Bind2Bound, codec_ok b -> fromDom (serializeXml (toXml b)) = Some b) /\
  (forall f : FastFeature, fromDom (serializeXml (toXml f)) =
     Some {| ff_mechanisms := ff_mechanisms f; tls0rtt := false |}) /\
  (forall r : FastTokenRequest, fromDom (serializeXml (toXml r)) = Some r) /\
  (forall r : FastRequest, codec_ok r -> fromDom (serializeXml (toXml r)) = Some r) /\
  (forall t : Sasl2.FastToken, codec_ok t -> fromDom (serializeXml (toXml t)) = Some t) /\
  (forall f : Sasl2.StreamFeature, codec_ok f -> fromDom (serializeXml (toXml f)) = Some f) /\
  (forall a : Sasl2.Authenticate, codec_ok a -> fromDom (serializeXml (toXml a)) = Some a) /\
  (forall c : Sasl2.Challenge, fromDom (serializeXml (toXml c)) = Some c) /\
  (forall r : Sasl2.Response, fromDom (serializeXml (toXml r)) = Some r) /\
  (forall s : Sasl2.Success, codec_ok s -> fromDom (serializeXml (toXml s)) = Some s) /\
  (forall f : Sasl2.Failure, fromDom (serializeXml (toXml f)) = Some f) /\
  (forall c : Sasl2.Continue, Sasl2.tasks c <> [] -> fromDom (serializeXml (toXml c)) = Some c) /\
  (forall a : Sasl2.Abort, fromDom (serializeXml (toXml a)) = Some a).
Proof. split_and!; intros; first [apply fast_feature_read | by apply codec_roundtrip]. Qed.

(** ** Examples *)

(** Values that are their text. *)
Definition text_types : QtTypes := {|
  QDateTime := string; datetimeFromString := id; datetimeSerialize := id;
  datetimeIsValid d := negb (bool_decide (d = "")); nullDateTime := "";
  QUrl := string; urlFromString := id; urlToString := id;
  QMimeType := string; mimeTypeForName := id; mimeName := id;
  QUuid := string; uuidFromString := id; uuidToString := id;
  uuidIsNull u := bool_decide (u = "") |}.

Definition sample_authenticate : @Sasl2.Authenticate text_types := {|
  Sasl2.mechanism := "SCRAM-SHA-256"; Sasl2.initialResponse := "n,,n=me,r=nonce";
  Sasl2.userAgent := Some {| Sasl2.ua_id := "d4565fa7" : @QUuid text_types; Sasl2.software := "client"; Sasl2.device := "" |};
  Sasl2.bindRequest := Some {| b2_tag := "client"; csiInactive := true; carbonsEnable := true;
                               smEnable := Some {| en_resume := true; en_max := 300 |} |};
  Sasl2.smResume := Some {| re_h := 7; re_previd := "prev" |};
  Sasl2.tokenRequest := Some {| ftr_mechanism := "HT-SHA-256-NONE" |};
  Sasl2.fast := Some {| count := Some 5; invalidate := false |} |}.

Lemma sasl_roundtrip_witness :
  fromDom (serializeXml (toXml sample_authenticate)) = Some sample_authenticate.
Proof. apply (@sasl_roundtrip text_types). vm_compute. repeat split; discriminate. Defined.
