(* ===== verification/SaslMechanism.v ===== *)
(** * SASL mechanisms (QXmppSasl.cpp, QXmppSaslManager.cpp)

    The mechanisms with their names, their order of preference, and the choice
    of one among those a server offers. Qt 6 is assumed for the list of hash
    algorithms. *)
From S2P Require Import Prelude Utils Dom Base64 XmlCodec StreamManagement SaslXml.

Inductive IanaHashAlgorithm :=
  | Sha256 | Sha384 | Sha512 | Sha3_224 | Sha3_256 | Sha3_384 | Sha3_512
  | Blake2s_256 | Blake2b_256 | Blake2b_512.
#[export] Instance IanaHashAlgorithm_eq_dec : EqDecision IanaHashAlgorithm.
Proof. solve_decision. Defined.

#[export] Instance IanaHashAlgorithm_data : EnumData IanaHashAlgorithm := {
  enum_value a := match a with
    | Sha256 => 0 | Sha384 => 1 | Sha512 => 2 | Sha3_224 => 3 | Sha3_256 => 4 | Sha3_384 => 5
    | Sha3_512 => 6 | Blake2s_256 => 7 | Blake2b_256 => 8 | Blake2b_512 => 9
    end;
  Values := [
    (Sha256, "SHA-256"); (Sha384, "SHA-384"); (Sha512, "SHA-512"); (Sha3_224, "SHA3-224");
    (Sha3_256, "SHA3-256"); (Sha3_384, "SHA3-384"); (Sha3_512, "SHA3-512");
    (Blake2s_256, "BLAKE2S-256"); (Blake2b_256, "BLAKE2B-256"); (Blake2b_512, "BLAKE2B-512")]
}.

Inductive ScramAlgorithm := ScramSha1 | ScramSha256 | ScramSha512 | ScramSha3_512.
#[export] Instance ScramAlgorithm_eq_dec : EqDecision ScramAlgorithm.
Proof. solve_decision. Defined.
#[export] Instance ScramAlgorithm_data : EnumData ScramAlgorithm := {
  enum_value a := match a with
    | ScramSha1 => 0 | ScramSha256 => 1 | ScramSha512 => 2 | ScramSha3_512 => 3 end;
  Values := [
    (ScramSha1, "SCRAM-SHA-1"); (ScramSha256, "SCRAM-SHA-256"); (ScramSha512, "SCRAM-SHA-512");
    (ScramSha3_512, "SCRAM-SHA3-512")]
}.

Inductive ChannelBindingType := TlsServerEndpoint | TlsUnique | TlsExporter | CbNone.
#[export] Instance ChannelBindingType_eq_dec : EqDecision ChannelBindingType.
Proof. solve_decision. Defined.
#[export] Instance ChannelBindingType_data : EnumData ChannelBindingType := {
  enum_value c := match c with
    | TlsServerEndpoint => 0 | TlsUnique => 1 | TlsExporter => 2 | CbNone => 3 end;
  Values := [(TlsServerEndpoint, "ENDP"); (TlsUnique, "UNIQ"); (TlsExporter, "EXPR"); (CbNone, "NONE")]
}.

Record HtMechanism := { hashAlgorithm : IanaHashAlgorithm; channelBindingType : ChannelBindingType }.
#[export] Instance HtMechanism_eq_dec : EqDecision HtMechanism.
Proof. solve_decision. Defined.

(** In the order of the variant: from the weakest to the strongest. *)
Inductive SaslMechanism :=
  | XGoogle | XWindowsLive | XFacebook | Anonymous | Plain | DigestMd5
  | Scram (algorithm : ScramAlgorithm) | Ht (ht : HtMechanism).
#[export] Instance SaslMechanism_eq_dec : EqDecision SaslMechanism.
Proof. solve_decision. Defined.

(** ** Names *)

Fixpoint startsWith (prefix s : string) : bool :=
  match prefix, s with
  | "", _ => true
  | String a p, String b s' => bool_decide (a = b) && startsWith p s'
  | _, _ => false
  end.
Definition mid (n : nat) (s : string) : string := String.substring n (String.length s - n) s.

(** The algorithms of the loop, [int(Sha256)] to [int(_End)]. *)
Definition iana_algorithms : list IanaHashAlgorithm :=
  [Sha256; Sha384; Sha512; Sha3_224; Sha3_256; Sha3_384; Sha3_512; Blake2s_256; Blake2b_256;
   Blake2b_512].

(** The loop does not stop at the first match. *)
Definition ht_algorithm (s : string) : option IanaHashAlgorithm * string :=
  foldl (fun '(algorithm, s) i =>
      let algorithmString := toString i in
      if startsWith algorithmString s then (Some i, mid (String.length algorithmString) s)
      else (algorithm, s)) (None, s) iana_algorithms.

Definition HtMechanism_fromString (s : string) : option HtMechanism :=
  if negb (startsWith "HT-" s) then None
  else
    match ht_algorithm (mid 3 s) with
    | (Some algorithm, s) =>
        if negb (startsWith "-" s) then None
        else
          cbType ← fromString (mid 1 s);
          Some {| hashAlgorithm := algorithm; channelBindingType := cbType |}
    | (None, _) => None
    end.
Definition HtMechanism_toString (ht : HtMechanism) : string :=
  "HT-" +:+ toString (hashAlgorithm ht) +:+ "-" +:+ toString (channelBindingType ht).

Definition SaslMechanism_fromString (str : string) : option SaslMechanism :=
  if startsWith "SCRAM-" str then Scram <$> fromString str
  else if startsWith "HT-" str then Ht <$> HtMechanism_fromString str
  else if decide (str = "DIGEST-MD5") then Some DigestMd5
  else if decide (str = "PLAIN") then Some Plain
  else if decide (str = "ANONYMOUS") then Some Anonymous
  else if decide (str = "X-FACEBOOK-PLATFORM") then Some XFacebook
  else if decide (str = "X-MESSENGER-OAUTH2") then Some XWindowsLive
  else if decide (str = "X-OAUTH2") then Some XGoogle
  else None.

Definition SaslMechanism_toString (m : SaslMechanism) : string :=
  match m with
  | Scram a => toString a
  | Ht ht => HtMechanism_toString ht
  | DigestMd5 => "DIGEST-MD5"
  | Plain => "PLAIN"
  | Anonymous => "ANONYMOUS"
  | XFacebook => "X-FACEBOOK-PLATFORM"
  | XWindowsLive => "X-MESSENGER-OAUTH2"
  | XGoogle => "X-OAUTH2"
  end.

(** ** The order: the variant's index, then the member's fields *)

Definition mech_rank (m : SaslMechanism) : Z :=
  match m with
  | XGoogle => 0 | XWindowsLive => 100 | XFacebook => 200 | Anonymous => 300 | Plain => 400
  | DigestMd5 => 500
  | Scram a => 600 + enum_value a
  | Ht ht => 700 + 10 * enum_value (hashAlgorithm ht) + enum_value (channelBindingType ht)
  end.

(** std::ranges::max: the first of the greatest. *)
Fixpoint max_from (best : SaslMechanism) (ms : list SaslMechanism) : SaslMechanism :=
  match ms with
  | [] => best
  | m :: ms' => max_from (if mech_rank best <? mech_rank m then m else best) ms'
  end.

(** ** Credentials *)

Section Credentials.
Context `{QtTypes}.

Record HtToken := { ht_mechanism : HtMechanism; secret : string; ht_expiry : QDateTime }.
Record Credentials := {
  password : string;
  htToken : option HtToken;
  facebookAccessToken : string;
  facebookAppId : string;
  googleAccessToken : string;
  windowsLiveAccessToken : string;
}.

(** The parts of QXmppConfiguration the authentication reads. *)
Record SaslConfiguration := {
  cfg_user : string;
  cfg_domain : string;
  disabledSaslMechanisms : list string;
  saslAuthMechanism : string;
  credentialData : Credentials;
  useFastTokenAuthentication : bool;
  sasl2UserAgent : option Sasl2.UserAgent;
}.

Definition isMechanismAvailable (m : SaslMechanism) (c : Credentials) : bool :=
  match m with
  | Ht ht =>
      match htToken c with
      | Some t => bool_decide (ht_mechanism t = ht) && bool_decide (channelBindingType ht = CbNone)
      | None => false
      end
  | Scram _ | DigestMd5 | Plain => negb (bool_decide (password c = ""))
  | XFacebook => negb (bool_decide (facebookAccessToken c = ""))
                 && negb (bool_decide (facebookAppId c = ""))
  | XWindowsLive => negb (bool_decide (windowsLiveAccessToken c = ""))
  | XGoogle => negb (bool_decide (googleAccessToken c = ""))
  | Anonymous => true
  end.

(** The offered mechanisms that are enabled, known and usable. *)
Definition usable (config : SaslConfiguration) (availableMechanisms : list string) :
    list SaslMechanism :=
  filter (fun m => isMechanismAvailable m (credentialData config) = true)
    (omap SaslMechanism_fromString
       (filter (fun m => m ∉ disabledSaslMechanisms config) availableMechanisms)).

Definition chooseMechanism (config : SaslConfiguration) (availableMechanisms : list string) :
    option SaslMechanism :=
  match usable config availableMechanisms with
  | [] => None
  | m :: ms =>
      let strongest := Some (max_from m ms) in
      if decide (saslAuthMechanism config = "") then strongest
      else
        match SaslMechanism_fromString (saslAuthMechanism config) with
        | Some preferred => if decide (preferred ∈ m :: ms) then Some preferred else strongest
        | None => strongest
        end
  end.

(** FastTokenManager::onSasl2Authenticate's selection. *)
Definition selectMechanism (availableMechanisms : list string) : option HtMechanism :=
  match filter (fun m => channelBindingType m = CbNone)
          (omap HtMechanism_fromString availableMechanisms) with
  | [] => None
  | m :: ms =>
      match max_from (Ht m) (map Ht ms) with Ht ht => Some ht | _ => None end
  end.

End Credentials.
Arguments Credentials {_}. Arguments HtToken {_}. Arguments SaslConfiguration {_}.

(** ** The order is the variant's *)

(** Distinct mechanisms have distinct ranks, so the order is total. *)
Lemma mech_rank_inj m1 m2 : mech_rank m1 = mech_rank m2 -> m1 = m2.
Proof.
  destruct m1 as [| | | | | |[]|[[] []]], m2 as [| | | | | |[]|[[] []]];
    first [reflexivity | intros Hr; vm_compute in Hr; discriminate Hr].
Qed.

Lemma max_from_spec best ms :
  max_from best ms ∈ best :: ms /\
  Forall (fun m => mech_rank m <= mech_rank (max_from best ms)) (best :: ms).
Proof.
  revert best. induction ms as [|m ms IH]; intros best; simpl.
  { split; [set_solver|]. by repeat constructor. }
  destruct (Z.ltb_spec (mech_rank best) (mech_rank m)) as [Hlt|Hle].
  - destruct (IH m) as [Hin Hall]. split; [set_solver|].
    constructor; [|done]. apply Forall_cons in Hall as [? _]. lia.
  - destruct (IH best) as [Hin Hall]. split; [set_solver|].
    apply Forall_cons in Hall as [? Hall]. constructor; [done|]. constructor; [lia|done].
Qed.

(** Every mechanism's name is parsed back to it. *)
Theorem sasl_mechanism_roundtrip (m : SaslMechanism) :
  SaslMechanism_fromString (SaslMechanism_toString m) = Some m.
Proof. destruct m as [| | | | | |[]|[[] []]]; vm_compute; reflexivity. Qed.

(** The parser also accepts names no mechanism has: a later algorithm in the
    loop replaces an earlier one. *)
Example ht_two_algorithms :
  HtMechanism_fromString "HT-SHA-256SHA3-512-NONE" =
  Some {| hashAlgorithm := Sha3_512; channelBindingType := CbNone |}.
Proof. vm_compute. reflexivity. Qed.

Lemma fromString_plain s : SaslMechanism_fromString s = Some Plain -> s = "PLAIN".
Proof.
  unfold SaslMechanism_fromString. destruct (startsWith "SCRAM-" s).
  { by destruct (fromString s). }
  destruct (startsWith "HT-" s); [by destruct (HtMechanism_fromString s)|].
  repeat case_decide; done.
Qed.

Section Choice.
Context `{QtTypes}.

Lemma usable_spec config offered m :
  m ∈ usable config offered <->
  isMechanismAvailable m (credentialData config) = true /\
  exists name, name ∈ offered /\ name ∉ disabledSaslMechanisms config /\
    SaslMechanism_fromString name = Some m.
Proof.
  unfold usable. rewrite list_elem_of_filter, list_elem_of_omap.
  setoid_rewrite list_elem_of_filter. naive_solver.
Qed.

(** The mechanism chosen is offered, enabled, known and usable with the credentials. It is
    the configured one if that is usable, and otherwise no usable one is stronger: a server
    that offers SCRAM never gets the plain password unless PLAIN is configured. *)
Theorem sasl_choice config offered m :
  chooseMechanism config offered = Some m ->
  m ∈ usable config offered /\
  (SaslMechanism_fromString (saslAuthMechanism config) = Some m /\ saslAuthMechanism config <> "" \/
   (forall m', m' ∈ usable config offered -> mech_rank m' <= mech_rank m) /\
   (saslAuthMechanism config <> "" -> forall p,
      SaslMechanism_fromString (saslAuthMechanism config) = Some p -> p ∉ usable config offered)) /\
  (m = Plain -> saslAuthMechanism config <> "PLAIN" -> forall a, Scram a ∉ usable config offered).
Proof.
  unfold chooseMechanism. destruct (usable config offered) as [|m0 ms] eqn:Hu; [done|].
  destruct (max_from_spec m0 ms) as [Hin Hmax]. rewrite Forall_forall in Hmax.
  set (strongest := max_from m0 ms) in *. intros Hm.
  assert (m = strongest /\ (saslAuthMechanism config <> "" -> forall p,
      SaslMechanism_fromString (saslAuthMechanism config) = Some p -> p ∉ m0 :: ms) \/
    SaslMechanism_fromString (saslAuthMechanism config) = Some m /\
    saslAuthMechanism config <> "" /\ m ∈ m0 :: ms) as [[-> Hp]|(Hp & Hs & Hi)].
  { revert Hm. case_decide as He; [intros [= <-]; left; split; [done|congruence]|].
    destruct (SaslMechanism_fromString _) as [p|]; [|intros [= <-]; left; split; [done|congruence]].
    case_decide as Hi; intros [= <-]; [right|left]; naive_solver. }
  - split_and!; [done|right; split; [done|done]|]. intros Heq _ a Ha.
    specialize (Hmax _ Ha). rewrite Heq in Hmax. destruct a; vm_compute in Hmax; congruence.
  - split_and!; [done|left; done|]. intros -> Hne. by apply fromString_plain in Hp.
Qed.
End Choice.

Definition sample_config : @SaslConfiguration text_types := {|
  cfg_user := "me"; cfg_domain := "example.org"; disabledSaslMechanisms := ["DIGEST-MD5"];
  saslAuthMechanism := ""; useFastTokenAuthentication := false; sasl2UserAgent := None;
  credentialData := {| password := "secret"; htToken := None; facebookAccessToken := "";
    facebookAppId := ""; googleAccessToken := ""; windowsLiveAccessToken := "" |} |}.

Lemma sasl_choice_witness :
  Scram ScramSha256 ∈ usable sample_config
    ["PLAIN"; "SCRAM-SHA-256"; "DIGEST-MD5"; "SCRAM-SHA-1"; "X-UNKNOWN"].
Proof.
  apply (sasl_choice sample_config ["PLAIN"; "SCRAM-SHA-256"; "DIGEST-MD5"; "SCRAM-SHA-1"; "X-UNKNOWN"]
    (Scram ScramSha256)). vm_compute. reflexivity.
Defined.
