(* ===== verification/DigestMd5.v ===== *)
(** * The messages of DIGEST-MD5 (QXmppSaslDigestMd5 of QXmppSasl.cpp)

    QMap<QByteArray, QByteArray> as an association list in the order of the
    keys, and the comma-separated list of key=value pairs with its quoting.
    The parser runs on fuel, the length of the message plus one being enough. *)
From S2P Require Import Prelude Utils Dom.

(** ** QMap with byte array keys *)

Definition BMap : Type := list (string * string).

Fixpoint bm_insert (k v : string) (m : BMap) : BMap :=
  match m with
  | [] => [(k, v)]
  | (k', v') :: m' =>
      match String.compare k k' with
      | Lt => (k, v) :: m
      | Eq => (k, v) :: m'
      | Gt => (k', v') :: bm_insert k v m'
      end
  end.
Fixpoint bm_value (k : string) (m : BMap) : option string :=
  match m with
  | [] => None
  | (k', v') :: m' => if decide (k = k') then Some v' else bm_value k m'
  end.
(** [map.value(key)]: empty when absent. *)
Definition bm_get (k : string) (m : BMap) : string := default "" (bm_value k m).
Definition bm_contains (k : string) (m : BMap) : bool := bool_decide (is_Some (bm_value k m)).

(** ** Quoting *)

Definition quote_char : ascii := ascii_of_N 34.
Definition backslash : ascii := ascii_of_N 92.

(** The two replacements of serializeMessage, in order. *)
Fixpoint double_backslashes (s : string) : string :=
  match s with
  | "" => ""
  | String c s' =>
      if decide (c = backslash) then String backslash (String backslash (double_backslashes s'))
      else String c (double_backslashes s')
  end.
Fixpoint escape_quotes (s : string) : string :=
  match s with
  | "" => ""
  | String c s' =>
      if decide (c = quote_char) then String backslash (String quote_char (escape_quotes s'))
      else String c (escape_quotes s')
  end.

(** A replacement of a backslash and [e] by [e]; parseMessage does it for the
    quote and then for the backslash. *)
Fixpoint unescape (e : ascii) (s : string) : string :=
  match s with
  | String c s' =>
      match s' with
      | String d s'' =>
          if decide (c = backslash /\ d = e) then String e (unescape e s'')
          else String c (unescape e s')
      | "" => s
      end
  | "" => ""
  end.
Definition unquote (s : string) : string := unescape backslash (unescape quote_char s).

Definition separators : string :=
  "()<>@,;:\" +:+ String quote_char "/[]?={} " +:+ String (ascii_of_N 9) "".
Fixpoint has_char (c : ascii) (s : string) : bool :=
  match s with "" => false | String d s' => bool_decide (c = d) || has_char c s' end.
Fixpoint needs_quote (value : string) : bool :=
  match value with
  | "" => false
  | String c v => has_char c separators || needs_quote v
  end.

(** ** Messages *)

Definition serialize_pair (p : string * string) : string :=
  p.1 +:+ "=" +:+
  (if needs_quote p.2
   then String quote_char (escape_quotes (double_backslashes p.2) +:+ String quote_char "")
   else p.2).
Definition serializeMessage (map : BMap) : string :=
  foldl (fun ba p => (if decide (ba = "") then ba else ba +:+ ",") +:+ serialize_pair p) "" map.

(** The text before the first [c] and the text after it. *)
Fixpoint split_at (c : ascii) (s : string) : option (string * string) :=
  match s with
  | "" => None
  | String d s' =>
      if decide (d = c) then Some ("", s')
      else '(a, b) ← split_at c s'; Some (String d a, b)
  end.
(** The text up to the first quote that does not follow a backslash. *)
Fixpoint split_quote (prev : ascii) (s : string) : option (string * string) :=
  match s with
  | "" => None
  | String d s' =>
      if decide (d = quote_char /\ prev <> backslash) then Some ("", s')
      else '(a, b) ← split_quote d s'; Some (String d a, b)
  end.
Definition skip_one (s : string) : string := match s with "" => "" | String _ s' => s' end.

Fixpoint parse_loop (fuel : nat) (s : string) (map : BMap) : option BMap :=
  match fuel with
  | O => None
  | S fuel =>
      match split_at "="%char s with
      | None => Some map
      | Some (before, rest) =>
          let key := trimmed before in
          match rest with
          | "" => Some (bm_insert key "" map)
          | String c rest' =>
              if decide (c = quote_char) then
                match split_quote quote_char rest' with
                | None => Some map                       (* unfinished quoted string *)
                | Some (value, after) =>
                    parse_loop fuel (skip_one after) (bm_insert key (unquote value) map)
                end
              else
                match split_at ","%char rest with
                | Some (value, after) => parse_loop fuel after (bm_insert key value map)
                | None => Some (bm_insert key rest map)
                end
          end
      end
  end.
Definition parseMessage (ba : string) : option BMap := parse_loop (S (String.length ba)) ba [].

(** ** Reading back what was written *)

#[local] Arguments String.append : simpl nomatch.

Definition escape (v : string) : string := escape_quotes (double_backslashes v).

Lemma escape_cons c v :
  escape (String c v) =
  if decide (c = backslash) then String backslash (String backslash (escape v))
  else if decide (c = quote_char) then String backslash (String quote_char (escape v))
  else String c (escape v).
Proof.
  unfold escape. simpl. case_decide as Hc; [subst; reflexivity|]. simpl. done.
Qed.

(** What an escaped text starts with is no quote. *)
Lemma unescape_cons e c s :
  (c <> backslash \/ match s with String d _ => d <> e | "" => True end) ->
  unescape e (String c s) = String c (unescape e s).
Proof.
  intros Hc. destruct s as [|d s]; [done|]. cbn [unescape].
  rewrite decide_False; [done|]. naive_solver.
Qed.

Lemma escape_no_quote v : match escape v with String d _ => d <> quote_char | "" => True end.
Proof.
  destruct v as [|c v]; [done|]. rewrite escape_cons. repeat case_decide; done.
Qed.

Lemma unescape_quotes v : unescape quote_char (escape v) = double_backslashes v.
Proof.
  induction v as [|c v IH]; [done|]. rewrite escape_cons. cbn [double_backslashes].
  case_decide as Hb.
  - rewrite unescape_cons by by right. rewrite unescape_cons by (right; apply escape_no_quote).
    by rewrite IH.
  - case_decide as Hq.
    + cbn [unescape]. rewrite decide_True by done. by rewrite IH, Hq.
    + rewrite unescape_cons by by left. by rewrite IH.
Qed.

Lemma unescape_backslashes v : unescape backslash (double_backslashes v) = v.
Proof.
  induction v as [|c v IH]; [done|]. cbn [double_backslashes]. case_decide as Hb.
  - cbn [unescape]. rewrite decide_True by done. by rewrite IH, Hb.
  - rewrite unescape_cons by by left. by rewrite IH.
Qed.

Lemma unquote_escape v : unquote (escape v) = v.
Proof. unfold unquote. by rewrite unescape_quotes, unescape_backslashes. Qed.

(** No backslash at the end: it would hide the closing quote. *)
Fixpoint ends_with (c : ascii) (s : string) : Prop :=
  match s with "" => False | String d "" => d = c | String _ s' => ends_with c s' end.

Lemma split_quote_escape prev v rest :
  (v = "" -> prev <> backslash) -> ~ ends_with backslash v ->
  split_quote prev (escape v +:+ String quote_char rest) = Some (escape v, rest).
Proof.
  revert prev. induction v as [|c v IH]; intros prev Hp Hv.
  - simpl. by rewrite decide_True by auto.
  - assert (~ ends_with backslash v /\ (v = "" -> c <> backslash)) as [Hv' Hc]
      by (destruct v; simpl in *; naive_solver).
    rewrite escape_cons. case_decide as Hb; [|case_decide as Hq].
    + subst c. simpl. rewrite IH; [done| |done]. intros ->. by destruct Hc.
    + subst c. simpl. rewrite IH by done. done.
    + simpl. rewrite decide_False by naive_solver. rewrite IH; [done|by intros _|done].
Qed.

Lemma split_at_app c a b : has_char c a = false -> split_at c (a +:+ String c b) = Some (a, b).
Proof.
  induction a as [|d a IH]; intros Ha; simpl.
  - by rewrite decide_True.
  - simpl in Ha. bools. rewrite decide_False by congruence. by rewrite IH.
Qed.
Lemma split_at_none c a : has_char c a = false -> split_at c a = None.
Proof.
  induction a as [|d a IH]; intros Ha; [done|]. simpl in *. bools.
  rewrite decide_False by congruence. by rewrite IH.
Qed.

Lemma no_quote_has c v : needs_quote v = false -> has_char c separators = true -> has_char c v = false.
Proof.
  intros Hv Hc. induction v as [|d v IH]; [done|].
  apply orb_false_iff in Hv as [Hd Hv]. apply orb_false_iff. split; [|auto].
  apply bool_decide_eq_false. congruence.
Qed.

(** The messages with commas between the pairs. *)
Fixpoint join (m : BMap) : string :=
  match m with
  | [] => ""
  | [p] => serialize_pair p
  | p :: m' => serialize_pair p +:+ "," +:+ join m'
  end.

Lemma pair_nonempty p : serialize_pair p <> "".
Proof. unfold serialize_pair. destruct p as [[|c k] v]; done. Qed.

Lemma serialize_join m : serializeMessage m = join m.
Proof.
  unfold serializeMessage. destruct m as [|p m]; [done|]. cbn [foldl].
  rewrite decide_True by done. change ("" +:+ serialize_pair p) with (serialize_pair p).
  assert (forall ms s, s <> "" ->
    foldl (fun ba p => (if decide (ba = "") then ba else ba +:+ ",") +:+ serialize_pair p) s ms
    = match ms with [] => s | _ => s +:+ "," +:+ join ms end) as H.
  { induction ms as [|q ms IH]; intros s Hs; [done|]. cbn [foldl].
    rewrite decide_False by done. rewrite IH.
    - destruct ms as [|q' ms]; [by rewrite text_app_assoc|].
      cbn [join]. by rewrite !text_app_assoc.
    - destruct s; [done|]. simpl. discriminate. }
  rewrite H by apply pair_nonempty. by destruct m.
Qed.

Definition key_ok (k : string) : Prop := has_char "="%char k = false /\ trimmed k = k.
Definition pair_ok (p : string * string) : Prop := key_ok p.1 /\ ~ ends_with backslash p.2.

Definition value_text (v : string) : string :=
  if needs_quote v then String quote_char (escape v +:+ String quote_char "") else v.
Lemma serialize_pair_eq k v : serialize_pair (k, v) = k +:+ String "="%char (value_text v).
Proof. unfold serialize_pair, value_text. simpl. by destruct (needs_quote v). Qed.

Lemma unquoted v c : needs_quote v = false -> has_char c separators = true ->
  match v with String d _ => d <> c | "" => True end.
Proof.
  intros Hv Hc. pose proof (no_quote_has c v Hv Hc) as Hh. destruct v as [|d v]; [done|].
  intros ->. simpl in Hh. by rewrite bool_decide_eq_true_2 in Hh.
Qed.

(** One pair, and what follows its comma. *)
Lemma parse_pair fuel p rest acc : pair_ok p ->
  parse_loop (S fuel) (serialize_pair p +:+ String ","%char rest) acc =
  parse_loop fuel rest (bm_insert p.1 p.2 acc).
Proof.
  intros [[Hk Ht] Hv]. destruct p as [k v]. cbn [fst snd] in *.
  rewrite serialize_pair_eq, text_app_assoc, append_cons. cbn [parse_loop].
  rewrite split_at_app by done. cbn [mbind option_bind]. cbv beta iota. rewrite Ht.
  unfold value_text. destruct (needs_quote v) eqn:Hq.
  - rewrite append_cons. cbv iota beta. rewrite decide_True by done.
    rewrite text_app_assoc, append_cons, split_quote_escape by done.
    by rewrite unquote_escape.
  - pose proof (no_quote_has ","%char v Hq eq_refl) as Hcm.
    pose proof (unquoted v quote_char Hq eq_refl) as Hqc.
    rewrite split_at_app by done. destruct v as [|c v]; [reflexivity|].
    rewrite append_cons. cbv iota beta. by rewrite decide_False.
Qed.

Lemma parse_last fuel p acc : pair_ok p -> (0 < fuel)%nat ->
  parse_loop (S fuel) (serialize_pair p) acc = Some (bm_insert p.1 p.2 acc).
Proof.
  intros [[Hk Ht] Hv] Hf. destruct p as [k v]. cbn [fst snd] in *.
  rewrite serialize_pair_eq. cbn [parse_loop].
  rewrite split_at_app by done. cbn [mbind option_bind]. cbv beta iota. rewrite Ht.
  unfold value_text. destruct (needs_quote v) eqn:Hq.
  - rewrite decide_True by done. rewrite split_quote_escape by done.
    rewrite unquote_escape. destruct fuel; [lia|]. reflexivity.
  - pose proof (no_quote_has ","%char v Hq eq_refl) as Hcm.
    pose proof (unquoted v quote_char Hq eq_refl) as Hqc.
    destruct v as [|c v]; [done|]. rewrite decide_False by done. by rewrite split_at_none.
Qed.

Lemma parse_join fuel m acc : Forall pair_ok m -> (String.length (join m) < fuel)%nat ->
  parse_loop fuel (join m) acc = Some (foldl (fun a p => bm_insert p.1 p.2 a) acc m).
Proof.
  revert fuel acc. induction m as [|p m IH]; intros fuel acc Hok Hf.
  - by destruct fuel; [simpl in Hf; lia|].
  - apply Forall_cons in Hok as [Hp Hm]. destruct fuel as [|fuel]; [lia|].
    destruct m as [|q m].
    + cbn [join]. apply parse_last; [done|]. cbn [join] in Hf.
      pose proof (pair_nonempty p). destruct (serialize_pair p); [done|]. simpl in Hf. lia.
    + change (join (p :: q :: m)) with (serialize_pair p +:+ String ","%char (join (q :: m))) in *.
      rewrite parse_pair by done. rewrite IH; [done|done|].
      rewrite text_app_length in Hf. set (n := String.length (join (q :: m))) in *.
      cbn [String.length] in Hf. fold n in Hf. lia.
Qed.

(** ** Maps in the order of their keys *)

Definition bm_ok (m : BMap) : Prop := StronglySorted (fun a b => String.compare a b = Lt) m.*1.

Lemma bm_insert_last k v m :
  Forall (fun p => String.compare p.1 k = Lt) m -> bm_insert k v m = m ++ [(k, v)].
Proof.
  induction 1 as [|[k0 v0] m Hk Hm IH]; [done|]. simpl in *.
  rewrite String.compare_antisym, Hk. simpl. by rewrite IH.
Qed.

Lemma insert_all_sorted m : bm_ok m -> foldl (fun a p => bm_insert p.1 p.2 a) [] m = m.
Proof.
  intros Hm. assert (forall done todo, bm_ok (done ++ todo) ->
    foldl (fun a p => bm_insert p.1 p.2 a) done todo = done ++ todo) as H.
  { intros d t. revert d. induction t as [|[k v] t IH]; intros d Hd; simpl; [by rewrite app_nil_r|].
    rewrite bm_insert_last; [rewrite IH; by rewrite <-app_assoc|].
    apply Forall_forall. intros p Hp. unfold bm_ok in Hd. rewrite fmap_app in Hd.
    eapply StronglySorted_app_1_elem_of in Hd; [exact Hd| |simpl; by left].
    by apply list_elem_of_fmap_2. }
  by apply (H [] m).
Qed.

Lemma parse_serialized (m : BMap) :
  bm_ok m -> Forall pair_ok m -> parseMessage (serializeMessage m) = Some m.
Proof.
  intros Hm Hok. unfold parseMessage. rewrite serialize_join, parse_join; [|done|apply Nat.lt_succ_diag_r].
  by rewrite insert_all_sorted.
Qed.

(** parseMessage reads back every message that serializeMessage writes, whatever needs
    quoting in it, when keys hold no equals sign or surrounding white space and no value ends
    with a backslash. *)
Theorem digest_message_roundtrip (m : BMap) :
  bm_ok m -> Forall pair_ok m -> parseMessage (serializeMessage m) = Some m.
Proof. apply parse_serialized. Qed.

Lemma split_quote_hidden prev v :
  has_char quote_char v = false -> (v = "" -> prev = backslash) ->
  (v = "" \/ ends_with backslash v) ->
  split_quote prev (escape v +:+ String quote_char "") = None.
Proof.
  revert prev. induction v as [|c v IH]; intros prev Hq Hp Hv.
  - rewrite Hp by done. reflexivity.
  - simpl in Hq. apply orb_false_iff in Hq as [Hc Hq]. apply bool_decide_eq_false in Hc.
    destruct Hv as [|Hv]; [done|].
    assert (v = "" -> c = backslash) as Hl by (intros ->; exact Hv).
    assert (v = "" \/ ends_with backslash v) as Hv' by (destruct v; auto).
    rewrite escape_cons. case_decide as Hb; [|case_decide; [done|]].
    + subst c. simpl. by rewrite IH.
    + simpl. rewrite decide_False by naive_solver. by rewrite IH.
Qed.

Lemma ends_with_last c v : ends_with c (v +:+ String c "").
Proof. induction v as [|d v IH]; [done|]. simpl. by destruct (v +:+ String c ""). Qed.

Lemma has_char_app c a b : has_char c (a +:+ b) = has_char c a || has_char c b.
Proof. induction a as [|d a IH]; [done|]. simpl. by rewrite IH, orb_assoc. Qed.

Lemma needs_quote_last v : needs_quote (v +:+ String backslash "") = true.
Proof. induction v as [|d v IH]; [reflexivity|]. simpl. by rewrite IH, orb_true_r. Qed.

(** A value that ends with a backslash is lost with all that follows it: the closing quote
    is taken for an escaped one. *)
Theorem digest_loses_backslash (k v : string) :
  key_ok k -> has_char quote_char v = false ->
  parseMessage (serializeMessage [(k, v +:+ String backslash "")]) = Some [].
Proof.
  intros [Hk Ht] Hv. unfold parseMessage. rewrite serialize_join. cbn [join].
  rewrite serialize_pair_eq. cbn [parse_loop]. rewrite split_at_app by done.
  cbn [mbind option_bind]. cbv beta iota. rewrite Ht. unfold value_text.
  rewrite needs_quote_last. rewrite decide_True by done. rewrite split_quote_hidden; [done|..].
  - rewrite has_char_app, Hv. reflexivity.
  - by destruct v.
  - right. apply ends_with_last.
Qed.

Lemma digest_message_roundtrip_witness :
  parseMessage (serializeMessage [("realm", "a " +:+ String quote_char "b, c"); ("username", "me")])
  = Some [("realm", "a " +:+ String quote_char "b, c"); ("username", "me")].
Proof.
  apply digest_message_roundtrip.
  - unfold bm_ok. simpl. repeat constructor.
  - repeat constructor; simpl; try reflexivity; intros Hf; vm_compute in Hf; discriminate.
Defined.

Lemma digest_loses_backslash_witness :
  parseMessage (serializeMessage [("username", "me" +:+ String backslash "")]) = Some [].
Proof. apply digest_loses_backslash; [split; reflexivity|reflexivity]. Defined.
