(* ===== verification/SaslClient.v ===== *)
(** * SASL clients and servers (QXmppSasl.cpp)

    The client and server side of each mechanism as a state with its respond
    function, over parameters for the cryptographic functions of Qt, the
    random nonces and QUrlQuery. Texts are their UTF-8 bytes. *)
From S2P Require Import Prelude Utils Dom Base64 XmlCodec StreamManagement SaslXml SaslMechanism DigestMd5.

(** QCryptographicHash::Algorithm. *)
Inductive QtHash :=
  | QMd5 | QSha1 | QSha256 | QSha384 | QSha512 | QSha3_224 | QSha3_256 | QSha3_384 | QSha3_512
  | QBlake2s_256 | QBlake2b_256 | QBlake2b_512.

(** QCryptographicHash, QMessageAuthenticationCode, QPasswordDigestor, QUrlQuery. *)
Class Crypto := {
  hash : QtHash -> string -> string;
  hashLength : QtHash -> Z;
  hmac : QtHash -> string -> string -> string;          (* key, message *)
  pbkdf2 : QtHash -> string -> string -> Z -> Z -> string;
  toHex : string -> string;
  queryItem : string -> string -> option string;        (* query, name *)
  buildQuery : list (string * string) -> string;
}.

Definition scram_qtAlgorithm (a : ScramAlgorithm) : QtHash :=
  match a with
  | ScramSha1 => QSha1 | ScramSha256 => QSha256 | ScramSha512 => QSha512
  | ScramSha3_512 => QSha3_512
  end.
Definition ianaHashAlgorithmToQt (a : IanaHashAlgorithm) : QtHash :=
  match a with
  | Sha256 => QSha256 | Sha384 => QSha384 | Sha512 => QSha512 | Sha3_224 => QSha3_224
  | Sha3_256 => QSha3_256 | Sha3_384 => QSha3_384 | Sha3_512 => QSha3_512
  | Blake2s_256 => QBlake2s_256 | Blake2b_256 => QBlake2b_256 | Blake2b_512 => QBlake2b_512
  end.

(** The zero byte. *)
Definition NUL : ascii := ascii_of_N 0.

Section Clients.
Context `{QtTypes} `{Crypto}.

Definition calculateDigest (method digestUri secret nonce cnonce nc : string) : string :=
  let A1 := secret +:+ ":" +:+ nonce +:+ ":" +:+ cnonce in
  let A2 := method +:+ ":" +:+ digestUri in
  let HA1 := toHex (hash QMd5 A1) in
  let HA2 := toHex (hash QMd5 A2) in
  let KD := HA1 +:+ ":" +:+ nonce +:+ ":" +:+ nc +:+ ":" +:+ cnonce +:+ ":auth:" +:+ HA2 in
  toHex (hash QMd5 KD).

(** [forcedNonce], or 32 random bytes in Base64. *)
Definition generateNonce (forcedNonce random : string) : string :=
  if decide (forcedNonce = "") then toBase64 random else forcedNonce.

(** The pieces between the separators. *)
Fixpoint split (c : ascii) (s : string) : list string :=
  match s with
  | "" => [""]
  | String d s' =>
      match split c s' with
      | p :: ps => if decide (d = c) then "" :: p :: ps else String d p :: ps
      | [] => []
      end
  end.

(** QMap<char, QByteArray>: a later pair replaces an earlier one. *)
Definition parseGS2 (ba : string) : list (ascii * string) :=
  foldl (fun m keyValue =>
      match keyValue with
      | String k (String e v) => if decide (e = "="%char) then (k, v) :: m else m
      | _ => m
      end) [] (split ","%char ba).
Definition gs2_value (k : ascii) (m : list (ascii * string)) : string :=
  default "" (snd <$> find (fun p => bool_decide (p.1 = k)) m).

(** std::transform with bit_xor over the first range. *)
Fixpoint xor_bytes (a b : string) : string :=
  match a, b with
  | String x a', String y b' => String (of_byte (Z.lxor (byte_of x) (byte_of y))) (xor_bytes a' b')
  | _, _ => a
  end.

(** ** QXmppSaslClient *)

(** The base class: host, service and user. *)
Record ClientBase := { host : string; serviceType : string; username : string }.

Record DigestClient := {
  dc_password : string; dc_cnonce : string; dc_nc : string; dc_nonce : string;
  dc_secret : string; dc_step : Z }.
Record ScramClient := {
  sc_mechanism : ScramAlgorithm; sc_step : Z; sc_password : string; sc_dklen : Z;
  gs2Header : string; clientFirstMessageBare : string; serverSignature : string;
  sc_nonce : string }.
Record HtClient := { hc_token : option HtToken; hc_mechanism : HtMechanism; hc_done : bool }.

#[export] Instance DigestClient_eta : Eta DigestClient := fun r =>
  {| dc_password := dc_password r; dc_cnonce := dc_cnonce r; dc_nc := dc_nc r;
     dc_nonce := dc_nonce r; dc_secret := dc_secret r; dc_step := dc_step r |}.
#[export] Instance ScramClient_eta : Eta ScramClient := fun r =>
  {| sc_mechanism := sc_mechanism r; sc_step := sc_step r; sc_password := sc_password r;
     sc_dklen := sc_dklen r; gs2Header := gs2Header r;
     clientFirstMessageBare := clientFirstMessageBare r; serverSignature := serverSignature r;
     sc_nonce := sc_nonce r |}.

(** The mechanisms with one secret and a step: Google, Plain, WindowsLive; Facebook has two. *)
Inductive SaslClient :=
  | ClientAnonymous (step : Z)
  | ClientDigestMd5 (c : DigestClient)
  | ClientFacebook (step : Z) (accessToken appId : string)
  | ClientGoogle (step : Z) (accessToken : string)
  | ClientPlain (step : Z) (password : string)
  | ClientScram (c : ScramClient)
  | ClientWindowsLive (step : Z) (accessToken : string)
  | ClientHt (c : HtClient).

(** QXmppSaslClient::create; [nonce] is what generateNonce returned. *)
Definition create (nonce : string) (m : SaslMechanism) : SaslClient :=
  match m with
  | Scram a =>
      ClientScram {| sc_mechanism := a; sc_step := 0; sc_password := "";
        sc_dklen := hashLength (scram_qtAlgorithm a); gs2Header := ""; clientFirstMessageBare := "";
        serverSignature := ""; sc_nonce := nonce |}
  | Ht ht => ClientHt {| hc_token := None; hc_mechanism := ht; hc_done := false |}
  | Plain => ClientPlain 0 ""
  | DigestMd5 =>
      ClientDigestMd5 {| dc_password := ""; dc_cnonce := nonce; dc_nc := "00000001"; dc_nonce := "";
        dc_secret := ""; dc_step := 0 |}
  | Anonymous => ClientAnonymous 0
  | XFacebook => ClientFacebook 0 "" ""
  | XWindowsLive => ClientWindowsLive 0 ""
  | XGoogle => ClientGoogle 0 ""
  end.

Definition mechanism (c : SaslClient) : SaslMechanism :=
  match c with
  | ClientAnonymous _ => Anonymous
  | ClientDigestMd5 _ => DigestMd5
  | ClientFacebook _ _ _ => XFacebook
  | ClientGoogle _ _ => XGoogle
  | ClientPlain _ _ => Plain
  | ClientScram c => Scram (sc_mechanism c)
  | ClientWindowsLive _ _ => XWindowsLive
  | ClientHt c => Ht (hc_mechanism c)
  end.

Definition setCredentials (cr : Credentials) (c : SaslClient) : SaslClient :=
  match c with
  | ClientAnonymous s => ClientAnonymous s
  | ClientDigestMd5 c => ClientDigestMd5 (c <| dc_password := password cr |>)
  | ClientFacebook s _ _ => ClientFacebook s (facebookAccessToken cr) (facebookAppId cr)
  | ClientGoogle s _ => ClientGoogle s (googleAccessToken cr)
  | ClientPlain s _ => ClientPlain s (password cr)
  | ClientScram c => ClientScram (c <| sc_password := password cr |>)
  | ClientWindowsLive s _ => ClientWindowsLive s (windowsLiveAccessToken cr)
  | ClientHt c => ClientHt {| hc_token := htToken cr; hc_mechanism := hc_mechanism c;
                              hc_done := hc_done c |}
  end.

(** [output[key] = value] for each pair in turn. *)
Definition output_map (pairs : list (string * string)) : BMap :=
  foldl (fun m p => bm_insert p.1 p.2 m) [] pairs.

(** An answer is the response, or [None] when the client fails, with the state after it.
    A message parseMessage has no fuel for cannot occur. *)
Definition digest_respond (b : ClientBase) (c : DigestClient) (challenge : string) :
    option string * DigestClient :=
  let digestUri := serviceType b +:+ "/" +:+ host b in
  let input := default [] (parseMessage challenge) in
  if dc_step c =? 0 then (Some "", c <| dc_step ::= Z.add 1 |>)
  else if dc_step c =? 1 then
    if negb (bm_contains "nonce" input) then (None, c)
    else
      let realm := bm_get "realm" input in
      let qops := split ","%char (default "auth" (bm_value "qop" input)) in
      if decide ("auth" ∉ qops) then (None, c)
      else
        let c := c <| dc_nonce := bm_get "nonce" input |>
                   <| dc_secret := hash QMd5 (username b +:+ ":" +:+ realm +:+ ":" +:+ dc_password c) |> in
        let output := output_map ([("username", username b)]
          ++ (if decide (realm = "") then [] else [("realm", realm)])
          ++ [("nonce", dc_nonce c); ("qop", "auth"); ("cnonce", dc_cnonce c); ("nc", dc_nc c);
              ("digest-uri", digestUri);
              ("response", calculateDigest "AUTHENTICATE" digestUri (dc_secret c) (dc_nonce c)
                             (dc_cnonce c) (dc_nc c));
              ("charset", "utf-8")]) in
        (Some (serializeMessage output), c <| dc_step ::= Z.add 1 |>)
  else if dc_step c =? 2 then
    if decide (bm_get "rspauth" input =
               calculateDigest "" digestUri (dc_secret c) (dc_nonce c) (dc_cnonce c) (dc_nc c))
    then (Some "", c <| dc_step ::= Z.add 1 |>)
    else (None, c)
  else (None, c).

(** [input.value('i').toInt()] *)
Definition toInt (s : string) : Z := (Numbers.qt_to toInteger Numbers.int32_t s).1.

Definition scram_respond (b : ClientBase) (c : ScramClient) (challenge : string) :
    option string * ScramClient :=
  let alg := scram_qtAlgorithm (sc_mechanism c) in
  if sc_step c =? 0 then
    let c := c <| gs2Header := "n,," |>
               <| clientFirstMessageBare := "n=" +:+ username b +:+ ",r=" +:+ sc_nonce c |> in
    (Some (gs2Header c +:+ clientFirstMessageBare c), c <| sc_step ::= Z.add 1 |>)
  else if sc_step c =? 1 then
    let input := parseGS2 challenge in
    let nonce := gs2_value "r" input in
    let salt := fromBase64 (gs2_value "s" input) in
    let iterations := toInt (gs2_value "i" input) in
    if negb (startsWith (sc_nonce c) nonce) || bool_decide (salt = "") || (iterations <? 1)
    then (None, c)
    else
      let clientFinalMessageBare := "c=" +:+ toBase64 (gs2Header c) +:+ ",r=" +:+ nonce in
      let saltedPassword := pbkdf2 alg (sc_password c) salt iterations (sc_dklen c) in
      let clientKey := hmac alg saltedPassword "Client Key" in
      let storedKey := hash alg clientKey in
      let authMessage := clientFirstMessageBare c +:+ "," +:+ challenge +:+ ","
                         +:+ clientFinalMessageBare in
      let clientProof := xor_bytes (hmac alg storedKey authMessage) clientKey in
      let serverKey := hmac alg saltedPassword "Server Key" in
      (Some (clientFinalMessageBare +:+ ",p=" +:+ toBase64 clientProof),
       c <| serverSignature := hmac alg serverKey authMessage |> <| sc_step ::= Z.add 1 |>)
  else if sc_step c =? 2 then
    let input := parseGS2 challenge in
    let c := c <| sc_step ::= Z.add 1 |> in
    (if decide (fromBase64 (gs2_value "v" input) = serverSignature c) then Some "" else None, c)
  else (None, c).

Definition ht_respond (b : ClientBase) (c : HtClient) (challenge : string) :
    option string * HtClient :=
  match hc_token c with
  | Some token =>
      if hc_done c || negb (bool_decide (challenge = ""))
         || negb (bool_decide (hc_mechanism c = ht_mechanism token))
      then (None, c)
      else
        (Some (username b +:+ String NUL
           (hmac (ianaHashAlgorithmToQt (hashAlgorithm (hc_mechanism c))) (secret token) "Initiator")),
         {| hc_token := hc_token c; hc_mechanism := hc_mechanism c; hc_done := true |})
  | None => (None, c)
  end.

Definition facebook_respond (step : Z) (accessToken appId challenge : string) :
    option string * Z :=
  if step =? 0 then (Some "", step + 1)
  else if step =? 1 then
    match queryItem challenge "method", queryItem challenge "nonce" with
    | Some method, Some nonce =>
        (Some (buildQuery [("access_token", accessToken); ("api_key", appId); ("call_id", "");
                           ("method", method); ("nonce", nonce); ("v", "1.0")]), step + 1)
    | _, _ => (None, step)
    end
  else (None, step).

Definition anonymous_respond (s : Z) : option string * Z :=
  if s =? 0 then (Some "", s + 1) else (None, s).
Definition google_respond (b : ClientBase) (s : Z) (t : string) : option string * Z :=
  if s =? 0 then (Some (String NUL (username b +:+ String NUL t)), s + 1) else (None, s).
Definition plain_respond (b : ClientBase) (s : Z) (p : string) : option string * Z :=
  if s =? 0 then (Some (String NUL (username b +:+ String NUL p)), s + 1) else (None, s).
Definition windowsLive_respond (s : Z) (t : string) : option string * Z :=
  if s =? 0 then (Some (fromBase64 t), s + 1) else (None, s).

(** The virtual respond. *)
Definition respond (b : ClientBase) (c : SaslClient) (challenge : string) :
    option string * SaslClient :=
  match c with
  | ClientAnonymous s => let '(r, s) := anonymous_respond s in (r, ClientAnonymous s)
  | ClientDigestMd5 c => let '(r, c) := digest_respond b c challenge in (r, ClientDigestMd5 c)
  | ClientFacebook s t a =>
      let '(r, s) := facebook_respond s t a challenge in (r, ClientFacebook s t a)
  | ClientGoogle s t => let '(r, s) := google_respond b s t in (r, ClientGoogle s t)
  | ClientPlain s p => let '(r, s) := plain_respond b s p in (r, ClientPlain s p)
  | ClientScram c => let '(r, c) := scram_respond b c challenge in (r, ClientScram c)
  | ClientWindowsLive s t => let '(r, s) := windowsLive_respond s t in (r, ClientWindowsLive s t)
  | ClientHt c => let '(r, c) := ht_respond b c challenge in (r, ClientHt c)
  end.

(** ** QXmppSaslServer *)

Inductive ServerResponse := Challenge | Succeeded | Failed | InputNeeded.

(** QXmppSaslServerPrivate. *)
Record ServerBase := {
  s_username : string; s_password : string; passwordDigest : string; s_realm : string }.
#[export] Instance ServerBase_eta : Eta ServerBase := fun r =>
  {| s_username := s_username r; s_password := s_password r; passwordDigest := passwordDigest r;
     s_realm := s_realm r |}.

Record DigestServer := {
  ds_cnonce : string; ds_nc : string; ds_nonce : string; ds_secret : string; ds_step : Z }.
#[export] Instance DigestServer_eta : Eta DigestServer := fun r =>
  {| ds_cnonce := ds_cnonce r; ds_nc := ds_nc r; ds_nonce := ds_nonce r; ds_secret := ds_secret r;
     ds_step := ds_step r |}.

Inductive SaslServer :=
  | ServerAnonymous (step : Z)
  | ServerDigestMd5 (s : DigestServer)
  | ServerPlain (step : Z).

Definition createServer (nonce : string) (mechanism : string) : option SaslServer :=
  if decide (mechanism = "PLAIN") then Some (ServerPlain 0)
  else if decide (mechanism = "DIGEST-MD5") then
    Some (ServerDigestMd5 {| ds_cnonce := ""; ds_nc := ""; ds_nonce := nonce; ds_secret := "";
                             ds_step := 0 |})
  else if decide (mechanism = "ANONYMOUS") then Some (ServerAnonymous 0)
  else None.

(** The result, the response when it was set, and the states after it. *)
Definition digest_server_respond (b : ServerBase) (s : DigestServer) (request : string) :
    ServerResponse * option string * ServerBase * DigestServer :=
  let input := default [] (parseMessage request) in
  if ds_step s =? 0 then
    let output := output_map ([("nonce", ds_nonce s)]
      ++ (if decide (s_realm b = "") then [] else [("realm", s_realm b)])
      ++ [("qop", "auth"); ("charset", "utf-8"); ("algorithm", "md5-sess")]) in
    (Challenge, Some (serializeMessage output), b, s <| ds_step ::= Z.add 1 |>)
  else if ds_step s =? 1 then
    let realm := bm_get "realm" input in
    let digestUri := bm_get "digest-uri" input in
    if decide (bm_get "qop" input <> "auth") then (Failed, None, b, s)
    else
      let b := b <| s_username := bm_get "username" input |> in
      if decide (s_password b = "" /\ passwordDigest b = "") then (InputNeeded, None, b, s)
      else
        let s := s <| ds_nc := bm_get "nc" input |> <| ds_cnonce := bm_get "cnonce" input |> in
        let s := s <| ds_secret :=
          if decide (s_password b = "") then passwordDigest b
          else hash QMd5 (s_username b +:+ ":" +:+ realm +:+ ":" +:+ s_password b) |> in
        if decide (bm_get "response" input <>
                   calculateDigest "AUTHENTICATE" digestUri (ds_secret s) (ds_nonce s)
                     (ds_cnonce s) (ds_nc s))
        then (Failed, None, b, s)
        else
          (Challenge,
           Some (serializeMessage (output_map
             [("rspauth", calculateDigest "" digestUri (ds_secret s) (ds_nonce s) (ds_cnonce s)
                            (ds_nc s))])),
           b, s <| ds_step ::= Z.add 1 |>)
  else if ds_step s =? 2 then (Succeeded, Some "", b, s <| ds_step ::= Z.add 1 |>)
  else (Failed, None, b, s).

Definition plain_server_respond (b : ServerBase) (step : Z) (request : string) :
    ServerResponse * option string * ServerBase * Z :=
  if step =? 0 then
    if decide (request = "") then (Challenge, Some "", b, step)
    else
      match split NUL request with
      | [_; user; pass] =>
          (InputNeeded, Some "", b <| s_username := user |> <| s_password := pass |>, step + 1)
      | _ => (Failed, None, b, step)
      end
  else (Failed, None, b, step).

Definition anonymous_server_respond (step : Z) : ServerResponse * option string * Z :=
  if step =? 0 then (Succeeded, Some "", step + 1) else (Failed, None, step).

End Clients.

(** ** Properties *)

Section Theory.
Context `{QtTypes} `{Crypto}.

Lemma byte_lxor a b : Z.lxor (Z.lxor (byte_of a) (byte_of b)) (byte_of a) = byte_of b.
Proof. rewrite Z.lxor_comm, <-Z.lxor_assoc, Z.lxor_nilpotent. apply Z.lxor_0_l. Qed.

Lemma byte_high a n : 8 <= n -> Z.testbit (byte_of a) n = false.
Proof.
  intros Hn. pose proof (byte_of_range a). rewrite <-(Z.mod_small (byte_of a) (2 ^ 8)) by done.
  apply Z.mod_pow2_bits_high. lia.
Qed.

Lemma lxor_byte a b : 0 <= Z.lxor (byte_of a) (byte_of b) < 256.
Proof.
  replace (Z.lxor (byte_of a) (byte_of b)) with (Z.lxor (byte_of a) (byte_of b) mod 2 ^ 8).
  { by apply Z.mod_pos_bound. }
  apply Z.bits_inj'. intros n Hn. rewrite Z.testbit_mod_pow2 by done. rewrite Z.lxor_spec.
  destruct (Z.ltb_spec n 8); [done|]. by rewrite !byte_high by done.
Qed.

Lemma byte_of_of n : 0 <= n < 256 -> byte_of (of_byte n) = n.
Proof. intros Hn. unfold byte_of, of_byte. rewrite N_ascii_embedding; lia. Qed.

(** Applying the pad twice gives the other operand back. *)
Lemma xor_cancel a b : String.length a = String.length b -> xor_bytes (xor_bytes a b) a = b.
Proof.
  revert b. induction a as [|x a IH]; intros [|y b] Hl; simpl in *; try done.
  rewrite byte_of_of by apply lxor_byte. rewrite byte_lxor, of_byte_of, IH; [done|lia].
Qed.

(** *** SCRAM *)

(** What a server that stores [storedKey] and [serverKey] checks and answers (RFC 5802). *)
Definition rfc5802_accepts (alg : QtHash) (storedKey authMessage proof : string) : Prop :=
  hash alg (xor_bytes proof (hmac alg storedKey authMessage)) = storedKey.

(** A client before its first message. *)
Definition scram_client (nonce : string) (a : ScramAlgorithm) (cr : Credentials) : SaslClient :=
  setCredentials cr (create nonce (Scram a)).

(** The challenge a client refuses, and what it answers otherwise. *)
Definition scram_refuses (nonce challenge : string) : bool :=
  let input := parseGS2 challenge in
  negb (startsWith nonce (gs2_value "r" input))
  || bool_decide (fromBase64 (gs2_value "s" input) = "")
  || (toInt (gs2_value "i" input) <? 1).

(** What the salted password and the messages of the exchange are, and what they prove. *)
Record ScramFacts := {
  SaltedPassword : string; withoutProof : string; AuthMessage : string }.
Definition scram_facts (b : ClientBase) (nonce : string) (a : ScramAlgorithm) (cr : Credentials)
    (challenge : string) : ScramFacts :=
  let alg := scram_qtAlgorithm a in
  let input := parseGS2 challenge in
  let without := "c=biws,r=" +:+ gs2_value "r" input in
  {| SaltedPassword := pbkdf2 alg (password cr) (fromBase64 (gs2_value "s" input))
                         (toInt (gs2_value "i" input)) (hashLength alg);
     withoutProof := without;
     AuthMessage := ("n=" +:+ username b +:+ ",r=" +:+ nonce) +:+ "," +:+ challenge +:+ "," +:+ without |}.

Lemma scram_steps b nonce a cr challenge :
  let alg := scram_qtAlgorithm a in
  let f := scram_facts b nonce a cr challenge in
  (forall k m k' m', String.length (hmac alg k m) = String.length (hmac alg k' m')) ->
  exists c1,
    respond b (scram_client nonce a cr) "" =
      (Some ("n,,n=" +:+ username b +:+ ",r=" +:+ nonce), ClientScram c1) /\
    if scram_refuses nonce challenge
    then respond b (ClientScram c1) challenge = (None, ClientScram c1)
    else exists proof c2,
      respond b (ClientScram c1) challenge =
        (Some (withoutProof f +:+ ",p=" +:+ toBase64 proof), ClientScram c2) /\
      rfc5802_accepts alg (hash alg (hmac alg (SaltedPassword f) "Client Key")) (AuthMessage f) proof /\
      forall final, exists c3, respond b (ClientScram c2) final =
        (if decide (fromBase64 (gs2_value "v" (parseGS2 final)) =
                    hmac alg (hmac alg (SaltedPassword f) "Server Key") (AuthMessage f))
         then Some "" else None, ClientScram c3) /\
        forall again, respond b (ClientScram c3) again = (None, ClientScram c3).
Proof.
  intros alg f Hlen. eexists. split; [reflexivity|].
  destruct (scram_refuses nonce challenge) eqn:Hbad; unfold scram_refuses in Hbad.
  - unfold respond, scram_respond. cbn -[parseGS2 gs2_value fromBase64 toInt startsWith].
    by rewrite Hbad.
  - eexists _, _. split; [|split].
    + unfold respond, scram_respond. cbn -[parseGS2 gs2_value fromBase64 toInt startsWith
        toBase64 String.append]. rewrite Hbad. cbv iota. reflexivity.
    + unfold rfc5802_accepts. f_equal. apply xor_cancel. apply Hlen.
    + intros final. eexists. split; reflexivity.
Qed.

(** C23: After the first message, whatever challenge a server sends: a nonce that does not
    extend the client's, an empty salt or an iteration count below one is refused; otherwise
    the proof passes the check of RFC 5802 for the stored key of the password, and the next
    message is accepted exactly when it carries the signature of the server key over the same
    exchange. HMACs of one algorithm have one length. *)
Theorem scram_exchange b nonce a cr challenge :
  let alg := scram_qtAlgorithm a in
  let f := scram_facts b nonce a cr challenge in
  (forall k m k' m', String.length (hmac alg k m) = String.length (hmac alg k' m')) ->
  exists c1, respond b (scram_client nonce a cr) "" =
      (Some ("n,,n=" +:+ username b +:+ ",r=" +:+ nonce), c1) /\
    if scram_refuses nonce challenge then respond b c1 challenge = (None, c1)
    else exists proof c2,
      respond b c1 challenge = (Some (withoutProof f +:+ ",p=" +:+ toBase64 proof), c2) /\
      rfc5802_accepts alg (hash alg (hmac alg (SaltedPassword f) "Client Key")) (AuthMessage f) proof /\
      forall final, exists c3, respond b c2 final =
        (if decide (fromBase64 (gs2_value "v" (parseGS2 final)) =
                    hmac alg (hmac alg (SaltedPassword f) "Server Key") (AuthMessage f))
         then Some "" else None, c3) /\
        forall again, respond b c3 again = (None, c3).
Proof.
  intros alg f Hlen. destruct (scram_steps b nonce a cr challenge Hlen) as (c1 & H1 & H2).
  exists (ClientScram c1). split; [exact H1|].
  destruct (scram_refuses nonce challenge); [exact H2|].
  destruct H2 as (proof & c2 & Hr & Ha & Hf). exists proof, (ClientScram c2).
  split_and!; [exact Hr|exact Ha|]. intros final. destruct (Hf final) as (c3 & Hr3 & H3).
  by exists (ClientScram c3).
Qed.

(** *** PLAIN *)

Lemma pieces_cons c d s :
  split c (String d s) =
  match split c s with
  | p :: ps => if decide (d = c) then "" :: p :: ps else String d p :: ps
  | [] => []
  end.
Proof. done. Qed.
Lemma pieces_whole c s : has_char c s = false -> split c s = [s].
Proof.
  induction s as [|d s IH]; intros Hc; [done|]. simpl in Hc. bools.
  rewrite pieces_cons, IH by done. rewrite decide_False; [done|congruence].
Qed.
Lemma pieces_app c a s : has_char c a = false -> split c (a +:+ String c s) = a :: split c s.
Proof.
  induction a as [|d a IH]; intros Hc.
  - change ("" +:+ ?x) with x. rewrite pieces_cons.
    destruct (split c s) eqn:Hs; [|by rewrite decide_True]. exfalso. clear -Hs.
    revert Hs. induction s as [|d s IH]; [done|]. rewrite pieces_cons.
    destruct (split c s); [auto|]. by case_decide.
  - simpl in Hc. bools. rewrite append_cons, pieces_cons, IH by done.
    rewrite decide_False; [done|congruence].
Qed.

Lemma split_plain u p : has_char NUL u = false -> has_char NUL p = false ->
  split NUL (String NUL (u +:+ String NUL p)) = [""; u; p].
Proof.
  intros Hu Hp. change (String NUL ?x) with ("" +:+ String NUL x) at 1.
  rewrite pieces_app by done. by rewrite pieces_app, pieces_whole.
Qed.

(** The PLAIN server learns exactly the user and the password the client was given, when
    neither holds a zero byte; the client answers only once. *)
Theorem plain_exchange b nonce cr sb :
  has_char NUL (username b) = false -> has_char NUL (password cr) = false ->
  exists response c, respond b (setCredentials cr (create nonce Plain)) "" = (Some response, c) /\
    plain_server_respond sb 0 response =
      (InputNeeded, Some "", sb <| s_username := username b |> <| s_password := password cr |>, 1) /\
    forall challenge, respond b c challenge = (None, c).
Proof.
  intros Hu Hp. eexists _, _. split; [reflexivity|]. split; [|reflexivity].
  unfold plain_server_respond. cbn -[split NUL String.append]. by rewrite split_plain.
Qed.

(** *** DIGEST-MD5 *)

(** The values of the exchange can be quoted. *)
Definition quotable (v : string) : Prop := ~ ends_with backslash v.

Definition digest_uri (b : ClientBase) : string := serviceType b +:+ "/" +:+ host b.

(** The messages: the server's challenge and the client's response. *)
Definition digest_challenge (nonce realm : string) : BMap :=
  output_map ([("nonce", nonce)] ++ (if decide (realm = "") then [] else [("realm", realm)])
    ++ [("qop", "auth"); ("charset", "utf-8"); ("algorithm", "md5-sess")]).
Definition digest_response (user realm nonce cnonce nc uri response : string) : BMap :=
  output_map ([("username", user)] ++ (if decide (realm = "") then [] else [("realm", realm)])
    ++ [("nonce", nonce); ("qop", "auth"); ("cnonce", cnonce); ("nc", nc); ("digest-uri", uri);
        ("response", response); ("charset", "utf-8")]).

Ltac quotable := repeat constructor; simpl; try reflexivity; try assumption;
  try (intros Hf; vm_compute in Hf; discriminate).

Lemma digest_challenge_read nonce realm : quotable nonce -> quotable realm ->
  parseMessage (serializeMessage (digest_challenge nonce realm)) = Some (digest_challenge nonce realm).
Proof.
  intros Hn Hr. unfold digest_challenge. apply parse_serialized; case_decide; simpl; quotable.
Qed.

Lemma digest_response_read user realm nonce cnonce nc uri response :
  quotable user -> quotable realm -> quotable nonce -> quotable cnonce -> quotable nc ->
  quotable uri -> quotable response ->
  parseMessage (serializeMessage (digest_response user realm nonce cnonce nc uri response)) =
  Some (digest_response user realm nonce cnonce nc uri response).
Proof.
  intros. unfold digest_response. apply parse_serialized; case_decide; simpl; quotable.
Qed.

Definition digest_secret (user realm pass : string) : string :=
  hash QMd5 (user +:+ ":" +:+ realm +:+ ":" +:+ pass).

(** The client's second and third step for the message it has read. *)
Lemma digest_step1 b c challenge input : parseMessage challenge = Some input -> dc_step c = 1 ->
  bm_contains "nonce" input = true -> bm_value "qop" input = Some "auth" ->
  digest_respond b c challenge =
  (let nonce := bm_get "nonce" input in
   let realm := bm_get "realm" input in
   let sec := digest_secret (username b) realm (dc_password c) in
   (Some (serializeMessage (digest_response (username b) realm nonce (dc_cnonce c) (dc_nc c)
      (digest_uri b) (calculateDigest "AUTHENTICATE" (digest_uri b) sec nonce (dc_cnonce c) (dc_nc c)))),
    {| dc_password := dc_password c; dc_cnonce := dc_cnonce c; dc_nc := dc_nc c; dc_nonce := nonce;
       dc_secret := sec; dc_step := 2 |})).
Proof.
  intros Hp Hs Hn Hq. unfold digest_respond. rewrite Hp, Hs.
  change (default [] (Some input)) with input. cbv zeta. rewrite Hn, Hq. cbn [default from_option id].
  rewrite decide_False by (intros Hx; apply Hx; vm_compute; constructor).
  destruct c. simpl in Hs. subst. reflexivity.
Qed.
Lemma digest_step2 b c challenge : dc_step c = 2 ->
  digest_respond b c challenge =
  (if decide (bm_get "rspauth" (default [] (parseMessage challenge)) =
              calculateDigest "" (digest_uri b) (dc_secret c) (dc_nonce c) (dc_cnonce c) (dc_nc c))
   then (Some "", c <| dc_step := 3 |>) else (None, c)).
Proof. intros Hs. unfold digest_respond. rewrite Hs. destruct c. simpl in Hs. subst. reflexivity. Qed.

(** The server's second step for a response it has read. *)
Lemma digest_server_step1 sb s request input : parseMessage request = Some input -> ds_step s = 1 ->
  bm_get "qop" input = "auth" -> s_password sb <> "" ->
  digest_server_respond sb s request =
  (let user := bm_get "username" input in
   let uri := bm_get "digest-uri" input in
   let sec := digest_secret user (bm_get "realm" input) (s_password sb) in
   let digest m := calculateDigest m uri sec (ds_nonce s) (bm_get "cnonce" input) (bm_get "nc" input) in
   let sb' := sb <| s_username := user |> in
   let s' := {| ds_cnonce := bm_get "cnonce" input; ds_nc := bm_get "nc" input;
                ds_nonce := ds_nonce s; ds_secret := sec; ds_step := 1 |} in
   if decide (bm_get "response" input = digest "AUTHENTICATE")
   then (Challenge, Some (serializeMessage [("rspauth", digest "")]), sb', s' <| ds_step := 2 |>)
   else (Failed, None, sb', s')).
Proof.
  intros Hp Hs Hq Hpw. unfold digest_server_respond. rewrite Hp, Hs.
  change (default [] (Some input)) with input. cbv zeta. rewrite Hq.
  destruct s, sb. simpl in Hs, Hpw. subst. cbn -[calculateDigest bm_get serializeMessage].
  rewrite (decide_False (P := _ /\ _)) by naive_solver.
  rewrite (decide_False (P := s_password0 = "")) by done.
  repeat case_decide; try done; by subst.
Qed.

Lemma digest_challenge_fields nonce realm :
  let m := digest_challenge nonce realm in
  bm_get "nonce" m = nonce /\ bm_contains "nonce" m = true /\ bm_get "realm" m = realm /\
  bm_value "qop" m = Some "auth".
Proof. intros m. unfold m, digest_challenge. case_decide as He; [rewrite He|]; repeat split. Qed.
Lemma digest_response_fields user realm nonce cnonce nc uri response :
  let m := digest_response user realm nonce cnonce nc uri response in
  bm_get "username" m = user /\ bm_get "realm" m = realm /\ bm_get "cnonce" m = cnonce /\
  bm_get "nc" m = nc /\ bm_get "digest-uri" m = uri /\ bm_get "response" m = response /\
  bm_get "qop" m = "auth".
Proof. intros m. unfold m, digest_response. case_decide as He; [rewrite He|]; repeat split. Qed.

(** A client before its first message, a server that has sent its challenge. *)
Definition digest_client (cnonce : string) (cr : Credentials) : SaslClient :=
  setCredentials cr (create cnonce DigestMd5).
Definition digest_server (nonce : string) : DigestServer :=
  {| ds_cnonce := ""; ds_nc := ""; ds_nonce := nonce; ds_secret := ""; ds_step := 0 |}.

(** The client and the server of the library complete DIGEST-MD5 with each other: the
    server accepts exactly when the digest over its own password for the user is the one the
    client computed from its password; then the client accepts the server's proof, and the
    server finishes knowing the client's user name. Hexadecimal text and the names, nonces and
    addresses of the exchange do not end with a backslash. *)
Theorem digest_handshake b cr sb nonce cnonce :
  (forall s, quotable (toHex s)) -> quotable (username b) -> quotable (s_realm sb) ->
  quotable nonce -> quotable cnonce -> quotable (digest_uri b) -> s_password sb <> "" ->
  let digest pass := calculateDigest "AUTHENTICATE" (digest_uri b)
    (digest_secret (username b) (s_realm sb) pass) nonce cnonce "00000001" in
  exists c1 challenge s1 answer c2,
    respond b (digest_client cnonce cr) "" = (Some "", c1) /\
    digest_server_respond sb (digest_server nonce) "" = (Challenge, Some challenge, sb, s1) /\
    respond b c1 challenge = (Some answer, c2) /\
    if decide (digest (password cr) = digest (s_password sb)) then
      exists proof s2,
        digest_server_respond sb s1 answer =
          (Challenge, Some proof, sb <| s_username := username b |>, s2) /\
        (password cr = s_password sb -> exists c3, respond b c2 proof = (Some "", c3)) /\
        forall m sb', exists s3, digest_server_respond sb' s2 m = (Succeeded, Some "", sb', s3)
    else exists sb' s2, digest_server_respond sb s1 answer = (Failed, None, sb', s2).
Proof.
  intros Hhex Hu Hr Hn Hcn Huri Hpw digest.
  destruct (digest_challenge_fields nonce (s_realm sb)) as (Fn & Fc & Fr & Fq).
  pose proof (digest_challenge_read nonce (s_realm sb) Hn Hr) as Hread.
  eexists (ClientDigestMd5 {| dc_password := password cr; dc_cnonce := cnonce; dc_nc := "00000001";
    dc_nonce := ""; dc_secret := ""; dc_step := 1 |}), (serializeMessage (digest_challenge nonce (s_realm sb))),
    ((digest_server nonce) <| ds_step := 1 |>), _, _.
  split; [reflexivity|]. split; [reflexivity|]. split.
  { unfold respond. rewrite (digest_step1 _ _ _ _ Hread) by done.
    cbv zeta beta iota. rewrite Fn, Fr. reflexivity. }
  cbn [dc_password dc_cnonce dc_nc].
  set (d := calculateDigest "AUTHENTICATE" _ _ _ _ _).
  assert (digest (password cr) = d) as -> by reflexivity.
  assert (quotable d) as Hd by apply Hhex.
  destruct (digest_response_fields (username b) (s_realm sb) nonce cnonce "00000001" (digest_uri b) d)
    as (Gu & Gr & Gc & Gnc & Gd & Ga & Gq).
  assert (quotable "00000001") as Hnc by (intros Hf; vm_compute in Hf; discriminate).
  pose proof (digest_response_read _ _ _ _ _ _ _ Hu Hr Hn Hcn Hnc Huri Hd) as Hread2.
  rewrite (digest_server_step1 sb ((digest_server nonce) <| ds_step := 1 |>) _ _ Hread2); [|reflexivity|exact Gq|exact Hpw].
  cbv zeta. rewrite Gu, Gr, Gc, Gnc, Gd, Ga.
  change (ds_nonce ((digest_server nonce) <| ds_step := 1 |>)) with nonce. fold (digest (s_password sb)).
  case_decide as He; [|by eexists _, _].
  eexists _, _. split; [reflexivity|]. split; [|by eexists].
  intros Hp. unfold respond. rewrite digest_step2 by done.
  cbn [dc_secret dc_nonce dc_cnonce dc_nc ds_nonce upd].
  rewrite parse_serialized; [|repeat constructor|].
  - rewrite Hp. rewrite decide_True by reflexivity. by eexists.
  - repeat constructor; try reflexivity. apply Hhex.
Qed.

End Theory.

(** ** Examples *)

(** Hexadecimal digits, and a checksum in the place of the hash functions. *)
Definition hex_digit (n : Z) : ascii := of_byte (if n <? 10 then 48 + n else 87 + n).
Fixpoint hex_text (s : string) : string :=
  match s with
  | "" => ""
  | String c s' => String (hex_digit (byte_of c / 16)) (String (hex_digit (byte_of c mod 16)) (hex_text s'))
  end.
Fixpoint checksum (n : Z) (s : string) : Z :=
  match s with "" => n | String c s' => checksum ((31 * n + byte_of c) mod 256) s' end.
Definition sample_crypto : Crypto := {|
  hash _ s := String (of_byte (checksum 7 s)) "";
  hashLength _ := 1;
  hmac _ k s := String (of_byte (checksum (checksum 5 k) s)) "";
  pbkdf2 _ p s i _ := String (of_byte (checksum (checksum i p) s)) "";
  toHex := hex_text;
  queryItem _ _ := None;
  buildQuery _ := "" |}.

Lemma hex_digit_not_backslash n : 0 <= n < 16 -> hex_digit n <> backslash.
Proof.
  intros Hn. assert (Forall (fun n => hex_digit n <> backslash) (seqZ 0 16)) as Hall.
  { vm_compute. repeat constructor; discriminate. }
  rewrite Forall_forall in Hall. apply Hall, elem_of_seqZ. lia.
Qed.
Lemma hex_quotable s : quotable (hex_text s).
Proof.
  unfold quotable. induction s as [|c s IH]; [intros []|].
  intros Hf. cbn [hex_text ends_with] in Hf. destruct (hex_text s) eqn:E; [|by apply IH].
  revert Hf. apply hex_digit_not_backslash. by apply Z.mod_pos_bound.
Qed.

#[local] Existing Instance text_types.
#[local] Existing Instance sample_crypto.

Definition sample_base : ClientBase :=
  {| host := "example.com"; serviceType := "xmpp"; username := "user" |}.
Definition sample_credentials : Credentials :=
  Build_Credentials "pencil" None "" "" "" "".
Definition sample_server : ServerBase :=
  {| s_username := ""; s_password := "pencil"; passwordDigest := ""; s_realm := "example.com" |}.

Lemma scram_exchange_witness :
  exists c1, respond sample_base
    (scram_client "abc" ScramSha1 sample_credentials) "" =
    (Some "n,,n=user,r=abc", c1) /\
  exists c2, (respond sample_base c1 "r=abcdef,s=QSXCR+Q6sek8bf92,i=4096").2 = c2 /\
    c2 <> c1.
Proof.
  destruct (scram_exchange sample_base "abc" ScramSha1 sample_credentials
    "r=abcdef,s=QSXCR+Q6sek8bf92,i=4096") as (c1 & Hr & _); [reflexivity|].
  exists c1. split; [exact Hr|]. eexists. split; [reflexivity|].
  injection Hr as <-. vm_compute. discriminate.
Defined.

Lemma plain_exchange_witness :
  exists response c, respond sample_base
    (setCredentials sample_credentials (create "" Plain)) "" = (Some response, c) /\
    exists sb, plain_server_respond sample_server 0 response = (InputNeeded, Some "", sb, 1).
Proof.
  destruct (plain_exchange sample_base "" sample_credentials sample_server
    eq_refl eq_refl) as (r & c & Hr & Hs & _). exists r, c. split; [exact Hr|]. eexists. exact Hs.
Defined.

Lemma digest_handshake_witness :
  exists c1, respond sample_base
    (digest_client "cnonce" sample_credentials) "" = (Some "", c1).
Proof.
  edestruct (digest_handshake sample_base sample_credentials sample_server
    "nonce" "cnonce") as (c1 & ? & ? & ? & ? & Hr & _).
  - exact hex_quotable.
  - intros Hf. vm_compute in Hf. discriminate.
  - intros Hf. vm_compute in Hf. discriminate.
  - intros Hf. vm_compute in Hf. discriminate.
  - intros Hf. vm_compute in Hf. discriminate.
  - intros Hf. vm_compute in Hf. discriminate.
  - discriminate.
  - exists c1. exact Hr.
Defined.
