(* ===== verification/SaslManager.v ===== *)
(** * Authentication (QXmppSaslManager.cpp)

    The managers that negotiate SASL and SASL 2 over the socket, and the one
    that requests and keeps tokens. A manager's answer to an element is a
    result, the state after it and what it sends or finishes. *)
From S2P Require Import Prelude Dom Base64 XmlCodec StreamManagement SaslXml SaslMechanism DigestMd5 SaslClient.

Inductive AuthErrorType :=
  | AccountDisabled_ | CredentialsExpired_ | EncryptionRequired_ | MechanismMismatch
  | NotAuthorized_ | ProcessingError | RequiredTasks.

Definition mapSaslCondition (condition : option ErrorCondition) : AuthErrorType :=
  match default NotAuthorized condition with
  | AccountDisabled => AccountDisabled_
  | CredentialsExpired => CredentialsExpired_
  | EncryptionRequired => EncryptionRequired_
  | IncorrectEncoding | InvalidAuthzid | InvalidMechanism | MalformedRequest | MechanismTooWeak =>
      ProcessingError
  | Aborted | NotAuthorized | TemporaryAuthFailure => NotAuthorized_
  end.

Section Managers.
Context `{QtTypes} `{Crypto}.

(** The details any of the errors carries. *)
Inductive AuthDetails :=
  | NoDetails
  | SaslFailureDetails (f : Sasl.Failure)
  | Sasl2FailureDetails (f : Sasl2.Failure)
  | ContinueDetails (c : Sasl2.Continue).
Record AuthenticationError := { ae_type : AuthErrorType; ae_text : string; ae_details : AuthDetails }.
Definition AuthError : Type := string * AuthenticationError.
Definition plainError (t : AuthErrorType) : AuthenticationError :=
  {| ae_type := t; ae_text := ""; ae_details := NoDetails |}.

(** QStringList::join. *)
Definition joined (sep : string) (l : list string) : string := String.concat sep l.

(** The mechanisms chooseMechanism found disabled, when it chose none. *)
Definition disabledAvailable (config : SaslConfiguration) (available : list string) : list string :=
  filter (fun m => m ∈ disabledSaslMechanisms config) available.

(** A client object: the base class's members and the mechanism's. *)
Definition Client : Type := ClientBase * SaslClient.

Definition initSaslAuthentication (config : SaslConfiguration) (available : list string)
    (nonce : string) : AuthError + Client * string :=
  match chooseMechanism config available with
  | None =>
      let disabled := disabledAvailable config available in
      inl (if decide (disabled = []) then "No supported SASL mechanism available"
           else "No supported SASL mechanism available (" +:+ joined ", " disabled +:+ " is disabled)",
           plainError MechanismMismatch)
  | Some m =>
      let base := {| host := cfg_domain config; serviceType := "xmpp"; username := cfg_user config |} in
      let client := setCredentials (credentialData config) (create nonce m) in
      match respond base client "" with
      | (Some response, client) => inr ((base, client), response)
      | (None, _) => inl ("SASL initial response failed", plainError ProcessingError)
      end
  end.

(** What a manager does: it writes an element or it finishes the promise. *)
Inductive AuthEvent (R : Type) := Send (i : Item) | Finish (r : R + AuthError).
#[global] Arguments Send {R} i.
#[global] Arguments Finish {R} r.

(** ** SaslManager *)

Record SaslManager := { m_saslClient : option Client; m_promise : bool }.

(** An error before anything is sent is the finished task. *)
Definition sasl_authenticate (config : SaslConfiguration) (available : list string) (nonce : string)
    (m : SaslManager) : SaslManager * list (AuthEvent unit) :=
  match initSaslAuthentication config available nonce with
  | inl e => (m, [Finish (inr e)])
  | inr (client, response) =>
      ({| m_saslClient := Some client; m_promise := true |},
       [Send (toXml {| Sasl.auth_mechanism := SaslMechanism_toString (mechanism client.2);
                       Sasl.auth_value := response |})])
  end.

Definition could_not_respond : AuthError :=
  ("Could not respond to SASL challenge", plainError ProcessingError).

Definition sasl_handleElement (m : SaslManager) (el : Dom) :
    HandleElementResult * SaslManager * list (AuthEvent unit) :=
  let finish r := (Finished, {| m_saslClient := m_saslClient m; m_promise := false |}, [Finish r]) in
  match m_promise m, m_saslClient m with
  | true, Some (base, client) =>
      match fromDom (T := Sasl.Success) el with
      | Some _ => finish (inl tt)
      | None =>
      match fromDom (T := Sasl.Challenge) el with
      | Some challenge =>
          let '(response, client) := respond base client (Sasl.challenge_value challenge) in
          match response with
          | Some r =>
              (Accepted, {| m_saslClient := Some (base, client); m_promise := true |},
               [Send (toXml {| Sasl.response_value := r |})])
          | None =>
              (Finished, {| m_saslClient := Some (base, client); m_promise := false |},
               [Finish (inr could_not_respond)])
          end
      | None =>
      match fromDom (T := Sasl.Failure) el with
      | Some failure =>
          let text := if decide (Sasl.failure_text failure = "")
                      then toString (default NotAuthorized (Sasl.condition failure))
                      else Sasl.failure_text failure in
          finish (inr ("Authentication failed: " +:+ text,
                       {| ae_type := mapSaslCondition (Sasl.condition failure);
                          ae_text := Sasl.failure_text failure;
                          ae_details := SaslFailureDetails failure |}))
      | None => (Rejected, m, [])
      end end end
  | _, _ => (Rejected, m, [])
  end.

(** ** Sasl2Manager *)

Record Sasl2State := { s2_sasl : Client; unsupportedContinue : option Sasl2.Continue }.
Definition Sasl2Manager : Type := option Sasl2State.

Definition isFastEnabled (config : SaslConfiguration) : bool :=
  useFastTokenAuthentication config && has_value (sasl2UserAgent config).

(** The mechanisms of the feature and of its FAST extension, and whether that is used. *)
Definition fastMechanisms (config : SaslConfiguration) (feature : Sasl2.StreamFeature) : list string :=
  match Sasl2.sf_fast feature with
  | Some f => if isFastEnabled config then ff_mechanisms f else []
  | None => []
  end.

Definition sasl2_authenticate (auth : Sasl2.Authenticate) (config : SaslConfiguration)
    (feature : Sasl2.StreamFeature) (nonce : string) (m : Sasl2Manager) :
    Sasl2Manager * list (AuthEvent Sasl2.Success) :=
  let fast := fastMechanisms config feature in
  match initSaslAuthentication config (Sasl2.sf_mechanisms feature ++ fast) nonce with
  | inl e => (m, [Finish (inr e)])
  | inr (client, response) =>
      let name := SaslMechanism_toString (mechanism client.2) in
      let agent :=
        match sasl2UserAgent config with
        | Some a => if uuidIsNull (Sasl2.ua_id a) then None else Some (Some a)
        | None => Some (Sasl2.userAgent auth)
        end in
      match agent with
      | None =>
          (m, [Finish (inr ("Invalid user-agent: device ID must be set.", plainError ProcessingError))])
      | Some userAgent =>
          (Some {| s2_sasl := client; unsupportedContinue := None |},
           [Send (toXml {| Sasl2.mechanism := name; Sasl2.initialResponse := response;
              Sasl2.userAgent := userAgent; Sasl2.bindRequest := Sasl2.bindRequest auth;
              Sasl2.smResume := Sasl2.smResume auth; Sasl2.tokenRequest := Sasl2.tokenRequest auth;
              Sasl2.fast := if decide (name ∈ fast) then Some {| count := None; invalidate := false |}
                            else Sasl2.fast auth |})])
      end
  end.

Definition sasl2_handleElement (m : Sasl2Manager) (el : Dom) :
    HandleElementResult * Sasl2Manager * list (AuthEvent Sasl2.Success) :=
  match m with
  | None => (Rejected, m, [])
  | Some s =>
      match fromDom (T := Sasl2.Challenge) el with
      | Some challenge =>
          let '(base, client) := s2_sasl s in
          let '(response, client) := respond base client (Sasl2.challenge_data challenge) in
          match response with
          | Some r =>
              (Accepted, Some {| s2_sasl := (base, client); unsupportedContinue := unsupportedContinue s |},
               [Send (toXml {| Sasl2.response_data := r |})])
          | None => (Finished, None, [Finish (inr could_not_respond)])
          end
      | None =>
      match fromDom (T := Sasl2.Success) el with
      | Some success => (Finished, None, [Finish (inl success)])
      | None =>
      match fromDom (T := Sasl2.Failure) el with
      | Some failure =>
          let text := if decide (Sasl2.failure_text failure = "")
                      then toString (Sasl2.condition failure) else Sasl2.failure_text failure in
          let failed :=
            ("Authentication failed: " +:+ text,
             {| ae_type := mapSaslCondition (Some (Sasl2.condition failure));
                ae_text := Sasl2.failure_text failure; ae_details := Sasl2FailureDetails failure |}) in
          (Finished, None,
           [Finish (inr match unsupportedContinue s with
            | Some c =>
                if decide (Sasl2.condition failure = Aborted) then
                  ("Required authentication tasks not supported.",
                   {| ae_type := RequiredTasks; ae_text := Sasl2.continue_text c;
                      ae_details := ContinueDetails c |})
                else failed
            | None => failed
            end)])
      | None =>
      match fromDom (T := Sasl2.Continue) el with
      | Some c =>
          (Accepted, Some {| s2_sasl := s2_sasl s; unsupportedContinue := Some c |},
           [Send (toXml {| Sasl2.abort_text := "SASL 2 tasks are not supported." |})])
      | None => (Rejected, m, [])
      end end end end
  end.

(** ** FastTokenManager *)

(** With the configuration it refers to. *)
Record FastTokenManager := {
  fm_config : SaslConfiguration; requestedMechanism : option HtMechanism; m_tokenChanged : bool }.

Definition hasToken (config : SaslConfiguration) : bool :=
  has_value (htToken (credentialData config)).

Definition onSasl2Authenticate (feature : Sasl2.StreamFeature) (auth : Sasl2.Authenticate)
    (m : FastTokenManager) : Sasl2.Authenticate * FastTokenManager :=
  let config := fm_config m in
  let requested :=
    match Sasl2.sf_fast feature with
    | Some f => if isFastEnabled config && negb (hasToken config)
                then selectMechanism (ff_mechanisms f) else None
    | None => None
    end in
  ({| Sasl2.mechanism := Sasl2.mechanism auth; Sasl2.initialResponse := Sasl2.initialResponse auth;
      Sasl2.userAgent := Sasl2.userAgent auth; Sasl2.bindRequest := Sasl2.bindRequest auth;
      Sasl2.smResume := Sasl2.smResume auth;
      Sasl2.tokenRequest :=
        match requested with
        | Some ht => Some {| ftr_mechanism := HtMechanism_toString ht |}
        | None => Sasl2.tokenRequest auth
        end;
      Sasl2.fast := Sasl2.fast auth |},
   {| fm_config := config; requestedMechanism := requested; m_tokenChanged := false |}).

Definition setHtToken (t : HtToken) (config : SaslConfiguration) : SaslConfiguration :=
  let cr := credentialData config in
  {| cfg_user := cfg_user config; cfg_domain := cfg_domain config;
     disabledSaslMechanisms := disabledSaslMechanisms config;
     saslAuthMechanism := saslAuthMechanism config;
     credentialData := {| password := password cr; htToken := Some t;
       facebookAccessToken := facebookAccessToken cr; facebookAppId := facebookAppId cr;
       googleAccessToken := googleAccessToken cr; windowsLiveAccessToken := windowsLiveAccessToken cr |};
     useFastTokenAuthentication := useFastTokenAuthentication config;
     sasl2UserAgent := sasl2UserAgent config |}.

Definition onSasl2Success (success : Sasl2.Success) (m : FastTokenManager) : FastTokenManager :=
  let old := htToken (credentialData (fm_config m)) in
  let ht :=
    match requestedMechanism m with Some ht => Some ht | None => ht_mechanism <$> old end in
  match Sasl2.su_token success, ht with
  | Some t, Some ht =>
      {| fm_config := setHtToken {| ht_mechanism := ht; secret := Sasl2.token t;
                                    ht_expiry := Sasl2.expiry t |} (fm_config m);
         requestedMechanism := requestedMechanism m; m_tokenChanged := true |}
  | _, _ => m
  end.

End Managers.

(** ** Properties *)

#[local] Arguments fromDom : simpl never.
#[local] Arguments toXml : simpl never.
#[local] Arguments respond : simpl never.

Section Theory.
Context `{QtTypes} `{Crypto}.

(** *** Every authentication has one result *)

Definition finishes {R} (evs : list (AuthEvent R)) : nat :=
  length (filter (fun e => match e with Finish _ => true | Send _ => false end = true) evs).
Lemma finishes_app {R} (a b : list (AuthEvent R)) : finishes (a ++ b) = (finishes a + finishes b)%nat.
Proof. unfold finishes. by rewrite filter_app, length_app. Qed.

(** A use of a manager: authenticate may be called while nothing is pending (Q_ASSERT). *)
Inductive AuthOp (A : Type) := Authenticate (a : A) | HandleElement (el : Dom).
#[global] Arguments Authenticate {A} a.
#[global] Arguments HandleElement {A} el.

Section Once.
Context {A M R : Type} (pending : M -> bool).
Variable authenticate : A -> M -> M * list (AuthEvent R).
Variable handle : M -> Dom -> HandleElementResult * M * list (AuthEvent R).

Fixpoint auth_run (ops : list (AuthOp A)) (m : M) : option (M * list (AuthEvent R)) :=
  match ops with
  | [] => Some (m, [])
  | op :: ops =>
      r ← match op with
          | Authenticate a => if pending m then None else Some (authenticate a m)
          | HandleElement el => let '(_, m, evs) := handle m el in Some (m, evs)
          end;
      let '(m, evs) := r : M * list (AuthEvent R) in
      r ← auth_run ops m; let '(m, evs') := r : M * list (AuthEvent R) in Some (m, evs ++ evs')
  end.

Fixpoint started (ops : list (AuthOp A)) : nat :=
  match ops with
  | [] => 0
  | Authenticate _ :: ops => S (started ops)
  | HandleElement _ :: ops => started ops
  end.

Definition outstanding (m : M) : nat := if pending m then 1 else 0.

Hypothesis authenticate_once : forall a m, pending m = false ->
  (finishes (authenticate a m).2 + outstanding (authenticate a m).1 = 1)%nat.
Hypothesis handle_once : forall m el,
  (finishes (handle m el).2 + outstanding (handle m el).1.2 = outstanding m)%nat.

Lemma auth_run_once ops m m' evs : auth_run ops m = Some (m', evs) ->
  (finishes evs + outstanding m' = started ops + outstanding m)%nat.
Proof.
  revert m evs. induction ops as [|op ops IH]; intros m evs Hr; [by injection Hr as <- <-|].
  simpl in Hr. destruct op as [a|el].
  - destruct (pending m) eqn:Hp; [done|]. pose proof (authenticate_once a m Hp) as Ho.
    destruct (authenticate a m) as [m1 evs1]. simpl in Hr.
    destruct (auth_run ops m1) as [[m2 evs2]|] eqn:Hrun; [|done]. injection Hr as <- <-.
    apply IH in Hrun. rewrite finishes_app. simpl in *.
    assert (outstanding m = 0%nat) by (unfold outstanding; by rewrite Hp). lia.
  - pose proof (handle_once m el) as Ho. destruct (handle m el) as [[r m1] evs1]. simpl in Hr.
    destruct (auth_run ops m1) as [[m2 evs2]|] eqn:Hrun; [|done]. injection Hr as <- <-.
    apply IH in Hrun. rewrite finishes_app. simpl in *. lia.
Qed.
End Once.

Definition sasl_auth (a : SaslConfiguration * list string * string) (m : SaslManager) :=
  sasl_authenticate a.1.1 a.1.2 a.2 m.
Definition sasl2_auth (a : Sasl2.Authenticate * SaslConfiguration * Sasl2.StreamFeature * string)
    (m : Sasl2Manager) := sasl2_authenticate a.1.1.1 a.1.1.2 a.1.2 a.2 m.

Lemma sasl_authenticate_once a m : m_promise m = false ->
  (finishes (sasl_auth a m).2 + outstanding m_promise (sasl_auth a m).1 = 1)%nat.
Proof.
  intros Hm. unfold sasl_auth, sasl_authenticate, outstanding.
  destruct (initSaslAuthentication _ _ _) as [e|[c r]]; simpl; [by rewrite Hm|done].
Qed.
Lemma sasl_handle_once m el :
  (finishes (sasl_handleElement m el).2 + outstanding m_promise (sasl_handleElement m el).1.2 =
   outstanding m_promise m)%nat.
Proof.
  unfold sasl_handleElement, outstanding.
  destruct m as [[[base client]|] []]; simpl; try done.
  destruct (fromDom (T := Sasl.Success) el); simpl; [done|].
  destruct (fromDom (T := Sasl.Challenge) el) as [c|]; simpl.
  - by destruct (respond base client _) as [[r|] client'].
  - by destruct (fromDom (T := Sasl.Failure) el).
Qed.
Lemma sasl2_authenticate_once a m : has_value m = false ->
  (finishes (sasl2_auth a m).2 + outstanding has_value (sasl2_auth a m).1 = 1)%nat.
Proof.
  intros Hm. unfold sasl2_auth, sasl2_authenticate, outstanding.
  destruct (initSaslAuthentication _ _ _) as [e|[c r]]; simpl; [by rewrite Hm|].
  destruct (sasl2UserAgent _) as [u|]; [|done].
  destruct (uuidIsNull _); simpl; [by rewrite Hm|done].
Qed.
Lemma sasl2_handle_once m el :
  (finishes (sasl2_handleElement m el).2 + outstanding has_value (sasl2_handleElement m el).1.2 =
   outstanding has_value m)%nat.
Proof.
  unfold sasl2_handleElement, outstanding. destruct m as [[[base client] u]|]; simpl; [|done].
  destruct (fromDom (T := Sasl2.Challenge) el) as [c|]; simpl.
  { by destruct (respond base client _) as [[r|] client']. }
  destruct (fromDom (T := Sasl2.Success) el); simpl; [done|].
  destruct (fromDom (T := Sasl2.Failure) el); simpl; [done|].
  by destruct (fromDom (T := Sasl2.Continue) el).
Qed.

(** C18: However the two managers are used and whatever elements arrive, each call of
    authenticate is finished exactly once or is the one that is still pending. *)
Theorem auth_finishes_once ops ops2 m m' evs m2 m2' evs2 :
  auth_run m_promise sasl_auth sasl_handleElement ops m = Some (m', evs) ->
  auth_run has_value sasl2_auth sasl2_handleElement ops2 m2 = Some (m2', evs2) ->
  (finishes evs + outstanding m_promise m' = started ops + outstanding m_promise m)%nat /\
  (finishes evs2 + outstanding has_value m2' = started ops2 + outstanding has_value m2)%nat.
Proof.
  split; (eapply auth_run_once; [| |eassumption]);
    eauto using sasl_authenticate_once, sasl_handle_once, sasl2_authenticate_once, sasl2_handle_once.
Qed.

(** *** SCRAM over the stream *)

(** An element as the peer writes it. *)
Definition received {T} `{XmlElement T} (t : T) : Dom := serializeXml (toXml t).

Lemma challenge_received v :
  fromDom (T := Sasl.Success) (received {| Sasl.challenge_value := v |}) = None /\
  fromDom (T := Sasl.Challenge) (received {| Sasl.challenge_value := v |}) =
    Some {| Sasl.challenge_value := v |}.
Proof. split; [reflexivity|]. by apply codec_roundtrip. Qed.

Lemma sasl_success base c :
  sasl_handleElement {| m_saslClient := Some (base, c); m_promise := true |} (received Sasl.Build_Success) =
  (Finished, {| m_saslClient := Some (base, c); m_promise := false |}, [Finish (inl tt)]).
Proof. reflexivity. Qed.

Lemma sasl_challenge base c v :
  sasl_handleElement {| m_saslClient := Some (base, c); m_promise := true |}
    (received {| Sasl.challenge_value := v |}) =
  match respond base c v with
  | (Some r, c) => (Accepted, {| m_saslClient := Some (base, c); m_promise := true |},
                    [Send (toXml {| Sasl.response_value := r |})])
  | (None, c) => (Finished, {| m_saslClient := Some (base, c); m_promise := false |},
                  [Finish (inr could_not_respond)])
  end.
Proof.
  destruct (challenge_received v) as [Hs Hc].
  unfold sasl_handleElement. cbn [m_promise m_saslClient]. rewrite Hs, Hc.
  cbn [Sasl.challenge_value]. by destruct (respond base c v) as [[r|] c'].
Qed.

(** The client object a configuration gives. *)
Definition config_base (config : SaslConfiguration) : ClientBase :=
  {| host := cfg_domain config; serviceType := "xmpp"; username := cfg_user config |}.

(** C22: When SCRAM is chosen, the manager sends the first message of the configured user; a
    challenge that the client must refuse ends the authentication with an error; any other is
    answered with a proof that RFC 5802 accepts for the configured password, and the server's
    success then ends it. *)
Theorem scram_login config offered nonce a m challenge :
  let alg := scram_qtAlgorithm a in
  let b := config_base config in
  let f := scram_facts b nonce a (credentialData config) challenge in
  (forall k m k' m', String.length (hmac alg k m) = String.length (hmac alg k' m')) ->
  chooseMechanism config offered = Some (Scram a) ->
  exists m1,
    sasl_authenticate config offered nonce m =
      (m1, [Send (toXml {| Sasl.auth_mechanism := SaslMechanism_toString (Scram a);
                           Sasl.auth_value := "n,,n=" +:+ cfg_user config +:+ ",r=" +:+ nonce |})]) /\
    if scram_refuses nonce challenge then
      exists m2, sasl_handleElement m1 (received {| Sasl.challenge_value := challenge |}) =
        (Finished, m2, [Finish (inr could_not_respond)])
    else
      exists proof m2 m3,
        sasl_handleElement m1 (received {| Sasl.challenge_value := challenge |}) =
          (Accepted, m2, [Send (toXml
             {| Sasl.response_value := withoutProof f +:+ ",p=" +:+ toBase64 proof |})]) /\
        rfc5802_accepts alg (hash alg (hmac alg (SaltedPassword f) "Client Key")) (AuthMessage f) proof /\
        sasl_handleElement m2 (received Sasl.Build_Success) = (Finished, m3, [Finish (inl tt)]).
Proof.
  intros alg b f Hlen Hm.
  destruct (scram_steps b nonce a (credentialData config) challenge Hlen) as (c1 & H1 & H2).
  exists {| m_saslClient := Some (b, ClientScram c1); m_promise := true |}. split.
  - unfold sasl_authenticate, initSaslAuthentication. rewrite Hm.
    fold (scram_client nonce a (credentialData config)). fold (config_base config). fold b.
    rewrite H1. by injection H1 as <-.
  - rewrite sasl_challenge. destruct (scram_refuses nonce challenge).
    + rewrite H2. by eexists.
    + destruct H2 as (proof & c2 & Hr & Ha & _). rewrite Hr. eexists proof, _, _.
      split_and!; [reflexivity|exact Ha|]. apply sasl_success.
Qed.

(** A success ends the authentication whatever the client still expects: a server that
    sends it right after the first message is accepted, though it has proved nothing. *)
Theorem scram_server_unverified config offered nonce a m :
  chooseMechanism config offered = Some (Scram a) ->
  exists m1 m2 evs, sasl_authenticate config offered nonce m = (m1, evs) /\
    sasl_handleElement m1 (received Sasl.Build_Success) = (Finished, m2, [Finish (inl tt)]).
Proof.
  intros Hm. unfold sasl_authenticate, initSaslAuthentication. rewrite Hm. simpl.
  eexists _, _, _. split; [reflexivity|]. apply sasl_success.
Qed.

(** *** Tokens *)

Lemma ht_strongest m ht : mech_rank (Ht ht) <= mech_rank m -> exists ht', m = Ht ht'.
Proof.
  intros Hr. destruct m as [| | | | | |[]|ht']; [..|by exists ht'];
    destruct ht as [[] []]; vm_compute in Hr; congruence.
Qed.
Lemma ht_name ht : SaslMechanism_fromString (HtMechanism_toString ht) = Some (Ht ht).
Proof. destruct ht as [[] []]; vm_compute; reflexivity. Qed.
Lemma ht_toString ht : SaslMechanism_toString (Ht ht) = HtMechanism_toString ht.
Proof. reflexivity. Qed.

Lemma selectMechanism_none offered ht : selectMechanism offered = Some ht -> channelBindingType ht = CbNone.
Proof.
  unfold selectMechanism. destruct (filter _ _) as [|m ms] eqn:Hf; [done|].
  destruct (max_from_spec (Ht m) (map Ht ms)) as [Hin _].
  destruct (max_from _ _) as [| | | | | | |h]; try done. intros [= <-].
  assert (h ∈ m :: ms) as Hh.
  { change (Ht m :: map Ht ms) with (map Ht (m :: ms)) in Hin.
    apply list_elem_of_fmap in Hin as (x & [= ->] & ?). done. }
  rewrite <-Hf in Hh. by apply list_elem_of_filter in Hh as [? _].
Qed.

(** With a token and no configured mechanism, the token is used when its mechanism is offered. *)
Lemma token_chosen config offered t :
  htToken (credentialData config) = Some t -> channelBindingType (ht_mechanism t) = CbNone ->
  saslAuthMechanism config = "" -> HtMechanism_toString (ht_mechanism t) ∈ offered ->
  HtMechanism_toString (ht_mechanism t) ∉ disabledSaslMechanisms config ->
  chooseMechanism config offered = Some (Ht (ht_mechanism t)).
Proof.
  intros Htok Hcb Hs Hin Hdis.
  assert (Ht (ht_mechanism t) ∈ usable config offered) as Hu.
  { apply usable_spec. split; [|eauto using ht_name].
    simpl. rewrite Htok, !bool_decide_eq_true_2 by done. done. }
  unfold chooseMechanism. destruct (usable config offered) as [|m ms] eqn:He.
  { by apply elem_of_nil in Hu. }
  rewrite Hs, decide_True by done. f_equal.
  destruct (max_from_spec m ms) as [Hmi Hmax]. rewrite Forall_forall in Hmax.
  destruct (ht_strongest _ _ (Hmax _ Hu)) as [ht Hht]. rewrite Hht in *.
  rewrite <-He in Hmi. apply usable_spec in Hmi as [Ha _]. simpl in Ha. rewrite Htok in Ha.
  apply andb_true_iff in Ha as [Ha _]. by apply bool_decide_eq_true in Ha as ->.
Qed.

(** A token the manager requested and the server sent is stored with the mechanism it was
    requested for, and the next login of the user whose server offers that mechanism for FAST is
    made with the token alone. *)
Theorem fast_token_logs_in feature auth (m : FastTokenManager) ht success t feature' auth' f nonce :
  let m1 := (onSasl2Authenticate feature auth m).2 in
  let m2 := onSasl2Success success m1 in
  let config := fm_config m2 in
  requestedMechanism m1 = Some ht -> Sasl2.su_token success = Some t ->
  saslAuthMechanism (fm_config m) = "" ->
  HtMechanism_toString ht ∉ disabledSaslMechanisms (fm_config m) ->
  (forall a, sasl2UserAgent (fm_config m) = Some a -> uuidIsNull (Sasl2.ua_id a) = false) ->
  Sasl2.sf_fast feature' = Some f -> HtMechanism_toString ht ∈ ff_mechanisms f ->
  m_tokenChanged m2 = true /\
  Sasl2.tokenRequest (onSasl2Authenticate feature auth m).1 =
    Some {| ftr_mechanism := HtMechanism_toString ht |} /\
  exists state request,
    sasl2_authenticate auth' config feature' nonce None = (Some state, [Send (toXml request)]) /\
    Sasl2.mechanism request = HtMechanism_toString ht /\
    Sasl2.initialResponse request = cfg_user (fm_config m) +:+ String NUL
      (hmac (ianaHashAlgorithmToQt (hashAlgorithm ht)) (Sasl2.token t) "Initiator") /\
    Sasl2.fast request = Some {| count := None; invalidate := false |}.
Proof.
  intros m1 m2 config Hreq Htok Hcfg Hdis Hagent Hfast Hin.
  assert (isFastEnabled (fm_config m) = true /\ channelBindingType ht = CbNone) as [Hen Hcb].
  { unfold m1, onSasl2Authenticate in Hreq. simpl in Hreq. destruct (Sasl2.sf_fast feature); [|done].
    destruct (isFastEnabled _); [|done]. simpl in Hreq. destruct (negb _); [|done].
    split; [done|]. by apply selectMechanism_none in Hreq. }
  assert (config = setHtToken {| ht_mechanism := ht; secret := Sasl2.token t;
            ht_expiry := Sasl2.expiry t |} (fm_config m) /\ m_tokenChanged m2 = true) as [Hc Hch].
  { unfold config, m2, onSasl2Success. rewrite Htok, Hreq. done. }
  split; [exact Hch|]. split.
  { unfold m1, onSasl2Authenticate in Hreq |- *. simpl in *. by rewrite Hreq. }
  assert (fastMechanisms config feature' = ff_mechanisms f) as Hfm.
  { unfold fastMechanisms. rewrite Hfast, Hc. unfold isFastEnabled in *. simpl. by rewrite Hen. }
  unfold sasl2_authenticate, initSaslAuthentication. rewrite Hfm.
  rewrite (token_chosen config _ {| ht_mechanism := ht; secret := Sasl2.token t;
            ht_expiry := Sasl2.expiry t |}); rewrite ?Hc; simpl; try done; [|set_solver].
  unfold respond, ht_respond. simpl. rewrite bool_decide_eq_true_2 by done. simpl.
  rewrite decide_True by done.
  destruct (sasl2UserAgent (fm_config m)) as [a|]; [rewrite (Hagent a) by done|];
    eexists _, {| Sasl2.mechanism := _ |}; split_and!; reflexivity.
Qed.

End Theory.

(** ** Examples *)

#[local] Existing Instance text_types.
#[local] Existing Instance sample_crypto.

Definition token_config : SaslConfiguration := {|
  cfg_user := "me"; cfg_domain := "example.org"; disabledSaslMechanisms := ["PLAIN"];
  saslAuthMechanism := ""; useFastTokenAuthentication := true;
  sasl2UserAgent := Some {| Sasl2.ua_id := "d4565fa7" : QUuid; Sasl2.software := "client"; Sasl2.device := "" |};
  credentialData := {| password := "secret"; htToken := None; facebookAccessToken := "";
    facebookAppId := ""; googleAccessToken := ""; windowsLiveAccessToken := "" |} |}.
Definition token_feature : Sasl2.StreamFeature := {|
  Sasl2.sf_mechanisms := ["SCRAM-SHA-1"; "PLAIN"]; Sasl2.bind2Feature := None;
  Sasl2.sf_fast := Some {| ff_mechanisms := ["HT-SHA-256-NONE"]; tls0rtt := false |};
  Sasl2.streamResumptionAvailable := false |}.
Definition empty_request : Sasl2.Authenticate := {|
  Sasl2.mechanism := ""; Sasl2.initialResponse := ""; Sasl2.userAgent := None; Sasl2.bindRequest := None;
  Sasl2.smResume := None; Sasl2.tokenRequest := None; Sasl2.fast := None |}.
Definition token_success : Sasl2.Success := {|
  Sasl2.additionalData := None; Sasl2.authorizationIdentifier := "me@example.org"; Sasl2.bound := None;
  Sasl2.smResumed := None; Sasl2.smFailed := None;
  Sasl2.su_token := Some {| Sasl2.expiry := "2030-01-01T00:00:00Z" : QDateTime; Sasl2.token := "t0k3n" |} |}.
Definition token_manager : FastTokenManager := {|
  fm_config := token_config; requestedMechanism := None; m_tokenChanged := false |}.
Definition no_manager : SaslManager := {| m_saslClient := None; m_promise := false |}.

Lemma auth_finishes_once_witness : exists m' evs,
  auth_run m_promise sasl_auth sasl_handleElement
    [Authenticate (token_config, ["SCRAM-SHA-1"], "abc"); HandleElement (received Sasl.Build_Success)]
    no_manager = Some (m', evs) /\ (finishes evs + outstanding m_promise m' = 1)%nat.
Proof.
  eexists _, _. split; [reflexivity|].
  exact (proj1 (auth_finishes_once
    [Authenticate (token_config, ["SCRAM-SHA-1"], "abc"); HandleElement (received Sasl.Build_Success)]
    [] no_manager _ _ None None [] eq_refl eq_refl)).
Defined.

Lemma scram_login_witness : exists m1,
  sasl_authenticate token_config ["PLAIN"; "SCRAM-SHA-1"] "abc" no_manager =
  (m1, [Send (toXml {| Sasl.auth_mechanism := "SCRAM-SHA-1"; Sasl.auth_value := "n,,n=me,r=abc" |})]).
Proof.
  destruct (scram_login token_config ["PLAIN"; "SCRAM-SHA-1"] "abc" ScramSha1 no_manager "")
    as (m1 & H1 & _); [reflexivity|reflexivity|]. exists m1. exact H1.
Defined.

Lemma scram_server_unverified_witness : exists m1 m2 evs,
  sasl_authenticate token_config ["PLAIN"; "SCRAM-SHA-1"] "abc" no_manager = (m1, evs) /\
  sasl_handleElement m1 (received Sasl.Build_Success) = (Finished, m2, [Finish (inl tt)]).
Proof. apply (scram_server_unverified token_config _ "abc" ScramSha1). reflexivity. Defined.

Lemma fast_token_logs_in_witness :
  m_tokenChanged (onSasl2Success token_success
    (onSasl2Authenticate token_feature empty_request token_manager).2) = true.
Proof.
  refine (proj1 (fast_token_logs_in token_feature empty_request token_manager
    {| hashAlgorithm := Sha256; channelBindingType := CbNone |} token_success
    {| Sasl2.expiry := "2030-01-01T00:00:00Z" : QDateTime; Sasl2.token := "t0k3n" |}
    token_feature empty_request {| ff_mechanisms := ["HT-SHA-256-NONE"]; tls0rtt := false |} ""
    _ _ _ _ _ _ _)); try reflexivity.
  - intros Hin. apply list_elem_of_singleton in Hin. discriminate Hin.
  - intros a [= <-]. reflexivity.
  - apply list_elem_of_singleton. reflexivity.
Defined.
