(* ===== verification/StreamElements.v ===== *)
(** * Elements of the stream itself (Stream.cpp, StreamError.h)

    Stream headers, STARTTLS, resource binding, client state indications and
    stream errors. A stream error is written with the prefix that the stream
    header binds to the name space of streams; it is modelled by that name
    space. The conversion of an address to host and port is QUrl's, a parameter. *)
From S2P Require Import Prelude Utils Dom XmlCodec SaslXml.

Definition ns_stream : string := "http://etherx.jabber.org/streams".
Definition ns_tls : string := "urn:ietf:params:xml:ns:xmpp-tls".
Definition ns_stream_error : string := "urn:ietf:params:xml:ns:xmpp-streams".
Definition ns_bind_element : string := "urn:ietf:params:xml:ns:xmpp-bind".
Definition default_port : Z := 5222.

(** ** Elements *)

Record StarttlsRequest := {}.
Record StarttlsProceed := {}.
Record BindElement := { be_jid : string; be_resource : string }.
Record CsiActive := {}.
Record CsiInactive := {}.

#[export] Instance StarttlsRequest_xml : XmlElement StarttlsRequest := {
  XmlTag := ("starttls", ns_tls);
  fromDom el := if decide (elementXmlTag el <> ("starttls", ns_tls)) then None
                else Some Build_StarttlsRequest;
  toXml _ := Element ("starttls", ns_tls) [];
}.
#[export] Instance StarttlsProceed_xml : XmlElement StarttlsProceed := {
  XmlTag := ("proceed", ns_tls);
  fromDom el := if decide (elementXmlTag el <> ("proceed", ns_tls)) then None
                else Some Build_StarttlsProceed;
  toXml _ := Element ("proceed", ns_tls) [];
}.
(** The children are looked up in any name space. *)
#[export] Instance BindElement_xml : XmlElement BindElement := {
  XmlTag := ("bind", ns_bind_element);
  fromDom el :=
    if decide (elementXmlTag el <> ("bind", ns_bind_element)) then None
    else Some {| be_jid := domText (firstChildElement el "jid" "");
                 be_resource := domText (firstChildElement el "resource" "") |};
  toXml b := Element ("bind", ns_bind_element)
    [OptionalTextElementN "jid" (be_jid b); OptionalTextElementN "resource" (be_resource b)];
}.
Definition csi_active (_ : CsiActive) : Item := Element ("active", ns_csi) [].
Definition csi_inactive (_ : CsiInactive) : Item := Element ("inactive", ns_csi) [].

(** ** Stream errors *)

Module StreamError.
Inductive StreamError :=
  | BadFormat | BadNamespacePrefix | Conflict | ConnectionTimeout | HostGone | HostUnknown
  | ImproperAddressing | InternalServerError | InvalidFrom | InvalidId | InvalidNamespace | InvalidXml
  | NotAuthorized | NotWellFormed | PolicyViolation | RemoteConnectionFailed | Reset
  | ResourceConstraint | RestrictedXml | SystemShutdown | UndefinedCondition | UnsupportedEncoding
  | UnsupportedFeature | UnsupportedStanzaType | UnsupportedVersion.
#[global] Instance StreamError_eq_dec : EqDecision StreamError.
Proof. solve_decision. Defined.

#[global] Instance StreamError_data : EnumData StreamError := {
  enum_value e := match e with
    | BadFormat => 0 | BadNamespacePrefix => 1 | Conflict => 2 | ConnectionTimeout => 3 | HostGone => 4
    | HostUnknown => 5 | ImproperAddressing => 6 | InternalServerError => 7 | InvalidFrom => 8
    | InvalidId => 9 | InvalidNamespace => 10 | InvalidXml => 11 | NotAuthorized => 12
    | NotWellFormed => 13 | PolicyViolation => 14 | RemoteConnectionFailed => 15 | Reset => 16
    | ResourceConstraint => 17 | RestrictedXml => 18 | SystemShutdown => 19 | UndefinedCondition => 20
    | UnsupportedEncoding => 21 | UnsupportedFeature => 22 | UnsupportedStanzaType => 23
    | UnsupportedVersion => 24
    end;
  Values := [
    (BadFormat, "bad-format"); (BadNamespacePrefix, "bad-namespace-prefix"); (Conflict, "conflict");
    (ConnectionTimeout, "connection-timeout"); (HostGone, "host-gone"); (HostUnknown, "host-unknown");
    (ImproperAddressing, "improper-addressing"); (InternalServerError, "internal-server-error");
    (InvalidFrom, "invalid-from"); (InvalidId, "invalid-id"); (InvalidNamespace, "invalid-namespace");
    (InvalidXml, "invalid-xml"); (NotAuthorized, "not-authorized"); (NotWellFormed, "not-well-formed");
    (PolicyViolation, "policy-violation"); (RemoteConnectionFailed, "remote-connection-failed");
    (Reset, "reset"); (ResourceConstraint, "resource-constraint"); (RestrictedXml, "restricted-xml");
    (SystemShutdown, "system-shutdown"); (UndefinedCondition, "undefined-condition");
    (UnsupportedEncoding, "unsupported-encoding"); (UnsupportedFeature, "unsupported-feature");
    (UnsupportedStanzaType, "unsupported-stanza-type"); (UnsupportedVersion, "unsupported-version")]
}.
End StreamError.

Inductive StreamCondition :=
  | Condition (e : StreamError.StreamError)
  | SeeOtherHost (host : string) (port : Z).
Record StreamErrorElement := { se_condition : StreamCondition; se_text : string }.

Section StreamErrors.
Variable parseHostAddress : string -> string * Z.

(** The element or the text of the QXmppError. *)
Definition StreamErrorElement_fromDom (el : Dom) : string + StreamErrorElement :=
  if decide (elementXmlTag el <> ("error", ns_stream)) then inl "Invalid dom element."
  else
    let conditionEl := firstChildElement el "" "" in
    if decide (namespaceURI conditionEl <> ns_stream_error)
    then inl "Invalid xmlns on stream error condition."
    else
      let condition : string + StreamCondition :=
        match fromString (tagName conditionEl) with
        | Some e => inr (Condition e)
        | None =>
            if decide (tagName conditionEl = "see-other-host") then
              let '(host, port) := parseHostAddress (domText conditionEl) in
              if decide (host = "")
              then inl "Stream error condition of <see-other-host/> requires valid redirection host."
              else inr (SeeOtherHost host (uwrap 16 (if 0 <? port then port else default_port)))
            else inl "Stream error is missing valid error condition."
        end in
      match condition with
      | inl e => inl e
      | inr c => inr {| se_condition := c;
                        se_text := domText (firstChildElement el "text" ns_stream_error) |}
      end.

(** The text is written in the name space of the error, not in that of its condition. *)
Definition StreamErrorElement_toXml (e : StreamErrorElement) : Item :=
  Element ("error", ns_stream) [
    match se_condition e with
    | Condition c => [Element (toString c, ns_stream_error) []]
    | SeeOtherHost host port =>
        [Element ("see-other-host", ns_stream_error) [Characters (host +:+ ":" +:+ number port)]]
    end;
    OptionalTextElementN "text" (se_text e)].
End StreamErrors.

(** ** Properties *)

#[export] Instance StarttlsRequest_codec : XmlCodec StarttlsRequest.
Proof. codec (fun _ => True). codec_start. intros [] _. codec_cbn. by codec_norm. Defined.
#[export] Instance StarttlsProceed_codec : XmlCodec StarttlsProceed.
Proof. codec (fun _ => True). codec_start. intros [] _. codec_cbn. by codec_norm. Defined.
#[export] Instance BindElement_codec : XmlCodec BindElement.
Proof.
  codec (fun _ => True). eapply codec_by_roundtrip; [intros ?; reflexivity|].
  intros [[|c s] [|d t]] _; reflexivity.
Defined.

(** A stream error is read back with its condition and without its text: the text is written
    outside the name space in which it is looked up. *)
Theorem stream_error_loses_text parseHostAddress c t :
  match c with
  | Condition _ => True
  | SeeOtherHost host port =>
      host <> "" /\ 0 < port < 2 ^ 16 /\ parseHostAddress (host +:+ ":" +:+ number port) = (host, port)
  end ->
  StreamErrorElement_fromDom parseHostAddress
    (serializeXml (StreamErrorElement_toXml {| se_condition := c; se_text := t |})) =
  inr {| se_condition := c; se_text := "" |}.
Proof.
  intros Hc. destruct c as [e|host port].
  - destruct e, t; reflexivity.
  - destruct Hc as (Hh & Hp & Hparse).
    set (el := serializeXml _).
    assert (elementXmlTag el = ("error", ns_stream)) as He by reflexivity.
    assert (firstChildElement el "" "" =
      Elem "see-other-host" ns_stream_error [] [Text (host +:+ ":" +:+ number port)]) as Hf by reflexivity.
    assert (domText (firstChildElement el "text" ns_stream_error) = "") as Ht by by destruct t.
    unfold StreamErrorElement_fromDom. rewrite He, Hf, Ht. cbn [tagName namespaceURI].
    rewrite !decide_False by tauto.
    change (domText (Elem _ _ _ [Text ?s])) with s.
    change (fromString "see-other-host" : option StreamError.StreamError) with (@None StreamError.StreamError).
    cbv iota. rewrite decide_True by done. rewrite Hparse, decide_False by done.
    rewrite (proj2 (Z.ltb_lt 0 port)) by lia. by rewrite uwrap_small by lia.
Qed.

Lemma stream_error_loses_text_witness :
  StreamErrorElement_fromDom (fun _ => ("other.lit", 5269))
    (serializeXml (StreamErrorElement_toXml
       {| se_condition := SeeOtherHost "other.lit" 5269; se_text := "moved" |})) =
  inr {| se_condition := SeeOtherHost "other.lit" 5269; se_text := "" |}.
Proof.
  apply (stream_error_loses_text (fun _ => ("other.lit", 5269)) (SeeOtherHost "other.lit" 5269)).
  split; [discriminate|]. split; [lia|reflexivity].
Defined.
