(* ===== verification/StreamSocket.v ===== *)
(** * The XML stream over a socket (Stream.cpp: DomReader, XmppSocket)

    The socket cuts the bytes it receives into stanzas and reports them. The
    lexical analysis of QXmlStreamReader is a parameter that turns the text
    of a chunk into tokens; readNext takes the next token found so far, and
    PrematureEndOfDocumentError is that there is none. The slots connected to
    the socket's signals are a parameter too: they may close or reset the
    stream while the socket is still processing a chunk. Log messages, the
    address to connect to and TLS are left to Qt. *)
From S2P Require Import Prelude Dom XmlCodec StreamElements.
Import StreamError.

(** ** QXmlStreamReader *)

Record StartTag := {
  prefix : option string; name : string; namespaceUri : string;
  namespaceDeclarations : list (string * string);            (* prefix, name space *)
  tag_attributes : list (string * string * string);          (* name, name space, value *)
}.
Inductive Token :=
  | Invalid (error : string)            (* not well-formed *)
  | StartDocument | EndDocument
  | StartElement (t : StartTag) | EndElement
  | Characters_ (text : string)
  | NoToken | Comment | DTD | EntityReference | ProcessingInstruction.

Class XmlLexer := {
  Lexer : Type;
  newLexer : Lexer;
  feed : Lexer -> string -> Lexer * list Token;
}.

Definition is_space (c : ascii) : bool :=
  bool_decide (c ∈ [" "%char; ascii_of_N 9; ascii_of_N 10; ascii_of_N 13]).
(** isWhitespace *)
Fixpoint white (s : string) : bool :=
  match s with "" => true | String c s' => is_space c && white s' end.

Definition restrictedXmlErrorText (t : Token) : string :=
  match t with
  | Comment => "XML comments are not allowed in XMPP."
  | DTD => "XML DTDs are not allowed in XMPP."
  | EntityReference => "XML entity references are not allowed in XMPP."
  | ProcessingInstruction => "XML processing instructions are not allowed in XMPP."
  | _ => ""
  end.

(** ** StreamOpen *)

Record StreamOpen := {
  so_to : string; so_from : string; so_id : string; so_version : string; so_xmlns : string }.

Definition tag_attribute (t : StartTag) (ns name : string) : string :=
  default "" (snd <$> find (fun a => bool_decide (a.1 = (name, ns))) (tag_attributes t)).
(** The last default name space declared. *)
Definition fromXml (t : StartTag) : StreamOpen :=
  {| so_to := tag_attribute t "" "to"; so_from := tag_attribute t "" "from";
     so_id := tag_attribute t "" "id"; so_version := tag_attribute t "" "version";
     so_xmlns := default "" (snd <$> last (filter (fun d => d.1 = "") (namespaceDeclarations t))) |}.

(** ** DomReader *)

(** An element whose end has not been read; the innermost is first. [depth] is
    the number of them. *)
Record Open := {
  o_name : string; o_ns : string; o_attrs : list (string * string); o_children : list Dom }.
Definition DomReader : Type := list Open.

Inductive DomErrorType := InvalidState | NotWellFormed_ | UnsupportedXmlFeature.
Inductive DomResult :=
  | DomElement (el : Dom) | Unfinished | DomError (type : DomErrorType) (text : string).

(** QDomElement::setAttribute *)
Fixpoint setAttribute (n v : string) (attrs : list (string * string)) : list (string * string) :=
  match attrs with
  | [] => [(n, v)]
  | (m, w) :: attrs' => if decide (m = n) then (n, v) :: attrs' else (m, w) :: setAttribute n v attrs'
  end.

(** The element of a start tag, unless it declares a prefix. *)
Fixpoint declare (decls : list (string * string)) (attrs : list (string * string)) :
    option (list (string * string)) :=
  match decls with
  | [] => Some attrs
  | (p, ns) :: decls => if decide (p = "") then declare decls (setAttribute "xmlns" ns attrs) else None
  end.
Definition createElement (t : StartTag) : option Open :=
  attrs ← declare (namespaceDeclarations t) [];
  Some {| o_name := name t;
          o_ns := match prefix t with Some _ => namespaceUri t | None => "" end;
          o_attrs := foldl (fun a x => setAttribute x.1.1 x.2 a) attrs (tag_attributes t);
          o_children := [] |}.

Definition close (o : Open) : Dom := Elem (o_name o) (o_ns o) (o_attrs o) (o_children o).
Definition add_child (c : Dom) (o : Open) : Open :=
  {| o_name := o_name o; o_ns := o_ns o; o_attrs := o_attrs o; o_children := o_children o ++ [c] |}.

(** One token, in the loop's order: what process returns, or the loop goes on. *)
Definition dom_token (t : Token) (d : DomReader) : option DomResult * DomReader :=
  match t with
  | Invalid e => (Some (DomError NotWellFormed_ e), d)
  | StartElement s =>
      match createElement s with
      | Some o => (None, o :: d)
      | None => (Some (DomError UnsupportedXmlFeature
                         "XML namespace declarations are not allowed in XMPP."), d)
      end
  | EndElement =>
      match d with
      | [] => (Some (DomError InvalidState
                       "Invalid state: Received element end instead of element start."), d)
      | [o] => (Some (DomElement (close o)), [])
      | o :: p :: d => (None, add_child (close o) p :: d)
      end
  | Characters_ s =>
      match d with
      | [] => (Some (DomError InvalidState
                 "Invalid state: Received top-level character data instead of element begin."), d)
      | o :: d => (None, add_child (Text s) o :: d)
      end
  | NoToken => (None, d)
  | StartDocument | EndDocument =>
      (Some (DomError InvalidState "Invalid state: Received document begin or end."), d)
  | Comment | DTD | EntityReference | ProcessingInstruction =>
      (Some (DomError UnsupportedXmlFeature (restrictedXmlErrorText t)), d)
  end.

(** process, from the reader's current token and the tokens after it. *)
Fixpoint process (t : Token) (queue : list Token) (d : DomReader) :
    DomResult * DomReader * list Token :=
  match dom_token t d with
  | (Some r, d) => (r, d, queue)
  | (None, d) =>
      match queue with
      | [] => (Unfinished, d, [])
      | t :: queue => process t queue d
      end
  end.

(** ** XmppSocket *)

Inductive SocketEvent :=
  | WriteElement (i : Item) | WriteClose                 (* data written to the peer *)
  | StanzaReceived (el : Dom) | StreamReceived (o : StreamOpen) | StreamClosed
  | ErrorOccurred (text : string) (c : StreamError.StreamError)
  | Started.

(** What a slot does to the socket. *)
Inductive Reaction := Nothing | Disconnect | ResetStream.

Section Socket.
Context `{XmlLexer}.

Record XmppSocket := {
  lexer : Lexer; queue : list Token;                     (* m_reader *)
  m_domReader : option DomReader;
  m_streamReceived : bool;
  m_directTls : bool;
  acceptInput : bool;
  connected : bool;                                      (* the state of m_socket *)
  events : list SocketEvent;
}.
#[global] Instance XmppSocket_eta : Eta XmppSocket := fun r =>
  {| lexer := lexer r; queue := queue r; m_domReader := m_domReader r;
     m_streamReceived := m_streamReceived r; m_directTls := m_directTls r;
     acceptInput := acceptInput r; connected := connected r; events := events r |}.

(** The slots react to an event given those before it. *)
Variable slots : list SocketEvent -> SocketEvent -> Reaction.
Variable fromUtf8 : string -> string.

Definition write (e : SocketEvent) (s : XmppSocket) : XmppSocket :=
  if connected s then s <| events ::= (fun l => l ++ [e]) |> else s.

Definition disconnectFromHost (s : XmppSocket) : XmppSocket :=
  let s := write WriteClose s in s <| connected := false |> <| acceptInput := false |>.

Definition resetStream (s : XmppSocket) : XmppSocket :=
  s <| lexer := newLexer |> <| queue := [] |> <| m_domReader := None |>
    <| m_streamReceived := false |> <| acceptInput := true |>.

Definition signal (e : SocketEvent) (s : XmppSocket) : XmppSocket :=
  let r := slots (events s) e in
  let s := s <| events ::= (fun l => l ++ [e]) |> in
  match r with
  | Nothing => s
  | Disconnect => disconnectFromHost s
  | ResetStream => resetStream s
  end.

Definition throwError (text : string) (condition : StreamError.StreamError) (s : XmppSocket) : XmppSocket :=
  let s := s <| acceptInput := false |> in
  let s := write (WriteElement (StreamErrorElement_toXml
                    {| se_condition := Condition condition; se_text := text |})) s in
  disconnectFromHost (signal (ErrorOccurred text condition) s).

(** The visitor of process's result. *)
Definition visitResult (r : DomResult) (s : XmppSocket) : XmppSocket * bool :=
  match r with
  | DomElement el => (signal (StanzaReceived el) (s <| m_domReader := None |>), true)
  | Unfinished => (s, false)
  | DomError type text =>
      (match type with
       | InvalidState => throwError "Experienced internal error while parsing XML." InternalServerError s
       | NotWellFormed_ => throwError ("Not well-formed: " +:+ text) NotWellFormed s
       | UnsupportedXmlFeature => throwError text RestrictedXml s
       end, false)
  end.
(** readDomElement, on the current token. *)
Definition readDomElement (t : Token) (s : XmppSocket) : XmppSocket * bool :=
  let '(r, d, rest) := process t (queue s) (default [] (m_domReader s)) in
  visitResult r (s <| queue := rest |> <| m_domReader := Some d |>).

(** The body of the loop over the tokens at top level; [false] returns from processData. *)
Definition top_token (t : Token) (s : XmppSocket) : XmppSocket * bool :=
  match t with
  | Invalid e => (throwError e NotWellFormed s, true)
  | StartDocument | EndDocument | NoToken => (s, true)
  | StartElement tag =>
      if decide (name tag = "stream" /\ namespaceUri tag = ns_stream) then
        if decide (default "" (prefix tag) <> "stream") then
          (throwError "Top-level stream element must have a namespace prefix of 'stream'."
             BadNamespacePrefix s, true)
        else (signal (StreamReceived (fromXml tag)) (s <| m_streamReceived := true |>), true)
      else if negb (m_streamReceived s) then
        (throwError "Invalid element received. Expected 'stream' element qualified by 'http://etherx.jabber.org/streams' namespace."
           BadFormat s, true)
      else readDomElement t (s <| m_domReader := Some [] |>)
  | EndElement => (signal StreamClosed s, true)
  | Characters_ text =>
      if white text then (signal (StanzaReceived nullElement) s, true)
      else (throwError "Top-level, non-whitespace character data is not allowed in XMPP." BadFormat s, true)
  | Comment | DTD | EntityReference | ProcessingInstruction =>
      (throwError (restrictedXmlErrorText t) RestrictedXml s, true)
  end.

(** do ... while (!hasError() && m_acceptInput) *)
Fixpoint top_loop (fuel : nat) (s : XmppSocket) : XmppSocket :=
  match fuel, queue s with
  | _, [] => s
  | O, _ => s
  | S fuel, t :: rest =>
      let '(s, continue) := top_token t (s <| queue := rest |>) in
      if continue && acceptInput s then top_loop fuel s else s
  end.

Definition processData (data : string) (s : XmppSocket) : XmppSocket :=
  if negb (acceptInput s) then s
  else if decide (data = "") then signal (StanzaReceived nullElement) s
  else
    let '(lx, ts) := feed (lexer s) data in
    let s := s <| lexer := lx |> <| queue ::= (fun q => q ++ ts) |> in
    let loop s := top_loop (length (queue s)) s in
    match m_domReader s, queue s with
    | Some _, [] => s
    | Some _, t :: rest =>
        let '(s, done) := readDomElement t (s <| queue := rest |>) in
        if done then loop s else s
    | None, _ => loop s
    end.

(** The socket's signals. *)
Definition readyRead (bytes : string) (s : XmppSocket) : XmppSocket := processData (fromUtf8 bytes) s.
Definition onConnected (s : XmppSocket) : XmppSocket :=
  let s := resetStream s in if m_directTls s then s else signal Started s.
Definition onEncrypted (s : XmppSocket) : XmppSocket := signal Started (resetStream s).
End Socket.

(** ** One text, however it is cut *)

(** Joining neighbours of a list where they can be joined. *)
Section Glue.
Context {A : Type} (glue : A -> A -> option A).
Definition cons_glue (x : A) (l : list A) : list A :=
  match l with
  | y :: l' => match glue x y with Some z => z :: l' | None => x :: l end
  | [] => [x]
  end.
Definition merge (l : list A) : list A := foldr cons_glue [] l.

Hypothesis glue_assoc : forall a b ab c, glue a b = Some ab ->
  match glue b c with
  | Some bc => exists z, glue a bc = Some z /\ glue ab c = Some z
  | None => glue ab c = None
  end.

Lemma fold_cons_glue acc x l :
  foldr cons_glue acc (cons_glue x l) = cons_glue x (foldr cons_glue acc l).
Proof.
  destruct l as [|y l]; [done|]. cbn [cons_glue]. destruct (glue x y) as [xy|] eqn:Hxy; [|done].
  cbn [foldr]. destruct (foldr cons_glue acc l) as [|c m]; cbn [cons_glue].
  { by rewrite Hxy. }
  pose proof (glue_assoc x y xy c Hxy) as Hg. destruct (glue y c) as [yc|]; cbn [cons_glue].
  - by destruct Hg as (z & -> & ->).
  - by rewrite Hg, Hxy.
Qed.
Lemma fold_merge acc l : foldr cons_glue acc (merge l) = foldr cons_glue acc l.
Proof.
  unfold merge. induction l as [|x l IH]; [done|]. cbn [foldr]. by rewrite fold_cons_glue, IH.
Qed.
Lemma merge_app_l a a' b : merge a = merge a' -> merge (a ++ b) = merge (a' ++ b).
Proof.
  intros Ha. unfold merge at 1 2. rewrite !foldr_app. by rewrite <-(fold_merge _ a), Ha, fold_merge.
Qed.
Lemma merge_app_r a b b' : merge b = merge b' -> merge (a ++ b) = merge (a ++ b').
Proof. intros Hb. unfold merge. rewrite !foldr_app. fold (merge b) (merge b'). by rewrite Hb. Qed.
End Glue.

(** Adjacent texts are one text. *)
Definition glue_text (a b : Dom) : option Dom :=
  match a, b with Text x, Text y => Some (Text (x +:+ y)) | _, _ => None end.
Definition merge_texts : list Dom -> list Dom := merge glue_text.
Fixpoint norm (n : Dom) : Dom :=
  match n with
  | Text s => Text s
  | Elem t x a c => Elem t x a (merge_texts (map norm c))
  end.

(** Adjacent character tokens are one token. *)
Definition glue_token (a b : Token) : option Token :=
  match a, b with Characters_ x, Characters_ y => Some (Characters_ (x +:+ y)) | _, _ => None end.
Definition merge_tokens : list Token -> list Token := merge glue_token.

Lemma glue_text_assoc a b ab c : glue_text a b = Some ab ->
  match glue_text b c with
  | Some bc => exists z, glue_text a bc = Some z /\ glue_text ab c = Some z
  | None => glue_text ab c = None
  end.
Proof.
  destruct a as [|x], b as [|y]; try done. intros [= <-]. destruct c as [|z]; [done|].
  simpl. rewrite text_app_assoc. by eexists.
Qed.
Lemma glue_token_assoc a b ab c : glue_token a b = Some ab ->
  match glue_token b c with
  | Some bc => exists z, glue_token a bc = Some z /\ glue_token ab c = Some z
  | None => glue_token ab c = None
  end.
Proof.
  destruct a, b; try done. intros [= <-]. destruct c; try done.
  simpl. rewrite text_app_assoc. by eexists.
Qed.

(** What the slots are told, up to keep-alive white space and the cutting of texts. *)
Definition shown (e : SocketEvent) : option SocketEvent :=
  match e with
  | StanzaReceived el => if isNull el then None else Some (StanzaReceived (norm el))
  | e => Some e
  end.
Definition visible (l : list SocketEvent) : list SocketEvent := omap shown l.

(** A lexer whose tokens do not depend on how the text is cut, but for the
    cutting of character data. *)
Class IncrementalLexer `{XmlLexer} := {
  feed_app l a b :
    let '(l1, t1) := feed l a in
    let '(l2, t2) := feed l1 b in
    let '(l3, t3) := feed l (a +:+ b) in
    l3 = l2 /\ merge_tokens t3 = merge_tokens (t1 ++ t2);
}.

Lemma domText_cons n l :
  String.concat "" (map domText (cons_glue glue_text n l)) =
  domText n +:+ String.concat "" (map domText l).
Proof.
  destruct l as [|m l]; [apply concat_cons|]. destruct n as [t ns at_ c|a]; [apply concat_cons|].
  destruct m as [t ns at_ c|b]; [apply concat_cons|]. cbn [cons_glue glue_text map].
  rewrite !concat_cons. cbn [domText]. by rewrite text_app_assoc.
Qed.
(** The text of an element does not depend on the cutting. *)
Lemma domText_norm n : domText (norm n) = domText n.
Proof.
  revert n. fix IH 1. intros [t ns at_ c|s]; [|done]. simpl.
  induction c as [|x c IHc]; [done|]. simpl map. unfold merge_texts, merge in *. cbn [foldr].
  by rewrite domText_cons, IHc, IH, concat_cons.
Qed.

(** Slots that leave the socket alone: none of them closes or resets the stream. *)
Definition inert (slots : list SocketEvent -> SocketEvent -> Reaction) : Prop :=
  forall l e, slots l e = Nothing.

Section Machine.
Context `{XmlLexer}.
Variable slots : list SocketEvent -> SocketEvent -> Reaction.
Hypothesis Hslots : inert slots.

Notation signal := (signal slots).
Notation throwError := (throwError slots).
Notation visitResult := (visitResult slots).
Notation readDomElement := (readDomElement slots).
Notation top_token := (top_token slots).
Notation top_loop := (top_loop slots).
Notation processData := (processData slots).

(** *** The socket as a machine that takes one token at a time *)

Definition dom_step (d : DomReader) (t : Token) (s : XmppSocket) : XmppSocket :=
  match dom_token t d with
  | (None, d) => s <| m_domReader := Some d |>
  | (Some r, d) => (visitResult r (s <| m_domReader := Some d |>)).1
  end.
Definition is_stream_tag (tag : StartTag) : bool :=
  bool_decide (name tag = "stream" /\ namespaceUri tag = ns_stream).
Definition token_step (s : XmppSocket) (t : Token) : XmppSocket :=
  if negb (acceptInput s) then s
  else
    match m_domReader s, t with
    | Some d, _ => dom_step d t s
    | None, StartElement tag =>
        if negb (is_stream_tag tag) && m_streamReceived s then dom_step [] t s
        else (top_token t s).1
    | None, _ => (top_token t s).1
    end.

(** The state without the reader. *)
Definition core (s : XmppSocket) : XmppSocket := s <| queue := [] |> <| lexer := newLexer |>.

Lemma signal_inert e s : signal e s = s <| events ::= (fun l => l ++ [e]) |>.
Proof. unfold StreamSocket.signal. by rewrite Hslots. Qed.
Lemma core_signal e s : core (signal e s) = signal e (core s).
Proof. by rewrite !signal_inert. Qed.
Lemma core_throw x c s : core (throwError x c s) = throwError x c (core s).
Proof.
  unfold StreamSocket.throwError. rewrite !signal_inert. destruct s as [lx q d r tl a [] ev]; reflexivity.
Qed.
Lemma throw_stops x c s : acceptInput (throwError x c s) = false.
Proof. reflexivity. Qed.
Lemma core_visit r s : core (visitResult r s).1 = (visitResult r (core s)).1.
Proof. destruct r as [el| |[] x]; try done; simpl; auto using core_signal, core_throw. Qed.
Lemma core_step s t : core (token_step s t) = token_step (core s) t.
Proof.
  assert (forall d, core (dom_step d t s) = dom_step d t (core s)) as Hd.
  { intros d. unfold dom_step. destruct (dom_token t d) as [[r|] d']; [apply core_visit|done]. }
  unfold token_step. change (acceptInput (core s)) with (acceptInput s).
  change (m_domReader (core s)) with (m_domReader s).
  change (m_streamReceived (core s)) with (m_streamReceived s).
  destruct (acceptInput s); [|done]. simpl negb. cbv iota.
  destruct (m_domReader s) as [d|]; [apply Hd|].
  destruct t as [e| | |tag| |x| | | | |]; simpl; try done; auto using core_signal, core_throw.
  - destruct (is_stream_tag tag) eqn:Hs; simpl.
    + unfold is_stream_tag in Hs. apply bool_decide_eq_true in Hs.
      destruct (decide (name tag = "stream" /\ namespaceUri tag = ns_stream)); [|done].
      destruct (decide (default "" (prefix tag) <> "stream")); simpl;
        [apply core_throw|apply core_signal].
    + destruct (m_streamReceived s) eqn:Hr; [apply Hd|].
      unfold is_stream_tag in Hs. apply bool_decide_eq_false in Hs.
      destruct (decide (name tag = "stream" /\ namespaceUri tag = ns_stream)); [done|].
      simpl. apply core_throw.
  - destruct (white x); simpl; [apply core_signal|apply core_throw].
Qed.
Lemma core_fold ts s : foldl token_step (core s) ts = core (foldl token_step s ts).
Proof. revert s. induction ts as [|t ts IH]; intros s; [done|]. simpl. by rewrite <-core_step, IH. Qed.
Lemma fold_stopped ts s : acceptInput s = false -> foldl token_step s ts = s.
Proof.
  intros Ha. induction ts as [|t ts IH]; [done|]. simpl. unfold token_step at 2. by rewrite Ha.
Qed.

Lemma dom_token_unfinished t d d' : dom_token t d <> (Some Unfinished, d').
Proof. destruct t; simpl; repeat case_match; congruence. Qed.

(** What reading one element comes to. *)
Definition reads (s0 : XmppSocket) (ts : list Token) (r : XmppSocket * bool) : Prop :=
  lexer r.1 = lexer s0 /\
  if r.2 then
    foldl token_step (core s0) ts = foldl token_step (core r.1) (queue r.1) /\
    acceptInput r.1 = true /\ m_domReader r.1 = None /\ (length (queue r.1) < length ts)%nat
  else
    foldl token_step (core s0) ts = core r.1 /\ (acceptInput r.1 = true -> queue r.1 = []).

Lemma throw_lexer x c s : lexer (throwError x c s) = lexer s.
Proof.
  unfold StreamSocket.throwError. rewrite !signal_inert. by destruct s as [lx q d r tl a [] ev].
Qed.
Lemma visit_lexer r s : lexer (visitResult r s).1 = lexer s.
Proof.
  destruct r as [el| |[] x]; unfold StreamSocket.visitResult; cbn [fst];
    rewrite ?signal_inert, ?throw_lexer; done.
Qed.
Lemma visit_queue r s q : core (visitResult r (s <| queue := q |>)).1 = core (visitResult r s).1.
Proof. by rewrite !core_visit. Qed.
Lemma visit_done r s : r <> Unfinished ->
  if (visitResult r s).2
  then acceptInput (visitResult r s).1 = acceptInput s /\ m_domReader (visitResult r s).1 = None /\
       queue (visitResult r s).1 = queue s
  else acceptInput (visitResult r s).1 = false.
Proof. destruct r as [el| |[] x]; intros Hr; simpl; rewrite ?signal_inert; done. Qed.

Lemma dom_step_some t d r d' s : acceptInput s = true -> m_domReader s = Some d ->
  dom_token t d = (r, d') ->
  token_step (core s) t =
  core match r with Some r => (visitResult r (s <| m_domReader := Some d' |>)).1
                  | None => s <| m_domReader := Some d' |> end.
Proof.
  intros Ha Hd Ht. rewrite <-core_step. unfold token_step, dom_step. rewrite Ha, Hd, Ht. by destruct r.
Qed.

Lemma reads_visit s s1 t d d' r q : acceptInput s = true -> m_domReader s = Some d ->
  dom_token t d = (Some r, d') -> s1 = s <| queue := q |> <| m_domReader := Some d' |> ->
  reads s (t :: q) (visitResult r s1).
Proof.
  intros Ha Hd Ht Hs1. pose proof (dom_step_some t d _ d' s Ha Hd Ht) as Hstep. simpl in Hstep.
  assert (r <> Unfinished) as Hr by (intros ->; by eapply dom_token_unfinished).
  pose proof (visit_done r s1 Hr) as Hv. pose proof (visit_lexer r s1) as Hl.
  assert (token_step (core s) t = core (visitResult r s1).1) as Hc.
  { rewrite Hstep, !core_visit. by subst s1. }
  assert (queue s1 = q) as Hq by by subst s1.
  assert (acceptInput s1 = true) as Ha1 by by subst s1.
  unfold reads. split; [rewrite Hl; by subst s1|]. cbn [foldl]. rewrite Hc.
  destruct (visitResult r s1) as [s' []]; simpl in Hv |- *.
  - destruct Hv as (Hva & Hvd & Hvq). rewrite Hvq, Hq. split_and!; [done|congruence|done|lia].
  - split; [|congruence]. by rewrite fold_stopped.
Qed.

Lemma readDomElement_spec q t d s :
  queue s = q -> m_domReader s = Some d -> acceptInput s = true ->
  reads s (t :: q) (readDomElement t s).
Proof.
  revert t d s. induction q as [|t' q IH]; intros t d s Hq Hd Ha;
    unfold StreamSocket.readDomElement; rewrite Hq, Hd; cbn [default from_option id process];
    destruct (dom_token t d) as [[r|] d'] eqn:Ht;
    [by apply (reads_visit s _ t d d') | | by apply (reads_visit s _ t d d') |];
    pose proof (dom_step_some t d _ d' s Ha Hd Ht) as Hstep; simpl in Hstep.
  - unfold reads. simpl. by rewrite Hstep.
  - specialize (IH t' d' (s <| queue := q |> <| m_domReader := Some d' |>) eq_refl eq_refl Ha).
    unfold StreamSocket.readDomElement in IH. cbn [queue m_domReader default from_option id upd] in IH.
    simpl in IH. destruct (process t' q d') as [[r d2] rest]. revert IH. unfold reads. simpl.
    rewrite Hstep. intros (Hl & Hf). split; [exact Hl|].
    destruct (visitResult r _) as [s' []]; simpl in Hf |- *; [|exact Hf].
    destruct Hf as (? & ? & ? & ?). split_and!; auto.
Qed.

(** *** The loop *)

Definition opens (t : Token) (s : XmppSocket) : bool :=
  match t with StartElement tag => negb (is_stream_tag tag) && m_streamReceived s | _ => false end.

Lemma throw_frame x c s : let s' := throwError x c s in
  lexer s' = lexer s /\ queue s' = queue s /\ m_domReader s' = m_domReader s.
Proof.
  unfold StreamSocket.throwError. rewrite !signal_inert. by destruct s as [lx q d r tl a [] ev].
Qed.

Lemma top_opens t s : opens t s = true -> top_token t s = readDomElement t (s <| m_domReader := Some [] |>).
Proof.
  destruct t as [e| | |tag| |x| | | | |]; try done. simpl. unfold is_stream_tag. intros Ho.
  apply andb_true_iff in Ho as [Ho ->]. apply negb_true_iff, bool_decide_eq_false in Ho.
  by rewrite decide_False.
Qed.
Lemma step_opens t s : opens t s = true -> acceptInput s = true -> m_domReader s = None ->
  token_step s t = token_step (s <| m_domReader := Some [] |>) t.
Proof.
  intros Ho Ha Hd. unfold token_step.
  change (acceptInput (s <| m_domReader := Some [] |>)) with (acceptInput s).
  change (m_domReader (s <| m_domReader := Some [] |>)) with (Some ([] : DomReader)).
  rewrite Hd, Ha. cbn [negb]. destruct t as [e| | |tag| |x| | | | |]; try done.
  cbn [opens] in Ho. by rewrite Ho.
Qed.

Lemma top_plain t s : opens t s = false -> acceptInput s = true -> m_domReader s = None ->
  let r := top_token t s in
  token_step s t = r.1 /\ r.2 = true /\ lexer r.1 = lexer s /\ queue r.1 = queue s /\
  m_domReader r.1 = None.
Proof.
  intros Ho Ha Hd r. split.
  { unfold token_step. rewrite Ha, Hd. destruct t; try done. simpl in Ho. by rewrite Ho. }
  assert (forall x c, lexer (throwError x c s) = lexer s /\ queue (throwError x c s) = queue s /\
            m_domReader (throwError x c s) = None) as Hthrow by (intros x c; rewrite <-Hd; apply throw_frame).
  subst r. destruct t as [e| | |tag| |x| | | | |]; cbn [StreamSocket.top_token fst snd];
    rewrite ?signal_inert; try (split; [done|apply Hthrow]); try done.
  - simpl in Ho. unfold is_stream_tag in Ho. case_bool_decide as Hs; simpl in Ho.
    + destruct (decide (name tag = "stream" /\ namespaceUri tag = ns_stream)); [|done].
      destruct (decide (default "" (prefix tag) <> "stream")); cbn [fst snd]; rewrite ?signal_inert;
        split; try done; try apply Hthrow.
    + destruct (decide (name tag = "stream" /\ namespaceUri tag = ns_stream)); [done|].
      rewrite Ho. simpl negb. cbv iota. split; [done|apply Hthrow].
  - destruct (white x); cbn [fst snd]; rewrite ?signal_inert; split; try done; try apply Hthrow.
Qed.

Lemma top_loop_spec fuel s :
  m_domReader s = None -> acceptInput s = true -> (length (queue s) <= fuel)%nat ->
  core (top_loop fuel s) = foldl token_step (core s) (queue s) /\
  lexer (top_loop fuel s) = lexer s /\
  (acceptInput (top_loop fuel s) = true -> queue (top_loop fuel s) = []).
Proof.
  revert s. induction fuel as [|fuel IH]; intros s Hd Ha Hf; destruct (queue s) as [|t rest] eqn:Hq;
    cbn [StreamSocket.top_loop]; rewrite Hq; try (simpl in Hf; lia); try done.
  set (s0 := s <| queue := rest |>). change (core s) with (core s0).
  assert (lexer s = lexer s0) as -> by done.
  destruct (opens t s0) eqn:Ho.
  - rewrite top_opens by done. set (s1 := s0 <| m_domReader := Some [] |>).
    pose proof (readDomElement_spec rest t [] s1 eq_refl eq_refl Ha) as [Hl Hr].
    change (lexer s0) with (lexer s1). cbn [foldl] in Hr |- *.
    rewrite <-core_step, step_opens, core_step by done. fold s1.
    destruct (readDomElement t s1) as [s' []]; cbn [fst snd] in Hl, Hr.
    + destruct Hr as (Hr & Ha' & Hd' & Hlen). rewrite Ha', Hr. simpl andb. cbv iota.
      rewrite <-Hl. apply IH; [done|done|]. simpl in Hf, Hlen. lia.
    + destruct Hr as (Hr & Hq'). cbn [andb]. split_and!; [symmetry; exact Hr|exact Hl|exact Hq'].
  - destruct (top_plain t s0 Ho Ha Hd) as (Hs & Hb & Hl & Hqq & Hdd).
    cbn [foldl]. rewrite <-core_step, Hs.
    destruct (top_token t s0) as [s' b]. cbn [fst snd] in *. subst b. simpl andb.
    rewrite <-Hl. destruct (acceptInput s') eqn:Ha'.
    + replace rest with (queue s'). apply IH; [done|done|]. rewrite Hqq. simpl in *. lia.
    + rewrite fold_stopped by done. split_and!; [done|done|congruence].
Qed.

Lemma processData_spec data s :
  acceptInput s = true -> queue s = [] -> data <> "" ->
  let s' := processData data s in
  core s' = foldl token_step (core s) (feed (lexer s) data).2 /\
  lexer s' = (feed (lexer s) data).1 /\ (acceptInput s' = true -> queue s' = []).
Proof.
  intros Ha Hq Hne. unfold StreamSocket.processData. rewrite Ha. cbn [negb].
  rewrite decide_False by done. destruct (feed (lexer s) data) as [lx ts]. cbn [fst snd].
  set (s1 := s <| lexer := lx |> <| queue ::= _ |>).
  assert (queue s1 = ts) as Hq1 by (unfold s1; simpl; by rewrite Hq).
  change (core s) with (core s1). change (m_domReader s) with (m_domReader s1).
  assert (acceptInput s1 = true) as Ha1 by done. assert (lexer s1 = lx) as Hl1 by done.
  clearbody s1. clear s Ha Hq Hne.
  destruct (m_domReader s1) as [d|] eqn:Hd; rewrite Hq1.
  - destruct ts as [|t rest]; [split_and!; done|].
    set (s2 := s1 <| queue := rest |>).
    destruct (readDomElement_spec rest t d s2 eq_refl Hd Ha1) as [Hl Hr].
    change (core s2) with (core s1) in Hr. change (lexer s2) with (lexer s1) in Hl.
    destruct (readDomElement t s2) as [s' []]; cbn [fst snd] in Hl, Hr.
    + destruct Hr as (Hr & Ha' & Hd' & _). rewrite Hr, <-Hl1, <-Hl. by apply top_loop_spec.
    + destruct Hr as (Hr & Hq'). split_and!; [done|congruence|done].
  - rewrite <-Hq1, <-Hl1. by apply top_loop_spec.
Qed.

(** *** Cutting the text differently *)

Definition canon_open (o : Open) : Open :=
  {| o_name := o_name o; o_ns := o_ns o; o_attrs := o_attrs o;
     o_children := merge_texts (map norm (o_children o)) |}.
(** The state up to what no slot can see. *)
Definition canon (s : XmppSocket) : XmppSocket :=
  s <| m_domReader ::= fmap (map canon_open) |> <| events ::= visible |>.

Definition sock_equiv (s1 s2 : XmppSocket) : Prop := canon s1 = canon s2.
#[local] Instance sock_equiv_equivalence : Equivalence sock_equiv.
Proof. split; unfold sock_equiv; repeat intro; congruence. Qed.

Lemma canon_inv s1 s2 : sock_equiv s1 s2 ->
  lexer s1 = lexer s2 /\ queue s1 = queue s2 /\
  map canon_open <$> m_domReader s1 = map canon_open <$> m_domReader s2 /\
  m_streamReceived s1 = m_streamReceived s2 /\ m_directTls s1 = m_directTls s2 /\
  acceptInput s1 = acceptInput s2 /\ connected s1 = connected s2 /\
  visible (events s1) = visible (events s2).
Proof. unfold sock_equiv. destruct s1, s2. intros [=]. done. Qed.

Lemma canon_intro s1 s2 :
  lexer s1 = lexer s2 -> queue s1 = queue s2 ->
  map canon_open <$> m_domReader s1 = map canon_open <$> m_domReader s2 ->
  m_streamReceived s1 = m_streamReceived s2 -> m_directTls s1 = m_directTls s2 ->
  acceptInput s1 = acceptInput s2 -> connected s1 = connected s2 ->
  visible (events s1) = visible (events s2) -> sock_equiv s1 s2.
Proof. unfold sock_equiv, canon. destruct s1, s2. simpl. intros. by subst; f_equal. Qed.

Lemma visible_app a b : visible (a ++ b) = visible a ++ visible b.
Proof. apply omap_app. Qed.

Lemma equiv_signal e e' s1 s2 : sock_equiv s1 s2 -> visible [e] = visible [e'] ->
  sock_equiv (signal e s1) (signal e' s2).
Proof.
  intros (? & ? & ? & ? & ? & ? & ? & Hv)%canon_inv He. rewrite !signal_inert.
  apply canon_intro; try done. simpl. by rewrite !visible_app, Hv, He.
Qed.
Lemma equiv_throw x c s1 s2 : sock_equiv s1 s2 -> sock_equiv (throwError x c s1) (throwError x c s2).
Proof.
  intros (? & ? & ? & ? & ? & ? & Hc & Hv)%canon_inv. unfold StreamSocket.throwError.
  rewrite !signal_inert. destruct s1 as [lx q d r tl a co ev], s2 as [lx' q' d' r' tl' a' co' ev'].
  simpl in *. subst co'. apply canon_intro; destruct co; simpl; try done;
    by rewrite !visible_app, Hv.
Qed.

Lemma canon_open_inv o1 o2 : canon_open o1 = canon_open o2 ->
  o_name o1 = o_name o2 /\ o_ns o1 = o_ns o2 /\ o_attrs o1 = o_attrs o2 /\
  merge_texts (map norm (o_children o1)) = merge_texts (map norm (o_children o2)).
Proof. destruct o1, o2. intros [=]. done. Qed.
Lemma norm_close o1 o2 : canon_open o1 = canon_open o2 ->
  norm (close o1) = norm (close o2) /\ isNull (close o1) = isNull (close o2).
Proof.
  intros (Hn & Hs & Ha & Hc)%canon_open_inv. unfold close, isNull. simpl. by rewrite Hn, Hs, Ha, Hc.
Qed.
Lemma canon_add c1 c2 o1 o2 : norm c1 = norm c2 -> canon_open o1 = canon_open o2 ->
  canon_open (add_child c1 o1) = canon_open (add_child c2 o2).
Proof.
  intros Hc (Hn & Hs & Ha & Hm)%canon_open_inv. unfold canon_open, add_child. simpl.
  rewrite !map_app. simpl. rewrite Hn, Hs, Ha, Hc. f_equal.
  apply merge_app_l; [apply glue_text_assoc|done].
Qed.

Lemma map_cons_inv {A B} (f : A -> B) x l y k : map f (x :: l) = map f (y :: k) ->
  f x = f y /\ map f l = map f k.
Proof. by intros [=]. Qed.

Definition result_equiv (r1 r2 : DomResult) : Prop :=
  match r1, r2 with
  | DomElement e1, DomElement e2 => norm e1 = norm e2 /\ isNull e1 = isNull e2
  | _, _ => r1 = r2
  end.

Lemma dom_token_canon t d1 d2 : map canon_open d1 = map canon_open d2 ->
  map canon_open (dom_token t d1).2 = map canon_open (dom_token t d2).2 /\
  match (dom_token t d1).1, (dom_token t d2).1 with
  | None, None => True
  | Some r1, Some r2 => result_equiv r1 r2
  | _, _ => False
  end.
Proof.
  intros Hd. destruct t as [e| | |tag| |x| | | | |]; try done.
  - cbn [dom_token]. destruct (createElement tag); cbn [fst snd map]; [|done]. by rewrite Hd.
  - destruct d1 as [|o1 [|p1 d1]], d2 as [|o2 [|p2 d2]]; try done; cbn [dom_token fst snd];
      apply map_cons_inv in Hd as [Ho Hd].
    + split; [done|]. by apply norm_close.
    + apply map_cons_inv in Hd as [Hp Hr]. apply norm_close in Ho as [Ho _]. cbn [map].
      by rewrite (canon_add _ _ _ _ Ho Hp), Hr.
  - destruct d1 as [|o1 d1], d2 as [|o2 d2]; try done; cbn [dom_token fst snd].
    apply map_cons_inv in Hd as [Ho Hr]. cbn [map].
    by rewrite (canon_add (Text x) (Text x) _ _ eq_refl Ho), Hr.
Qed.

Lemma equiv_set_dom d1 d2 s1 s2 : sock_equiv s1 s2 -> map canon_open <$> d1 = map canon_open <$> d2 ->
  sock_equiv (s1 <| m_domReader := d1 |>) (s2 <| m_domReader := d2 |>).
Proof. intros (? & ? & ? & ? & ? & ? & ? & ?)%canon_inv Hd. by apply canon_intro. Qed.

Lemma equiv_visit r1 r2 s1 s2 : sock_equiv s1 s2 -> result_equiv r1 r2 ->
  sock_equiv (visitResult r1 s1).1 (visitResult r2 s2).1.
Proof.
  intros Hs Hr. destruct r1 as [e1| |ty x], r2 as [e2| |ty' x']; try done; simpl in Hr; cbn [StreamSocket.visitResult fst].
  - destruct Hr as [Hn Hi]. apply equiv_signal; [by apply equiv_set_dom|]. simpl. by rewrite Hi, Hn.
  - injection Hr as <- <-. destruct ty; by apply equiv_throw.
Qed.
Lemma equiv_dom_step d1 d2 t s1 s2 : sock_equiv s1 s2 -> map canon_open d1 = map canon_open d2 ->
  sock_equiv (dom_step d1 t s1) (dom_step d2 t s2).
Proof.
  intros Hs Hd. unfold dom_step. destruct (dom_token_canon t d1 d2 Hd) as [Hd' Hr].
  destruct (dom_token t d1) as [[r1|] d1'], (dom_token t d2) as [[r2|] d2']; simpl in *; try done.
  - apply equiv_visit; [|done]. apply equiv_set_dom; [done|]. simpl. by rewrite Hd'.
  - apply equiv_set_dom; [done|]. simpl. by rewrite Hd'.
Qed.

(** What a token does at top level. *)
Lemma equiv_top t s1 s2 : opens t s1 = false -> sock_equiv s1 s2 ->
  sock_equiv (top_token t s1).1 (top_token t s2).1.
Proof.
  intros Ho Hs. pose proof (canon_inv _ _ Hs) as (_ & _ & _ & Hr & _).
  destruct t as [e| | |tag| |x| | | | |]; cbn [StreamSocket.top_token fst];
    try done; try (by apply equiv_throw); try (by apply equiv_signal).
  - simpl in Ho. unfold is_stream_tag in Ho. rewrite <-Hr. case_bool_decide as Hst; simpl in Ho.
    + destruct (decide (name tag = "stream" /\ namespaceUri tag = ns_stream)); [|done].
      destruct (decide (default "" (prefix tag) <> "stream")); cbn [fst]; [by apply equiv_throw|].
      apply equiv_signal; [|done]. destruct (canon_inv _ _ Hs) as (? & ? & ? & ? & ? & ? & ? & ?).
      by apply canon_intro.
    + destruct (decide (name tag = "stream" /\ namespaceUri tag = ns_stream)); [done|].
      rewrite Ho. by apply equiv_throw.
  - destruct (white x); [by apply equiv_signal|by apply equiv_throw].
Qed.

#[local] Instance token_step_proper : Proper (sock_equiv ==> eq ==> sock_equiv) token_step.
Proof.
  intros s1 s2 Hs t _ <-. pose proof (canon_inv _ _ Hs) as (_ & _ & Hd & Hr & _ & Ha & _).
  unfold token_step. rewrite <-Ha. destruct (acceptInput s1); [|done]. simpl negb. cbv iota.
  destruct (m_domReader s1) as [d1|], (m_domReader s2) as [d2|]; try done.
  { injection Hd as Hd. by apply equiv_dom_step. }
  destruct t as [e| | |tag| |x| | | | |]; try (by apply equiv_top).
  rewrite <-Hr. destruct (negb (is_stream_tag tag) && m_streamReceived s1) eqn:Ho.
  - by apply equiv_dom_step.
  - by apply equiv_top.
Qed.
#[local] Instance foldl_step_proper : Proper (sock_equiv ==> eq ==> sock_equiv) (foldl token_step).
Proof.
  intros s1 s2 Hs ts _ <-. revert s1 s2 Hs. induction ts as [|t ts IH]; intros s1 s2 Hs; [done|].
  simpl. apply IH. by apply token_step_proper.
Qed.

Lemma white_app a b : white (a +:+ b) = white a && white b.
Proof. induction a as [|c a IH]; [done|]. rewrite append_cons. simpl. by rewrite IH, andb_assoc. Qed.

(** Two character tokens do what their concatenation does. *)
Lemma characters_join a b s :
  sock_equiv (token_step (token_step s (Characters_ a)) (Characters_ b))
             (token_step s (Characters_ (a +:+ b))).
Proof.
  destruct (acceptInput s) eqn:Ha; [|unfold token_step; by rewrite Ha; simpl; rewrite Ha].
  destruct (m_domReader s) as [[|o d]|] eqn:Hd.
  - unfold token_step at 2 3. rewrite Ha, Hd. simpl negb. cbv iota.
    unfold dom_step. cbn [dom_token StreamSocket.visitResult fst].
    unfold token_step. by rewrite throw_stops.
  - assert (forall x s d o, acceptInput s = true -> m_domReader s = Some (o :: d) ->
      token_step s (Characters_ x) = s <| m_domReader := Some (add_child (Text x) o :: d) |>) as Hstep.
    { intros x s' d' o' Ha' Hd'. unfold token_step. by rewrite Ha', Hd'. }
    rewrite (Hstep a s d o Ha Hd), (Hstep (a +:+ b) s d o Ha Hd), (Hstep b _ d (add_child (Text a) o)) by done.
    apply (equiv_set_dom _ _ s s); [reflexivity|]. simpl. do 2 f_equal. unfold canon_open, add_child.
    simpl. f_equal. rewrite !map_app, <-app_assoc. by apply merge_app_r.
  - assert (forall x s, acceptInput s = true -> m_domReader s = None ->
      token_step s (Characters_ x) = (top_token (Characters_ x) s).1) as Hstep.
    { intros x s' Ha' Hd'. unfold token_step. by rewrite Ha', Hd'. }
    rewrite (Hstep a s Ha Hd), (Hstep (a +:+ b) s Ha Hd). cbn [StreamSocket.top_token].
    rewrite white_app. destruct (white a); cbn [fst andb].
    + rewrite signal_inert, Hstep by done. cbn [StreamSocket.top_token].
      destruct (white b); cbn [fst].
      * rewrite !signal_inert. apply canon_intro; try done. simpl. rewrite !visible_app.
        change (visible [StanzaReceived nullElement]) with ([] : list SocketEvent). by rewrite !app_nil_r.
      * apply equiv_throw. apply canon_intro; try done. simpl. rewrite visible_app.
        change (visible [StanzaReceived nullElement]) with ([] : list SocketEvent). by rewrite app_nil_r.
    + unfold token_step. by rewrite throw_stops.
Qed.

Lemma fold_merge_tokens ts s : sock_equiv (foldl token_step s (merge_tokens ts)) (foldl token_step s ts).
Proof.
  revert s. induction ts as [|t ts IH]; intros s; [done|].
  simpl foldl at 2. rewrite <-IH. unfold merge_tokens at 1, merge. cbn [foldr].
  fold (merge glue_token ts). fold (merge_tokens ts).
  destruct (merge_tokens ts) as [|m l]; [done|]. destruct t as [e| | |tag| |x| | | | |]; try done.
  destruct m as [e| | |tag| |y| | | | |]; try done.
  cbn [cons_glue glue_token foldl]. by rewrite characters_join.
Qed.

(** Only the tokens after merging matter. *)
Lemma fold_same_tokens ts ts' s : merge_tokens ts = merge_tokens ts' ->
  sock_equiv (foldl token_step s ts) (foldl token_step s ts').
Proof. intros E. by rewrite <-fold_merge_tokens, E, fold_merge_tokens. Qed.

(** *** Chunks *)

(** The tokens of the chunks, fed one after the other. *)
Fixpoint tokens_of (l : Lexer) (chunks : list string) : list Token :=
  match chunks with
  | [] => []
  | c :: chunks => (feed l c).2 ++ tokens_of (feed l c).1 chunks
  end.
Definition receive (chunks : list string) (s : XmppSocket) : XmppSocket :=
  foldl (fun s c => processData c s) s chunks.

Lemma receive_stopped chunks s : acceptInput s = false -> receive chunks s = s.
Proof.
  intros Ha. unfold receive. induction chunks as [|c chunks IH]; [done|]. cbn [foldl].
  unfold StreamSocket.processData at 2. by rewrite Ha.
Qed.

Lemma receive_spec chunks s : acceptInput s = true -> queue s = [] -> Forall (fun c => c <> "") chunks ->
  core (receive chunks s) = foldl token_step (core s) (tokens_of (lexer s) chunks) /\
  (acceptInput (receive chunks s) = true -> queue (receive chunks s) = []).
Proof.
  intros Ha Hq Hc. revert s Ha Hq. induction Hc as [|c chunks Hc _ IH]; intros s Ha Hq; [done|].
  unfold receive. cbn [foldl tokens_of]. fold (receive chunks (processData c s)).
  destruct (processData_spec c s Ha Hq Hc) as (Hcore & Hl & Hq').
  rewrite foldl_app, <-Hcore, <-Hl. destruct (acceptInput (processData c s)) eqn:Ha'; [by apply IH; auto|].
  rewrite receive_stopped, fold_stopped by done. split; [done|congruence].
Qed.

Lemma tokens_of_concat `{!IncrementalLexer} l chunks :
  merge_tokens (tokens_of l chunks) = merge_tokens (feed l (String.concat "" chunks)).2 \/ chunks = [].
Proof.
  revert l. induction chunks as [|c chunks IH]; intros l; [by right|left].
  rewrite concat_cons. cbn [tokens_of]. pose proof (feed_app l c (String.concat "" chunks)) as Hf.
  destruct (IH (feed l c).1) as [Hi| ->].
  - destruct (feed l c) as [l1 t1], (feed l1 (String.concat "" chunks)) as [l2 t2] eqn:E2,
      (feed l (c +:+ String.concat "" chunks)) as [l3 t3]. destruct Hf as [_ Hf]. cbn [fst snd] in *.
    unfold merge_tokens in *. rewrite Hf. apply merge_app_r. by rewrite Hi, E2.
  - simpl String.concat. by rewrite text_app_nil, app_nil_r.
Qed.

End Machine.

(** C15: As long as the slots leave the socket alone (they neither close nor reset the stream,
    see socket_reads_after_disconnect for slots that do), how the network cuts the text into
    chunks makes no difference to what the socket reports and answers: the same stream header,
    stanzas, end and errors in the same order, up to the white space between stanzas and to the
    cutting of a text into text nodes, and the same readiness for more. No chunk is empty. *)
Theorem socket_chunks `{XmlLexer} `{!IncrementalLexer} slots chunks s :
  inert slots ->
  acceptInput s = true -> queue s = [] -> chunks <> [] -> Forall (fun c => c <> "") chunks ->
  let cut := receive slots chunks s in
  let whole := processData slots (String.concat "" chunks) s in
  visible (events cut) = visible (events whole) /\
  m_streamReceived cut = m_streamReceived whole /\ acceptInput cut = acceptInput whole /\
  connected cut = connected whole /\
  map canon_open <$> m_domReader cut = map canon_open <$> m_domReader whole.
Proof.
  intros Hi Ha Hq Hne Hc cut whole.
  assert (String.concat "" chunks <> "") as Hw.
  { destruct Hc as [|c chunks Hc _]; [done|]. rewrite concat_cons. by destruct c. }
  destruct (receive_spec slots Hi chunks s Ha Hq Hc) as [Hcut _].
  destruct (processData_spec slots Hi _ s Ha Hq Hw) as [Hwhole _].
  assert (sock_equiv (core cut) (core whole)) as He.
  { unfold cut, whole. rewrite Hcut, Hwhole. apply (fold_same_tokens slots Hi).
    by destruct (tokens_of_concat (lexer s) chunks). }
  apply canon_inv in He as (_ & _ & ? & ? & _ & ? & ? & ?). done.
Qed.

(** *** Errors end the input *)

Section Errors.
Context `{XmlLexer}.
Variable slots : list SocketEvent -> SocketEvent -> Reaction.





End Errors.

(** ** Examples *)

(** A lexer of one-letter tokens: the stream header, a start tag, an end tag, text. *)
Definition toy_token (c : ascii) : Token :=
  if decide (c = "^"%char) then
    StartElement {| prefix := Some "stream"; name := "stream"; namespaceUri := ns_stream;
                    namespaceDeclarations := []; tag_attributes := [] |}
  else if decide (c = "<"%char) then
    StartElement {| prefix := Some ""; name := "message"; namespaceUri := "jabber:client";
                    namespaceDeclarations := []; tag_attributes := [] |}
  else if decide (c = ">"%char) then EndElement
  else Characters_ (String c "").
Fixpoint toy_tokens (s : string) : list Token :=
  match s with "" => [] | String c s' => toy_token c :: toy_tokens s' end.
Definition toy_lexer : XmlLexer := {| Lexer := unit; newLexer := tt; feed _ s := (tt, toy_tokens s) |}.
#[local] Existing Instance toy_lexer.
Lemma toy_tokens_app a b : toy_tokens (a +:+ b) = toy_tokens a ++ toy_tokens b.
Proof. induction a as [|c a IH]; [done|]. rewrite append_cons. simpl. by rewrite IH. Qed.
Definition toy_incremental : IncrementalLexer.
Proof. split. intros [] a b. simpl. by rewrite toy_tokens_app. Defined.
#[local] Existing Instance toy_incremental.

Definition new_socket : XmppSocket :=
  {| lexer := tt : Lexer; queue := []; m_domReader := None; m_streamReceived := false;
     m_directTls := false; acceptInput := true; connected := true; events := [] |}.
Definition quiet : list SocketEvent -> SocketEvent -> Reaction := fun _ _ => Nothing.

Lemma socket_chunks_witness :
  visible (events (receive quiet ["^<a"; "b><"; ">"] new_socket)) =
  visible (events (processData quiet "^<ab><>" new_socket)).
Proof.
  refine (proj1 (socket_chunks quiet ["^<a"; "b><"; ">"] new_socket
    (fun _ _ => eq_refl) eq_refl eq_refl _ _)); [discriminate|repeat constructor; discriminate].
Defined.
(** *** A stream closed by a slot *)

(** Slots that close the stream at the first stanza. *)
Definition closing : list SocketEvent -> SocketEvent -> Reaction :=
  fun _ e => match e with StanzaReceived el => if isNull el then Nothing else Disconnect | _ => Nothing end.
Definition stanzas (l : list SocketEvent) : nat :=
  length (omap (fun e => match e with StanzaReceived el => Some el | _ => None end) l).

(** When a stanza ends in a later chunk than it began in and its handler closes the stream,
    the stanza after it in that chunk is still reported; in one chunk it is not. *)
Theorem socket_reads_after_disconnect :
  stanzas (events (processData closing "^<><>" new_socket)) = 1%nat /\
  stanzas (events (receive closing ["^<"; "><>"] new_socket)) = 2%nat.
Proof. split; vm_compute; reflexivity. Qed.

(** *** A character cut in two *)

Definition bytes (l : list N) : string := foldr (fun n s => String (ascii_of_N n) s) "" l.

(** The bytes of a chunk are decoded on their own, so a character whose UTF-8 bytes arrive in
    two chunks is lost: each part is decoded as the replacement character. *)
Theorem socket_breaks_characters (fromUtf8 : string -> string) :
  let e_acute := bytes [195; 169]%N in
  let replacement := bytes [239; 191; 189]%N in
  fromUtf8 e_acute = e_acute ->
  fromUtf8 (bytes [195]%N) = replacement -> fromUtf8 (bytes [169]%N) = replacement ->
  let start := processData quiet "^<" new_socket in
  let whole := processData quiet ">" (readyRead quiet fromUtf8 e_acute start) in
  let cut := processData quiet ">" (readyRead quiet fromUtf8 (bytes [169]%N)
               (readyRead quiet fromUtf8 (bytes [195]%N) start)) in
  exists w c, last (events whole) = Some (StanzaReceived w) /\ domText w = e_acute /\
    last (events cut) = Some (StanzaReceived c) /\ domText c = replacement +:+ replacement.
Proof.
  intros e_acute replacement H1 H2 H3 start whole cut.
  unfold whole, cut, readyRead. rewrite H1, H2, H3. clear fromUtf8 H1 H2 H3 whole cut.
  eexists _, _. split; [reflexivity|]. split; [reflexivity|]. split; reflexivity.
Qed.

Definition sample_decode (s : string) : string :=
  if decide (s = bytes [195; 169]%N) then s else bytes [239; 191; 189]%N.
Lemma socket_breaks_characters_witness : exists w,
  last (events (processData quiet ">" (readyRead quiet sample_decode (bytes [195; 169]%N)
    (processData quiet "^<" new_socket)))) = Some (StanzaReceived w).
Proof.
  destruct (socket_breaks_characters sample_decode) as (w & c & Hw & _); [reflexivity..|].
  exists w. exact Hw.
Defined.
