(* ===== verification/Stanza.v ===== *)
(** * Stanzas and IQs (QXmppStanza.cpp, QXmppIq.cpp, QXmppElement.cpp)

    Stanza errors, extended addresses, the elements QXmpp does not know, and
    the parser and writer an IQ shares with its subclasses, which read and
    write its content. The subclasses are instances of [IqContent]; its law is
    what makes an IQ of theirs read back as it was written. A stanza is read in
    the name space of the stream, jabber:client. The parent links of
    QXmppElement are not modelled. *)
From S2P Require Import Prelude Utils Dom Base64 XmlCodec StreamManagement SaslXml.

Definition ns_jabber_client : string := "jabber:client".
Definition ns_http_upload : string := "urn:xmpp:http:upload:0".
Definition ns_extended_addressing : string := "http://jabber.org/protocol/address".

(** ** Numbers and dates *)

(** QString::number of a signed number. *)
Definition signed_number (n : Z) : string := if n <? 0 then "-" +:+ number (- n) else number n.
Definition toInt (s : string) : Z := (Numbers.qt_to toInteger Numbers.int32_t s).1.
Definition toLongLong (s : string) : Z := (Numbers.qt_to toInteger Numbers.int64_t s).1.

(** OptionalAttribute of a date. *)
Definition OptionalDate `{QtTypes} (name : string) (d : QDateTime) : list Item :=
  if datetimeIsValid d then Attribute name (datetimeSerialize d) else [].
(** What is read back for a date: its text, or none. *)
Definition date_text `{QtTypes} (d : QDateTime) : string :=
  if datetimeIsValid d then datetimeSerialize d else "".
Definition date_ok `{QtTypes} (d : QDateTime) : Prop := datetimeFromString (date_text d) = d.

(** ** Stanza errors *)

Module StanzaError.
Inductive Type_ := NoType | Cancel | Continue | Modify | Auth | Wait.
#[global] Instance Type_eq_dec : EqDecision Type_.
Proof. solve_decision. Defined.
#[global] Instance Type_data : EnumData Type_ := {
  enum_value t := match t with
    | NoType => -1 | Cancel => 0 | Continue => 1 | Modify => 2 | Auth => 3 | Wait => 4 end;
  Values := [(NoType, ""); (Cancel, "cancel"); (Continue, "continue"); (Modify, "modify");
             (Auth, "auth"); (Wait, "wait")] }.

Record Error `{QtTypes} := {
  code : Z; type : Type_; condition : Condition; text : string; by_ : string;
  redirectionUri : string; fileTooLarge : bool; maxFileSize : Z; retryDate : QDateTime }.
#[global] Arguments Error {_}.

Section Error.
Context `{QtTypes}.
#[global] Instance Error_eta : Eta Error := fun e =>
  {| code := code e; type := type e; condition := condition e; text := text e; by_ := by_ e;
     redirectionUri := redirectionUri e; fileTooLarge := fileTooLarge e;
     maxFileSize := maxFileSize e; retryDate := retryDate e |}.

(** The constructors leave maxFileSize unset: [memory] is what it holds. *)
Definition newError (memory : Z) : Error :=
  {| code := 0; type := NoType; condition := NoCondition; text := ""; by_ := "";
     redirectionUri := ""; fileTooLarge := false; maxFileSize := memory; retryDate := nullDateTime |}.
Definition error_of (memory : Z) (t : Type_) (c : Condition) (txt : string) : Error :=
  (newError memory) <| type := t |> <| condition := c |> <| text := txt |>.
Definition error_of_strings (memory : Z) (t c txt : string) : Error :=
  (newError memory) <| text := txt |> <| type := default NoType (fromString t) |>
    <| condition := default NoCondition (fromString c) |>.
Definition setMaxFileSize (n : Z) (e : Error) : Error := e <| fileTooLarge := true |> <| maxFileSize := n |>.

Definition parse_child (e : Error) (el : Dom) : Error :=
  if decide (namespaceURI el = ns_stanza) then
    if decide (tagName el = "text") then e <| text := domText el |>
    else
      let e := e <| condition := default NoCondition (fromString (tagName el)) |> in
      if decide (condition e = Gone \/ condition e = Redirect) then e <| redirectionUri := domText el |> else e
  else if decide (namespaceURI el = ns_http_upload) then
    if decide (tagName el = "file-too-large") then
      e <| fileTooLarge := true |>
        <| maxFileSize := toLongLong (domText (firstChildElement el "max-file-size" "")) |>
    else if decide (tagName el = "retry") then
      e <| retryDate := datetimeFromString (attribute el "stamp") |>
    else e
  else e.
Definition parse (el : Dom) (e : Error) : Error :=
  foldl parse_child
    (e <| code := toInt (attribute el "code") |>
       <| type := default NoType (fromString (attribute el "type")) |>
       <| by_ := attribute el "by" |>)
    (iterChildElements el "" "").

(** Nothing is written without a type and a condition. *)
Definition toXml (e : Error) : list Item :=
  if decide (condition e = NoCondition /\ type e = NoType) then []
  else [ElementN "error" [
    OptionalAttribute "by" (by_ e);
    OptionalAttribute "type" (toString (type e));
    OptionalNumber "code" (if 0 <? code e then Some (code e) else None);
    OptionalContent (negb (bool_decide (condition e = NoCondition))) [
      [Element (toString (condition e), ns_stanza) [
        OptionalContent (negb (bool_decide (redirectionUri e = ""))
                         && bool_decide (condition e = Gone \/ condition e = Redirect))
          [Characters (redirectionUri e)]]]];
    OptionalContent (negb (bool_decide (text e = ""))) [
      [Element ("text", ns_stanza) [Attribute "xml:lang" "en"; Characters (text e)]]];
    OptionalContent (fileTooLarge e) [
      [Element ("file-too-large", ns_http_upload) [
        TextElementN "max-file-size" (signed_number (maxFileSize e))]]];
    OptionalContent (datetimeIsValid (retryDate e)) [
      [Element ("retry", ns_http_upload) [Attribute "stamp" (datetimeSerialize (retryDate e))]]]]].
End Error.
End StanzaError.

(** ** Extended addresses *)

Record ExtendedAddress := { delivered : bool; description : string; ea_jid : string; ea_type : string }.
Definition address_isValid (a : ExtendedAddress) : bool :=
  negb (bool_decide (ea_type a = "")) && negb (bool_decide (ea_jid a = "")).
#[export] Instance ExtendedAddress_xml : XmlElement ExtendedAddress := {
  XmlTag := ("address", ns_extended_addressing);
  fromDom el := Some {| delivered := bool_decide (attribute el "delivered" = "true");
                        description := attribute el "desc"; ea_jid := attribute el "jid";
                        ea_type := attribute el "type" |};
  toXml a := ElementN "address" [
    OptionalBoolAttribute "delivered" (delivered a) false; OptionalAttribute "desc" (description a);
    Attribute "jid" (ea_jid a); Attribute "type" (ea_type a)];
}.

(** ** Unknown elements *)

(** The attributes of a QXmppElement are a QMap, in the order of their names;
    the name space is one of them, "xmlns". *)
Inductive QXmppElement := QElement (name : string) (attrs : gmap string string) (children : list QXmppElement) (value : string).
Definition xname (e : QXmppElement) : string := let 'QElement n _ _ _ := e in n.
Definition xattrs (e : QXmppElement) : gmap string string := let 'QElement _ a _ _ := e in a.
Definition xchildren (e : QXmppElement) : list QXmppElement := let 'QElement _ _ c _ := e in c.
Definition xvalue (e : QXmppElement) : string := let 'QElement _ _ _ v := e in v.

Fixpoint element_of_dom (parentns : string) (el : Dom) : QXmppElement :=
  match el with
  | Elem t ns attrs children =>
      QElement t
        (foldl (fun m x => <[x.1 := x.2]> m)
           (if decide (ns <> "" /\ ns <> parentns) then {["xmlns" := ns]} else ∅) attrs)
        (omap (fun c => match c with Elem _ _ _ _ => Some (element_of_dom ns c) | Text _ => None end) children)
        (String.concat "" (omap (fun c => match c with Text s => Some s | _ => None end) children))
  | Text s => QElement "" ∅ [] ""
  end.

(** toXml, which writes nothing for a null element. *)
Fixpoint element_toXml (e : QXmppElement) : list Item :=
  match e with
  | QElement n attrs children v =>
      if decide (n = "") then []
      else [WElem n (attrs !! "xmlns")
              (map (fun x => WAttr x.1 x.2) (map_to_list (delete "xmlns" attrs))
               ++ OptionalCharacters v ++ concat (map element_toXml children))]
  end.

(** ** Stanzas *)

Record Stanza `{QtTypes} := {
  to_ : string; from_ : string; id_ : string; lang : string;
  error_ : option StanzaError.Error; extendedAddresses : list ExtendedAddress }.
Arguments Stanza {_}.

Section Stanzas.
Context `{QtTypes}.
#[export] Instance Stanza_eta : Eta Stanza := fun s =>
  {| to_ := to_ s; from_ := from_ s; id_ := id_ s; lang := lang s; error_ := error_ s;
     extendedAddresses := extendedAddresses s |}.

(** QXmppStanza::parse, [memory] being the unset member of its error. *)
Definition stanza_parse (memory : Z) (el : Dom) : Stanza :=
  let error := firstChildElement el "error" (namespaceURI el) in
  {| from_ := attribute el "from"; to_ := attribute el "to"; id_ := attribute el "id";
     lang := attribute el "lang";
     error_ := if isNull error then None
               else Some (StanzaError.parse error (StanzaError.newError memory));
     extendedAddresses := filter (fun a => address_isValid a = true)
       (parseChildElements ExtendedAddress (firstChildElement el "addresses" ns_extended_addressing)) |}.

(** ** IQs *)

Inductive IqType := IqError | IqGet | IqSet | IqResult.
#[export] Instance IqType_eq_dec : EqDecision IqType.
Proof. solve_decision. Defined.
#[export] Instance IqType_data : EnumData IqType := {
  enum_value t := match t with IqError => 0 | IqGet => 1 | IqSet => 2 | IqResult => 3 end;
  Values := [(IqError, "error"); (IqGet, "get"); (IqSet, "set"); (IqResult, "result")] }.

(** parseElementFromChild and toXmlElementFromChild of a subclass. *)
Class IqContent (T : Type) := {
  parseElementFromChild : Dom -> T;
  toXmlElementFromChild : T -> list Item;
}.

Record Iq (T : Type) := { iq_stanza : Stanza; iq_type : IqType; iq_content : T }.
Arguments iq_stanza {T}. Arguments iq_type {T}. Arguments iq_content {T}. Arguments Build_Iq {T}.

Definition iq_parse {T} `{IqContent T} (memory : Z) (el : Dom) : Iq T :=
  {| iq_stanza := stanza_parse memory el;
     iq_type := default IqGet (fromString (attribute el "type"));
     iq_content := parseElementFromChild el |}.
Definition iq_toXml {T} `{IqContent T} (iq : Iq T) : Item :=
  ElementN "iq" [
    Attribute "id" (id_ (iq_stanza iq)); OptionalAttribute "to" (to_ (iq_stanza iq));
    OptionalAttribute "from" (from_ (iq_stanza iq)); Attribute "type" (toString (iq_type iq));
    toXmlElementFromChild (iq_content iq);
    match error_ (iq_stanza iq) with Some e => StanzaError.toXml e | None => [] end].

(** The content of a plain QXmppIq: all its children. *)
#[export] Instance Extensions_content : IqContent (list QXmppElement) := {
  parseElementFromChild el := map (element_of_dom (namespaceURI el)) (iterChildElements el "" "");
  toXmlElementFromChild es := concat (map element_toXml es);
}.

(** A stanza as it is read from the stream. *)
Definition onStream (i : Item) : Dom := nth 0 (toDom ns_jabber_client i) nullElement.
End Stanzas.
Arguments Iq {_} T. Arguments iq_stanza {_ T}. Arguments iq_type {_ T}. Arguments iq_content {_ T}. Arguments Build_Iq {_ T}.

(** ** Properties *)

(** *** Numbers *)

Lemma toInteger_signed n : toInteger (signed_number n) = Some n.
Proof.
  unfold signed_number. destruct (Z.ltb_spec n 0); [|by apply toInteger_number].
  destruct (number_digits (- n)) as [Hne Hd].
  assert (trimmed ("-" +:+ number (- n)) = "-" +:+ number (- n)) as Ht.
  { unfold trimmed. cbn [String.append skip_spaces is_space]. simpl. rewrite trim_end_digits by done.
    by destruct (number (- n)). }
  unfold toInteger. rewrite Ht.
  pose proof (toInteger_number (- n) ltac:(lia)) as Hn. rewrite toInteger_digits in Hn by done.
  destruct (number (- n)) as [|c s]; [done|].
  change (Z.opp <$> read_digits (String c s) 0 = Some n). rewrite Hn. simpl. f_equal. lia.
Qed.
Lemma toInt_number n : 0 <= n < 2 ^ 31 -> toInt (number n) = n.
Proof.
  intros Hn. unfold toInt, Numbers.qt_to. rewrite toInteger_number by lia.
  cbn [Numbers.type_min Numbers.type_max].
  by rewrite (proj2 (Z.leb_le (- 2 ^ 31) n)), (proj2 (Z.leb_le n (2 ^ 31 - 1))) by lia.
Qed.
Lemma toLongLong_signed n : - 2 ^ 63 <= n < 2 ^ 63 -> toLongLong (signed_number n) = n.
Proof.
  intros Hn. unfold toLongLong, Numbers.qt_to. rewrite toInteger_signed by lia.
  cbn [Numbers.type_min Numbers.type_max].
  by rewrite (proj2 (Z.leb_le (- 2 ^ 63) n)), (proj2 (Z.leb_le n (2 ^ 63 - 1))) by lia.
Qed.
Lemma toLongLong_number n : 0 <= n < 2 ^ 63 -> toLongLong (number n) = n.
Proof.
  intros Hn. rewrite <-(toLongLong_signed n) at 2 by lia. unfold signed_number.
  by rewrite (proj2 (Z.ltb_ge n 0)) by lia.
Qed.

(** *** Errors *)

Lemma condition_back c : fromString (toString (E := Condition) c) = Some c.
Proof. by destruct c. Qed.
Lemma condition_not_text c : toString (E := Condition) c <> "text".
Proof. by destruct c. Qed.
Lemma type_back t : fromString (toString (E := StanzaError.Type_) t) = Some t.
Proof. by destruct t. Qed.
Lemma iq_type_back t : fromString (toString (E := IqType) t) = Some t.
Proof. by destruct t. Qed.

Lemma elements_app a b : filter (fun n => child_matches "" "" n = true) (a ++ b) =
  filter (fun n => child_matches "" "" n = true) a ++ filter (fun n => child_matches "" "" n = true) b.
Proof. apply filter_app. Qed.
Lemma seg_OptionalContent ns (b : bool) vs :
  seg ns (OptionalContent b vs) = if b then seg ns (concat vs) else [].
Proof. by destruct b. Qed.
Lemma atts_OptionalElement (b : bool) x vs : atts (OptionalContent b [[Element x vs]]) = [].
Proof. by destruct b. Qed.

Section ErrorTheory.
Context `{QtTypes}.
Import StanzaError.

(** The errors that are written and read back: [memory] is the unset size. *)
Definition error_ok (memory : Z) (e : Error) : Prop :=
  ~ (condition e = NoCondition /\ type e = NoType) /\
  0 <= code e < 2 ^ 31 /\
  (redirectionUri e = "" \/ condition e = Gone \/ condition e = Redirect) /\
  (if fileTooLarge e then - 2 ^ 63 <= maxFileSize e < 2 ^ 63 else maxFileSize e = memory) /\
  (if datetimeIsValid (retryDate e) then datetimeFromString (datetimeSerialize (retryDate e)) = retryDate e
   else retryDate e = nullDateTime).

(** The children of a written error. *)
Definition error_children (e : Error) : list Dom :=
  (if decide (condition e = NoCondition) then [] else
     [Elem (toString (condition e)) ns_stanza []
       (if decide (redirectionUri e <> "" /\ (condition e = Gone \/ condition e = Redirect))
        then [Text (redirectionUri e)] else [])]) ++
  (if decide (text e = "") then [] else [Elem "text" ns_stanza [("xml:lang", "en")] [Text (text e)]]) ++
  (if fileTooLarge e then [Elem "file-too-large" ns_http_upload []
     [Elem "max-file-size" ns_http_upload [] [Text (signed_number (maxFileSize e))]]] else []) ++
  (if datetimeIsValid (retryDate e)
   then [Elem "retry" ns_http_upload [("stamp", datetimeSerialize (retryDate e))] []] else []).
Definition error_attrs (e : Error) : list (string * string) :=
  atts (OptionalAttribute "by" (by_ e)) ++ atts (OptionalAttribute "type" (toString (type e))) ++
  atts (OptionalNumber "code" (if 0 <? code e then Some (code e) else None)).

Lemma signed_nonempty n : signed_number n <> "".
Proof. unfold signed_number. destruct (n <? 0); [done|]. apply number_digits. Qed.

Lemma error_dom e ns : ~ (condition e = NoCondition /\ type e = NoType) ->
  seg ns (toXml e) = [Elem "error" ns (error_attrs e) (error_children e)].
Proof.
  intros Hne. unfold toXml. rewrite decide_False by done. rewrite seg_ElementN. f_equal. f_equal.
  - cbn [concat]. rewrite !atts_app, !atts_OptionalElement, !app_nil_r. done.
  - cbn [concat]. rewrite !seg_app, !seg_OptionalAttribute, seg_OptionalNumber, !seg_OptionalContent.
    cbn [concat]. rewrite !app_nil_r. cbn [app]. unfold error_children. rewrite !seg_Element.
    cbn [concat]. rewrite !app_nil_r, seg_OptionalContent.
    f_equal; [|f_equal; [|f_equal]].
    + destruct (decide (condition e = NoCondition)) as [Hc|Hc]; [by rewrite bool_decide_eq_true_2|].
      rewrite (bool_decide_eq_false_2 (_ = NoCondition)) by done. cbn [negb]. f_equal.
      destruct (decide (redirectionUri e = "")) as [->|Hr].
      { rewrite (bool_decide_eq_true_2 ("" = "")), decide_False by naive_solver. done. }
      rewrite (bool_decide_eq_false_2 (_ = "")) by done.
      destruct (decide (condition e = Gone \/ condition e = Redirect)) as [Hg|Hg].
      * rewrite bool_decide_eq_true_2, decide_True by done. done.
      * rewrite bool_decide_eq_false_2, decide_False by naive_solver. done.
    + destruct (decide (text e = "")); [by rewrite bool_decide_eq_true_2|by rewrite bool_decide_eq_false_2].
    + destruct (fileTooLarge e); [|done]. unfold TextElementN. rewrite seg_ElementN. cbn [concat].
      rewrite app_nil_r, seg_OptionalCharacters, decide_False by apply signed_nonempty.
      by rewrite atts_OptionalCharacters.
Qed.

Lemma error_elements e : filter (fun n => child_matches "" "" n = true) (error_children e) = error_children e.
Proof.
  unfold error_children. rewrite !filter_app.
  repeat match goal with |- context [filter _ (if ?b then _ else _)] => destruct b end; done.
Qed.

Lemma read_condition x c uri : condition x = NoCondition -> redirectionUri x = "" ->
  (uri = "" \/ c = Gone \/ c = Redirect) ->
  foldl parse_child x
    (if decide (c = NoCondition) then [] else
     [Elem (toString c) ns_stanza []
       (if decide (uri <> "" /\ (c = Gone \/ c = Redirect)) then [Text uri] else [])])
  = x <| condition := c |> <| redirectionUri := uri |>.
Proof.
  intros Hc Hu Hok. destruct (decide (c = NoCondition)) as [->|Hne].
  { destruct Hok as [->|[?|?]]; [|done..]. destruct x. simpl in *. by subst. }
  cbn [foldl]. unfold parse_child. cbn [namespaceURI tagName]. rewrite decide_True by done.
  rewrite decide_False by apply condition_not_text. rewrite condition_back. cbn [default].
  cbn [condition]. destruct (decide (c = Gone \/ c = Redirect)) as [Hg|Hg].
  - rewrite decide_True by done. destruct (decide (uri = "")) as [->|Hne'].
    + rewrite decide_False by naive_solver. done.
    + rewrite decide_True by done. done.
  - destruct Hok as [->|]; [|done]. rewrite decide_False by done. destruct x. simpl in *. by subst.
Qed.
Lemma read_text x t : text x = "" ->
  foldl parse_child x (if decide (t = "") then [] else [Elem "text" ns_stanza [("xml:lang", "en")] [Text t]])
  = x <| text := t |>.
Proof. intros Ht. case_decide as He; [destruct x; simpl in *; by subst|done]. Qed.
Lemma read_size x (b : bool) n : fileTooLarge x = false -> - 2 ^ 63 <= n < 2 ^ 63 ->
  foldl parse_child x (if b then [Elem "file-too-large" ns_http_upload []
     [Elem "max-file-size" ns_http_upload [] [Text (signed_number n)]]] else [])
  = x <| fileTooLarge := b |> <| maxFileSize := if b then n else maxFileSize x |>.
Proof.
  intros Hf Hn. destruct b; [|destruct x; simpl in *; by subst]. cbn [foldl].
  unfold parse_child. rewrite decide_False by discriminate. rewrite decide_True by done.
  rewrite decide_True by done. rewrite firstChildElement_find. cbn -[toLongLong signed_number].
  change (domText _) with (signed_number n). by rewrite toLongLong_signed.
Qed.
Lemma read_retry x d : retryDate x = nullDateTime ->
  (if datetimeIsValid d then datetimeFromString (datetimeSerialize d) = d else d = nullDateTime) ->
  foldl parse_child x
    (if datetimeIsValid d then [Elem "retry" ns_http_upload [("stamp", datetimeSerialize d)] []] else [])
  = x <| retryDate := d |>.
Proof.
  intros Hx Hd. destruct (datetimeIsValid d); [|destruct x; simpl in *; by subst].
  cbn [foldl]. unfold parse_child. rewrite decide_False by discriminate. rewrite decide_True by done.
  rewrite decide_False by discriminate. rewrite decide_True by done. rewrite attribute_eq. cbn [find_attr].
  rewrite decide_True by done. simpl. by rewrite Hd.
Qed.

(** A written error is read back. *)
Lemma error_roundtrip memory e ns : error_ok memory e ->
  parse (Elem "error" ns (error_attrs e) (error_children e)) (newError memory) = e.
Proof.
  intros (Hne & Hcode & Hredir & Hsize & Hretry). unfold parse. rewrite iterChildElements_eq, error_elements.
  rewrite !attribute_eq. unfold error_attrs. rewrite !find_attr_app. codec_norm.
  set (e0 := (newError memory) <| code := code e |> <| type := type e |> <| by_ := by_ e |>).
  match goal with |- foldl _ ?x _ = _ => assert (x = e0) as -> end.
  { unfold e0. simpl. f_equal.
    - destruct (Z.ltb_spec 0 (code e)); simpl; [by apply toInt_number|]. unfold toInt. simpl. lia.
    - rewrite type_back. done. }
  unfold error_children. rewrite !foldl_app.
  rewrite read_condition; [|reflexivity|reflexivity|exact Hredir].
  rewrite read_text; [|reflexivity].
  assert (forall x, fileTooLarge x = false -> maxFileSize x = memory ->
    foldl parse_child x (if fileTooLarge e then [Elem "file-too-large" ns_http_upload []
       [Elem "max-file-size" ns_http_upload [] [Text (signed_number (maxFileSize e))]]] else [])
    = x <| fileTooLarge := fileTooLarge e |> <| maxFileSize := maxFileSize e |>) as Hfile.
  { intros x Hx Hm. destruct (fileTooLarge e); [by rewrite (read_size _ true)|].
    destruct x. simpl in *. by subst. }
  rewrite Hfile; [|reflexivity..]. rewrite read_retry; [|reflexivity|exact Hretry]. by destruct e.
Qed.
End ErrorTheory.

(** *** IQs *)

Section IqTheory.
Context `{QtTypes}.

Definition error_nodes (l : list Dom) : Prop :=
  l = [] \/ exists a c, l = [Elem "error" ns_jabber_client a c].

(** The law of the content of a subclass: it is read back from the children of the IQ,
    whether an error follows it or not, and is not taken for an error itself. *)
Class IqCodec (T : Type) `{IqContent T} := {
  content_ok : T -> Prop;
  content_atts t : atts (toXmlElementFromChild t) = [];
  content_error t : content_ok t ->
    find_child "error" ns_jabber_client (seg ns_jabber_client (toXmlElementFromChild t)) = None;
  content_addresses t : content_ok t ->
    find_child "addresses" ns_extended_addressing (seg ns_jabber_client (toXmlElementFromChild t)) = None;
  content_law t a err : content_ok t -> error_nodes err ->
    parseElementFromChild
      (Elem "iq" ns_jabber_client a (seg ns_jabber_client (toXmlElementFromChild t) ++ err)) = t;
}.

Definition iq_ok {T} `{IqCodec T} (memory : Z) (iq : Iq T) : Prop :=
  content_ok (iq_content iq) /\ lang (iq_stanza iq) = "" /\ extendedAddresses (iq_stanza iq) = [] /\
  match error_ (iq_stanza iq) with Some e => error_ok memory e | None => True end.

(** The error of a stanza is at most one child. *)
Definition error_item (s : Stanza) : list Item := match error_ s with Some e => StanzaError.toXml e | None => [] end.
Lemma error_item_atts s : atts (error_item s) = [].
Proof. unfold error_item. destruct (error_ s) as [e|]; [|done]. unfold StanzaError.toXml. by case_decide. Qed.
Lemma error_item_seg s : error_nodes (seg ns_jabber_client (error_item s)).
Proof.
  unfold error_item. destruct (error_ s) as [e|]; [|by left]. unfold StanzaError.toXml. case_decide; [by left|].
  right. rewrite seg_ElementN. by eexists _, _.
Qed.
Lemma iq_written {T} `{IqContent T} (iq : Iq T) : atts (toXmlElementFromChild (iq_content iq)) = [] ->
  onStream (iq_toXml iq) = Elem "iq" ns_jabber_client
    (atts (Attribute "id" (id_ (iq_stanza iq))) ++ atts (OptionalAttribute "to" (to_ (iq_stanza iq))) ++
     atts (OptionalAttribute "from" (from_ (iq_stanza iq))) ++ atts (Attribute "type" (toString (iq_type iq))))
    (seg ns_jabber_client (toXmlElementFromChild (iq_content iq)) ++
     seg ns_jabber_client (error_item (iq_stanza iq))).
Proof.
  intros Ha. unfold onStream, iq_toXml. rewrite toDom_ElementN. cbn [nth concat].
  fold (error_item (iq_stanza iq)). f_equal.
  - rewrite !atts_app, Ha, (error_item_atts (iq_stanza iq)). by rewrite !app_nil_l.
  - rewrite !seg_app, !seg_Attribute, !seg_OptionalAttribute. by rewrite app_nil_r.
Qed.
Lemma iq_dom {T} `{IqCodec T} (iq : Iq T) : exists err,
  error_nodes err /\ seg ns_jabber_client
    match error_ (iq_stanza iq) with Some e => StanzaError.toXml e | None => [] end = err /\
  onStream (iq_toXml iq) = Elem "iq" ns_jabber_client
    (atts (Attribute "id" (id_ (iq_stanza iq))) ++ atts (OptionalAttribute "to" (to_ (iq_stanza iq))) ++
     atts (OptionalAttribute "from" (from_ (iq_stanza iq))) ++ atts (Attribute "type" (toString (iq_type iq))))
    (seg ns_jabber_client (toXmlElementFromChild (iq_content iq)) ++ err).
Proof.
  eexists. split; [apply error_item_seg|]. split; [reflexivity|]. apply iq_written, content_atts.
Qed.

(** Every IQ is read back as it was written, its content by the law of its class. *)
Lemma iq_roundtrip {T} `{IqCodec T} memory (iq : Iq T) : iq_ok memory iq ->
  iq_parse memory (onStream (iq_toXml iq)) = iq.
Proof.
  intros (Hok & Hlang & Haddr & Herr). destruct (iq_dom iq) as (err & Hnodes & Herr' & ->).
  destruct iq as [[to from id lg er ad] ty ct].
  cbn [iq_stanza iq_type iq_content to_ from_ id_ lang error_ extendedAddresses] in *. subst lg ad.
  unfold iq_parse, stanza_parse. rewrite !attribute_eq, !firstChildElement_find. cbn [namespaceURI].
  rewrite !find_child_app, content_error, content_addresses by done. codec_norm. cbn [default].
  unfold Datatypes.id. rewrite iq_type_back. cbn [default]. unfold Datatypes.id.
  rewrite content_law by done. f_equal. f_equal.
  - destruct er as [e|]; [|by rewrite <-Herr'].
    rewrite error_dom in Herr' by apply Herr. rewrite <-Herr'. rewrite find_own by discriminate.
    cbn [default]. rewrite isNull_Elem by discriminate. by rewrite error_roundtrip.
  - destruct Hnodes as [->|(a & c & ->)]; [done|]. by rewrite find_skip by discriminate.
Qed.
End IqTheory.

(** *** Unknown elements *)

Lemma QXmppElement_nested (P : QXmppElement -> Prop) :
  (forall n a c v, Forall P c -> P (QElement n a c v)) -> forall e, P e.
Proof.
  intros Hstep. fix IH 1. intros [n a c v]. apply Hstep. induction c as [|e c IHc]; constructor; auto.
Qed.

(** The elements parsing produces: named, with a name space only where it changes. *)
Fixpoint normal (parentns : string) (e : QXmppElement) : Prop :=
  match e with
  | QElement n attrs children v =>
      n <> "" /\
      match attrs !! "xmlns" with
      | Some ns => ns <> "" /\ ns <> parentns /\ foldr (fun c P => normal ns c /\ P) True children
      | None => foldr (fun c P => normal parentns c /\ P) True children
      end
  end.

Definition own_ns (parentns : string) (e : QXmppElement) : string := default parentns (xattrs e !! "xmlns").

Lemma fold_insert {A} (m : gmap string A) (l : list (string * A)) :
  NoDup l.*1 -> (forall x, x ∈ l -> m !! x.1 = None) ->
  foldl (fun m x => <[x.1 := x.2]> m) m l = list_to_map l ∪ m.
Proof.
  revert m. induction l as [|[k v] l IH]; intros m Hnd Hm; simpl; [by rewrite (left_id_L ∅ (∪))|].
  apply NoDup_cons in Hnd as [Hk Hnd]. rewrite IH; [|done|].
  - rewrite <-insert_union_r; [|by apply not_elem_of_list_to_map_1].
    by rewrite insert_union_l.
  - intros [k' v'] Hin. simpl. rewrite lookup_insert_ne; [|intros ->; apply Hk; by apply (list_elem_of_fmap_2 fst l (k', v'))].
    apply (Hm (k', v')). by right.
Qed.

Lemma atts_pairs l : atts (map (fun x => WAttr x.1 x.2) l) = l.
Proof. induction l as [|[k v] l IH]; [done|]. simpl. f_equal. exact IH. Qed.
Lemma seg_pairs ns l : seg ns (map (fun x => WAttr x.1 x.2) l) = [].
Proof. induction l as [|[k v] l IH]; [done|]. exact IH. Qed.
Lemma seg_concat ns (ls : list (list Item)) : seg ns (concat ls) = concat (map (seg ns) ls).
Proof. induction ls as [|l ls IH]; [done|]. simpl. by rewrite seg_app, IH. Qed.
Lemma atts_element e : atts (element_toXml e) = [].
Proof. destruct e. simpl. by case_decide. Qed.
Lemma atts_elements es : atts (concat (map element_toXml es)) = [].
Proof. induction es as [|e es IH]; [done|]. simpl. by rewrite atts_app, atts_element, IH. Qed.

(** What the attributes of a parsed element are read from. *)
Lemma attributes_back (attrs : gmap string string) parentns :
  match attrs !! "xmlns" with Some ns => ns <> "" /\ ns <> parentns | None => True end ->
  foldl (fun m x => <[x.1 := x.2]> m)
    (if decide (default parentns (attrs !! "xmlns") <> "" /\ default parentns (attrs !! "xmlns") <> parentns)
     then {["xmlns" := default parentns (attrs !! "xmlns")]} else ∅)
    (map_to_list (delete "xmlns" attrs)) = attrs.
Proof.
  intros Hns. rewrite fold_insert.
  - rewrite list_to_map_to_list. destruct (attrs !! "xmlns") as [ns|] eqn:Hx; simpl.
    + rewrite decide_True by done. rewrite <-insert_empty, <-insert_union_r by apply lookup_delete_eq.
      by rewrite (right_id_L ∅ (∪)), insert_delete_id.
    + rewrite decide_False by tauto. rewrite (right_id_L ∅ (∪)). by apply delete_id.
  - apply NoDup_fst_map_to_list.
  - intros [k v] Hin. apply elem_of_map_to_list in Hin. simpl in *.
    destruct (decide (k = "xmlns")) as [->|Hk]; [by rewrite lookup_delete_eq in Hin|].
    case_decide; [by rewrite lookup_singleton_ne|by apply lookup_empty].
Qed.

(** What an unknown element is written as. *)
Fixpoint element_dom (p : string) (e : QXmppElement) : Dom :=
  match e with
  | QElement n attrs children v =>
      let ns := default p (attrs !! "xmlns") in
      Elem n ns (map_to_list (delete "xmlns" attrs))
        ((if decide (v = "") then [] else [Text v]) ++ map (element_dom ns) children)
  end.

Lemma normal_name p e : normal p e -> xname e <> "".
Proof. destruct e. simpl. tauto. Qed.
Lemma normal_children p n attrs children v : normal p (QElement n attrs children v) ->
  Forall (normal (default p (attrs !! "xmlns"))) children.
Proof.
  simpl. intros [_ Hc]. set (ns := default p (attrs !! "xmlns")).
  assert (foldr (fun c P => normal ns c /\ P) True children) as Hf.
  { unfold ns. destruct (attrs !! "xmlns"); simpl in *; tauto. }
  clear Hc. induction children as [|c cs IH]; [done|]. destruct Hf. constructor; auto.
Qed.

Lemma element_written e : forall p, normal p e -> seg p (element_toXml e) = [element_dom p e].
Proof.
  induction e as [n attrs children v IH] using QXmppElement_nested. intros p Hn.
  pose proof (normal_name _ _ Hn) as Hne. pose proof (normal_children _ _ _ _ _ Hn) as Hch. simpl in Hne.
  cbn [element_toXml element_dom]. rewrite decide_False by done.
  set (ns := default p (attrs !! "xmlns")) in *. unfold seg at 1. cbn [map concat app toDom].
  fold ns. change (omap item_attr ?l) with (atts l). f_equal. f_equal.
  - rewrite !atts_app, atts_pairs, atts_OptionalCharacters, atts_elements. by rewrite !app_nil_r.
  - change (concat (map (toDom ns) ?l)) with (seg ns l).
    rewrite !seg_app, seg_pairs, seg_OptionalCharacters, seg_concat. cbn [app]. f_equal.
    clear Hn. induction children as [|c cs IHc]; [done|]. apply Forall_cons in IH as [IH1 IH2].
    apply Forall_cons in Hch as [Hc1 Hc2]. simpl. rewrite IH1 by done. by rewrite IHc.
Qed.

Lemma element_read e : forall p, normal p e -> element_of_dom p (element_dom p e) = e.
Proof.
  induction e as [n attrs children v IH] using QXmppElement_nested. intros p Hn.
  pose proof (normal_children _ _ _ _ _ Hn) as Hch. cbn [element_dom element_of_dom].
  set (ns := default p (attrs !! "xmlns")) in *. f_equal.
  - apply attributes_back. destruct Hn as [_ Hn]. destruct (attrs !! "xmlns"); [tauto|done].
  - clear Hn. rewrite omap_app.
    assert (forall A (f : Dom -> option A), (forall s, f (Text s) = None) ->
      omap f (if decide (v = "") then [] else [Text v]) = []) as Hv.
    { intros A f Hf. case_decide; [done|]. simpl. by rewrite Hf. }
    rewrite Hv by done. cbn [app]. clear Hv. induction children as [|c cs IHc]; [done|].
    apply Forall_cons in IH as [IH1 IH2]. apply Forall_cons in Hch as [Hc1 Hc2].
    cbn [map omap list_omap]. destruct (element_dom ns c) as [t n' a ch|] eqn:Hd; [|by destruct c].
    rewrite <-Hd, IH1 by done. f_equal. by apply IHc.
  - clear. rewrite omap_app.
    assert (omap (fun c => match c with Text s => Some s | _ => None end) (map (element_dom ns) children) = []) as ->.
    { induction children as [|[] cs IHc]; [done|]. simpl. exact IHc. }
    rewrite app_nil_r. case_decide as Hv; [by subst|done].
Qed.

(** An element QXmpp does not know is written back as it was received: its name space and
    attributes, its children in their order and its text. *)
Theorem element_roundtrip p e : normal p e ->
  exists d, seg p (element_toXml e) = [d] /\ element_of_dom p d = e.
Proof. intros Hn. exists (element_dom p e). by rewrite element_written, element_read. Qed.

Lemma element_roundtrip_witness :
  let e := QElement "active" {["xmlns" := "urn:example"]} [QElement "p" {["k" := "v"]} [] "text"] "" in
  exists d, seg ns_jabber_client (element_toXml e) = [d] /\ element_of_dom ns_jabber_client d = e.
Proof. intros e. apply element_roundtrip. vm_compute. repeat split; congruence. Defined.

Lemma fold_insert_other (l : list (string * string)) k (m : gmap string string) : m !! k = None -> k ∉ l.*1 ->
  foldl (fun m x => <[x.1 := x.2]> m) m l !! k = None.
Proof.
  revert m. induction l as [|[k' v] l IH]; intros m Hm Hk; simpl in *; [done|].
  apply not_elem_of_cons in Hk as [Hk Hl]. apply IH; [by rewrite lookup_insert_ne|done].
Qed.
Lemma error_attrs_keys `{QtTypes} e : "xmlns" ∉ (error_attrs e).*1.
Proof.
  unfold error_attrs, OptionalAttribute. intros Hin.
  repeat case_decide; destruct (0 <? StanzaError.code e); simpl in Hin; set_solver.
Qed.

(** A plain IQ keeps all its children as extensions, its error among them: when an error that
    was received is sent on, it is written twice. *)
Theorem plain_iq_error_twice `{QtTypes} memory (s : Stanza) (e : StanzaError.Error) :
  error_ s = Some e -> error_ok memory e ->
  let received := iq_parse (T := list QXmppElement) memory
    (onStream (iq_toXml (Build_Iq s IqError ([] : list QXmppElement)))) in
  length (iq_content received) = 1%nat /\
  length (iterChildElements (onStream (iq_toXml received)) "error" ns_jabber_client) = 2%nat.
Proof.
  intros He Hok. pose proof (proj1 Hok) as Hne.
  assert (onStream (iq_toXml (Build_Iq s IqError ([] : list QXmppElement))) =
    Elem "iq" ns_jabber_client
      (atts (Attribute "id" (id_ s)) ++ atts (OptionalAttribute "to" (to_ s)) ++
       atts (OptionalAttribute "from" (from_ s)) ++ [("type", "error")])
      [Elem "error" ns_jabber_client (error_attrs e) (error_children e)]) as Hd.
  { unfold onStream, iq_toXml. rewrite toDom_ElementN. cbn [nth concat iq_stanza iq_content iq_type]. f_equal.
    - rewrite !atts_app, He. cbn [toXmlElementFromChild Extensions_content map concat].
      unfold StanzaError.toXml. rewrite decide_False by done. by rewrite atts_nil, !app_nil_l.
    - rewrite !seg_app, He, error_dom by done. rewrite !seg_OptionalAttribute. done. }
  cbv zeta. rewrite Hd. set (el := Elem "error" _ _ _). set (a := _ ++ _).
  assert (iq_parse (T := list QXmppElement) memory (Elem "iq" ns_jabber_client a [el]) =
    Build_Iq (stanza_parse memory (Elem "iq" ns_jabber_client a [el]))
      (default IqGet (fromString (attribute (Elem "iq" ns_jabber_client a [el]) "type")))
      [element_of_dom ns_jabber_client el]) as -> by done.
  split; [done|].
  assert (error_ (stanza_parse memory (Elem "iq" ns_jabber_client a [el])) = Some e) as He'.
  { unfold stanza_parse. cbn [error_]. rewrite firstChildElement_find. cbn [namespaceURI].
    unfold el. rewrite find_own by discriminate. cbn [default]. unfold Datatypes.id.
    rewrite isNull_Elem by discriminate. by rewrite error_roundtrip. }
  unfold iq_toXml. cbn [iq_stanza iq_content]. rewrite He'. unfold onStream. rewrite toDom_ElementN.
  cbn [nth]. rewrite iterChildElements_eq. cbn [concat].
  rewrite !seg_app, !seg_Attribute, !seg_OptionalAttribute, error_dom by done.
  unfold toXmlElementFromChild, Extensions_content. cbn [map concat]. rewrite app_nil_r.
  unfold el at 1. cbn [element_of_dom element_toXml]. rewrite (decide_False (P := "error" = "")) by done.
  rewrite fold_insert_other; [|by rewrite decide_False by tauto|apply error_attrs_keys].
  unfold seg at 1. cbn [map concat app toDom default]. rewrite !filter_cons_True by done. done.
Qed.
Lemma plain_iq_error_twice_witness :
  let e : @StanzaError.Error text_types := StanzaError.error_of 0 StanzaError.Cancel ItemNotFound "gone" in
  let s : @Stanza text_types := {| to_ := "a@x"; from_ := "b@x"; id_ := "1"; lang := ""; error_ := Some e; extendedAddresses := [] |} in
  let received := iq_parse (H := text_types) (T := list QXmppElement) 0
    (onStream (iq_toXml (Build_Iq s IqError ([] : list QXmppElement)))) in
  length (iq_content received) = 1%nat /\
  length (iterChildElements (onStream (iq_toXml received)) "error" ns_jabber_client) = 2%nat.
Proof.
  intros e s. apply (plain_iq_error_twice (H := text_types) 0 s e); [reflexivity|].
  split; [by intros [? ?]|]. split; [cbn; lia|]. split; [by left|]. by split.
Defined.
