(* ===== verification/DataForm.v ===== *)
(** * Data forms (QXmppDataForm.cpp)

    Forms with their fields, media and options, their parser and writer. A
    QVariant is a Boolean, a string or a
    list of strings, with QVariant's conversions; URLs and MIME types are Qt's. *)
From S2P Require Import Prelude Utils Dom Base64 XmlCodec StreamManagement SaslXml Stanza.

Definition ns_data : string := "jabber:x:data".
Definition ns_media_element : string := "urn:xmpp:media-element".

(** ** Data *)

Inductive FieldType :=
  | BooleanField | FixedField | HiddenField | JidMultiField | JidSingleField | ListMultiField
  | ListSingleField | TextMultiField | TextPrivateField | TextSingleField.
#[export] Instance FieldType_eq_dec : EqDecision FieldType.
Proof. solve_decision. Defined.
#[export] Instance FieldType_data : EnumData FieldType := {
  enum_value t := match t with
    | BooleanField => 0 | FixedField => 1 | HiddenField => 2 | JidMultiField => 3
    | JidSingleField => 4 | ListMultiField => 5 | ListSingleField => 6 | TextMultiField => 7
    | TextPrivateField => 8 | TextSingleField => 9 end;
  Values := [(BooleanField, "boolean"); (FixedField, "fixed"); (HiddenField, "hidden");
    (JidMultiField, "jid-multi"); (JidSingleField, "jid-single"); (ListMultiField, "list-multi");
    (ListSingleField, "list-single"); (TextMultiField, "text-multi");
    (TextPrivateField, "text-private"); (TextSingleField, "text-single")] }.

Inductive FormType := FormNone | Form | Submit | FormCancel | FormResult.
#[export] Instance FormType_eq_dec : EqDecision FormType.
Proof. solve_decision. Defined.
#[export] Instance FormType_data : EnumData FormType := {
  enum_value t := match t with
    | FormNone => 0 | Form => 1 | Submit => 2 | FormCancel => 3 | FormResult => 4 end;
  Values := [(FormNone, ""); (Form, "form"); (Submit, "submit"); (FormCancel, "cancel");
             (FormResult, "result")] }.

Inductive QVariant := VBool (b : bool) | VString (s : string) | VStringList (l : list string) | VNull.

(** QVariant's conversions: a list with one string converts to it. *)
Definition lower (c : ascii) : ascii :=
  let n := N_of_ascii c in
  if ((65 <=? n)%N && (n <=? 90)%N)%bool then ascii_of_N (n + 32) else c.
Fixpoint toLower (s : string) : string :=
  match s with "" => "" | String c s' => String (lower c) (toLower s') end.
Definition string_toBool (s : string) : bool :=
  let l := toLower s in
  negb (bool_decide (l = "") || bool_decide (l = "0") || bool_decide (l = "false")).
Definition toBool (v : QVariant) : bool :=
  match v with VBool b => b | VString s => string_toBool s | _ => false end.
Definition variant_toString (v : QVariant) : string :=
  match v with
  | VBool b => if b then "true" else "false"
  | VString s => s
  | VStringList [s] => s
  | _ => ""
  end.
Definition toStringList (v : QVariant) : list string :=
  match v with VStringList l => l | VString s => [s] | _ => [] end.

Record MediaSource `{QtTypes} := { ms_uri : QUrl; contentType : QMimeType }.
#[global] Arguments MediaSource {_}.
Record ListOption := { op_label : string; op_value : string }.
Record Field `{QtTypes} := {
  fd_type : FieldType; key : string; label : string; value : QVariant; fd_description : string;
  required : bool; options : list ListOption; mediaSources : list MediaSource; mediaSize : Z * Z }.
#[global] Arguments Field {_}.
Record DataForm `{QtTypes} := {
  df_type : FormType; title : string; instructions : string; fields : list Field }.
#[global] Arguments DataForm {_}.

Section Forms.
Context `{QtTypes}.
#[export] Instance Field_eta : Eta Field := fun f =>
  {| fd_type := fd_type f; key := key f; label := label f; value := value f;
     fd_description := fd_description f; required := required f; options := options f;
     mediaSources := mediaSources f; mediaSize := mediaSize f |}.
#[export] Instance DataForm_eta : Eta DataForm := fun f =>
  {| df_type := df_type f; title := title f; instructions := instructions f; fields := fields f |}.

(** A QSize that was never set. *)
Definition noSize : Z * Z := (-1, -1).
Definition newField (t : FieldType) (k : string) (v : QVariant) (req : bool) : Field :=
  {| fd_type := t; key := k; label := ""; value := v; fd_description := ""; required := req;
     options := []; mediaSources := []; mediaSize := noSize |}.
Definition newForm (t : FormType) (fs : list Field) : DataForm :=
  {| df_type := t; title := ""; instructions := ""; fields := fs |}.

(** ** Parser and writer *)

Definition isMulti (t : FieldType) : bool :=
  match t with ListMultiField | JidMultiField | TextMultiField => true | _ => false end.
Definition hasOptions (t : FieldType) : bool :=
  match t with ListMultiField | ListSingleField => true | _ => false end.

Definition parse_value (t : FieldType) (el : Dom) : QVariant :=
  match t with
  | BooleanField =>
      let valueStr := domText (firstChildElement el "value" "") in
      VBool (bool_decide (valueStr = "1") || bool_decide (valueStr = "true"))
  | ListMultiField | JidMultiField | TextMultiField => VStringList (parseTextElements el "value" ns_data)
  | _ => VString (domText (firstChildElement el "value" ""))
  end.
Definition size_attribute (el : Dom) (name : string) : Z := toInt (default "-1" (find_attr name (attributes el))).
Definition parse_source (el : Dom) : MediaSource :=
  {| ms_uri := urlFromString (domText el); contentType := mimeTypeForName (attribute el "type") |}.
Definition parse_option (el : Dom) : ListOption :=
  {| op_label := attribute el "label"; op_value := domText (firstChildElement el "value" "") |}.

#[export] Instance Field_xml : XmlElement Field := {
  XmlTag := ("field", ns_data);
  fromDom el :=
    let t := default TextSingleField (fromString (attribute el "type")) in
    let media := firstChildElement el "media" ns_media_element in
    Some {| fd_type := t; label := attribute el "label"; key := attribute el "var";
            value := parse_value t el;
            mediaSize := if isNull media then noSize
                         else (size_attribute media "width", size_attribute media "height");
            mediaSources := if isNull media then []
                            else map parse_source (iterChildElements media "uri" ns_media_element);
            options := if hasOptions t then map parse_option (iterChildElements el "option" "") else [];
            fd_description := domText (firstChildElement el "description" "");
            required := negb (isNull (firstChildElement el "required" "")) |};
  toXml f := ElementN "field" [
    Attribute "type" (toString (fd_type f)); OptionalAttribute "label" (label f);
    OptionalAttribute "var" (key f);
    match fd_type f with
    | BooleanField => TextElementN "value" (if toBool (value f) then "true" else "false")
    | ListMultiField | JidMultiField | TextMultiField => TextElements "value" (toStringList (value f))
    | _ => OptionalTextElementN "value" (variant_toString (value f))
    end;
    OptionalContent (negb (bool_decide (length (mediaSources f) = 0%nat))) [
      [Element ("media", ns_media_element) [
        OptionalNumber "width" (if 0 <? (mediaSize f).1 then Some (mediaSize f).1 else None);
        OptionalNumber "height" (if 0 <? (mediaSize f).2 then Some (mediaSize f).2 else None);
        map (fun s => ElementN "uri" [OptionalAttribute "type" (mimeName (contentType s));
                                      Characters (urlToString (ms_uri s))]) (mediaSources f)]]];
    OptionalContent (hasOptions (fd_type f)) [
      map (fun o => ElementN "option" [OptionalAttribute "label" (op_label o);
                                       TextElementN "value" (op_value o)]) (options f)];
    OptionalTextElementN "description" (fd_description f);
    OptionalContent (required f) [[ElementN "required" []]]];
}.

(** parse reads into a form that may hold the fields of an earlier one. *)
Definition form_parse (el : Dom) (f : DataForm) : DataForm :=
  if isNull el then f
  else match fromString (attribute el "type") with
       | Some t =>
           {| df_type := t; title := domText (firstChildElement el "title" "");
              instructions := domText (firstChildElement el "instructions" "");
              fields := fields f ++ parseChildElements Field el |}
       | None => f
       end.
#[export] Instance DataForm_xml : XmlElement DataForm := {
  XmlTag := ("x", ns_data);
  fromDom el := Some (form_parse el (newForm FormNone []));
  toXml f := Element ("x", ns_data) [
    Attribute "type" (toString (df_type f)); OptionalTextElementN "title" (title f);
    OptionalTextElementN "instructions" (instructions f); Children (fields f)];
}.
Definition form_isNull (f : DataForm) : bool := bool_decide (df_type f = FormNone).
(** Nothing is written for a null form. *)
Definition form_toXml (f : DataForm) : list Item := if form_isNull f then [] else [toXml f].

(** ** Look-ups *)

Definition field (f : DataForm) (name : string) : option Field :=
  find (fun fd => bool_decide (key fd = name)) (fields f).
Definition fieldValue (f : DataForm) (name : string) : option QVariant := value <$> field f name.
Definition formType (f : DataForm) : string :=
  match find (fun fd => bool_decide (fd_type fd = HiddenField) && bool_decide (key fd = "FORM_TYPE"))
          (fields f) with
  | Some fd => variant_toString (value fd)
  | None => ""
  end.
End Forms.

(** ** Properties *)

(** Elements of other names are not found. *)
Definition other_tag (tag : string) (d : Dom) : Prop := tagName d <> tag.
Lemma other_mismatch tag xmlns d : tag <> "" -> other_tag tag d -> child_matches tag xmlns d = false.
Proof.
  intros Ht Ho. unfold child_matches. rewrite (bool_decide_eq_false_2 (tag = "")) by done.
  rewrite (bool_decide_eq_false_2 (tagName d = tag)) by done. by rewrite andb_false_r.
Qed.
Lemma find_other tag xmlns l : tag <> "" -> Forall (other_tag tag) l -> find_child tag xmlns l = None.
Proof. intros Ht Hl. apply find_child_none. eapply Forall_impl; [exact Hl|]. intros. by apply other_mismatch. Qed.
Lemma filter_other tag xmlns l : tag <> "" -> Forall (other_tag tag) l ->
  filter (fun n => child_matches tag xmlns n = true) l = [].
Proof. intros Ht Hl. apply filter_child_none. eapply Forall_impl; [exact Hl|]. intros. by apply other_mismatch. Qed.
Lemma filter_own tag ns xmlns {A} (f : A -> list (string * string)) (g : A -> list Dom) xs :
  tag <> "" -> xmlns = "" \/ xmlns = ns ->
  filter (fun n => child_matches tag xmlns n = true) (map (fun x => Elem tag ns (f x) (g x)) xs) =
  map (fun x => Elem tag ns (f x) (g x)) xs.
Proof.
  intros Ht Hx. induction xs as [|x xs IH]; [done|]. cbn [map]. rewrite filter_cons_True; [by rewrite IH|].
  unfold child_matches. simpl. rewrite (bool_decide_eq_false_2 (tag = "")), (bool_decide_eq_true_2 (tag = tag)) by done.
  destruct Hx as [->| ->]; [by rewrite bool_decide_eq_true_2|].
  rewrite (bool_decide_eq_true_2 (ns = ns)) by done. by rewrite orb_true_r.
Qed.

Section FormTheory.
Context `{QtTypes}.

Lemma field_type_back t : fromString (toString (E := FieldType) t) = Some t.
Proof. by destruct t. Qed.
Lemma form_type_back t : fromString (toString (E := FormType) t) = Some t.
Proof. by destruct t. Qed.

(** A value of the type of its field. *)
Definition value_ok (t : FieldType) (v : QVariant) : Prop :=
  match t with
  | BooleanField => exists b, v = VBool b
  | ListMultiField | JidMultiField | TextMultiField => exists l, v = VStringList l
  | _ => exists s, v = VString s
  end.
Definition size_ok (n : Z) : Prop := n = -1 \/ 0 < n < 2 ^ 31.
Definition source_ok (s : MediaSource) : Prop :=
  urlFromString (urlToString (ms_uri s)) = ms_uri s /\ mimeTypeForName (mimeName (contentType s)) = contentType s.
Definition field_ok (f : Field) : Prop :=
  value_ok (fd_type f) (value f) /\
  (if decide (mediaSources f = []) then mediaSize f = noSize
   else size_ok (mediaSize f).1 /\ size_ok (mediaSize f).2) /\
  Forall source_ok (mediaSources f) /\ (hasOptions (fd_type f) = false -> options f = []).

(** The children of a field. *)
Definition value_children (t : FieldType) (v : QVariant) : list Dom :=
  seg ns_data match t with
    | BooleanField => TextElementN "value" (if toBool v then "true" else "false")
    | ListMultiField | JidMultiField | TextMultiField => TextElements "value" (toStringList v)
    | _ => OptionalTextElementN "value" (variant_toString v)
    end.
Definition source_dom (s : MediaSource) : Dom :=
  Elem "uri" ns_media_element (atts (OptionalAttribute "type" (mimeName (contentType s))))
    [Text (urlToString (ms_uri s))].
Definition media_attrs (f : Field) : list (string * string) :=
  atts (OptionalNumber "width" (if 0 <? (mediaSize f).1 then Some (mediaSize f).1 else None)) ++
  atts (OptionalNumber "height" (if 0 <? (mediaSize f).2 then Some (mediaSize f).2 else None)).
Definition media_children (f : Field) : list Dom :=
  if decide (mediaSources f = []) then []
  else [Elem "media" ns_media_element (media_attrs f) (map source_dom (mediaSources f))].
Definition option_dom (o : ListOption) : Dom :=
  Elem "option" ns_data (atts (OptionalAttribute "label" (op_label o)))
    [Elem "value" ns_data [] (if decide (op_value o = "") then [] else [Text (op_value o)])].
Definition option_children (f : Field) : list Dom :=
  if hasOptions (fd_type f) then map option_dom (options f) else [].

Lemma value_tags tag t v : tag <> "value" -> Forall (other_tag tag) (value_children t v).
Proof.
  intros Ht. unfold value_children, TextElements.
  destruct t; rewrite ?seg_TextElementN, ?seg_OptionalTextElementN;
    try (case_decide; constructor; [by intros ?|done]); try (constructor; [by intros ?|done]);
    (induction (toStringList v) as [|x l IH]; [done|]; cbn [map concat]; rewrite seg_app, seg_TextElementN;
     constructor; [by intros ?|exact IH]).
Qed.
Lemma media_tags tag f : tag <> "media" -> Forall (other_tag tag) (media_children f).
Proof. intros Ht. unfold media_children. case_decide; constructor; [by intros ?|done]. Qed.
Lemma option_tags tag f : tag <> "option" -> Forall (other_tag tag) (option_children f).
Proof.
  intros Ht. unfold option_children. destruct (hasOptions _); [|done].
  induction (options f); constructor; [by intros ?|done].
Qed.
Definition field_attrs (f : Field) : list (string * string) :=
  atts (Attribute "type" (toString (fd_type f))) ++ atts (OptionalAttribute "label" (label f)) ++
  atts (OptionalAttribute "var" (key f)).
Definition description_children (f : Field) : list Dom := seg ns_data (OptionalTextElementN "description" (fd_description f)).
Definition required_children (f : Field) : list Dom := if required f then [Elem "required" ns_data [] []] else [].

Lemma atts_content (b : bool) vs : atts (concat vs) = [] -> atts (OptionalContent b vs) = [].
Proof. by destruct b. Qed.
Lemma atts_map_elements {A} tag (f : A -> list (list Item)) xs :
  atts (map (fun x => ElementN tag (f x)) xs) = [].
Proof. induction xs as [|x xs IH]; [done|]. exact IH. Qed.
Lemma seg_map_elements {A} ns tag (f : A -> list (list Item)) xs :
  seg ns (map (fun x => ElementN tag (f x)) xs) =
  map (fun x => Elem tag ns (atts (concat (f x))) (seg ns (concat (f x)))) xs.
Proof. induction xs as [|x xs IH]; [done|]. cbn [map]. by rewrite <-IH. Qed.

Lemma field_dom f : toDom ns_data (toXml f) =
  [Elem "field" ns_data (field_attrs f)
    (value_children (fd_type f) (value f) ++ media_children f ++ option_children f ++
     description_children f ++ required_children f)].
Proof.
  cbn [toXml Field_xml]. rewrite toDom_ElementN. cbn [concat]. f_equal. f_equal.
  - rewrite !atts_app, !atts_content, atts_OptionalTextElementN, !atts_nil, !app_nil_r.
    + unfold field_attrs. f_equal. f_equal. rewrite <-(app_nil_r (atts (OptionalAttribute "var" _))) at 2. f_equal.
      destruct (fd_type f); rewrite ?atts_TextElementN, ?atts_TextElements, ?atts_OptionalTextElementN; done.
    + done.
    + cbn [concat]. rewrite app_nil_r. apply atts_map_elements.
    + done.
  - rewrite !seg_app, seg_Attribute, !seg_OptionalAttribute, seg_nil, app_nil_r. cbn [app].
    apply (f_equal2 app); [done|]. apply (f_equal2 app); [|apply (f_equal2 app); [|apply (f_equal2 app); [done|]]].
    + unfold media_children. rewrite seg_OptionalContent. destruct (mediaSources f) as [|s ss] eqn:Hs; [done|].
      rewrite bool_decide_eq_false_2, decide_False by done. cbn [negb concat]. rewrite app_nil_r, seg_Element.
      cbn [concat]. rewrite app_nil_r. f_equal. f_equal.
      * unfold media_attrs. rewrite !atts_app, atts_map_elements. by rewrite app_nil_r.
      * rewrite !seg_app, !seg_OptionalNumber. cbn [app]. rewrite seg_map_elements.
        apply map_ext. intros x. unfold source_dom. cbn [concat]. f_equal.
        -- by rewrite !atts_app, atts_nil, app_nil_r.
        -- by rewrite !seg_app, seg_OptionalAttribute.
    + unfold option_children. rewrite seg_OptionalContent. destruct (hasOptions _); [|done].
      cbn [concat]. rewrite app_nil_r, seg_map_elements. apply map_ext.
      intros x. unfold option_dom. cbn [concat]. rewrite app_nil_r. f_equal.
      * by rewrite atts_app, atts_TextElementN, app_nil_r.
      * by rewrite seg_app, seg_OptionalAttribute, seg_TextElementN.
    + unfold required_children. rewrite seg_OptionalContent. by destruct (required f).
Qed.

Lemma size_back n : size_ok n ->
  toInt (default "-1" (number <$> (if 0 <? n then Some n else None))) = n.
Proof.
  intros [->|Hn]; [done|]. rewrite (proj2 (Z.ltb_lt 0 n)) by lia. simpl. by rewrite toInt_number by lia.
Qed.
Lemma source_back s : source_ok s -> parse_source (source_dom s) = s.
Proof.
  intros [Hu Hm]. unfold parse_source, source_dom. rewrite attribute_eq. codec_norm. simpl.
  rewrite Hu, Hm. by destruct s.
Qed.
Lemma option_back o : parse_option (option_dom o) = o.
Proof.
  unfold parse_option, option_dom. rewrite attribute_eq, firstChildElement_find, any_own by done. codec_norm.
  by destruct o.
Qed.
Lemma map_back {A} (f : A -> Dom) (g : Dom -> A) xs : Forall (fun x => g (f x) = x) xs -> map g (map f xs) = xs.
Proof. induction 1 as [|x xs Hx Hxs IH]; [done|]. cbn [map]. by rewrite Hx, IH. Qed.

Section Children.
Variable f : Field.
Let ch := value_children (fd_type f) (value f) ++ media_children f ++ option_children f ++
     description_children f ++ required_children f.
Let el := Elem "field" ns_data (field_attrs f) ch.

Lemma description_tags tag : tag <> "description" -> Forall (other_tag tag) (description_children f).
Proof.
  intros Ht. unfold description_children. rewrite seg_OptionalTextElementN.
  case_decide; constructor; [by intros ?|done].
Qed.
Lemma required_tags tag : tag <> "required" -> Forall (other_tag tag) (required_children f).
Proof. intros Ht. unfold required_children. destruct (required f); constructor; [by intros ?|done]. Qed.

Ltac others := repeat first
  [ rewrite find_child_app | rewrite filter_app
  | rewrite (find_other _ _ (value_children _ _)) by first [done | by apply value_tags]
  | rewrite (find_other _ _ (media_children _)) by first [done | by apply media_tags]
  | rewrite (find_other _ _ (option_children _)) by first [done | by apply option_tags]
  | rewrite (find_other _ _ (description_children _)) by first [done | by apply description_tags]
  | rewrite (find_other _ _ (required_children _)) by first [done | by apply required_tags]
  | rewrite (filter_other _ _ (value_children _ _)) by first [done | by apply value_tags]
  | rewrite (filter_other _ _ (media_children _)) by first [done | by apply media_tags]
  | rewrite (filter_other _ _ (option_children _)) by first [done | by apply option_tags]
  | rewrite (filter_other _ _ (description_children _)) by first [done | by apply description_tags]
  | rewrite (filter_other _ _ (required_children _)) by first [done | by apply required_tags] ].

Lemma field_media : firstChildElement el "media" ns_media_element =
  if decide (mediaSources f = []) then nullElement
  else Elem "media" ns_media_element (media_attrs f) (map source_dom (mediaSources f)).
Proof.
  unfold el, ch. rewrite firstChildElement_find. others. unfold media_children.
  case_decide; [done|]. by rewrite find_own.
Qed.
Lemma field_options : hasOptions (fd_type f) = true ->
  iterChildElements el "option" "" = map option_dom (options f).
Proof.
  intros Ho. unfold el, ch. rewrite iterChildElements_eq. others. unfold option_children. rewrite Ho, !app_nil_r.
  apply (filter_own "option" ns_data); [done|by left].
Qed.
Lemma field_desc : domText (firstChildElement el "description" "") = fd_description f.
Proof.
  unfold el, ch. rewrite firstChildElement_find. others. unfold description_children.
  rewrite any_opt_text by done. case_decide as Hd; [by rewrite Hd|done].
Qed.
Lemma field_req : isNull (firstChildElement el "required" "") = negb (required f).
Proof.
  unfold el, ch. rewrite firstChildElement_find. others. unfold required_children. by destruct (required f).
Qed.
Lemma field_value : value_ok (fd_type f) (value f) -> parse_value (fd_type f) el = value f.
Proof.
  intros Hv. unfold parse_value, el, ch, parseTextElements. rewrite !firstChildElement_find, !iterChildElements_eq.
  others. rewrite !found_or_none, !app_nil_r. unfold value_children.
  destruct (fd_type f) eqn:Ht; destruct Hv as [v Hv]; rewrite Hv;
    cbn [toBool variant_toString toStringList];
    rewrite ?any_text, ?any_opt_text, ?filter_texts_own, ?texts_of_TextElements by done;
    try done; try (case_decide as Hd; [by rewrite Hd|done]).
  all: by destruct v.
Qed.
End Children.

Lemma field_read f : field_ok f ->
  fromDom (Elem "field" ns_data (field_attrs f)
    (value_children (fd_type f) (value f) ++ media_children f ++ option_children f ++
     description_children f ++ required_children f)) = Some f.
Proof.
  intros (Hv & Hsize & Hsources & Hopts). set (ch := _ ++ _ ++ _ ++ _ ++ _).
  pose proof (field_media f) as Hm. pose proof (field_options f) as Ho. pose proof (field_desc f) as Hd.
  pose proof (field_req f) as Hr. pose proof (field_value f Hv) as Hva. fold ch in Hm, Ho, Hd, Hr, Hva.
  unfold fromDom, Field_xml. cbv zeta.
  assert (attribute (Elem "field" ns_data (field_attrs f) ch) "type" = toString (fd_type f) /\
          attribute (Elem "field" ns_data (field_attrs f) ch) "label" = label f /\
          attribute (Elem "field" ns_data (field_attrs f) ch) "var" = key f) as (Ht & Hl & Hk).
  { rewrite !attribute_eq. unfold field_attrs. codec_norm. done. }
  rewrite Ht, Hl, Hk, Hm, Hd, Hr, negb_involutive, field_type_back. cbn [default]. unfold Datatypes.id.
  rewrite Hva. f_equal.
  assert ((if hasOptions (fd_type f)
           then map parse_option (iterChildElements (Elem "field" ns_data (field_attrs f) ch) "option" "")
           else []) = options f) as ->.
  { destruct (hasOptions (fd_type f)); [|symmetry; by apply Hopts].
    rewrite Ho by done. apply map_back. apply Forall_true. apply option_back. }
  destruct (decide (mediaSources f = [])) as [Hs|Hs].
  - change (isNull nullElement) with true. destruct f. simpl in *. by subst.
  - destruct Hsize as [Hw Hh]. rewrite isNull_Elem by discriminate.
    unfold size_attribute. cbn [attributes]. unfold media_attrs. codec_norm.
    rewrite !size_back by done.
    pose proof (filter_own "uri" ns_media_element ns_media_element
      (fun s => atts (OptionalAttribute "type" (mimeName (contentType s))))
      (fun s => [Text (urlToString (ms_uri s))]) (mediaSources f) ltac:(done) ltac:(by right)) as Hu.
    change (map _ (mediaSources f)) with (map source_dom (mediaSources f)) in Hu. rewrite Hu.
    rewrite map_back; [by destruct f, mediaSize0|]. eapply Forall_impl; [exact Hsources|]. apply source_back.
Qed.
#[export] Instance Field_codec : XmlCodec Field.
Proof.
  exists field_ok (fun ns => ns = ns_data); [split; discriminate|reflexivity|].
  intros f ns ->. eexists _, _. split; [apply field_dom|]. apply field_read.
Defined.
#[export] Instance DataForm_codec : XmlCodec DataForm.
Proof.
  codec (fun f => all_ok (fields f)). codec_start. intros [t ti ins fs] Hf. simpl in Hf.
  codec_cbn. unfold form_parse. rewrite isNull_Elem by discriminate.
  rewrite attribute_eq. codec_norm. cbn [default]. unfold Datatypes.id. rewrite form_type_back.
  f_equal. f_equal; unfold parseChildElements; codec_norm; try reflexivity.
  by apply (filter_Children fs ns_data).
Defined.
End FormTheory.
