(* ===== verification/TransferIq.v ===== *)
(** * IQs of file transfers (QXmppIbbIq.cpp, QXmppByteStreamIq.cpp,
      QXmppStreamInitiationIq.cpp, QXmppTransferFileInfo)

    In-band bytestreams, the offers of SOCKS5 bytestreams and the initiation of
    streams, each an instance of [IqContent] with its law. A qint64 or long has
    64 bits. *)
From S2P Require Import Prelude Utils Dom Base64 XmlCodec StreamManagement SaslXml Stanza DataForm.

Definition ns_ibb : string := "http://jabber.org/protocol/ibb".
Definition ns_bytestreams : string := "http://jabber.org/protocol/bytestreams".
Definition ns_stream_initiation : string := "http://jabber.org/protocol/si".
Definition ns_stream_initiation_file_transfer : string :=
  "http://jabber.org/protocol/si/profile/file-transfer".
Definition ns_feature_negotiation : string := "http://jabber.org/protocol/feature-neg".

(** ** Hexadecimal text (QByteArray::toHex, fromHex) *)

Definition nibble (n : Z) : ascii := of_byte (if n <? 10 then 48 + n else 87 + n).
Fixpoint toHex_ (s : string) : string :=
  match s with
  | "" => ""
  | String c s' => String (nibble (byte_of c / 16)) (String (nibble (byte_of c mod 16)) (toHex_ s'))
  end.
Definition hex_value (c : ascii) : option Z :=
  let n := byte_of c in
  if (48 <=? n) && (n <=? 57) then Some (n - 48)
  else if (97 <=? n) && (n <=? 102) then Some (n - 87)
  else if (65 <=? n) && (n <=? 70) then Some (n - 55)
  else None.
Fixpoint hex_digits (s : string) : list Z :=
  match s with
  | "" => []
  | String c s' => match hex_value c with Some d => d :: hex_digits s' | None => hex_digits s' end
  end.
Fixpoint pair_digits (l : list Z) : string :=
  match l with
  | a :: b :: l' => String (of_byte (a * 16 + b)) (pair_digits l')
  | _ => ""
  end.
(** Other characters are skipped; with an odd number of digits the first stands alone. *)
Definition fromHex (s : string) : string :=
  let l := hex_digits s in
  if Z.odd (Z.of_nat (length l)) then pair_digits (0 :: l) else pair_digits l.

(** ** In-band bytestreams *)

Record IbbOpen := { io_sid : string; io_blockSize : Z }.
Record IbbClose := { ic_sid : string }.
Record IbbData := { id_sid : string; id_sequence : Z; id_payload : string }.

#[export] Instance IbbOpen_content : IqContent IbbOpen := {
  parseElementFromChild el :=
    let e := firstChildElement el "open" "" in
    {| io_sid := attribute e "sid"; io_blockSize := toLongLong (attribute e "block-size") |};
  toXmlElementFromChild o := [Element ("open", ns_ibb) [
    Attribute "sid" (io_sid o); Attribute "block-size" (signed_number (io_blockSize o))]];
}.
#[export] Instance IbbClose_content : IqContent IbbClose := {
  parseElementFromChild el := {| ic_sid := attribute (firstChildElement el "close" "") "sid" |};
  toXmlElementFromChild c := [Element ("close", ns_ibb) [Attribute "sid" (ic_sid c)]];
}.
#[export] Instance IbbData_content : IqContent IbbData := {
  parseElementFromChild el :=
    let e := firstChildElement el "data" "" in
    {| id_sid := attribute e "sid";
       id_sequence := default 0 (Numbers.parseInt toInteger Numbers.uint16_t (attribute e "seq"));
       id_payload := fromBase64 (domText e) |};
  toXmlElementFromChild d := [Element ("data", ns_ibb) [
    Attribute "sid" (id_sid d); Attribute "seq" (number (id_sequence d));
    Characters (toBase64 (id_payload d))]];
}.

(** ** SOCKS5 bytestreams *)

Inductive Mode := ModeNone | Tcp | Udp.
Record StreamHost := { sh_host : string; sh_jid : string; sh_port : Z; sh_zeroconf : string }.
Record ByteStream := {
  bs_mode : Mode; bs_sid : string; bs_activate : string; bs_streamHosts : list StreamHost;
  bs_streamHostUsed : string }.

#[export] Instance StreamHost_xml : XmlElement StreamHost := {
  XmlTag := ("streamhost", ns_bytestreams);
  fromDom el := Some {| sh_host := attribute el "host"; sh_jid := attribute el "jid";
    sh_port := default 0 (Numbers.parseInt toInteger Numbers.uint16_t (attribute el "port"));
    sh_zeroconf := attribute el "zeroconf" |};
  toXml h := Element ("streamhost", ns_bytestreams) [
    OptionalAttribute "host" (sh_host h); OptionalAttribute "jid" (sh_jid h);
    Attribute "port" (number (sh_port h)); OptionalAttribute "zeroconf" (sh_zeroconf h)];
}.
#[export] Instance ByteStream_content : IqContent ByteStream := {
  parseElementFromChild el :=
    let q := firstChildElement el "query" ns_bytestreams in
    let modeStr := attribute q "mode" in
    {| bs_sid := attribute q "sid";
       bs_mode := if decide (modeStr = "tcp") then Tcp else if decide (modeStr = "udp") then Udp else ModeNone;
       bs_streamHosts := parseChildElements StreamHost q;
       bs_activate := domText (firstChildElement q "activate" "");
       bs_streamHostUsed := attribute (firstChildElement q "streamhost-used" "") "jid" |};
  toXmlElementFromChild b := [Element ("query", ns_bytestreams) [
    OptionalAttribute "sid" (bs_sid b);
    OptionalAttribute "mode" (match bs_mode b with Tcp => "tcp" | Udp => "udp" | ModeNone => "" end);
    Children (bs_streamHosts b); OptionalTextElementN "activate" (bs_activate b);
    SingleAttributeElements "streamhost-used" "jid" [bs_streamHostUsed b]]];
}.

(** ** Files and stream initiation *)

Inductive Profile := ProfileNone | FileTransfer.
Record FileInfo `{QtTypes} := {
  fi_date : QDateTime; fi_hash : string; fi_name : string; fi_description : string; fi_size : Z }.
#[global] Arguments FileInfo {_}.
Record StreamInitiation `{QtTypes} := {
  si_form : DataForm; si_file : FileInfo; si_mimeType : string; si_profile : Profile; si_id : string }.
#[global] Arguments StreamInitiation {_}.

Section StreamInitiation.
Context `{QtTypes}.

Definition noFile : FileInfo :=
  {| fi_date := nullDateTime; fi_hash := ""; fi_name := ""; fi_description := ""; fi_size := 0 |}.
(** QDateTime::isNull is taken as having no valid date. *)
Definition file_isNull (f : FileInfo) : bool :=
  negb (datetimeIsValid (fi_date f)) && bool_decide (fi_description f = "") && bool_decide (fi_hash f = "")
  && bool_decide (fi_name f = "") && (fi_size f =? 0).

#[export] Instance FileInfo_xml : XmlElement FileInfo := {
  XmlTag := ("file", ns_stream_initiation_file_transfer);
  fromDom el := Some {| fi_date := datetimeFromString (attribute el "date");
    fi_hash := fromHex (attribute el "hash"); fi_name := attribute el "name";
    fi_size := toLongLong (attribute el "size");
    fi_description := domText (firstChildElement el "desc" "") |};
  toXml f := Element ("file", ns_stream_initiation_file_transfer) [
    OptionalDate "date" (fi_date f); OptionalAttribute "hash" (toHex_ (fi_hash f));
    OptionalAttribute "name" (fi_name f);
    OptionalNumber "size" (if 0 <? fi_size f then Some (fi_size f) else None);
    OptionalTextElementN "desc" (fi_description f)];
}.
#[export] Instance StreamInitiation_content : IqContent StreamInitiation := {
  parseElementFromChild el :=
    let si := firstChildElement el "si" "" in
    let feature := firstChildElement si "feature" ns_feature_negotiation in
    {| si_id := attribute si "id"; si_mimeType := attribute si "mime-type";
       si_profile := if decide (attribute si "profile" = ns_stream_initiation_file_transfer)
                     then FileTransfer else ProfileNone;
       si_form := default (newForm FormNone []) (parseOptionalChildElement DataForm feature);
       si_file := default noFile (parseOptionalChildElement FileInfo si) |};
  toXmlElementFromChild s := [Element ("si", ns_stream_initiation) [
    OptionalAttribute "id" (si_id s); OptionalAttribute "mime-type" (si_mimeType s);
    match si_profile s with
    | FileTransfer => Attribute "profile" ns_stream_initiation_file_transfer
    | ProfileNone => []
    end;
    OptionalChild (if file_isNull (si_file s) then None else Some (si_file s));
    OptionalContent (negb (form_isNull (si_form s))) [
      [Element ("feature", ns_feature_negotiation) [form_toXml (si_form s)]]]]];
}.
End StreamInitiation.

(** ** Properties *)

Lemma hex_value_nibble n : 0 <= n < 16 -> hex_value (nibble n) = Some n.
Proof.
  intros Hn. assert (Forall (fun d => hex_value (nibble d) = Some d) (seqZ 0 16)) as Hall.
  { apply Forall_fold_right. vm_compute. repeat split. }
  rewrite Forall_forall in Hall. apply Hall. by apply elem_of_seqZ.
Qed.
Lemma hex_digits_back s :
  pair_digits (hex_digits (toHex_ s)) = s /\ length (hex_digits (toHex_ s)) = (2 * String.length s)%nat.
Proof.
  induction s as [|c s [IH1 IH2]]; [done|]. pose proof (byte_of_range c). cbn [toHex_ hex_digits].
  rewrite !hex_value_nibble
    by (split; [apply Z.div_pos || apply Z.mod_pos_bound; lia|apply Z.div_lt_upper_bound || apply Z.mod_pos_bound; lia]).
  split.
  - cbn [pair_digits]. rewrite IH1. f_equal. apply of_byte_eq. pose proof (Z.div_mod (byte_of c) 16). lia.
  - cbn [length String.length]. rewrite IH2. lia.
Qed.
Lemma fromHex_toHex s : fromHex (toHex_ s) = s.
Proof.
  destruct (hex_digits_back s) as [Hp Hl]. unfold fromHex. rewrite Hl.
  replace (Z.of_nat (2 * String.length s)) with (2 * Z.of_nat (String.length s)) by lia.
  by rewrite Z.odd_mul.
Qed.
Lemma toHex_empty s : toHex_ s = "" -> s = "".
Proof. by destruct s. Qed.

Lemma parse_uint16 n : 0 <= n < 2 ^ 16 ->
  default 0 (Numbers.parseInt toInteger Numbers.uint16_t (number n)) = n.
Proof.
  intros Hn. unfold Numbers.parseInt, Numbers.stringToInt, Numbers.qt_to.
  rewrite toInteger_number by lia. cbn [Numbers.type_min Numbers.type_max].
  by rewrite (proj2 (Z.leb_le 0 n)), (proj2 (Z.leb_le n (2 ^ 16 - 1))) by lia.
Qed.

(** A content that is one element. *)
Lemma payload_lookup {T} `{IqContent T} (t : T) tag ns values :
  toXmlElementFromChild t = [Element (tag, ns) values] ->
  atts (toXmlElementFromChild t) = [] /\
  seg ns_jabber_client (toXmlElementFromChild t) =
    [Elem tag ns (atts (concat values)) (seg ns (concat values))].
Proof. intros ->. by rewrite seg_Element. Qed.
Lemma find_first tag xmlns t n a c l : tag <> "" -> t = tag -> xmlns = "" \/ xmlns = n ->
  find_child tag xmlns ([Elem t n a c] ++ l) = Some (Elem t n a c).
Proof.
  intros Ht -> Hx. cbn [app find_child]. unfold child_matches. simpl.
  rewrite (bool_decide_eq_false_2 (tag = "")), (bool_decide_eq_true_2 (tag = tag)) by done.
  destruct Hx as [->| ->]; [by rewrite bool_decide_eq_true_2|].
  rewrite (bool_decide_eq_true_2 (n = n)) by done. by rewrite orb_true_r.
Qed.

Lemma parse_single_last tag attr ns l v : tag <> "" -> ns <> "" -> Forall (other_tag tag) l ->
  attribute (firstChildElement (Elem "query" ns [] (l ++ seg ns (SingleAttributeElements tag attr [v]))) tag "") attr = v.
Proof.
  intros Ht Hn Hl. rewrite firstChildElement_find, find_child_app, find_other by done.
  unfold seg. simpl. rewrite child_matches_any by done. rewrite bool_decide_eq_true_2 by done. simpl.
  unfold attribute. simpl. by rewrite decide_True.
Qed.

(** Writes a content as its element and reads it back, whatever follows it. *)
Ltac payload :=
  intros; unfold onStream; cbn [toXmlElementFromChild]; rewrite ?seg_Element;
  try reflexivity; try (by rewrite find_skip by discriminate).

Section ContentLaws.
Context `{QtTypes}.

#[export] Instance IbbOpen_codec : IqCodec IbbOpen.
Proof.
  exists (fun o => - 2 ^ 63 <= io_blockSize o < 2 ^ 63); [payload..|].
  intros [s n] a err Hn _. simpl in Hn. cbn [parseElementFromChild toXmlElementFromChild IbbOpen_content].
  rewrite seg_Element, firstChildElement_find, find_first by auto. cbn [default concat]. unfold Datatypes.id.
  rewrite !attribute_eq. codec_norm. cbn [default io_sid io_blockSize]. unfold Datatypes.id.
  by rewrite toLongLong_signed.
Defined.
#[export] Instance IbbClose_codec : IqCodec IbbClose.
Proof.
  exists (fun _ => True); [payload..|].
  intros [s] a err _ _. cbn [parseElementFromChild toXmlElementFromChild IbbClose_content].
  rewrite seg_Element, firstChildElement_find, find_first by auto. cbn [default concat]. unfold Datatypes.id.
  rewrite !attribute_eq. by codec_norm.
Defined.
#[export] Instance IbbData_codec : IqCodec IbbData.
Proof.
  exists (fun d => 0 <= id_sequence d < 2 ^ 16); [payload..|].
  intros [s n p] a err Hn _. simpl in Hn. cbn [parseElementFromChild toXmlElementFromChild IbbData_content].
  rewrite seg_Element, firstChildElement_find, find_first by auto. cbn [default concat]. unfold Datatypes.id.
  rewrite !attribute_eq. codec_norm. cbn [default id_sid id_sequence id_payload]. unfold Datatypes.id.
  rewrite parse_uint16 by done. f_equal.
  change (fromBase64 (toBase64 p) = p). apply base64_roundtrip.
Defined.

#[export] Instance StreamHost_codec : XmlCodec StreamHost.
Proof.
  codec (fun h => 0 <= sh_port h < 2 ^ 16). codec_start. intros [h j p z] Hp. simpl in Hp.
  codec_cbn. rewrite !attribute_eq. codec_norm. cbn [default]. unfold Datatypes.id. by rewrite parse_uint16.
Defined.

#[export] Instance ByteStream_codec : IqCodec ByteStream.
Proof.
  exists (fun b => all_ok (bs_streamHosts b)); [payload..|].
  intros [m s ac hs u] a err Hok _. simpl in Hok.
  cbn [parseElementFromChild toXmlElementFromChild ByteStream_content].
  rewrite seg_Element, firstChildElement_find, find_first by auto. cbn [default concat]. unfold Datatypes.id.
  cbn [bs_mode bs_sid bs_activate bs_streamHosts bs_streamHostUsed].
  rewrite !attribute_eq. unfold parseChildElements. codec_norm.
  assert (seg ns_bytestreams (SingleAttributeElements "streamhost-used" "jid" [u]) =
    [Elem "streamhost-used" ns_bytestreams [("jid", u)] []]) as -> by done.
  rewrite filter_one_skip by (cbv; discriminate). rewrite app_nil_r, filter_Children by done.
  codec_norm. f_equal. by destruct m.
Defined.

#[export] Instance FileInfo_codec : XmlCodec FileInfo.
Proof.
  codec (fun f => date_ok (fi_date f) /\ 0 <= fi_size f < 2 ^ 63). codec_start.
  intros [d h n ds sz] [Hd Hs]. cbn [fi_date fi_size] in *.
  assert (forall n, n <> "date" -> find_attr n (atts (OptionalDate "date" d)) = None) as Hskip.
  { intros m Hm. unfold OptionalDate. destruct (datetimeIsValid d); [|done]. simpl. by rewrite decide_False. }
  assert (seg ns_stream_initiation_file_transfer (OptionalDate "date" d) = []) as Hseg
    by (unfold OptionalDate; by destruct (datetimeIsValid d)).
  codec_cbn. rewrite !attribute_eq. codec_norm. rewrite Hseg, (Hskip "hash"), (Hskip "name"), (Hskip "size") by discriminate. cbn iota. cbn [app].
  codec_norm. rewrite fromHex_toHex. f_equal. f_equal.
  - unfold date_ok, date_text in Hd. transitivity (datetimeFromString (if datetimeIsValid d then datetimeSerialize d else "")); [|exact Hd].
    f_equal. unfold OptionalDate. by destruct (datetimeIsValid d).
  - destruct (Z.ltb_spec 0 sz); simpl; [by apply toLongLong_number|]. unfold toLongLong. simpl. lia.
Defined.
(** An absent file or form is the default one. *)
Definition initiation_ok (s : StreamInitiation) : Prop :=
  (if file_isNull (si_file s) then si_file s = noFile else codec_ok (si_file s)) /\
  (if form_isNull (si_form s) then si_form s = newForm FormNone [] else codec_ok (si_form s)).

#[export] Instance StreamInitiation_codec : IqCodec StreamInitiation.
Proof.
  exists initiation_ok; [payload..|].
  intros [fo fi mt pr i] a err [Hfi Hfo] _. cbn [si_file si_form] in *.
  cbn [parseElementFromChild toXmlElementFromChild StreamInitiation_content].
  rewrite seg_Element, firstChildElement_find, find_first by auto. cbn [default concat]. unfold Datatypes.id.
  cbn [si_form si_file si_mimeType si_profile si_id]. rewrite !seg_app, !seg_nil, !app_nil_r.
  set (ofile := if file_isNull fi then None else Some fi).
  set (feature := if form_isNull fo then [] else
    [Elem "feature" ns_feature_negotiation [] (seg ns_feature_negotiation (OptionalChild (Some fo)))]).
  assert (seg ns_stream_initiation (OptionalContent (negb (form_isNull fo))
    [[Element ("feature", ns_feature_negotiation) [form_toXml fo]]]) = feature) as ->.
  { unfold feature, form_toXml. by destruct (form_isNull fo). }
  assert (seg ns_stream_initiation match pr with
    | ProfileNone => [] | FileTransfer => Attribute "profile" ns_stream_initiation_file_transfer end = []) as ->
    by by destruct pr.
  assert (forall x, opt_ok ofile -> match child_of x ofile with Some c => parseOptionalElement FileInfo c | None => None end = ofile) as Hpf.
  { intros x Hok. by apply parse_found. }
  assert (opt_ok ofile) as Hofile by (unfold ofile; destruct (file_isNull fi); done).
  assert (parseOptionalChildElement DataForm
    (default nullElement (find_child "feature" ns_feature_negotiation feature)) = if form_isNull fo then None else Some fo) as Hform.
  { unfold feature. destruct (form_isNull fo); [done|]. rewrite find_own by discriminate. cbn [default].
    unfold Datatypes.id. rewrite parseOptionalChild_find, (find_child_Optional (Some fo) ns_feature_negotiation) by done.
    by apply (parse_found (Some fo)). }
  assert (find_child (XmlTag FileInfo).1 (XmlTag FileInfo).2 feature = None) as Hnofile.
  { unfold feature. destruct (form_isNull fo); [done|]. by apply find_skip. }
  rewrite !atts_app, atts_OptionalElement, !app_nil_r, !attribute_eq.
  assert (atts match pr with
    | ProfileNone => [] | FileTransfer => Attribute "profile" ns_stream_initiation_file_transfer end =
    match pr with ProfileNone => [] | FileTransfer => [("profile", ns_stream_initiation_file_transfer)] end) as ->
    by by destruct pr.
  codec_norm. rewrite Hform, Hnofile, found_or_none, Hpf by done. f_equal.
  - by destruct (form_isNull fo).
  - unfold ofile. by destruct (file_isNull fi).
  - assert (find_attr "mime-type" match pr with
      | ProfileNone => [] | FileTransfer => [("profile", ns_stream_initiation_file_transfer)] end = None) as ->
      by by destruct pr.
    rewrite found_attr. apply default_opt_attr.
  - by destruct pr.
  - assert (find_attr "id" match pr with
      | ProfileNone => [] | FileTransfer => [("profile", ns_stream_initiation_file_transfer)] end = None) as ->
      by by destruct pr.
    rewrite found_attr. apply default_opt_attr.
Defined.
End ContentLaws.

(** Every IQ of a file transfer is read back as it was written, with its
    stanza, error and content: block sizes, sequence numbers and ports of their width, payloads
    of any bytes, offers of hosts, files with their hash and forms with their fields. *)
Theorem transfer_iq_roundtrip `{QtTypes} (memory : Z) :
  (forall iq : Iq IbbOpen, iq_ok memory iq -> iq_parse memory (onStream (iq_toXml iq)) = iq) /\
  (forall iq : Iq IbbClose, iq_ok memory iq -> iq_parse memory (onStream (iq_toXml iq)) = iq) /\
  (forall iq : Iq IbbData, iq_ok memory iq -> iq_parse memory (onStream (iq_toXml iq)) = iq) /\
  (forall iq : Iq ByteStream, iq_ok memory iq -> iq_parse memory (onStream (iq_toXml iq)) = iq) /\
  (forall iq : Iq StreamInitiation, iq_ok memory iq -> iq_parse memory (onStream (iq_toXml iq)) = iq).
Proof. split_and!; intros iq Hok; by apply iq_roundtrip. Qed.

Definition sample_stanza : @Stanza text_types := {|
  to_ := "me@example.org/r"; from_ := ""; id_ := "1"; lang := ""; error_ := None; extendedAddresses := [] |}.
Definition sample_initiation : @StreamInitiation text_types := {|
  si_form := newForm Form [newField ListSingleField "stream-method" (VString "") false];
  si_file := {| fi_date := "2020" : @QDateTime text_types; fi_hash := "abc"; fi_name := "f.txt"; fi_description := ""; fi_size := 12 |};
  si_mimeType := ""; si_profile := FileTransfer; si_id := "sid" |}.

Lemma transfer_iq_roundtrip_witness :
  let iq := Build_Iq (T := StreamInitiation) sample_stanza IqSet sample_initiation in
  iq_parse 7 (onStream (iq_toXml iq)) = iq.
Proof.
  intros iq. apply transfer_iq_roundtrip. split; [|by split_and!].
  split; [split; [done|simpl; lia]|]. repeat constructor; eauto.
  by exists "".
Defined.
