(* ===== verification/Presence.v ===== *)
(** * Presences (QXmppPresence.cpp, QXmppMucItem in QXmppMucIq.cpp)

    A presence with the extensions the library knows, its parser, which walks
    the children once, and its writer. The contents of Muji sessions, which are
    Jingle's, are a class with its parser and writer. The language of a stanza
    is left out of the round trip: the reader of the stream drops the prefix of
    xml:lang. *)
From S2P Require Import Prelude Utils Dom Base64 XmlCodec StreamManagement SaslXml Stanza DataForm TransferIq.

Definition ns_muc : string := "http://jabber.org/protocol/muc".
Definition ns_muc_user : string := "http://jabber.org/protocol/muc#user".
Definition ns_capabilities : string := "http://jabber.org/protocol/caps".
Definition ns_vcard_update : string := "vcard-temp:x:update".
Definition ns_muji : string := "urn:xmpp:jingle:muji:0".
Definition ns_moved : string := "urn:xmpp:moved:1".
Definition ns_idle : string := "urn:xmpp:idle:1".
Definition ns_mix_presence : string := "urn:xmpp:presence:0".

(** ** Data *)

Inductive Affiliation :=
  | UnspecifiedAffiliation | OutcastAffiliation | NoAffiliation | MemberAffiliation
  | AdminAffiliation | OwnerAffiliation.
#[export] Instance Affiliation_eq_dec : EqDecision Affiliation.
Proof. solve_decision. Defined.
#[export] Instance Affiliation_data : EnumData Affiliation := {
  enum_value a := match a with UnspecifiedAffiliation => 0 | OutcastAffiliation => 1 | NoAffiliation => 2
    | MemberAffiliation => 3 | AdminAffiliation => 4 | OwnerAffiliation => 5 end;
  Values := [(UnspecifiedAffiliation, ""); (OutcastAffiliation, "outcast"); (NoAffiliation, "none");
             (MemberAffiliation, "member"); (AdminAffiliation, "admin"); (OwnerAffiliation, "owner")] }.
Inductive Role := UnspecifiedRole | NoRole | VisitorRole | ParticipantRole | ModeratorRole.
#[export] Instance Role_eq_dec : EqDecision Role.
Proof. solve_decision. Defined.
#[export] Instance Role_data : EnumData Role := {
  enum_value r := match r with UnspecifiedRole => 0 | NoRole => 1 | VisitorRole => 2
    | ParticipantRole => 3 | ModeratorRole => 4 end;
  Values := [(UnspecifiedRole, ""); (NoRole, "none"); (VisitorRole, "visitor");
             (ParticipantRole, "participant"); (ModeratorRole, "moderator")] }.

Record MucItem := {
  mi_actor : string; affiliation : Affiliation; mi_jid : string; mi_nick : string; mi_reason : string;
  role : Role }.
Definition noItem : MucItem :=
  {| mi_actor := ""; affiliation := UnspecifiedAffiliation; mi_jid := ""; mi_nick := ""; mi_reason := "";
     role := UnspecifiedRole |}.
Definition item_isNull (i : MucItem) : bool :=
  bool_decide (mi_actor i = "") && bool_decide (affiliation i = UnspecifiedAffiliation)
  && bool_decide (mi_jid i = "") && bool_decide (mi_nick i = "") && bool_decide (mi_reason i = "")
  && bool_decide (role i = UnspecifiedRole).
Definition item_parse (el : Dom) : MucItem :=
  {| affiliation := default UnspecifiedAffiliation (fromString (toLower (attribute el "affiliation")));
     mi_jid := attribute el "jid"; mi_nick := attribute el "nick";
     role := default UnspecifiedRole (fromString (toLower (attribute el "role")));
     mi_actor := attribute (firstChildElement el "actor" "") "jid";
     mi_reason := domText (firstChildElement el "reason" "") |}.
Definition item_toXml (i : MucItem) : list Item :=
  if item_isNull i then [] else
  [ElementN "item" [
    OptionalAttribute "affiliation" (toString (affiliation i)); OptionalAttribute "jid" (mi_jid i);
    OptionalAttribute "nick" (mi_nick i); OptionalAttribute "role" (toString (role i));
    OptionalContent (negb (bool_decide (mi_actor i = ""))) [[ElementN "actor" [Attribute "jid" (mi_actor i)]]];
    OptionalTextElementN "reason" (mi_reason i)]].

Inductive PresenceType := PError | Available | Unavailable | Subscribe | Subscribed | Unsubscribe | Unsubscribed | Probe.
#[export] Instance PresenceType_eq_dec : EqDecision PresenceType.
Proof. solve_decision. Defined.
#[export] Instance PresenceType_data : EnumData PresenceType := {
  enum_value t := match t with PError => 0 | Available => 1 | Unavailable => 2 | Subscribe => 3
    | Subscribed => 4 | Unsubscribe => 5 | Unsubscribed => 6 | Probe => 7 end;
  Values := [(PError, "error"); (Available, ""); (Unavailable, "unavailable"); (Subscribe, "subscribe");
             (Subscribed, "subscribed"); (Unsubscribe, "unsubscribe"); (Unsubscribed, "unsubscribed"); (Probe, "probe")] }.
Inductive StatusType := Online | Away | XA | DND | Chat | Invisible.
#[export] Instance StatusType_eq_dec : EqDecision StatusType.
Proof. solve_decision. Defined.
#[export] Instance StatusType_data : EnumData StatusType := {
  enum_value t := match t with Online => 0 | Away => 1 | XA => 2 | DND => 3 | Chat => 4 | Invisible => 5 end;
  Values := [(Online, ""); (Away, "away"); (XA, "xa"); (DND, "dnd"); (Chat, "chat"); (Invisible, "invisible")] }.
Inductive VCardUpdate := VCardUpdateNone | VCardUpdateNoPhoto | VCardUpdateValidPhoto | VCardUpdateNotReady.
#[export] Instance VCardUpdate_eq_dec : EqDecision VCardUpdate.
Proof. solve_decision. Defined.

(** QXmppJingleIq::Content, with its parser and writer. *)
Class MujiContent := {
  Content : Type;
  content_parse : Dom -> option Content;
  content_toXml : Content -> list Item;
}.

Record Presence `{QtTypes} `{MujiContent} := {
  p_stanza : Stanza; p_extensions : list QXmppElement; p_type : PresenceType; availableStatusType : StatusType;
  statusText : string; priority : Z;
  mucItem : MucItem; mucPassword : string; mucStatusCodes : list Z; mucSupported : bool;
  capabilityHash : string; capabilityNode : string; capabilityVer : string; capabilityExt : list string;
  photoHash : string; vCardUpdateType : VCardUpdate;
  isPreparingMuji : bool; mujiContents : list Content;
  lastUserInteraction : QDateTime; mixUserJid : string; mixUserNick : string; oldJid : string }.
#[global] Arguments Presence {_ _}.

Section Presences.
Context `{QtTypes} `{MujiContent}.
#[export] Instance Presence_eta : Eta Presence := fun p =>
  {| p_stanza := p_stanza p; p_extensions := p_extensions p; p_type := p_type p;
     availableStatusType := availableStatusType p; statusText := statusText p; priority := priority p;
     mucItem := mucItem p; mucPassword := mucPassword p; mucStatusCodes := mucStatusCodes p;
     mucSupported := mucSupported p; capabilityHash := capabilityHash p; capabilityNode := capabilityNode p;
     capabilityVer := capabilityVer p; capabilityExt := capabilityExt p; photoHash := photoHash p;
     vCardUpdateType := vCardUpdateType p; isPreparingMuji := isPreparingMuji p; mujiContents := mujiContents p;
     lastUserInteraction := lastUserInteraction p; mixUserJid := mixUserJid p; mixUserNick := mixUserNick p;
     oldJid := oldJid p |}.

Definition noStanza : Stanza :=
  {| to_ := ""; from_ := ""; id_ := ""; lang := ""; error_ := None; extendedAddresses := [] |}.
Definition newPresence (t : PresenceType) : Presence :=
  {| p_stanza := noStanza; p_extensions := []; p_type := t; availableStatusType := Online; statusText := "";
     priority := 0; mucItem := noItem; mucPassword := ""; mucStatusCodes := []; mucSupported := false;
     capabilityHash := ""; capabilityNode := ""; capabilityVer := ""; capabilityExt := []; photoHash := "";
     vCardUpdateType := VCardUpdateNone; isPreparingMuji := false; mujiContents := [];
     lastUserInteraction := nullDateTime; mixUserJid := ""; mixUserNick := ""; oldJid := "" |}.

(** ** Parser *)

Definition is_tag (el : Dom) (tag ns : string) : bool :=
  bool_decide (tagName el = tag) && bool_decide (namespaceURI el = ns).

(** QString::split with SkipEmptyParts. *)
Fixpoint words (s acc : string) : list string :=
  let flush := if decide (acc = "") then [] else [acc] in
  match s with
  | "" => flush
  | String c s' => if decide (c = " "%char) then flush ++ words s' "" else words s' (acc +:+ String c "")
  end.

(** [parentns] is the name space of the presence. *)
Definition parseExtension (parentns : string) (el : Dom) (p : Presence) : Presence :=
  if is_tag el "x" ns_muc then
    p <| mucSupported := true |> <| mucPassword := domText (firstChildElement el "password" "") |>
  else if is_tag el "x" ns_muc_user then
    p <| mucItem := item_parse (firstChildElement el "item" "") |>
      <| mucStatusCodes := map (fun s => toInt (attribute s "code")) (iterChildElements el "status" "") |>
  else if is_tag el "c" ns_capabilities then
    p <| capabilityNode := attribute el "node" |> <| capabilityVer := fromBase64 (attribute el "ver") |>
      <| capabilityHash := attribute el "hash" |> <| capabilityExt := words (attribute el "ext") "" |>
  else if decide (namespaceURI el = ns_vcard_update) then
    let photo := firstChildElement el "photo" "" in
    if isNull photo then p <| photoHash := "" |> <| vCardUpdateType := VCardUpdateNotReady |>
    else
      let h := fromHex (domText photo) in
      p <| photoHash := h |>
        <| vCardUpdateType := if decide (h = "") then VCardUpdateNoPhoto else VCardUpdateValidPhoto |>
  else if is_tag el "muji" ns_muji then
    p <| isPreparingMuji := isPreparingMuji p || negb (isNull (firstChildElement el "preparing" "")) |>
      <| mujiContents := omap content_parse (iterChildElements el "content" "") |>
  else if is_tag el "moved" ns_moved then p <| oldJid := domText (firstChildElement el "old-jid" "") |>
  else if is_tag el "idle" ns_idle then
    if hasAttribute el "since" then p <| lastUserInteraction := datetimeFromString (attribute el "since") |> else p
  else if is_tag el "mix" ns_mix_presence then
    p <| mixUserJid := domText (firstChildElement el "jid" "") |>
      <| mixUserNick := domText (firstChildElement el "nick" "") |>
  else p <| p_extensions ::= fun l => l ++ [element_of_dom parentns el] |>.

Definition presence_child (parentns : string) (p : Presence) (el : Dom) : Presence :=
  if decide (tagName el = "show") then
    p <| availableStatusType := default Online (fromString (domText el)) |>
  else if decide (tagName el = "status") then p <| statusText := domText el |>
  else if decide (tagName el = "priority") then p <| priority := toInt (domText el) |>
  else if negb (is_tag el "addresses" ns_extended_addressing) && negb (bool_decide (tagName el = "error"))
  then parseExtension parentns el p
  else p.
Definition presence_parse (memory : Z) (el : Dom) : Presence :=
  foldl (presence_child (namespaceURI el))
    ((newPresence (default Available (fromString (attribute el "type")))) <| p_stanza := stanza_parse memory el |>)
    (iterChildElements el "" "").

(** ** Writer *)

(** extensionsToXml. *)
Definition extensionsToXml (s : Stanza) (es : list QXmppElement) : list Item :=
  (if decide (extendedAddresses s = []) then []
   else [Element ("addresses", ns_extended_addressing) [Children (extendedAddresses s)]])
  ++ concat (map element_toXml es).
Definition has (s : string) : bool := negb (bool_decide (s = "")).
Definition presence_toXml (p : Presence) : Item :=
  let s := p_stanza p in
  ElementN "presence" [
    OptionalAttribute "xml:lang" (lang s); OptionalAttribute "id" (id_ s); OptionalAttribute "to" (to_ s);
    OptionalAttribute "from" (from_ s); OptionalAttribute "type" (toString (p_type p));
    OptionalTextElementN "show" (toString (availableStatusType p));
    OptionalTextElementN "status" (statusText p);
    OptionalTextElementN "priority" (if priority p =? 0 then "" else signed_number (priority p));
    match error_ s with Some e => StanzaError.toXml e | None => [] end;
    OptionalContent (mucSupported p) [
      [Element ("x", ns_muc) [OptionalTextElementN "password" (mucPassword p)]]];
    OptionalContent (negb (item_isNull (mucItem p)) || negb (bool_decide (mucStatusCodes p = []))) [
      [Element ("x", ns_muc_user) [
        item_toXml (mucItem p); SingleAttributeElements "status" "code" (map signed_number (mucStatusCodes p))]]];
    OptionalContent (has (capabilityNode p) && has (capabilityVer p) && has (capabilityHash p)) [
      [Element ("c", ns_capabilities) [
        Attribute "hash" (capabilityHash p); Attribute "node" (capabilityNode p);
        Attribute "ver" (toBase64 (capabilityVer p))]]];
    OptionalContent (negb (bool_decide (vCardUpdateType p = VCardUpdateNone))) [
      [Element ("x", ns_vcard_update) [
        match vCardUpdateType p with
        | VCardUpdateNoPhoto => [ElementN "photo" []]
        | VCardUpdateValidPhoto => TextElementN "photo" (toHex_ (photoHash p))
        | _ => []
        end]]];
    OptionalContent (isPreparingMuji p || negb (Nat.eqb (length (mujiContents p)) 0)) [
      [Element ("muji", ns_muji) [
        OptionalContent (isPreparingMuji p) [[ElementN "preparing" []]];
        concat (map content_toXml (mujiContents p))]]];
    OptionalContent (has (oldJid p)) [[Element ("moved", ns_moved) [TextElementN "old-jid" (oldJid p)]]];
    OptionalContent (datetimeIsValid (lastUserInteraction p)) [
      [Element ("idle", ns_idle) [Attribute "since" (datetimeSerialize (lastUserInteraction p))]]];
    OptionalContent (has (mixUserJid p) || has (mixUserNick p)) [
      [Element ("mix", ns_mix_presence) [
        OptionalTextElementN "jid" (mixUserJid p); OptionalTextElementN "nick" (mixUserNick p)]]];
    extensionsToXml s (p_extensions p)].
End Presences.

(** ** Properties *)

Lemma affiliation_back a : fromString (toLower (toString (E := Affiliation) a)) = Some a.
Proof. by destruct a. Qed.
Lemma role_back r : fromString (toLower (toString (E := Role) r)) = Some r.
Proof. by destruct r. Qed.
Lemma presence_type_back t : fromString (toString (E := PresenceType) t) = Some t.
Proof. by destruct t. Qed.
Lemma status_type_back t : fromString (toString (E := StatusType) t) = Some t.
Proof. by destruct t. Qed.
Lemma item_null i : item_isNull i = true -> i = noItem.
Proof. unfold item_isNull. intros Hn. bools. destruct i. cbn in *. by subst. Qed.
Lemma toInt_signed n : - 2 ^ 31 <= n < 2 ^ 31 -> toInt (signed_number n) = n.
Proof.
  intros Hn. unfold toInt, Numbers.qt_to. rewrite toInteger_signed.
  cbn [Numbers.type_min Numbers.type_max].
  by rewrite (proj2 (Z.leb_le (- 2 ^ 31) n)), (proj2 (Z.leb_le n (2 ^ 31 - 1))) by lia.
Qed.

(** An element is read by the first step that knows its name. *)
Section PresenceTheory.
Context `{QtTypes} `{MujiContent}.
Implicit Types p x : Presence.
Notation ns := ns_jabber_client.
Notation read := (foldl (presence_child ns)).

#[export] Instance ExtendedAddress_codec : XmlCodec ExtendedAddress.
Proof.
  exists (fun _ => True) (fun ns => ns = ns_extended_addressing); [split; discriminate|reflexivity|].
  intros [d de j t] ns' ->. eexists _, _. split; [apply toDom_ElementN|]. intros _. cbn [fromDom ExtendedAddress_xml].
  rewrite !attribute_eq. cbn [delivered description ea_jid ea_type concat]. codec_norm.
  f_equal. f_equal. by destruct d.
Defined.

(** *** The item of a room *)

Lemma item_dom i : item_isNull i = false -> seg ns_muc_user (item_toXml i) =
  [Elem "item" ns_muc_user
     (atts (OptionalAttribute "affiliation" (toString (affiliation i))) ++ atts (OptionalAttribute "jid" (mi_jid i)) ++
      atts (OptionalAttribute "nick" (mi_nick i)) ++ atts (OptionalAttribute "role" (toString (role i))))
     ((if decide (mi_actor i = "") then [] else [Elem "actor" ns_muc_user [("jid", mi_actor i)] []]) ++
      (if decide (mi_reason i = "") then [] else [Elem "reason" ns_muc_user [] [Text (mi_reason i)]]))].
Proof.
  intros Hn. unfold item_toXml. rewrite Hn, seg_ElementN. cbn [concat].
  rewrite !atts_app, !seg_app, !seg_OptionalAttribute, !seg_OptionalContent, seg_OptionalTextElementN,
    atts_OptionalTextElementN, seg_nil, atts_nil, !app_nil_r. f_equal. f_equal.
  - assert (atts (OptionalContent (negb (bool_decide (mi_actor i = ""))) [[ElementN "actor" [Attribute "jid" (mi_actor i)]]]) = [])
      as -> by by destruct (negb _). by rewrite app_nil_r.
  - cbn [app concat]. rewrite seg_ElementN. cbn [concat]. f_equal.
    destruct (decide (mi_actor i = "")) as [He|He]; [by rewrite bool_decide_eq_true_2|by rewrite bool_decide_eq_false_2].
Qed.
Lemma item_read i l : Forall (fun d => child_matches "item" "" d = false) l ->
  item_parse (default nullElement (find_child "item" "" (seg ns_muc_user (item_toXml i) ++ l))) = i.
Proof.
  intros Hl. destruct (item_isNull i) eqn:Hn.
  - rewrite (item_null i Hn). unfold item_toXml. cbn [item_isNull]. rewrite find_child_none; [done|].
    by rewrite seg_nil.
  - rewrite item_dom by done. rewrite find_child_app, any_own by done. cbn [default]. unfold Datatypes.id, item_parse.
    rewrite !attribute_eq, !firstChildElement_find. codec_norm.
    rewrite affiliation_back, role_back. cbn [default]. unfold Datatypes.id.
    destruct i as [ac af j n r ro]. cbn [mi_actor affiliation mi_jid mi_nick mi_reason role] in *. f_equal.
    + destruct (decide (ac = "")) as [->|He]; [by destruct (decide (r = ""))|].
      rewrite ?find_child_app, any_own by done. done.
    + assert (find_child "reason" "" (if decide (ac = "") then [] else [Elem "actor" ns_muc_user [("jid", ac)] []]) = None) as Hf
        by by destruct (decide (ac = "")).
      rewrite ?find_child_app, Hf. destruct (decide (r = "")) as [->|He]; [done|]. rewrite any_own by done. cbn.
      by rewrite ?text_app_nil.
Qed.

(** *** The parts of a presence *)

Lemma domText_one t n a v : domText (Elem t n a [Text v]) = v.
Proof. cbn. by rewrite ?text_app_nil. Qed.
Lemma read_show x t : availableStatusType x = Online ->
  read x (seg ns (OptionalTextElementN "show" (toString t))) = x <| availableStatusType := t |>.
Proof.
  intros Hx. rewrite seg_OptionalTextElementN. case_decide as Hv.
  - destruct t; try discriminate. destruct x. cbn in *. by subst.
  - cbn [foldl]. unfold presence_child. cbn [tagName]. rewrite decide_True by done.
    rewrite domText_one, status_type_back. done.
Qed.
Lemma read_status x v : statusText x = "" ->
  read x (seg ns (OptionalTextElementN "status" v)) = x <| statusText := v |>.
Proof.
  intros Hx. rewrite seg_OptionalTextElementN. case_decide as Hv.
  - subst v. destruct x. cbn in *. by subst.
  - cbn [foldl]. unfold presence_child. cbn [tagName]. rewrite decide_False by done. rewrite decide_True by done.
    by rewrite domText_one.
Qed.
Lemma read_priority x n : priority x = 0 -> - 2 ^ 31 <= n < 2 ^ 31 ->
  read x (seg ns (OptionalTextElementN "priority" (if n =? 0 then "" else signed_number n))) = x <| priority := n |>.
Proof.
  intros Hx Hn. rewrite seg_OptionalTextElementN. destruct (Z.eqb_spec n 0) as [->|Hne].
  - rewrite decide_True by done. destruct x. cbn in *. by subst.
  - rewrite decide_False by apply signed_nonempty.
    cbn [foldl]. unfold presence_child. cbn [tagName]. do 2 rewrite decide_False by done. rewrite decide_True by done.
    by rewrite domText_one, toInt_signed.
Qed.
Lemma read_error x s : read x (seg ns (error_item s)) = x.
Proof. by destruct (error_item_seg s) as [-> | (a & c & ->)]. Qed.

Lemma ext_child x t n a c : t ∉ ["show"; "status"; "priority"; "error"; "addresses"] ->
  presence_child ns x (Elem t n a c) = parseExtension ns (Elem t n a c) x.
Proof.
  intros Ht. rewrite !not_elem_of_cons in Ht. destruct Ht as (H1 & H2 & H3 & H4 & H5 & _).
  unfold presence_child, is_tag. cbn [tagName namespaceURI].
  rewrite !decide_False by done.
  by rewrite (bool_decide_eq_false_2 (t = "addresses")), (bool_decide_eq_false_2 (t = "error")) by done.
Qed.
(** An extension that is written when [b] holds. *)
Lemma read_extension x (b : bool) t n vs y :
  t ∉ ["show"; "status"; "priority"; "error"; "addresses"] ->
  (b = true -> parseExtension ns (Elem t n (atts (concat vs)) (seg n (concat vs))) x = y) -> (b = false -> y = x) ->
  read x (seg ns (OptionalContent b [[Element (t, n) vs]])) = y.
Proof.
  intros Ht Hy Hn. rewrite seg_OptionalContent. destruct b; [|symmetry; by apply Hn].
  cbn [concat]. rewrite app_nil_r, seg_Element. cbn [foldl]. rewrite ext_child by done. by apply Hy.
Qed.
Ltac extension := apply read_extension; [rewrite !not_elem_of_cons; split_and!; try done; apply not_elem_of_nil|..].

Lemma read_muc x b pw : mucSupported x = false -> mucPassword x = "" -> (b = false -> pw = "") ->
  read x (seg ns (OptionalContent b [[Element ("x", ns_muc) [OptionalTextElementN "password" pw]]])) =
  x <| mucSupported := b |> <| mucPassword := pw |>.
Proof.
  intros Hs Hp Hb. extension.
  - intros ->. cbn [concat]. rewrite app_nil_r. set (a := atts _). set (c := seg _ _).
    change (parseExtension ns (Elem "x" ns_muc a c) x) with
      (x <| mucSupported := true |> <| mucPassword := domText (firstChildElement (Elem "x" ns_muc a c) "password" "") |>).
    subst c. rewrite firstChildElement_find, any_opt_text by done. destruct (decide (pw = "")) as [->|Hne]; [done|].
    cbn [default]. unfold Datatypes.id. by rewrite domText_one.
  - intros Hf. rewrite (Hb Hf). destruct x. cbn in *. by subst.
Qed.

Definition codes_ok (l : list Z) : Prop := Forall (fun n => - 2 ^ 31 <= n < 2 ^ 31) l.
Lemma status_seg m (l : list string) :
  seg m (SingleAttributeElements "status" "code" l) = map (fun v => Elem "status" m [("code", v)] []) l.
Proof. induction l as [|v l IH]; [done|]. cbn [map SingleAttributeElements]. by rewrite <-IH. Qed.
Lemma status_read l : codes_ok l ->
  map (fun s => toInt (attribute s "code"))
    (filter (fun n => child_matches "status" "" n = true)
       (map (fun v => Elem "status" ns_muc_user [("code", v)] []) (map signed_number l))) = l.
Proof.
  induction 1 as [|n l Hn Hl IH]; [done|]. cbn [map]. rewrite filter_cons_True by done. cbn [map].
  rewrite IH. f_equal. by apply toInt_signed.
Qed.
Lemma read_mucUser x i l : mucItem x = noItem -> mucStatusCodes x = [] -> codes_ok l ->
  read x (seg ns (OptionalContent (negb (item_isNull i) || negb (bool_decide (l = []))) [[
    Element ("x", ns_muc_user) [item_toXml i; SingleAttributeElements "status" "code" (map signed_number l)]]])) =
  x <| mucItem := i |> <| mucStatusCodes := l |>.
Proof.
  intros Hi Hl Hok. extension.
  - intros _. cbn [concat]. rewrite app_nil_r, seg_app, status_seg. set (a := atts _).
    set (c := seg _ _ ++ _).
    change (parseExtension ns (Elem "x" ns_muc_user a c) x) with
      (x <| mucItem := item_parse (firstChildElement (Elem "x" ns_muc_user a c) "item" "") |>
         <| mucStatusCodes := map (fun s => toInt (attribute s "code")) (iterChildElements (Elem "x" ns_muc_user a c) "status" "") |>).
    rewrite firstChildElement_find, iterChildElements_eq. subst c. rewrite item_read.
    + rewrite filter_app. rewrite (filter_child_none "status" "" (seg ns_muc_user (item_toXml i))).
      * cbn [app]. by rewrite status_read.
      * destruct (item_isNull i) eqn:Hn; [unfold item_toXml; by rewrite Hn|]. rewrite item_dom by done. by repeat constructor.
    + apply Forall_map, Forall_true. done.
  - intros Hb. bools. apply item_null in H1 as ->. subst l. destruct x. cbn in *. by subst.
Qed.

Lemma read_caps x h n v : capabilityHash x = "" -> capabilityNode x = "" -> capabilityVer x = "" -> capabilityExt x = [] ->
  (h <> "" /\ n <> "" /\ v <> "") \/ (h = "" /\ n = "" /\ v = "") ->
  read x (seg ns (OptionalContent (has n && has v && has h) [[Element ("c", ns_capabilities) [
    Attribute "hash" h; Attribute "node" n; Attribute "ver" (toBase64 v)]]])) =
  x <| capabilityNode := n |> <| capabilityVer := v |> <| capabilityHash := h |>.
Proof.
  intros Hh Hn Hv He Hok. extension.
  - intros _. set (a := atts _). set (c := seg _ _).
    change (parseExtension ns (Elem "c" ns_capabilities a c) x) with
      (x <| capabilityNode := attribute (Elem "c" ns_capabilities a c) "node" |>
         <| capabilityVer := fromBase64 (attribute (Elem "c" ns_capabilities a c) "ver") |>
         <| capabilityHash := attribute (Elem "c" ns_capabilities a c) "hash" |>
         <| capabilityExt := words (attribute (Elem "c" ns_capabilities a c) "ext") "" |>).
    subst a. rewrite !attribute_eq. codec_norm. cbn [default]. unfold Datatypes.id.
    change (fromBase64 (toBase64 v)) with (fromBase64 (toBase64 v)). rewrite (base64_roundtrip v).
    destruct x. cbn in *. by subst.
  - intros Hb. destruct Hok as [(H1' & H2' & H3')|(-> & -> & ->)].
    + unfold has in Hb. rewrite !bool_decide_eq_false_2 in Hb by done. done.
    + destruct x. cbn in *. by subst.
Qed.

Definition photo_ok (t : VCardUpdate) (h : string) : Prop :=
  match t with VCardUpdateValidPhoto => h <> "" | _ => h = "" end.
Lemma read_vcard x t h : vCardUpdateType x = VCardUpdateNone -> photoHash x = "" -> photo_ok t h ->
  read x (seg ns (OptionalContent (negb (bool_decide (t = VCardUpdateNone))) [[Element ("x", ns_vcard_update) [
    match t with
    | VCardUpdateNoPhoto => [ElementN "photo" []]
    | VCardUpdateValidPhoto => TextElementN "photo" (toHex_ h)
    | _ => []
    end]]])) = x <| photoHash := h |> <| vCardUpdateType := t |>.
Proof.
  intros Ht Hh Hok. extension.
  - intros Hb. bools. set (a := atts _). set (c := seg _ _).
    change (parseExtension ns (Elem "x" ns_vcard_update a c) x) with
      (let photo := firstChildElement (Elem "x" ns_vcard_update a c) "photo" "" in
       if isNull photo then x <| photoHash := "" |> <| vCardUpdateType := VCardUpdateNotReady |>
       else x <| photoHash := fromHex (domText photo) |>
              <| vCardUpdateType := if decide (fromHex (domText photo) = "") then VCardUpdateNoPhoto else VCardUpdateValidPhoto |>).
    cbv zeta. rewrite firstChildElement_find. subst c. cbn [concat]. rewrite app_nil_r.
    destruct t; [done|..]; cbn in Hok.
    + by subst h.
    + assert (toHex_ h <> "") as Hne by (intros He; by apply Hok, toHex_empty).
      rewrite any_text, decide_False by done. cbn [default]. unfold Datatypes.id.
      rewrite isNull_Elem by done. rewrite domText_one, fromHex_toHex, decide_False by done. done.
    + by subst h.
  - intros Hb. bools. subst t. cbn in Hok. subst h. destruct x. cbn in *. by subst.
Qed.

(** What the parser of Muji contents has to satisfy. *)
Definition muji_ok (c : Content) : Prop := exists n a ch,
  atts (content_toXml c) = [] /\ seg ns_muji (content_toXml c) = [Elem "content" n a ch] /\
  content_parse (Elem "content" n a ch) = Some c.
Lemma muji_read cs : Forall muji_ok cs ->
  omap content_parse (filter (fun n => child_matches "content" "" n = true) (seg ns_muji (concat (map content_toXml cs)))) = cs /\
  find_child "preparing" "" (seg ns_muji (concat (map content_toXml cs))) = None.
Proof.
  induction 1 as [|c cs (n & a & ch & Ha & Hs & Hp) Hcs [IH1 IH2]]; [done|]. cbn [map concat].
  rewrite seg_app, Hs, filter_app, find_child_app, any_skip by done. split; [|exact IH2].
  rewrite filter_cons_True by done. rewrite omap_app, IH1. simpl. by rewrite Hp.
Qed.
Lemma read_muji x b cs : isPreparingMuji x = false -> mujiContents x = [] -> Forall muji_ok cs ->
  read x (seg ns (OptionalContent (b || negb (Nat.eqb (length cs) 0)) [[Element ("muji", ns_muji) [
    OptionalContent b [[ElementN "preparing" []]]; concat (map content_toXml cs)]]])) =
  x <| isPreparingMuji := b |> <| mujiContents := cs |>.
Proof.
  intros Hb0 Hc0 Hok. destruct (muji_read cs Hok) as [Hread Hprep]. extension.
  - intros _. cbn [concat]. rewrite app_nil_r, seg_app, seg_OptionalContent. cbn [concat]. rewrite app_nil_r.
    set (a := atts _). set (c := _ ++ _).
    change (parseExtension ns (Elem "muji" ns_muji a c) x) with
      (x <| isPreparingMuji := isPreparingMuji x || negb (isNull (firstChildElement (Elem "muji" ns_muji a c) "preparing" "")) |>
         <| mujiContents := omap content_parse (iterChildElements (Elem "muji" ns_muji a c) "content" "") |>).
    rewrite firstChildElement_find, iterChildElements_eq, Hb0. subst c. rewrite filter_app, find_child_app, Hprep. cbn [orb].
    assert (filter (fun n => child_matches "content" "" n = true)
      (if b then seg ns_muji [ElementN "preparing" []] else []) = []) as -> by by destruct b.
    cbn [app]. rewrite Hread. f_equal. by destruct b.
  - intros Hb. bools. match goal with Hl : (length cs =? 0)%nat = true |- _ => apply Nat.eqb_eq, nil_length_inv in Hl end.
    subst. destruct x. cbn in *. by subst.
Qed.

Lemma read_moved x j : oldJid x = "" ->
  read x (seg ns (OptionalContent (has j) [[Element ("moved", ns_moved) [TextElementN "old-jid" j]]])) = x <| oldJid := j |>.
Proof.
  intros Hx. extension.
  - intros Hj. unfold has in Hj. bools. set (a := atts _). set (c := seg _ _).
    change (parseExtension ns (Elem "moved" ns_moved a c) x) with
      (x <| oldJid := domText (firstChildElement (Elem "moved" ns_moved a c) "old-jid" "") |>).
    subst c. cbn [concat]. rewrite app_nil_r, firstChildElement_find, any_text, decide_False by done.
    cbn [default]. unfold Datatypes.id. by rewrite domText_one.
  - intros Hj. unfold has in Hj. bools. subst j. destruct x. cbn in *. by subst.
Qed.
Lemma read_idle x d : lastUserInteraction x = nullDateTime ->
  (if datetimeIsValid d then datetimeFromString (datetimeSerialize d) = d else d = nullDateTime) ->
  read x (seg ns (OptionalContent (datetimeIsValid d) [[Element ("idle", ns_idle) [Attribute "since" (datetimeSerialize d)]]])) =
  x <| lastUserInteraction := d |>.
Proof.
  intros Hx Hd. extension.
  - intros Hv. rewrite Hv in Hd.
    change (parseExtension ns (Elem "idle" ns_idle (atts (concat [Attribute "since" (datetimeSerialize d)]))
              (seg ns_idle (concat [Attribute "since" (datetimeSerialize d)]))) x) with
      (x <| lastUserInteraction := datetimeFromString (datetimeSerialize d) |>).
    by rewrite Hd.
  - intros Hv. rewrite Hv in Hd. subst d. destruct x. cbn in *. by subst.
Qed.
Lemma read_mix x j n : mixUserJid x = "" -> mixUserNick x = "" ->
  read x (seg ns (OptionalContent (has j || has n) [[Element ("mix", ns_mix_presence) [
    OptionalTextElementN "jid" j; OptionalTextElementN "nick" n]]])) = x <| mixUserJid := j |> <| mixUserNick := n |>.
Proof.
  intros Hj Hn. extension.
  - intros _. set (a := atts _). set (c := seg _ _).
    change (parseExtension ns (Elem "mix" ns_mix_presence a c) x) with
      (x <| mixUserJid := domText (firstChildElement (Elem "mix" ns_mix_presence a c) "jid" "") |>
         <| mixUserNick := domText (firstChildElement (Elem "mix" ns_mix_presence a c) "nick" "") |>).
    subst c. cbn [concat]. rewrite app_nil_r, seg_app, !firstChildElement_find, !find_child_app.
    rewrite !any_opt_text, (any_opt_text_skip "jid" "nick"), (any_opt_text_skip "nick" "jid") by done.
    assert (forall t v, domText (default nullElement (if decide (v = "") then None
      else Some (Elem t ns_mix_presence [] [Text v]))) = v) as Hd.
    { intros t v. destruct (decide (v = "")) as [->|]; [done|]. apply domText_one. }
    rewrite found_or_none. rewrite (Hd "jid" j).
    change (match None with Some c => Some c | None => ?o end) with o. by rewrite (Hd "nick" n).
  - intros Hb. unfold has in Hb. bools. subst. destruct x. cbn in *. by subst.
Qed.

(** *** Extensions the library does not know *)

Definition recognised (d : Dom) : bool :=
  bool_decide (tagName d ∈ ["show"; "status"; "priority"; "error"]) || is_tag d "addresses" ns_extended_addressing
  || is_tag d "x" ns_muc || is_tag d "x" ns_muc_user || is_tag d "c" ns_capabilities
  || bool_decide (namespaceURI d = ns_vcard_update) || is_tag d "muji" ns_muji || is_tag d "moved" ns_moved
  || is_tag d "idle" ns_idle || is_tag d "mix" ns_mix_presence.
Definition extension_ok (e : QXmppElement) : Prop := normal ns e /\ recognised (element_dom ns e) = false.

Lemma read_unrecognised x d : recognised d = false ->
  presence_child ns x d = x <| p_extensions ::= fun l => l ++ [element_of_dom ns d] |>.
Proof.
  unfold recognised. intros Hr. bools.
  match goal with Hm : _ ∉ _ |- _ => rewrite !not_elem_of_cons in Hm; destruct Hm as (Hm1 & Hm2 & Hm3 & Hm4 & _) end.
  unfold presence_child, parseExtension. rewrite !decide_False by done.
  repeat match goal with Ht : is_tag d _ _ = false |- _ => rewrite Ht; clear Ht end.
  rewrite bool_decide_eq_false_2 by done. cbn [negb andb].
  done.
Qed.
Lemma read_extensions x es : Forall extension_ok es ->
  read x (seg ns (concat (map element_toXml es))) = x <| p_extensions ::= fun l => l ++ es |>.
Proof.
  intros Hes. revert x. induction Hes as [|e es [Hn Hr] Hes IH]; intros x; cbn [map concat].
  - rewrite seg_nil. destruct x. cbn. by rewrite app_nil_r.
  - rewrite seg_app, element_written by done. cbn [app foldl]. rewrite read_unrecognised by done.
    rewrite element_read by done. rewrite IH. destruct x. cbn. by rewrite <-app_assoc.
Qed.
Definition addresses_item (s : Stanza) : list Item :=
  if decide (extendedAddresses s = []) then []
  else [Element ("addresses", ns_extended_addressing) [Children (extendedAddresses s)]].
Lemma read_addresses x s : read x (seg ns (addresses_item s)) = x.
Proof. unfold addresses_item. case_decide; [done|]. by rewrite seg_Element. Qed.

(** *** The whole presence *)

Definition no_chars (i : Item) : Prop := match i with WChars _ => False | _ => True end.
Lemma elements_of items : Forall no_chars items ->
  filter (fun n => child_matches "" "" n = true) (seg ns items) = seg ns items.
Proof.
  induction 1 as [|i items Hi Hitems IH]; [done|].
  change (seg ns (i :: items)) with (toDom ns i ++ seg ns items). rewrite filter_app, IH. f_equal. by destruct i.
Qed.
Lemma no_chars_OptionalAttribute n v : Forall no_chars (OptionalAttribute n v).
Proof. unfold OptionalAttribute. case_decide; by repeat constructor. Qed.
Lemma no_chars_OptionalTextElementN t v : Forall no_chars (OptionalTextElementN t v).
Proof. unfold OptionalTextElementN. case_decide; by repeat constructor. Qed.
Lemma no_chars_OptionalContent (b : bool) t n vs : Forall no_chars (OptionalContent b [[Element (t, n) vs]]).
Proof. destruct b; by repeat constructor. Qed.
Lemma no_chars_error s : Forall no_chars (error_item s).
Proof. unfold error_item. destruct (error_ s); [|done]. unfold StanzaError.toXml. case_decide; by repeat constructor. Qed.
Lemma no_chars_extensions s es : Forall no_chars (extensionsToXml s es).
Proof.
  unfold extensionsToXml. apply Forall_app. split; [case_decide; by repeat constructor|].
  induction es as [|e es IH]; [done|]. cbn [map concat]. apply Forall_app. split; [|done].
  destruct e as [n a c v]. cbn. case_decide; by repeat constructor.
Qed.
Hint Resolve no_chars_OptionalAttribute no_chars_OptionalTextElementN no_chars_OptionalContent
  no_chars_error no_chars_extensions : qx.

(** The children [error] and [addresses] of the other parts are not found. *)
Lemma absent_OptionalTextElementN t v tag xmlns : tag <> "" -> t <> tag -> xmlns <> "" ->
  find_child tag xmlns (seg ns (OptionalTextElementN t v)) = None.
Proof. intros Ht Hne Hx. rewrite seg_OptionalTextElementN. case_decide; [done|]. apply find_skip; [done..|congruence]. Qed.
Lemma absent_OptionalContent (b : bool) t n vs tag xmlns : tag <> "" -> t <> tag -> xmlns <> "" ->
  find_child tag xmlns (seg ns (OptionalContent b [[Element (t, n) vs]])) = None.
Proof.
  intros Ht Hne Hx. rewrite seg_OptionalContent. destruct b; [|done]. cbn [concat].
  rewrite app_nil_r, seg_Element. apply find_skip; [done..|congruence].
Qed.
Lemma absent_extensions es tag xmlns : Forall extension_ok es ->
  (tag = "error" \/ (tag = "addresses" /\ xmlns = ns_extended_addressing)) -> xmlns <> "" ->
  find_child tag xmlns (seg ns (concat (map element_toXml es))) = None.
Proof.
  intros Hes Ht Hx. induction Hes as [|e es [Hn Hr] Hes IH]; cbn [map concat]; [by rewrite seg_nil|].
  rewrite seg_app, element_written, find_child_app, IH by done.
  destruct (element_dom ns e) as [t n a c|v]; [|done].
  unfold recognised, is_tag in Hr. bools. cbn [tagName namespaceURI] in *.
  match goal with Hm : _ ∉ _ |- _ => rewrite !not_elem_of_cons in Hm; destruct Hm as (_ & _ & _ & Hm4 & _) end.
  rewrite find_skip; [done| |done|]; [by destruct Ht as [->|[-> _]]|].
  destruct Ht as [->|[-> ->]]; [congruence|]. intros [= -> ->].
  match goal with Ha : (bool_decide ("addresses" = _) && _)%bool = false |- _ => by vm_compute in Ha end.
Qed.

Definition stanza_ok (memory : Z) (s : Stanza) : Prop :=
  lang s = "" /\ Forall (fun a => address_isValid a = true) (extendedAddresses s) /\
  match error_ s with Some e => error_ok memory e | None => True end.
Definition presence_ok (memory : Z) (p : Presence) : Prop :=
  stanza_ok memory (p_stanza p) /\ Forall extension_ok (p_extensions p) /\
  - 2 ^ 31 <= priority p < 2 ^ 31 /\ (mucSupported p = false -> mucPassword p = "") /\ codes_ok (mucStatusCodes p) /\
  ((capabilityHash p <> "" /\ capabilityNode p <> "" /\ capabilityVer p <> "") \/
   (capabilityHash p = "" /\ capabilityNode p = "" /\ capabilityVer p = "")) /\ capabilityExt p = [] /\
  photo_ok (vCardUpdateType p) (photoHash p) /\ Forall muji_ok (mujiContents p) /\
  (if datetimeIsValid (lastUserInteraction p)
   then datetimeFromString (datetimeSerialize (lastUserInteraction p)) = lastUserInteraction p
   else lastUserInteraction p = nullDateTime).

(** The attributes and the children a presence is written as. *)
Definition presence_attrs (p : Presence) : list (string * string) :=
  atts (OptionalAttribute "id" (id_ (p_stanza p))) ++ atts (OptionalAttribute "to" (to_ (p_stanza p))) ++
  atts (OptionalAttribute "from" (from_ (p_stanza p))) ++ atts (OptionalAttribute "type" (toString (p_type p))).
Definition presence_items (p : Presence) : list (list Item) := [
  OptionalTextElementN "show" (toString (availableStatusType p));
  OptionalTextElementN "status" (statusText p);
  OptionalTextElementN "priority" (if priority p =? 0 then "" else signed_number (priority p));
  error_item (p_stanza p);
  OptionalContent (mucSupported p) [
    [Element ("x", ns_muc) [OptionalTextElementN "password" (mucPassword p)]]];
  OptionalContent (negb (item_isNull (mucItem p)) || negb (bool_decide (mucStatusCodes p = []))) [
    [Element ("x", ns_muc_user) [
      item_toXml (mucItem p); SingleAttributeElements "status" "code" (map signed_number (mucStatusCodes p))]]];
  OptionalContent (has (capabilityNode p) && has (capabilityVer p) && has (capabilityHash p)) [
    [Element ("c", ns_capabilities) [
      Attribute "hash" (capabilityHash p); Attribute "node" (capabilityNode p);
      Attribute "ver" (toBase64 (capabilityVer p))]]];
  OptionalContent (negb (bool_decide (vCardUpdateType p = VCardUpdateNone))) [
    [Element ("x", ns_vcard_update) [
      match vCardUpdateType p with
      | VCardUpdateNoPhoto => [ElementN "photo" []]
      | VCardUpdateValidPhoto => TextElementN "photo" (toHex_ (photoHash p))
      | _ => []
      end]]];
  OptionalContent (isPreparingMuji p || negb (Nat.eqb (length (mujiContents p)) 0)) [
    [Element ("muji", ns_muji) [
      OptionalContent (isPreparingMuji p) [[ElementN "preparing" []]];
      concat (map content_toXml (mujiContents p))]]];
  OptionalContent (has (oldJid p)) [[Element ("moved", ns_moved) [TextElementN "old-jid" (oldJid p)]]];
  OptionalContent (datetimeIsValid (lastUserInteraction p)) [
    [Element ("idle", ns_idle) [Attribute "since" (datetimeSerialize (lastUserInteraction p))]]];
  OptionalContent (has (mixUserJid p) || has (mixUserNick p)) [
    [Element ("mix", ns_mix_presence) [
      OptionalTextElementN "jid" (mixUserJid p); OptionalTextElementN "nick" (mixUserNick p)]]];
  extensionsToXml (p_stanza p) (p_extensions p)].

Lemma atts_extensions s es : atts (extensionsToXml s es) = [].
Proof. unfold extensionsToXml. rewrite atts_app, atts_elements, app_nil_r. by case_decide. Qed.
Lemma atts_OptionalContent (b : bool) t n vs : atts (OptionalContent b [[Element (t, n) vs]]) = [].
Proof. by destruct b. Qed.
Lemma presence_dom p : lang (p_stanza p) = "" ->
  onStream (presence_toXml p) = Elem "presence" ns (presence_attrs p) (seg ns (concat (presence_items p))).
Proof.
  intros Hl. unfold onStream, presence_toXml. rewrite Hl, toDom_ElementN. cbn [nth].
  fold (error_item (p_stanza p)). unfold presence_attrs, presence_items. cbn [concat]. f_equal.
  - rewrite !atts_app, !atts_OptionalTextElementN, error_item_atts, !atts_OptionalContent, atts_extensions.
    by rewrite atts_nil, !app_nil_l, !app_nil_r.
  - by rewrite !seg_app, !seg_OptionalAttribute.
Qed.
Lemma presence_no_chars p : Forall no_chars (concat (presence_items p)).
Proof. unfold presence_items. cbn [concat]. rewrite !Forall_app. split_and!; auto with qx. Qed.

Lemma presence_absent p tag xmlns : Forall extension_ok (p_extensions p) ->
  (tag = "error" \/ (tag = "addresses" /\ xmlns = ns_extended_addressing)) -> xmlns <> "" ->
  find_child tag xmlns (seg ns (concat (presence_items p))) =
  match find_child tag xmlns (seg ns (error_item (p_stanza p))) with
  | Some d => Some d
  | None => find_child tag xmlns (seg ns (addresses_item (p_stanza p)))
  end.
Proof.
  intros Hes Ht Hx. unfold presence_items. cbn [concat]. rewrite !seg_app, !find_child_app.
  assert (tag <> "" /\ tag <> "show" /\ tag <> "status" /\ tag <> "priority" /\ tag <> "x" /\ tag <> "c" /\
          tag <> "muji" /\ tag <> "moved" /\ tag <> "idle" /\ tag <> "mix") as Hne
    by by destruct Ht as [->|[-> _]].
  destruct_and! Hne.
  rewrite !absent_OptionalTextElementN, !absent_OptionalContent by done.
  unfold extensionsToXml. rewrite seg_app, find_child_app, absent_extensions by done.
  destruct (find_child tag xmlns (seg ns (error_item (p_stanza p)))); [done|].
  rewrite seg_nil. cbn [find_child]. fold (addresses_item (p_stanza p)).
  by destruct (find_child tag xmlns (seg ns (addresses_item (p_stanza p)))).
Qed.
Lemma stanza_back memory p : presence_ok memory p ->
  stanza_parse memory (Elem "presence" ns (presence_attrs p) (seg ns (concat (presence_items p)))) = p_stanza p.
Proof.
  intros ((Hlang & Haddr & Herr) & Hes & _). unfold stanza_parse.
  rewrite !attribute_eq, !firstChildElement_find. cbn [namespaceURI].
  rewrite !presence_absent by (auto; done). unfold presence_attrs. codec_norm.
  destruct (p_stanza p) as [to from id lg er ad] eqn:Hs. cbn [to_ from_ id_ lang error_ extendedAddresses] in *. subst lg.
  set (s := Build_Stanza _ to from id "" er ad). f_equal.
  - assert (find_child "error" ns (seg ns (addresses_item s)) = None) as Ha.
    { unfold addresses_item. case_decide; [done|]. rewrite seg_Element. by apply find_skip. }
    rewrite Ha. unfold error_item. cbn [error_ s]. destruct er as [e|]; [|done].
    rewrite error_dom by apply Herr. rewrite find_own by done. cbn [default]. unfold Datatypes.id.
    rewrite isNull_Elem by done. by rewrite error_roundtrip.
  - assert (find_child "addresses" ns_extended_addressing (seg ns (error_item s)) = None) as ->.
    { destruct (error_item_seg s) as [-> | (a & c & ->)]; [done|]. by apply find_skip. }
    unfold addresses_item. cbn [extendedAddresses s]. case_decide as Had; [by subst ad|].
    rewrite seg_Element, find_own by done. cbn [default concat]. unfold Datatypes.id. rewrite app_nil_r.
    unfold parseChildElements. rewrite iterChildElements_eq.
    rewrite (filter_Children ad ns_extended_addressing) by (try done; by apply Forall_true).
    clear -Haddr. induction Haddr as [|a l Ha Hl IH]; [done|]. rewrite filter_cons_True by done. by rewrite IH.
Qed.

(** A presence is read back as it was written: its type and status, its room, avatar and
    capabilities, its error and addresses, and the extensions the library does not know. *)
Theorem presence_roundtrip memory p : presence_ok memory p ->
  presence_parse memory (onStream (presence_toXml p)) = p.
Proof.
  intros Hok. pose proof Hok as ((Hlang & _) & Hes & Hprio & Hpw & Hcodes & Hcaps & Hext & Hphoto & Hmuji & Hidle).
  rewrite presence_dom by done. unfold presence_parse.
  rewrite iterChildElements_eq, elements_of by apply presence_no_chars. rewrite stanza_back by done.
  cbn [namespaceURI]. rewrite attribute_eq. unfold presence_attrs. codec_norm. rewrite presence_type_back.
  cbn [default]. unfold Datatypes.id, presence_items. cbn [concat]. rewrite !seg_app, seg_nil, !foldl_app.
  rewrite read_show by done. rewrite read_status by done. rewrite read_priority by done. rewrite read_error.
  rewrite read_muc by done. rewrite read_mucUser by done. rewrite read_caps by done. rewrite read_vcard by done.
  rewrite read_muji by done. rewrite read_moved by done. rewrite read_idle by done. rewrite read_mix by done.
  unfold extensionsToXml. fold (addresses_item (p_stanza p)).
  rewrite seg_app, foldl_app, read_addresses, read_extensions by done. cbn [foldl].
  destruct p. cbn in *. by subst.
Qed.
End PresenceTheory.

(** Contents that are a name. *)
Definition sample_muji : MujiContent := {|
  Content := string; content_parse el := Some (attribute el "name");
  content_toXml n := [ElementN "content" [Attribute "name" n]] |}.
Definition sample_presence : @Presence text_types sample_muji :=
  (newPresence (H := text_types) (H0 := sample_muji) Available)
    <| p_stanza := {| to_ := ""; from_ := "me@example.org/r"; id_ := "p1"; lang := ""; error_ := None;
         extendedAddresses := [{| delivered := true; description := "d"; ea_jid := "a@x"; ea_type := "to" |}] |} |>
    <| p_extensions := [QElement "active" {["xmlns" := "urn:example"]} [] ""] |>
    <| availableStatusType := Away |> <| statusText := "lunch" |> <| priority := -5 |>
    <| mucItem := {| mi_actor := "boss@x"; affiliation := AdminAffiliation; mi_jid := "me@x"; mi_nick := "n";
                     mi_reason := "why"; role := ModeratorRole |} |>
    <| mucStatusCodes := [110; 201] |> <| mucSupported := true |> <| mucPassword := "secret" |>
    <| capabilityHash := "sha-1" |> <| capabilityNode := "node" |> <| capabilityVer := "ver" |>
    <| photoHash := "photo" |> <| vCardUpdateType := VCardUpdateValidPhoto |>
    <| isPreparingMuji := true |> <| mujiContents := ["audio" : @Content sample_muji; "video"] |>
    <| lastUserInteraction := "2025" : @QDateTime text_types |> <| mixUserJid := "u@x" |> <| oldJid := "old@x" |>.
Lemma presence_roundtrip_witness :
  presence_parse 0 (onStream (presence_toXml sample_presence)) = sample_presence.
Proof.
  apply (presence_roundtrip (H := text_types) (H0 := sample_muji)).
  split; [by split_and!; repeat constructor|]. split.
  { constructor; [|done]. split; [vm_compute; repeat split; congruence|by vm_compute]. }
  split; [by vm_compute|]. split; [done|]. split; [repeat constructor; by vm_compute|].
  split; [by left|]. split; [done|]. split; [done|]. split; [|done].
  repeat constructor; by eexists _, _, _.
Defined.
