(* ===== verification/IqHandling.v ===== *)
(** * IQs with a payload and their handlers (Iq.h, QXmppIqHandling.h and .cpp)

    An IQ as its attributes and one payload, whose type is an instance of
    [XmlElement]; the responses to requests; and the handling of a received
    request: its payload is parsed, a handler answers, the reply goes back to the
    sender. End-to-end encryption metadata is not modelled. *)
From S2P Require Import Prelude Utils Dom Base64 XmlCodec StreamManagement SaslXml Stanza.

Record PayloadIq (T : Type) := { pi_id : string; pi_from : string; pi_to : string; pi_lang : string; pi_payload : T }.
Arguments pi_id {T}. Arguments pi_from {T}. Arguments pi_to {T}. Arguments pi_lang {T}. Arguments pi_payload {T}.
Arguments Build_PayloadIq {T}.

Section Payload.
Context {T : Type} `{XmlElement T}.

(** Iq<Get>, Iq<Set> and Iq<Result> with a payload. *)
Definition iqFromDom (type : string) (el : Dom) : option (PayloadIq T) :=
  if bool_decide (tagName el = "iq") && hasAttribute el "id" && bool_decide (attribute el "type" = type) then
    payload ← parseOptionalElement T (firstChildElement el "" "");
    Some {| pi_id := attribute el "id"; pi_from := attribute el "from"; pi_to := attribute el "to";
            pi_lang := attribute el "lang"; pi_payload := payload |}
  else None.
Definition payloadIq_toXml (type : string) (iq : PayloadIq T) : Item :=
  ElementN "iq" [
    Attribute "id" (pi_id iq); OptionalAttribute "from" (pi_from iq); OptionalAttribute "to" (pi_to iq);
    Attribute "type" type; OptionalAttribute "xml:lang" (pi_lang iq); Child (pi_payload iq)].
End Payload.

(** ** Responses *)

Definition lastChildElement (el : Dom) : Dom := default nullElement (last (iterChildElements el "" "")).
Inductive IqResponse `{QtTypes} (T : Type) :=
  | Payload (t : T)
  | ResponseError (e : StanzaError.Error)
  | PayloadInvalid | UnexpectedType
  | RequestFailed.                       (* the error of the request itself *)
Arguments Payload {_ T}. Arguments ResponseError {_ T}. Arguments PayloadInvalid {_ T}.
Arguments UnexpectedType {_ T}. Arguments RequestFailed {_ T}.

Section Responses.
Context `{QtTypes} {T : Type} `{XmlElement T}.
(** parseIqResponse, of the response or None, an error of the request. *)
Definition parseIqResponse (memory : Z) (r : option Dom) : IqResponse T :=
  match r with
  | None => RequestFailed
  | Some el =>
      let type := attribute el "type" in
      if decide (type = "result") then
        match fromDom (firstChildElement el "" "") with Some t => Payload t | None => PayloadInvalid end
      else if decide (type = "error") then
        ResponseError (StanzaError.parse (lastChildElement el) (StanzaError.newError memory))
      else UnexpectedType
  end.
End Responses.

(** ** Requests *)

(** checkIsIqRequest: the tag and name space of the payload. *)
Definition checkIsIqRequest (el : Dom) : option (string * string) :=
  if decide (tagName el <> "iq") then None
  else if decide (attribute el "type" <> "get" /\ attribute el "type" <> "set") then None
  else Some (elementXmlTag (firstChildElement el "" "")).

Section Handling.
Context `{QtTypes} {S : Type}.

(** What a handler returns: an IQ, or an error. *)
Inductive Reply := ReplyIq (t : IqType) | ReplyError (e : StanzaError.Error).
Definition stanza_reply (to id : string) (e : option StanzaError.Error) : Stanza :=
  {| to_ := to; from_ := ""; id_ := id; lang := ""; error_ := e; extendedAddresses := [] |}.
(** sendIqReply and processHandleIqResult, for handlers that return no payload. *)
Definition sendIqReply (requestId requestFrom : string) (r : Reply) : Iq (list QXmppElement) :=
  match r with
  | ReplyIq t =>
      Build_Iq (stanza_reply requestFrom requestId None) (match t with IqGet | IqSet => IqResult | _ => t end) []
  | ReplyError e => Build_Iq (stanza_reply requestFrom requestId (Some e)) IqError []
  end.

(** One alternative of handleIqRequests: None if the request is not of the type. *)
Definition handleIqType {T} `{XmlElement T} (type : string) (handler : PayloadIq T -> S -> S * Reply) (el : Dom) (s : S) :
    option (S * Iq (list QXmppElement)) :=
  tag ← checkIsIqRequest el;
  if decide (tag = XmlTag T) then
    iq ← iqFromDom (T := T) type el;
    let '(s, r) := handler iq s in
    Some (s, sendIqReply (attribute el "id") (attribute el "from") r)
  else None.
(** The alternatives in their order. *)
Definition handleIqRequests (handlers : list (Dom -> S -> option (S * Iq (list QXmppElement)))) (el : Dom) (s : S) :
    option (S * Iq (list QXmppElement)) :=
  foldr (fun h r => match h el s with Some x => Some x | None => r end) None handlers.
End Handling.
Arguments Reply {_}.

(** ** Properties *)

Lemma first_element t n a c : t <> "" -> find_child "" "" [Elem t n a c] = Some (Elem t n a c).
Proof. done. Qed.
Lemma payloadIq_dom {T} `{XmlCodec T} type (iq : PayloadIq T) : codec_ctx T ns_jabber_client ->
  exists a c, onStream (payloadIq_toXml type iq) = Elem "iq" ns_jabber_client
    (atts (Attribute "id" (pi_id iq)) ++ atts (OptionalAttribute "from" (pi_from iq)) ++
     atts (OptionalAttribute "to" (pi_to iq)) ++ atts (Attribute "type" type) ++ atts (OptionalAttribute "xml:lang" (pi_lang iq)))
    [Elem (XmlTag T).1 (XmlTag T).2 a c] /\
    (codec_ok (pi_payload iq) -> fromDom (Elem (XmlTag T).1 (XmlTag T).2 a c) = Some (pi_payload iq)).
Proof.
  intros Hc. destruct (codec_law (pi_payload iq) _ Hc) as (a & c & Hd & Hr). exists a, c. split; [|exact Hr].
  unfold onStream, payloadIq_toXml. rewrite toDom_ElementN. cbn [nth concat]. f_equal.
  - rewrite !atts_app, atts_Child, atts_nil, !app_nil_r. done.
  - rewrite !seg_app, !seg_Attribute, !seg_OptionalAttribute. cbn [app]. unfold Child, seg. cbn [map concat].
    by rewrite Hd.
Qed.
Lemma payloadIq_back {T} `{XmlCodec T} type (iq : PayloadIq T) : codec_ctx T ns_jabber_client ->
  codec_ok (pi_payload iq) -> pi_lang iq = "" ->
  iqFromDom type (onStream (payloadIq_toXml type iq)) = Some iq.
Proof.
  intros Hc Hok Hl. destruct (payloadIq_dom type iq Hc) as (a & c & -> & Hr). specialize (Hr Hok).
  destruct iq as [i f t l p]. cbn [pi_id pi_from pi_to pi_lang pi_payload] in *. subst l.
  unfold iqFromDom, hasAttribute. cbn [attributes tagName].
  rewrite !attribute_eq, firstChildElement_find, first_element by apply (codec_name T). codec_norm. cbn [default].
  unfold Datatypes.id, parseOptionalElement. rewrite isNull_Elem by apply (codec_name T). rewrite Hr.
  rewrite (bool_decide_eq_true_2 ("iq" = "iq")), (bool_decide_eq_true_2 (is_Some _)), (bool_decide_eq_true_2 (type = type))
    by (done || by eexists). done.
Qed.

Lemma payloadIq_request {T} `{XmlCodec T} type (iq : PayloadIq T) : codec_ctx T ns_jabber_client ->
  type = "get" \/ type = "set" -> checkIsIqRequest (onStream (payloadIq_toXml type iq)) = Some (XmlTag T).
Proof.
  intros Hc Ht. destruct (payloadIq_dom type iq Hc) as (a & c & -> & _). unfold checkIsIqRequest. cbn [tagName].
  rewrite decide_False by tauto. rewrite firstChildElement_find, first_element by apply (codec_name T).
  cbn [default]. unfold Datatypes.id. rewrite elementXmlTag_eq, attribute_eq. codec_norm. cbn [default]. unfold Datatypes.id.
  rewrite decide_False by naive_solver. by destruct (XmlTag T).
Qed.
Lemma payloadIq_attrs {T} `{XmlCodec T} type (iq : PayloadIq T) : codec_ctx T ns_jabber_client ->
  attribute (onStream (payloadIq_toXml type iq)) "id" = pi_id iq /\
  attribute (onStream (payloadIq_toXml type iq)) "from" = pi_from iq.
Proof.
  intros Hc. destruct (payloadIq_dom type iq Hc) as (a & c & -> & _). rewrite !attribute_eq. codec_norm.
  by split.
Qed.
(** A request is handled by the alternative of its payload and by no other. *)
Lemma handle_own `{QtTypes} {S T} `{XmlCodec T} type (handler : PayloadIq T -> S -> S * Reply) (iq : PayloadIq T) s :
  codec_ctx T ns_jabber_client -> type = "get" \/ type = "set" -> codec_ok (pi_payload iq) -> pi_lang iq = "" ->
  handleIqType type handler (onStream (payloadIq_toXml type iq)) s =
  Some ((handler iq s).1, sendIqReply (pi_id iq) (pi_from iq) (handler iq s).2).
Proof.
  intros Hc Ht Hok Hl. unfold handleIqType. rewrite payloadIq_request by done. cbn [mbind option_bind].
  rewrite decide_True by done. rewrite payloadIq_back by done. cbn [mbind option_bind].
  destruct (payloadIq_attrs type iq Hc) as [-> ->]. by destruct (handler iq s).
Qed.
Lemma handle_other `{QtTypes} {S T U} `{XmlElement T} `{XmlCodec U} type type' (handler : PayloadIq T -> S -> S * Reply)
    (iq : PayloadIq U) s : codec_ctx U ns_jabber_client -> type' = "get" \/ type' = "set" -> XmlTag T <> XmlTag U ->
  handleIqType type handler (onStream (payloadIq_toXml type' iq)) s = None.
Proof.
  intros Hc Ht Hne. unfold handleIqType. rewrite payloadIq_request by done. cbn [mbind option_bind].
  by rewrite decide_False by congruence.
Qed.
