(* ===== verification/BlockingManager.v ===== *)
(** * The blocking manager (QXmppBlockingManager.cpp)

    The cached block list with its pushes, and the state of a JID under a block
    list. The callers that wait for the list are numbered promises; the response
    to the request is an event. Slots connected to the signals run after them. *)
From Stdlib Require Import OrdersEx.
From S2P Require Import Prelude Utils Dom Base64 XmlCodec StreamManagement SaslXml Stanza IqHandling.

Definition ns_blocking : string := "urn:xmpp:blocking".

(** ** The order of the entries *)

Definition text_le (a b : string) : Prop := String_as_OT.compare a b <> Gt.
#[export] Instance text_le_dec : RelDecision text_le.
Proof. intros a b. unfold text_le, Decision. destruct (String_as_OT.compare a b); [left|left|right]; congruence. Defined.
(** std::unique. *)
Fixpoint unique (l : list string) : list string :=
  match l with
  | a :: ((b :: _) as l') => if decide (a = b) then unique l' else a :: unique l'
  | _ => l
  end.
Definition makeUnique (l : list string) : list string := unique (merge_sort text_le l).

(** ** Payloads *)

Inductive BlockingAction := ActionList | ActionBlock | ActionUnblock.
#[export] Instance BlockingAction_eq_dec : EqDecision BlockingAction.
Proof. solve_decision. Defined.
#[export] Instance BlockingAction_data : EnumData BlockingAction := {
  enum_value a := match a with ActionList => 0 | ActionBlock => 1 | ActionUnblock => 2 end;
  Values := [(ActionList, "blocklist"); (ActionBlock, "block"); (ActionUnblock, "unblock")] }.
Record Blocking (action : BlockingAction) := { jids : list string }.
Arguments jids {action}. Arguments Build_Blocking {action}.
#[export] Instance Blocking_xml action : XmlElement (Blocking action) := {
  XmlTag := (toString action, ns_blocking);
  fromDom el :=
    if decide (elementXmlTag el <> (toString action, ns_blocking)) then None
    else Some {| jids := parseSingleAttributeElements el "item" ns_blocking "jid" |};
  toXml b := Element (toString action, ns_blocking) [SingleAttributeElements "item" "jid" (jids b)];
}.

(** ** The manager *)

Inductive BlockingOutput `{QtTypes} :=
  | BSent (type : string) (id : string) (action : BlockingAction) (l : list string)
  | BReply (iq : Iq (list QXmppElement))
  | BFinished (promise : nat) (r : IqResponse (Blocking ActionList))
  | SubscribedChanged
  | Blocked_ (l : list string) | Unblocked_ (l : list string).
Record BlockingManager `{QtTypes} := {
  blocklist : option (list string); openPromises : list nat; b_promises : nat; b_ids : Z; b_out : list BlockingOutput }.
#[global] Arguments BlockingManager {_}.

Section BlockingManager.
Context `{QtTypes}.
Variable jidBare : string.
Variable memory : Z.
#[export] Instance BlockingManager_eta : Eta BlockingManager := fun m =>
  {| blocklist := blocklist m; openPromises := openPromises m; b_promises := b_promises m; b_ids := b_ids m; b_out := b_out m |}.
Definition newBlocking : BlockingManager :=
  {| blocklist := None; openPromises := []; b_promises := 0; b_ids := 0; b_out := [] |}.
Definition b_emit (os : list BlockingOutput) (m : BlockingManager) : BlockingManager := m <| b_out ::= fun l => l ++ os |>.

Definition isSubscribed (m : BlockingManager) : bool := bool_decide (is_Some (blocklist m)).
Definition b_send (type : string) (action : BlockingAction) (l : list string) (m : BlockingManager) : BlockingManager :=
  let '(id, n) := Random.generateSequentialStanzaId (b_ids m) in b_emit [BSent type id action l] (m <| b_ids := n |>).
(** The promise is the count of earlier calls. *)
Definition fetchBlocklist (m : BlockingManager) : BlockingManager :=
  let p := b_promises m in
  let m := m <| b_promises ::= S |> in
  match blocklist m with
  | Some l => b_emit [BFinished p (Payload {| jids := l |})] m
  | None =>
      let m := m <| openPromises ::= fun l => l ++ [p] |> in
      if decide (length (openPromises m) = 1%nat) then b_send "get" ActionList [] m else m
  end.
(** The continuation of the request. *)
Definition blocklistResponse (r : option Dom) (m : BlockingManager) : BlockingManager :=
  let result := parseIqResponse (T := Blocking ActionList) memory r in
  let m := match blocklist m, result with
           | None, Payload b => b_emit [SubscribedChanged] (m <| blocklist := Some (jids b) |>)
           | _, _ => m
           end in
  (b_emit (map (fun p => BFinished p result) (openPromises m)) m) <| openPromises := [] |>.
Definition block (l : list string) : BlockingManager -> BlockingManager := b_send "set" ActionBlock l.
Definition unblock (l : list string) : BlockingManager -> BlockingManager := b_send "set" ActionUnblock l.

Definition checkIqValidity (from : string) (m : BlockingManager) : option StanzaError.Error :=
  if decide (from <> "" /\ from <> jidBare)
  then Some (StanzaError.error_of memory StanzaError.Cancel Forbidden "Forbidden.")
  else match blocklist m with
       | None => Some (StanzaError.error_of memory StanzaError.Wait UnexpectedRequest "Client is not subscribed to blocklist.")
       | Some _ => None
       end.
Fixpoint removeOne (j : string) (l : list string) : list string :=
  match l with
  | [] => []
  | x :: l' => if decide (x = j) then l' else x :: removeOne j l'
  end.
Definition handleBlock (iq : PayloadIq (Blocking ActionBlock)) (m : BlockingManager) : BlockingManager * Reply :=
  match checkIqValidity (pi_from iq) m with
  | Some e => (m, ReplyError e)
  | None =>
      (b_emit [Blocked_ (jids (pi_payload iq))]
         (m <| blocklist ::= option_map (fun l => makeUnique (l ++ jids (pi_payload iq))) |>), ReplyIq IqResult)
  end.
Definition handleUnblock (iq : PayloadIq (Blocking ActionUnblock)) (m : BlockingManager) : BlockingManager * Reply :=
  match checkIqValidity (pi_from iq) m with
  | Some e => (m, ReplyError e)
  | None =>
      (b_emit [Unblocked_ (jids (pi_payload iq))]
         (m <| blocklist ::= option_map (fun l => foldl (fun l j => removeOne j l) l (jids (pi_payload iq))) |>), ReplyIq IqResult)
  end.
Definition blocking_handleStanza (el : Dom) (m : BlockingManager) : BlockingManager * bool :=
  match handleIqRequests [handleIqType "set" handleBlock; handleIqType "set" handleUnblock] el m with
  | Some (m, reply) => (b_emit [BReply reply] m, true)
  | None => (m, false)
  end.
(** [resumed]: the stream was resumed. *)
Definition blocking_onConnected (resumed : bool) (m : BlockingManager) : BlockingManager :=
  match blocklist m with
  | Some _ => if resumed then m else b_emit [SubscribedChanged] (m <| blocklist := None |>)
  | None => m
  end.
End BlockingManager.

(** ** The state of a JID (QXmppBlocklist) *)

(** QString::startsWith and contains. *)
Fixpoint startsWith (p s : string) : bool :=
  match p, s with
  | "", _ => true
  | String a p', String b s' => bool_decide (a = b) && startsWith p' s'
  | _, "" => false
  end.
Fixpoint containsText (p s : string) : bool :=
  startsWith p s || match s with "" => false | String _ s' => containsText p s' end.

Inductive BlockingState :=
  | NotBlocked
  | PartiallyBlocked (partially : list string)
  | Blocked (blocking partially : list string).
Inductive JidType := FullJid | BareJid | Domain | DomainResource.
Definition containsEntry (l : list string) (entry : string) : bool := bool_decide (entry ∈ l).
Definition jid_type (jid : string) : JidType :=
  if decide (Jid.jidToUser jid = "") then if decide (Jid.jidToResource jid = "") then Domain else DomainResource
  else if decide (Jid.jidToResource jid = "") then BareJid else FullJid.
Definition listed (l : list string) (jid : string) : list string := if decide (jid ∈ l) then [jid] else [].
(** Neither the JID nor its domain is empty. *)
Definition blockingState (l : list string) (jid : string) : BlockingState :=
  let user := Jid.jidToUser jid in
  let domain := Jid.jidToDomain jid in
  let resource := Jid.jidToResource jid in
  let '(blocking, partially) :=
    match jid_type jid with
    | FullJid => (listed l jid ++ listed l (user +:+ "@" +:+ domain) ++ listed l domain ++ listed l (domain +:+ "/" +:+ resource), [])
    | BareJid =>
        (listed l jid ++ listed l domain,
         filter (fun b => startsWith (jid +:+ "/") b = true) l ++ listed l (domain +:+ "/" +:+ resource))
    | Domain =>
        (listed l jid, filter (fun b => containsText ("@" +:+ domain) b || containsText (domain +:+ "/") b = true) l)
    | DomainResource =>
        (listed l jid ++ listed l domain, filter (fun b => containsText ("@" +:+ domain) b = true) l)
    end in
  match blocking, partially with
  | [], [] => NotBlocked
  | [], _ => PartiallyBlocked partially
  | _, _ => Blocked blocking partially
  end.

(** ** Properties *)

(** *** What blocks a JID *)

Record Address := { a_user : string; a_domain : string; a_resource : string }.
Definition address_text (a : Address) : string :=
  (if decide (a_user a = "") then "" else a_user a +:+ "@") +:+ a_domain a +:+
  (if decide (a_resource a = "") then "" else "/" +:+ a_resource a).
Definition address_ok (a : Address) : Prop :=
  Jid.contains "@" (a_user a) = false /\ Jid.contains "/" (a_user a) = false /\
  Jid.contains "@" (a_domain a) = false /\ Jid.contains "/" (a_domain a) = false /\
  (a_user a = "" -> Jid.contains "@" (a_resource a) = false).
(** An entry blocks an address if each of its parts is absent or the same (XEP-0191). *)
Definition blocks (e a : Address) : Prop :=
  a_domain e = a_domain a /\ (a_user e = "" \/ a_user e = a_user a) /\ (a_resource e = "" \/ a_resource e = a_resource a).

Lemma text_app_empty (s : string) : s +:+ "" = s.
Proof. induction s as [|c s IH]; [done|]. exact (f_equal (String c) IH). Qed.
Lemma address_bare a : address_ok a ->
  Jid.jidToBareJid (address_text a) = (if decide (a_user a = "") then "" else a_user a +:+ "@") +:+ a_domain a.
Proof.
  intros (Hu & Hu' & Hd & Hd' & _). unfold address_text. set (b := if decide (a_user a = "") then _ else _).
  assert (Jid.contains "/" (b +:+ a_domain a) = false) as Hb.
  { rewrite Jid.contains_app, Hd', orb_false_r. unfold b. case_decide; [done|]. by rewrite Jid.contains_app, Hu'. }
  rewrite <-Jid.str_app_assoc. case_decide.
  - rewrite text_app_empty. by apply Jid.bare_of_bare.
  - by apply Jid.bare_of_resource.
Qed.
Lemma resource_of b r : Jid.contains "/" b = false -> Jid.jidToResource (b +:+ String "/" r) = r.
Proof.
  intros Hb. unfold Jid.jidToResource. rewrite Jid.indexOf_app by done.
  destruct (Z.ltb_spec (Z.of_nat (String.length b)) 0); [lia|].
  replace (Z.to_nat (Z.of_nat (String.length b) + 1)) with (S (String.length b)) by lia.
  clear. induction b as [|c s IH]; [done|]. exact IH.
Qed.
Lemma address_parts a : address_ok a -> Jid.jidToUser (address_text a) = a_user a /\
  Jid.jidToDomain (address_text a) = a_domain a /\ Jid.jidToResource (address_text a) = a_resource a.
Proof.
  intros Hok. pose proof (address_bare a Hok) as Hb. destruct Hok as (Hu & Hu' & Hd & Hd' & Hr). split_and!.
  - unfold Jid.jidToUser, address_text. destruct (decide (a_user a = "")) as [He|He].
    + rewrite Jid.indexOf_none; [done|]. rewrite !Jid.contains_app, Hd. simpl. case_decide; [done|].
      rewrite Jid.contains_app. simpl. by apply Hr.
    + rewrite Jid.str_app_assoc. change ("@" +:+ ?x) with (String "@" x). rewrite Jid.indexOf_app by done.
      destruct (Z.ltb_spec (Z.of_nat (String.length (a_user a))) 0); [lia|]. by rewrite Nat2Z.id, Jid.str_left_app.
  - unfold Jid.jidToDomain. rewrite Hb. case_decide.
    + by rewrite (Jid.split_none _ (a_domain a)).
    + rewrite Jid.str_app_assoc. change ("@" +:+ ?x) with (String "@" x). by rewrite Jid.split_app, (Jid.split_none _ (a_domain a)).
  - unfold address_text. set (b := if decide (a_user a = "") then _ else _).
    assert (Jid.contains "/" (b +:+ a_domain a) = false) as Hs.
    { rewrite Jid.contains_app, Hd', orb_false_r. unfold b. case_decide; [done|]. by rewrite Jid.contains_app, Hu'. }
    rewrite <-Jid.str_app_assoc. destruct (decide (a_resource a = "")) as [He|He].
    + unfold Jid.jidToResource. by rewrite text_app_empty, Jid.indexOf_none.
    + by apply resource_of.
Qed.

(** The entries that block an address. *)
Definition blockers (a : Address) : list Address :=
  [a; {| a_user := a_user a; a_domain := a_domain a; a_resource := "" |};
   {| a_user := ""; a_domain := a_domain a; a_resource := "" |};
   {| a_user := ""; a_domain := a_domain a; a_resource := a_resource a |}].
Lemma blockers_spec e a : blocks e a <-> e ∈ blockers a.
Proof.
  unfold blockers. destruct e as [u d r], a as [u' d' r']. unfold blocks. simpl.
  rewrite !elem_of_cons, elem_of_nil. clear. split.
  - intros (-> & [->| ->] & [->| ->]); auto 10.
  - intros [[= -> -> ->]|[[= -> -> ->]|[[= -> -> ->]|[[= -> -> ->]|[]]]]]; auto 10.
Qed.
Lemma listed_ne l j : listed l j <> [] <-> j ∈ l.
Proof. unfold listed. case_decide; naive_solver. Qed.
Lemma app_ne {A} (l k : list A) : l ++ k <> [] <-> l <> [] \/ k <> [].
Proof. destruct l; simpl; [tauto|]. split; [by left|done]. Qed.

(** A JID is reported as blocked exactly if an entry blocks it that names
    its domain and, if it names a user or a resource at all, the JID's own. *)
Theorem blocking_spec l a : address_ok a ->
  (exists bs ps, blockingState l (address_text a) = Blocked bs ps) <->
  (exists e, blocks e a /\ address_text e ∈ l).
Proof.
  intros Hok. destruct (address_parts a Hok) as (Hu & Hd & Hr). unfold blockingState, jid_type. rewrite Hu, Hd, Hr.
  assert (forall bs ps : list string, (exists bs' ps', match bs, ps with [], [] => NotBlocked | [], _ => PartiallyBlocked ps
    | _, _ => Blocked bs ps end = Blocked bs' ps') <-> bs <> []) as Hm.
  { intros [|b bs] ps; [|by split; [|intros _; eexists _, _]].
    destruct ps; (split; [by intros (? & ? & ?)|done]). }
  assert ((exists e, blocks e a /\ address_text e ∈ l) <->
    (address_text a ∈ l \/ address_text {| a_user := a_user a; a_domain := a_domain a; a_resource := "" |} ∈ l \/
     a_domain a ∈ l \/ address_text {| a_user := ""; a_domain := a_domain a; a_resource := a_resource a |} ∈ l)) as ->.
  { setoid_rewrite blockers_spec. unfold blockers. setoid_rewrite elem_of_cons. setoid_rewrite elem_of_cons.
    setoid_rewrite elem_of_cons. setoid_rewrite elem_of_cons. setoid_rewrite elem_of_nil.
    assert (address_text {| a_user := ""; a_domain := a_domain a; a_resource := "" |} = a_domain a) as Hdom.
    { unfold address_text. simpl. apply text_app_empty. }
    split; [intros (e & [->|[->|[->|[->|[]]]]] & He); rewrite ?Hdom in He; auto|].
    intros Hin. destruct Hin as [Hin|[Hin|[Hin|Hin]]]; [| |rewrite <-Hdom in Hin|]; eexists; (split; [|exact Hin]); auto. }
  destruct (decide (a_user a = "")) as [Hue|Hue], (decide (a_resource a = "")) as [Hre|Hre].
  - rewrite Hm, listed_ne. unfold address_text. cbn. rewrite Hue, Hre, !(decide_True (P := "" = "")) by done.
    rewrite !text_app_empty. cbn. tauto.
  - rewrite Hm, app_ne, !listed_ne. unfold address_text. cbn.
    rewrite Hue, !(decide_True (P := "" = "")), (decide_False (P := _ = "")) by done. cbn. rewrite !text_app_empty. tauto.
  - rewrite Hm, app_ne, !listed_ne. unfold address_text. cbn.
    rewrite Hre, !(decide_True (P := "" = "")), (decide_False (P := _ = "")) by done. cbn. rewrite !text_app_empty. tauto.
  - rewrite (Hm _ []), !app_ne, !listed_ne. unfold address_text. cbn. rewrite !(decide_True (P := "" = "")) by done.
    rewrite !(decide_False (P := _ = "")) by done. rewrite ?text_app_empty, ?Jid.str_app_assoc. cbn. tauto.
Qed.

(** Where the code departs from its comments: an entry of a domain with a resource, which blocks
    some stanzas of every account of the domain, is not reported for an account; and an entry of
    another domain is reported for a domain whose name it contains. *)
Theorem blocking_partial_wrong :
  blockingState ["example.org/bot"] "user@example.org" = NotBlocked /\
  blockingState ["eve@example.org.evil"] "example.org" = PartiallyBlocked ["eve@example.org.evil"].
Proof. by vm_compute. Qed.

(** *** The cached list *)

#[export] Instance text_le_trans : Transitive text_le.
Proof.
  intros a b c Hab Hbc. unfold text_le in *.
  assert (forall x y, String_as_OT.lt x y -> String_as_OT.lt y x -> False) as Has.
  { intros x y Hx Hy. apply (irreflexivity String_as_OT.lt x). by etransitivity. }
  destruct (String_as_OT.compare_spec a b) as [He|Hl|Hg], (String_as_OT.compare_spec b c) as [He'|Hl'|Hg'],
    (String_as_OT.compare_spec a c) as [He''|Hl''|Hg'']; try done; unfold String_as_OT.eq in *; subst; exfalso; eauto.
  all: try (by eapply (irreflexivity String_as_OT.lt); eassumption).
  apply (Has a c); [by etransitivity|done].
Qed.
#[export] Instance text_le_total : Total text_le.
Proof.
  intros a b. unfold text_le. destruct (String_as_OT.compare_spec a b) as [He|Hl|Hg]; [by left|by left|]. right.
  destruct (String_as_OT.compare_spec b a) as [He'|Hl'|Hg']; try done.
  destruct (irreflexivity String_as_OT.lt a). by etransitivity.
Qed.
Lemma text_le_antisym a b : text_le a b -> text_le b a -> a = b.
Proof.
  unfold text_le. intros Ha Hb. destruct (String_as_OT.compare_spec a b) as [He|Hl|Hg]; try done.
  destruct (String_as_OT.compare_spec b a) as [He'|Hl'|Hg']; try done.
  destruct (irreflexivity String_as_OT.lt a). by etransitivity.
Qed.

Lemma unique_elem x l : x ∈ unique l <-> x ∈ l.
Proof.
  induction l as [|a [|b l] IH]; [done|done|]. cbn [unique]. case_decide as Ha.
  - subst. rewrite IH. set_solver.
  - change (x ∈ a :: unique (b :: l) <-> x ∈ a :: b :: l). rewrite !(elem_of_cons _ x a), IH. set_solver.
Qed.
Lemma unique_NoDup l : StronglySorted text_le l -> NoDup (unique l).
Proof.
  induction l as [|a [|b l] IH]; intros Hs; [constructor|by apply NoDup_singleton|].
  apply StronglySorted_inv in Hs as [Hs Ha]. cbn [unique]. case_decide as Hab; [by apply IH|].
  change (NoDup (a :: unique (b :: l))). apply NoDup_cons. split; [|by apply IH]. rewrite unique_elem.
  intros Hin. apply elem_of_cons in Hin as [->|Hin]; [done|]. apply StronglySorted_inv in Hs as [Hs Hb].
  rewrite Forall_forall in Ha, Hb. apply Hab, text_le_antisym; [apply Ha; by left|by apply Hb].
Qed.
Lemma makeUnique_spec l : NoDup (makeUnique l) /\ forall x, x ∈ makeUnique l <-> x ∈ l.
Proof.
  unfold makeUnique. split.
  - apply unique_NoDup, StronglySorted_merge_sort; apply _.
  - intros x. rewrite unique_elem. by rewrite merge_sort_Permutation.
Qed.
Lemma removeOne_elem j l x : NoDup l -> x ∈ removeOne j l <-> x ∈ l /\ x <> j.
Proof.
  induction l as [|a l IH]; intros Hl; [set_solver|]. apply NoDup_cons in Hl as [Ha Hl]. simpl. case_decide; set_solver.
Qed.
Lemma removeOne_NoDup j l : NoDup l -> NoDup (removeOne j l).
Proof.
  induction l as [|a l IH]; intros Hl; [done|]. pose proof Hl as [Ha Hl']%NoDup_cons. simpl. case_decide; [done|].
  apply NoDup_cons. split; [|by apply IH]. rewrite removeOne_elem by done. tauto.
Qed.
Lemma remove_all js l : NoDup l -> NoDup (foldl (fun l j => removeOne j l) l js) /\
  forall x, x ∈ foldl (fun l j => removeOne j l) l js <-> x ∈ l /\ x ∉ js.
Proof.
  revert l. induction js as [|j js IH]; intros l Hl; [simpl; split; [done|set_solver]|]. simpl.
  destruct (IH (removeOne j l) (removeOne_NoDup j l Hl)) as [Hd He]. split; [done|]. intros x. rewrite He, removeOne_elem by done.
  set_solver.
Qed.

(** *** Pushes *)

Section Pushes.
Context `{QtTypes} (jidBare : string) (memory : Z).
Implicit Types m : BlockingManager.

Inductive BlockPush := PushBlock (l : list string) | PushUnblock (l : list string).
Definition push_stanza (from id : string) (p : BlockPush) : Dom :=
  match p with
  | PushBlock l => onStream (payloadIq_toXml "set" {| pi_id := id; pi_from := from; pi_to := ""; pi_lang := ""; pi_payload := {| jids := l |} : Blocking ActionBlock |})
  | PushUnblock l => onStream (payloadIq_toXml "set" {| pi_id := id; pi_from := from; pi_to := ""; pi_lang := ""; pi_payload := {| jids := l |} : Blocking ActionUnblock |})
  end.
(** The list of blocked JIDs a push describes (XEP-0191): an unblock without JIDs is for all. *)
Definition pushed (s : gset string) (p : BlockPush) : gset string :=
  match p with
  | PushBlock l => s ∪ list_to_set l
  | PushUnblock [] => ∅
  | PushUnblock l => s ∖ list_to_set l
  end.
Definition unblocks_all (p : BlockPush) : Prop := p = PushUnblock [].

#[export] Instance Blocking_codec a : XmlCodec (Blocking a).
Proof.
  exists (fun _ => True) (fun _ => True); [split; [by destruct a|done]|exact I|]. apply codec_by with (values := fun b : Blocking a => [SingleAttributeElements "item" "jid" (jids b)]); [done|].
  intros [l] _. cbn [fromDom Blocking_xml XmlTag fst snd jids]. rewrite elementXmlTag_eq, tag_differs. cbn [concat].
  rewrite app_nil_r, atts_SingleAttributeElements, parse_single_attributes by discriminate. done.
Defined.

Definition may_push (from : string) : bool := bool_decide (from = "" \/ from = jidBare).
Lemma push_handled from id p m : blocking_handleStanza jidBare memory (push_stanza from id p) m =
  let apply m := match p with
    | PushBlock l => b_emit [Blocked_ l] (m <| blocklist ::= option_map (fun b => makeUnique (b ++ l)) |>)
    | PushUnblock l => b_emit [Unblocked_ l] (m <| blocklist ::= option_map (fun b => foldl (fun b j => removeOne j b) b l) |>)
    end in
  match checkIqValidity jidBare memory from m with
  | Some e => (b_emit [BReply (sendIqReply id from (ReplyError e))] m, true)
  | None => (b_emit [BReply (sendIqReply id from (ReplyIq IqResult))] (apply m), true)
  end.
Proof.
  unfold blocking_handleStanza, handleIqRequests. destruct p as [l|l]; cbn [push_stanza foldr].
  - rewrite handle_own by (exact I || by (right || left) || done). cbn [pi_id pi_from]. unfold handleBlock. cbn [pi_from pi_payload].
    by destruct (checkIqValidity jidBare memory from m).
  - rewrite handle_other by (exact I || by right || done). rewrite handle_own by (exact I || by right || done).
    cbn [pi_id pi_from]. unfold handleUnblock. cbn [pi_from pi_payload]. by destruct (checkIqValidity jidBare memory from m).
Qed.

(** Pushes with their senders and ids. *)
Definition receive_pushes (ps : list (string * string * BlockPush)) (m : BlockingManager) : BlockingManager :=
  foldl (fun m x => (blocking_handleStanza jidBare memory (push_stanza x.1.1 x.1.2 x.2) m).1) m ps.
Definition authentic (ps : list (string * string * BlockPush)) : list BlockPush :=
  omap (fun x => if may_push x.1.1 then Some x.2 else None) ps.

Lemma validity from m l : blocklist m = Some l ->
  checkIqValidity jidBare memory from m =
  if may_push from then None else Some (StanzaError.error_of memory StanzaError.Cancel Forbidden "Forbidden.").
Proof.
  intros Hm. unfold checkIqValidity, may_push. rewrite Hm. case_bool_decide; case_decide; naive_solver.
Qed.
(** What follows a push: the application is told and the server gets a result; or the sender gets
    an error. *)
Definition told (x : string * string * BlockPush) : list BlockingOutput :=
  let '(from, id, p) := x in
  if may_push from then
    [match p with PushBlock l => Blocked_ l | PushUnblock l => Unblocked_ l end;
     BReply (sendIqReply id from (ReplyIq IqResult))]
  else [BReply (sendIqReply id from (ReplyError (StanzaError.error_of memory StanzaError.Cancel Forbidden "Forbidden.")))].
(** A push of the own account. *)
Lemma push_applied id from p m l : blocklist m = Some l -> NoDup l -> may_push from = true -> ~ unblocks_all p ->
  let m' := (blocking_handleStanza jidBare memory (push_stanza from id p) m).1 in
  b_out m' = b_out m ++ told (from, id, p) /\
  exists l', blocklist m' = Some l' /\ NoDup l' /\ list_to_set l' = pushed (list_to_set l) p :> gset string.
Proof.
  intros Hm Hl Hp Hn. cbv zeta. rewrite push_handled. cbv zeta. rewrite (validity from m l Hm), Hp.
  unfold told. rewrite Hp. destruct p as [k|k]; cbn [fst pushed].
  - split; [simpl; by rewrite <-app_assoc|]. exists (makeUnique (l ++ k)). destruct (makeUnique_spec (l ++ k)) as [Hd He].
    split_and!; [simpl; by rewrite Hm|done|]. apply set_eq. intros x.
    rewrite elem_of_list_to_set, He, elem_of_app, elem_of_union, !elem_of_list_to_set. done.
  - split; [simpl; by rewrite <-app_assoc|]. exists (foldl (fun b j => removeOne j b) l k).
    destruct (remove_all k l Hl) as [Hd He]. split_and!; [simpl; by rewrite Hm|done|].
    destruct k as [|j k]; [by destruct Hn|]. apply set_eq. intros x.
    rewrite elem_of_list_to_set, He, elem_of_difference, !elem_of_list_to_set. done.
Qed.

(** C34: Once the list was fetched, if it names no JID twice, the cached list follows the server:
    after any pushes, none of which unblocks all JIDs at once, it holds each JID once that was in
    it or was blocked since, and not unblocked after that. Each push of the own account is
    reported and answered with a result, each other one is answered with the error forbidden and
    changes nothing. (A push that unblocks all JIDs is ignored, see unblock_all_ignored.) *)
Theorem blocklist_tracks ps m l : blocklist m = Some l -> NoDup l ->
  Forall (fun p => ~ unblocks_all p) (authentic ps) ->
  b_out (receive_pushes ps m) = b_out m ++ concat (map told ps) /\
  exists l', blocklist (receive_pushes ps m) = Some l' /\ NoDup l' /\
    list_to_set l' = foldl pushed (list_to_set l) (authentic ps) :> gset string.
Proof.
  revert m l. induction ps as [|[[from id] p] ps IH]; intros m l Hm Hl Hall.
  { split; [by rewrite app_nil_r|by exists l]. }
  change (receive_pushes ((from, id, p) :: ps) m)
    with (receive_pushes ps (blocking_handleStanza jidBare memory (push_stanza from id p) m).1).
  cbn [map concat]. cbn [authentic omap list_omap fst snd] in *. fold (authentic ps) in *. destruct (may_push from) eqn:Hp.
  - apply Forall_cons in Hall as [Hp' Hall]. destruct (push_applied id from p m l Hm Hl Hp Hp') as (Ho & l1 & H1 & Hd1 & He1).
    destruct (IH _ l1 H1 Hd1 Hall) as (Ho' & l' & Hb & Hd & He).
    split; [rewrite Ho', Ho; by rewrite app_assoc|]. exists l'. split_and!; [done|done|]. cbn [foldl]. by rewrite He, He1.
  - rewrite push_handled. cbv zeta. rewrite (validity from m l Hm), Hp. cbn [fst].
    destruct (IH (b_emit [BReply (sendIqReply id from (ReplyError
      (StanzaError.error_of memory StanzaError.Cancel Forbidden "Forbidden.")))] m) l Hm Hl Hall) as (Ho & l' & Hb & Hd & He).
    split; [|by exists l']. rewrite Ho. unfold told at 2. rewrite Hp. simpl. by rewrite <-app_assoc.
Qed.

(** An empty unblock, which XEP-0191 sends when all JIDs were unblocked, is accepted and
    leaves the list as it was. *)
Theorem unblock_all_ignored id m l : blocklist m = Some l ->
  blocklist (blocking_handleStanza jidBare memory (push_stanza jidBare id (PushUnblock [])) m).1 = Some l.
Proof.
  intros Hm. rewrite push_handled. cbv zeta. rewrite (validity jidBare m l Hm). unfold may_push.
  rewrite bool_decide_eq_true_2 by by right. simpl. by rewrite Hm.
Qed.

(** *** Fetching the list *)

Fixpoint fetches (n : nat) m : BlockingManager := match n with O => m | S n => fetches n (fetchBlocklist m) end.
Definition is_request (o : BlockingOutput) : option unit := match o with BSent "get" _ ActionList _ => Some tt | _ => None end.
Definition sent_requests (os : list BlockingOutput) : nat := length (omap is_request os).
Definition finished (o : BlockingOutput) : option (nat * IqResponse (Blocking ActionList)) :=
  match o with BFinished p x => Some (p, x) | _ => None end.

Lemma fetches_open n m : blocklist m = None -> openPromises m <> [] ->
  fetches n m = m <| openPromises ::= fun l => l ++ seq (b_promises m) n |> <| b_promises ::= fun k => (k + n)%nat |>.
Proof.
  intros Hm Hp. revert m Hm Hp. induction n as [|n IH]; intros m Hm Hp.
  - destruct m; cbn in *. by rewrite app_nil_r, Nat.add_0_r.
  - cbn [fetches].
    assert (fetchBlocklist m = m <| b_promises ::= S |> <| openPromises ::= fun l => l ++ [b_promises m] |>) as ->.
    { unfold fetchBlocklist. destruct m as [bl op bp bi bo]; cbn in *. rewrite Hm, length_app. destruct op; [done|].
      simpl. by rewrite Nat.add_1_r. }
    rewrite IH; [|done|by destruct m, openPromises0].
    destruct m; cbn. by rewrite <-app_assoc, Nat.add_succ_r.
Qed.
(** However many callers ask for the list before the server has answered, one
    request is sent, and the answer finishes each caller's promise once, in their order. *)
Theorem fetch_once n r : (0 < n)%nat ->
  let m := fetches n newBlocking in
  let result := parseIqResponse (T := Blocking ActionList) memory r in
  let m' := blocklistResponse memory r m in
  sent_requests (b_out m') = 1%nat /\ openPromises m' = [] /\
  omap finished (b_out m') = map (fun p => (p, result)) (seq 0 n) /\
  blocklist m' = match result with Payload b => Some (jids b) | _ => None end.
Proof.
  intros Hn m result m'. destruct n as [|n]; [lia|].
  assert (m = newBlocking <| openPromises := seq 0 (S n) |> <| b_promises := S n |> <| b_ids := b_ids m |> <| b_out := b_out m |> /\
    b_out m = [BSent "get" (Random.generateSequentialStanzaId 0).1 ActionList []]) as [Hm Ho].
  { unfold m. cbn [fetches]. rewrite fetches_open by done. split; reflexivity. }
  assert (openPromises m = seq 0 (S n) /\ blocklist m = None) as [Hp Hb] by (rewrite Hm; done). clearbody m. clear Hm.
  subst m'. unfold blocklistResponse. fold result. rewrite Hb. clearbody result.
  assert (forall ps, omap finished
    (map (fun p => BFinished p result) ps) = map (fun p => (p, result)) ps) as Hfin.
  { induction ps as [|p ps IHp]; [done|]. simpl. f_equal. exact IHp. }
  assert (forall ps, omap is_request
    (map (fun p => BFinished p result) ps) = []) as Hsent by by induction ps.
  destruct result as [b| | | |]; cbn [b_emit upd b_out blocklist openPromises]; rewrite Hp, Ho; unfold sent_requests;
    rewrite ?omap_app, ?Hfin, ?Hsent; (split_and!; [done|done|done|exact Hb || done]).
Qed.
End Pushes.

Lemma blocking_spec_witness :
  let a := {| a_user := "u"; a_domain := "d.org"; a_resource := "r" |} in
  (exists bs ps, blockingState ["x"; "d.org/r"] (address_text a) = Blocked bs ps).
Proof.
  intros a. apply (blocking_spec ["x"; "d.org/r"] a); [by split_and!|].
  exists {| a_user := ""; a_domain := "d.org"; a_resource := "r" |}. split; [split; auto|].
  apply list_elem_of_In. simpl. by right; left.
Defined.
Definition sample_subscribed : @BlockingManager text_types :=
  (newBlocking (H := text_types)) <| blocklist := Some ["a@x"; "b@x"] |>.
Lemma blocklist_tracks_witness : exists l',
  blocklist (receive_pushes "me@x" 0 [("", "1", PushBlock ["c@x"; "a@x"]); ("evil@x", "2", PushUnblock ["c@x"]);
    ("me@x", "3", PushUnblock ["b@x"])] sample_subscribed) = Some l' /\ NoDup l' /\
  list_to_set l' = ({["a@x"; "c@x"]} : gset string).
Proof.
  destruct (blocklist_tracks (H := text_types) "me@x" 0 [("", "1", PushBlock ["c@x"; "a@x"]); ("evil@x", "2", PushUnblock ["c@x"]);
    ("me@x", "3", PushUnblock ["b@x"])] sample_subscribed ["a@x"; "b@x"]) as (_ & l' & Hb & Hn & He);
    [reflexivity|apply (bool_decide_unpack _); by vm_compute|by repeat constructor|].
  exists l'. split; [exact Hb|]. split; [exact Hn|]. rewrite He. by vm_compute.
Defined.
Lemma fetch_once_witness :
  sent_requests (b_out (blocklistResponse (H := text_types) 0 None (fetches 3 newBlocking))) = 1%nat.
Proof. apply (fetch_once (H := text_types) 0 3 None). lia. Defined.
