(* ===== verification/RosterIq.v ===== *)
(** * Roster IQs (QXmppRosterIq.cpp)

    The items of a roster and the IQ that carries them. A QSet of groups is a
    finite set, written in the order of its elements. The enumeration of a
    subscription is written by the code's own table, where NotSet is the empty
    text and an unknown text leaves the type as it was. *)
From S2P Require Import Prelude Utils Dom Base64 XmlCodec StreamManagement SaslXml Stanza DataForm TransferIq.

Definition ns_roster : string := "jabber:iq:roster".
Definition ns_mix_roster : string := "urn:xmpp:mix:roster:0".
Definition ns_qxmpp_export : string := "org.qxmpp.export".

(** ** Items *)

Inductive SubscriptionType := SubNone | SubFrom | SubTo | SubBoth | SubRemove | SubNotSet.
#[export] Instance SubscriptionType_eq_dec : EqDecision SubscriptionType.
Proof. solve_decision. Defined.

Record RosterItem := {
  ri_bareJid : string; ri_type : SubscriptionType; ri_name : string; ri_ask : string;
  ri_groups : gset string; ri_approved : bool; ri_isMixChannel : bool; ri_mixParticipantId : string }.
#[export] Instance RosterItem_eta : Eta RosterItem := fun i =>
  {| ri_bareJid := ri_bareJid i; ri_type := ri_type i; ri_name := ri_name i; ri_ask := ri_ask i;
     ri_groups := ri_groups i; ri_approved := ri_approved i; ri_isMixChannel := ri_isMixChannel i;
     ri_mixParticipantId := ri_mixParticipantId i |}.
#[export] Instance RosterItem_eq_dec : EqDecision RosterItem.
Proof. solve_decision. Defined.

Definition newItem : RosterItem :=
  {| ri_bareJid := ""; ri_type := SubNotSet; ri_name := ""; ri_ask := ""; ri_groups := ∅; ri_approved := false;
     ri_isMixChannel := false; ri_mixParticipantId := "" |}.

Definition getSubscriptionTypeStr (i : RosterItem) : string :=
  match ri_type i with
  | SubNotSet => "" | SubNone => "none" | SubBoth => "both" | SubFrom => "from" | SubTo => "to" | SubRemove => "remove"
  end.
Definition setSubscriptionTypeFromStr (s : string) (i : RosterItem) : RosterItem :=
  if decide (s = "") then i <| ri_type := SubNotSet |>
  else if decide (s = "none") then i <| ri_type := SubNone |>
  else if decide (s = "both") then i <| ri_type := SubBoth |>
  else if decide (s = "from") then i <| ri_type := SubFrom |>
  else if decide (s = "to") then i <| ri_type := SubTo |>
  else if decide (s = "remove") then i <| ri_type := SubRemove |>
  else i.

Definition rosterItem_parse (el : Dom) (i : RosterItem) : RosterItem :=
  let i := i <| ri_name := attribute el "name" |> <| ri_bareJid := attribute el "jid" |> in
  let i := (setSubscriptionTypeFromStr (attribute el "subscription") i) <| ri_ask := attribute el "ask" |> in
  let approved := attribute el "approved" in
  let i := i <| ri_approved := bool_decide (approved = "1") || bool_decide (approved = "true") |>
             <| ri_groups := list_to_set (parseTextElements el "group" ns_roster) |> in
  let channel := firstChildElement el "channel" ns_mix_roster in
  if isNull channel then i
  else i <| ri_isMixChannel := true |> <| ri_mixParticipantId := attribute channel "participant-id" |>.

Definition rosterItem_values (i : RosterItem) : list (list Item) := [
  Attribute "jid" (ri_bareJid i); OptionalAttribute "name" (ri_name i);
  OptionalAttribute "subscription" (getSubscriptionTypeStr i); OptionalAttribute "ask" (ri_ask i);
  OptionalBoolAttribute "approved" (ri_approved i) false;
  TextElements "group" (elements (ri_groups i));
  OptionalContent (ri_isMixChannel i)
    [[Element ("channel", ns_mix_roster) [OptionalAttribute "participant-id" (ri_mixParticipantId i)]]]].
(** With [external] the item carries its name space. *)
Definition rosterItem_toXml (external : bool) (i : RosterItem) : Item :=
  if external then Element ("item", ns_roster) (rosterItem_values i) else ElementN "item" (rosterItem_values i).

#[export] Instance RosterItem_xml : XmlElement RosterItem := {
  XmlTag := ("item", ns_roster);
  fromDom el := Some (rosterItem_parse el newItem);
  toXml := rosterItem_toXml false;
}.

(** ** The IQ *)

Record RosterIq := { r_items : list RosterItem; r_version : string; r_mixAnnotate : bool }.
#[export] Instance RosterIq_content : IqContent RosterIq := {
  parseElementFromChild el :=
    let q := firstChildElement el "query" "" in
    {| r_version := attribute q "ver"; r_items := parseChildElements RosterItem q;
       r_mixAnnotate := negb (isNull (firstChildElement q "annotate" ns_mix_roster)) |};
  toXmlElementFromChild r := [Element ("query", ns_roster) [
    OptionalAttribute "ver" (r_version r);
    OptionalContent (r_mixAnnotate r) [[Element ("annotate", ns_mix_roster) []]];
    Children (r_items r)]];
}.

(** ** Exported rosters (RosterData) *)

(** The test of the element lets every tag pass in the right name space, and
    every name space with the right tag. *)
Definition RosterData_fromDom (el : Dom) : option (list RosterItem) :=
  if decide (tagName el <> "roster" /\ namespaceURI el <> ns_qxmpp_export) then None
  else Some (parseChildElements RosterItem el).
Definition RosterData_toXml (items : list RosterItem) : Item :=
  ElementN "roster" [map (rosterItem_toXml true) items].

(** ** Properties *)

Lemma subscription_back i j : setSubscriptionTypeFromStr (getSubscriptionTypeStr i) j = j <| ri_type := ri_type i |>.
Proof. unfold getSubscriptionTypeStr. by destruct (ri_type i). Qed.

(** Only a channel has a participant id. *)
Definition item_ok (i : RosterItem) : Prop := ri_isMixChannel i = false -> ri_mixParticipantId i = "".

Lemma rosterItem_back i : item_ok i ->
  rosterItem_parse (Elem "item" ns_roster (atts (concat (rosterItem_values i)))
    (seg ns_roster (concat (rosterItem_values i)))) newItem = i.
Proof.
  intros Hok. unfold rosterItem_values, rosterItem_parse.
  assert (forall m, find_attr m (atts (OptionalContent (ri_isMixChannel i)
    [[Element ("channel", ns_mix_roster) [OptionalAttribute "participant-id" (ri_mixParticipantId i)]]])) = None) as Ha
    by (intros m; by destruct (ri_isMixChannel i)).
  unfold parseTextElements. codec_norm. rewrite !Ha. codec_norm. rewrite subscription_back, seg_OptionalContent.
  destruct i as [j t n a g ap mix pid]. unfold item_ok in Hok. cbn in Hok |- *.
  assert (bool_decide (default "" (if eqb ap false then None else Some (if ap then "true" else "false")) = "1")
    || bool_decide (default "" (if eqb ap false then None else Some (if ap then "true" else "false")) = "true") = ap) as ->
    by by destruct ap.
  destruct mix; cbn [upd].
  - rewrite !app_nil_r, find_own by discriminate. rewrite default_found, isNull_Elem by discriminate.
    rewrite attribute_eq. change (omap item_attr ?l) with (atts l). rewrite opt_attr_own, default_opt_attr.
    by rewrite texts_of_TextElements, list_to_set_elements_L.
  - rewrite find_child_nil, isNull_none. cbn [app]. rewrite app_nil_r, texts_of_TextElements, list_to_set_elements_L.
    by rewrite Hok.
Qed.
#[export] Instance RosterItem_codec : XmlCodec RosterItem.
Proof.
  exists item_ok (fun ns => ns = ns_roster); [split; discriminate|reflexivity|].
  intros i ns ->. eexists _, _. split; [apply toDom_ElementN|]. intros Hok.
  cbn [fromDom RosterItem_xml XmlTag]. f_equal. by apply rosterItem_back.
Defined.
#[export] Instance RosterIq_codec `{QtTypes} : IqCodec RosterIq.
Proof.
  exists (fun r => all_ok (r_items r)); [payload..|].
  intros [its v b] a err Hok _. simpl in Hok. cbn [parseElementFromChild toXmlElementFromChild RosterIq_content].
  rewrite seg_Element, firstChildElement_find, find_first by auto. cbn [default concat]. unfold Datatypes.id.
  unfold parseChildElements. cbn [r_items r_version r_mixAnnotate].
  destruct b; cbn [OptionalContent concat]; codec_norm; cbn [app atts omap list_omap item_attr].
  all: by rewrite filter_Children.
Defined.

(** An exported roster is imported as it was. *)
Lemma rosterData_back items ns : all_ok items ->
  exists d, toDom ns (RosterData_toXml items) = [d] /\ RosterData_fromDom d = Some items.
Proof.
  intros Hok. eexists. split; [apply toDom_ElementN|]. unfold RosterData_fromDom. cbn [tagName].
  rewrite decide_False by tauto. f_equal. unfold parseChildElements. rewrite iterChildElements_eq.
  cbn [concat]. rewrite app_nil_r. induction Hok as [|i items Hi Hok IH]; [done|]. cbn [map].
  change (seg ns (rosterItem_toXml true i :: ?l)) with (seg ns [Element ("item", ns_roster) (rosterItem_values i)] ++ seg ns l).
  rewrite seg_Element, filter_app, omap_app. rewrite IH.
  rewrite filter_cons_True by (rewrite child_matches_elem by discriminate; by rewrite !bool_decide_eq_true_2).
  cbn [filter omap list_omap fromDom RosterItem_xml list_filter]. rewrite rosterItem_back by exact Hi. done.
Qed.
