(* ===== verification/Uri.v ===== *)
(** * XMPP URIs (QXmppUri.cpp)

    A URI names a JID and may hold a query, whose first item is its kind and
    whose further items are its parameters. QUrl and QUrlQuery are a class: a
    URL in its parts, the text it is written as and read from, and the forms a
    query keeps and shows the text of its items in. *)
From S2P Require Import Prelude Utils Dom.

(** ** QUrl and QUrlQuery *)

(** No query and an empty query are the same for QUrl::setQuery(QUrlQuery); the
    items of a query are kept as QUrlQuery stores them. *)
Record Url := { scheme : string; path : string; items : list (string * string) }.
#[export] Instance Url_eq_dec : EqDecision Url.
Proof. solve_decision. Defined.
Class UrlTypes := {
  url_parse : string -> option Url;    (* the constructor and isValid *)
  url_encoded : Url -> string;         (* toEncoded *)
  stored : string -> string;           (* what addQueryItem keeps *)
  fullyDecoded : string -> string;     (* queryItemValue(..., FullyDecoded) *)
  prettyDecoded : string -> string;    (* queryItems() *)
}.

(** ** Queries *)

Inductive MessageType := MError | MNormal | MChat | MGroupChat | MHeadline.
#[export] Instance MessageType_eq_dec : EqDecision MessageType.
Proof. solve_decision. Defined.
#[export] Instance MessageType_data : EnumData MessageType := {
  enum_value t := match t with MError => 0 | MNormal => 1 | MChat => 2 | MGroupChat => 3 | MHeadline => 4 end;
  Values := [(MError, "error"); (MNormal, "normal"); (MChat, "chat"); (MGroupChat, "groupchat"); (MHeadline, "headline")] }.

(** The std::any of a URI, as far as toString serializes it. *)
Inductive UriQuery :=
  | UCommand (node action : string)
  | UInvite (inviteeJid password : string)
  | UJoin (password : string)
  | ULogin (password : string)
  | UMessage (subject body thread id from : string) (type : option MessageType)
  | UUnregister | UUnsubscribe | URegister | URemove
  | URoster (name group : string)
  | USubscribe
  | UTrustMessage (encryption : string) (trustKeyIds distrustKeyIds : list string)
  | UCustom (query : string) (parameters : list (string * string)).
Record Uri := { u_jid : string; u_query : option UriQuery }.

Section Uri.
Context `{UrlTypes}.
Notation UrlQuery := (list (string * string)).
Implicit Types q : UrlQuery.

Definition addQueryItem (key value : string) (q : UrlQuery) : UrlQuery := q ++ [(stored key, stored value)].
Definition addKeyValuePairToQuery (key value : string) (q : UrlQuery) : UrlQuery :=
  if decide (value = "") then q else addQueryItem key value q.
Definition allQueryItemValues (q : UrlQuery) (key : string) : list string :=
  map (fun x => fullyDecoded x.2) (filter (fun x => x.1 = stored key) q).
Definition queryItemValue (q : UrlQuery) (key : string) : string := default "" (head (allQueryItemValues q key)).
Definition queryItems (q : UrlQuery) : list (string * string) :=
  map (fun x => (prettyDecoded x.1, prettyDecoded x.2)) q.

Definition serializeUrlQuery (u : UriQuery) (q : UrlQuery) : UrlQuery :=
  match u with
  | UCommand node action =>
      addKeyValuePairToQuery "action" action (addKeyValuePairToQuery "node" node (addQueryItem "command" "" q))
  | UInvite jid password =>
      addKeyValuePairToQuery "password" password (addKeyValuePairToQuery "jid" jid (addQueryItem "invite" "" q))
  | UJoin password => addKeyValuePairToQuery "password" password (addQueryItem "join" "" q)
  | ULogin password => addKeyValuePairToQuery "password" password (addQueryItem "login" "" q)
  | UMessage subject body thread id from type =>
      let q := addKeyValuePairToQuery "id" id (addKeyValuePairToQuery "from" from (addQueryItem "message" "" q)) in
      let q := match type with Some t => addKeyValuePairToQuery "type" (toString t) q | None => q end in
      addKeyValuePairToQuery "thread" thread (addKeyValuePairToQuery "body" body (addKeyValuePairToQuery "subject" subject q))
  | UUnregister => addQueryItem "unregister" "" q
  | UUnsubscribe => addQueryItem "unsubscribe" "" q
  | URegister => addQueryItem "register" "" q
  | URemove => addQueryItem "remove" "" q
  | URoster name group =>
      addKeyValuePairToQuery "group" group (addKeyValuePairToQuery "name" name (addQueryItem "roster" "" q))
  | USubscribe => addQueryItem "subscribe" "" q
  | UTrustMessage encryption trust distrust =>
      let q := addKeyValuePairToQuery "encryption" encryption (addQueryItem "trust-message" "" q) in
      let q := foldl (fun q id => addKeyValuePairToQuery "trust" id q) q trust in
      foldl (fun q id => addKeyValuePairToQuery "distrust" id q) q distrust
  | UCustom query parameters =>
      foldl (fun q p => addQueryItem p.1 p.2 q) (addQueryItem query "" q) parameters
  end.

Definition parseCommandQuery (q : UrlQuery) : UriQuery := UCommand (queryItemValue q "node") (queryItemValue q "action").
Definition parseInviteQuery (q : UrlQuery) : UriQuery := UInvite (queryItemValue q "jid") (queryItemValue q "password").
Definition parseJoinQuery (q : UrlQuery) : UriQuery := UJoin (queryItemValue q "password").
Definition parseLoginQuery (q : UrlQuery) : UriQuery := ULogin (queryItemValue q "password").
Definition parseMessageQuery (q : UrlQuery) : UriQuery :=
  UMessage (queryItemValue q "subject") (queryItemValue q "body") (queryItemValue q "thread")
    (queryItemValue q "id") (queryItemValue q "from") (fromString (queryItemValue q "type")).
Definition parseRosterQuery (q : UrlQuery) : UriQuery := URoster (queryItemValue q "name") (queryItemValue q "group").
Definition parseTrustMessageQuery (q : UrlQuery) : UriQuery :=
  UTrustMessage (queryItemValue q "encryption") (allQueryItemValues q "trust") (allQueryItemValues q "distrust").
(** The query is not empty. *)
Definition parseCustomQuery (q : UrlQuery) : UriQuery :=
  match queryItems q with
  | [] => UCustom "" []
  | i :: q => UCustom i.1 q
  end.

Definition parseQuery (kind : string) (q : UrlQuery) : UriQuery :=
  if decide (kind = "command") then parseCommandQuery q
  else if decide (kind = "invite") then parseInviteQuery q
  else if decide (kind = "join") then parseJoinQuery q
  else if decide (kind = "login") then parseLoginQuery q
  else if decide (kind = "message") then parseMessageQuery q
  else if decide (kind = "register") then URegister
  else if decide (kind = "remove") then URemove
  else if decide (kind = "roster") then parseRosterQuery q
  else if decide (kind = "subscribe") then USubscribe
  else if decide (kind = "trust-message") then parseTrustMessageQuery q
  else if decide (kind = "unregister") then UUnregister
  else if decide (kind = "unsubscribe") then UUnsubscribe
  else parseCustomQuery q.

Inductive UriError := InvalidUri | WrongScheme (scheme : string) | InvalidQuery.
Definition uri_fromString (input : string) : UriError + Uri :=
  match url_parse input with
  | None => inl InvalidUri
  | Some url =>
      if decide (scheme url <> "xmpp") then inl (WrongScheme (scheme url))
      else match queryItems (items url) with
           | [] => inr {| u_jid := path url; u_query := None |}
           | (kind, value) :: _ =>
               if decide (value <> "") then inl InvalidQuery
               else inr {| u_jid := path url; u_query := Some (parseQuery kind (items url)) |}
           end
  end.
Definition uri_url (u : Uri) : Url :=
  {| scheme := "xmpp"; path := u_jid u;
     items := match u_query u with Some q => serializeUrlQuery q [] | None => [] end |}.
Definition uri_toString (u : Uri) : string := url_encoded (uri_url u).
End Uri.

(** ** Properties *)

Definition kinds : list string :=
  ["command"; "invite"; "join"; "login"; "message"; "register"; "remove"; "roster"; "subscribe";
   "trust-message"; "unregister"; "unsubscribe"].
(** The keys the code writes. *)
Definition keys : list string :=
  ["node"; "action"; "jid"; "password"; "from"; "id"; "type"; "subject"; "body"; "thread"; "name"; "group";
   "encryption"; "trust"; "distrust"].

Section UriTheory.
Context `{UrlTypes}.

(** What QUrlQuery is documented to do with a text without characters to encode:
    it comes back as it was, so the keys of the code are kept apart. *)
Definition plain (v : string) : Prop := fullyDecoded (stored v) = v /\ prettyDecoded (stored v) = v.
Definition plain_query (u : UriQuery) : Prop :=
  match u with
  | UCommand a b | UInvite a b | URoster a b => plain a /\ plain b
  | UJoin a | ULogin a => plain a
  | UMessage a b c d e _ => plain a /\ plain b /\ plain c /\ plain d /\ plain e
  | UTrustMessage a l l' => plain a /\ Forall (fun v => plain v /\ v <> "") l /\ Forall (fun v => plain v /\ v <> "") l'
  | UCustom k ps => plain k /\ k ∉ kinds /\ Forall (fun p => plain p.1 /\ plain p.2) ps
  | _ => True
  end.
Definition plain_words : Prop :=
  plain "" /\ Forall plain kinds /\ Forall plain keys /\ Forall (fun t => plain (toString (E := MessageType) t))
    [MError; MNormal; MChat; MGroupChat; MHeadline].

Lemma plain_inj v w : plain v -> plain w -> stored v = stored w -> v = w.
Proof. intros [_ Hv] [_ Hw] He. congruence. Qed.

Definition pairs (key value : string) : list (string * string) :=
  if decide (value = "") then [] else [(stored key, stored value)].
Lemma add_pairs key value q : addKeyValuePairToQuery key value q = q ++ pairs key value.
Proof. unfold addKeyValuePairToQuery, pairs. case_decide; [by rewrite app_nil_r|done]. Qed.
Lemma values_app q q' key : allQueryItemValues (q ++ q') key = allQueryItemValues q key ++ allQueryItemValues q' key.
Proof. unfold allQueryItemValues. by rewrite filter_app, map_app. Qed.
Lemma values_one key k v : plain key -> plain k -> plain v ->
  allQueryItemValues [(stored k, stored v)] key = if decide (k = key) then [v] else [].
Proof.
  intros Hkey Hk Hv. unfold allQueryItemValues. case_decide as He.
  - subst. rewrite filter_cons_True by done. simpl. by rewrite (proj1 Hv).
  - rewrite filter_cons_False; [done|]. simpl. intros He'. by apply He, plain_inj.
Qed.
Lemma values_pairs key k v : plain key -> plain k -> plain v ->
  allQueryItemValues (pairs k v) key = if decide (k = key /\ v <> "") then [v] else [].
Proof.
  intros Hkey Hk Hv. unfold pairs. destruct (decide (v = "")) as [->|Hne].
  - rewrite decide_False by tauto. done.
  - rewrite values_one by done. repeat case_decide; tauto || done.
Qed.
Lemma values_many key k l : plain key -> plain k -> Forall (fun v => plain v /\ v <> "") l ->
  allQueryItemValues (concat (map (pairs k) l)) key = if decide (k = key) then l else [].
Proof.
  intros Hkey Hk Hl. induction Hl as [|v l [Hv Hne] Hl IH]; [simpl; by case_decide|].
  cbn [map concat]. rewrite values_app, values_pairs, IH by done. repeat case_decide; tauto || done.
Qed.
Lemma plain_key key : plain_words -> key ∈ keys ++ kinds -> plain key.
Proof.
  intros (_ & Hk & Hw & _) Hin. apply elem_of_app in Hin as [Hin|Hin].
  - rewrite Forall_forall in Hw. auto.
  - rewrite Forall_forall in Hk. auto.
Qed.
Lemma plain_type t : plain_words -> plain (toString (E := MessageType) t).
Proof.
  intros (_ & _ & _ & Ht). repeat (apply Forall_cons in Ht as [? Ht]). by destruct t.
Qed.
Lemma head_value (v : string) : default "" (head (if decide (v <> "") then [v] else [])) = v.
Proof. case_decide as Hv; [done|]. destruct (decide (v = "")); [done|tauto]. Qed.

(** A query is its kind and its parameters. *)
Definition kind_of (u : UriQuery) : string :=
  match u with
  | UCommand _ _ => "command" | UInvite _ _ => "invite" | UJoin _ => "join" | ULogin _ => "login"
  | UMessage _ _ _ _ _ _ => "message" | UUnregister => "unregister" | UUnsubscribe => "unsubscribe"
  | URegister => "register" | URemove => "remove" | URoster _ _ => "roster" | USubscribe => "subscribe"
  | UTrustMessage _ _ _ => "trust-message" | UCustom k _ => k
  end.
Definition params (u : UriQuery) : list (string * string) :=
  match u with
  | UCommand a b => pairs "node" a ++ pairs "action" b
  | UInvite a b => pairs "jid" a ++ pairs "password" b
  | UJoin a | ULogin a => pairs "password" a
  | UMessage a b c d e t => pairs "from" e ++ pairs "id" d ++
      match t with Some t => pairs "type" (toString t) | None => [] end ++
      pairs "subject" a ++ pairs "body" b ++ pairs "thread" c
  | URoster a b => pairs "name" a ++ pairs "group" b
  | UTrustMessage a l l' => pairs "encryption" a ++ concat (map (pairs "trust") l) ++ concat (map (pairs "distrust") l')
  | UCustom _ ps => map (fun p => (stored p.1, stored p.2)) ps
  | _ => []
  end.
Lemma add_many key l q : foldl (fun q id => addKeyValuePairToQuery key id q) q l = q ++ concat (map (pairs key) l).
Proof.
  revert q. induction l as [|v l IH]; intros q; simpl; [by rewrite app_nil_r|].
  by rewrite IH, add_pairs, <-app_assoc.
Qed.
Lemma add_items ps q : foldl (fun q p => addQueryItem p.1 p.2 q) q ps = q ++ map (fun p => (stored p.1, stored p.2)) ps.
Proof.
  revert q. induction ps as [|p ps IH]; intros q; simpl; [by rewrite app_nil_r|].
  rewrite IH. unfold addQueryItem. by rewrite <-app_assoc.
Qed.
Lemma serialized u : serializeUrlQuery u [] = (stored (kind_of u), stored "") :: params u.
Proof.
  destruct u as [| | | |a b c d e [t|]| | | | | | |e l l'|]; cbn [serializeUrlQuery kind_of params];
    rewrite ?add_items, ?add_many, ?add_pairs, ?app_nil_l, <-?app_assoc; reflexivity.
Qed.

Lemma plain_kind u : plain_words -> plain_query u -> plain (kind_of u).
Proof.
  intros (_ & Hk & _) Hu. rewrite Forall_forall in Hk.
  destruct u; try (apply Hk; apply (bool_decide_unpack _); by vm_compute). apply Hu.
Qed.

(** Reads a key from a query that was written pair by pair. *)
Ltac plain_solve Hw := done || by apply (plain_type _ Hw) || by apply Hw || (apply (plain_key _ Hw); apply (bool_decide_unpack _); by vm_compute).
Ltac read_values Hw :=
  unfold queryItemValue; cbn [params kind_of];
  match goal with |- context [(stored ?k, stored ?v) :: ?l] => change ((stored k, stored v) :: l) with ([(stored k, stored v)] ++ l) end;
  rewrite ?values_app;
  repeat first
    [ rewrite values_one by plain_solve Hw | rewrite values_pairs by plain_solve Hw | rewrite values_many by plain_solve Hw ].
Lemma same_key {A} (k : string) (P : Prop) `{Decision P} (x y : A) :
  (if decide (k = k /\ P) then x else y) = if decide P then x else y.
Proof. repeat case_decide; tauto. Qed.
Ltac read_keys :=
  repeat match goal with
  | |- context [if decide (?k = ?k' /\ ?P) then _ else _] =>
      first [ rewrite (decide_False (P := k = k' /\ P)) by (intros [? ?]; discriminate) | rewrite (same_key k P) ]
  | |- context [if decide (?k = ?k') then _ else _] =>
      first [ rewrite (decide_False (P := k = k')) by discriminate | rewrite (decide_True (P := k = k)) by reflexivity ]
  | |- context [[] ++ _] => rewrite app_nil_l
  | |- context [_ ++ []] => rewrite app_nil_r
  end.
Ltac parse_kind := unfold parseQuery; cbn [kind_of]; read_keys;
  unfold parseCommandQuery, parseInviteQuery, parseJoinQuery, parseLoginQuery, parseMessageQuery, parseRosterQuery, parseTrustMessageQuery.

Lemma parse_back u : plain_words -> plain_query u -> parseQuery (kind_of u) (serializeUrlQuery u []) = u.
Proof.
  intros Hw Hu. rewrite serialized.
  destruct u as [a b|a b|a|a|a b c d e t| | | | |a b| |e l l'|k ps]; simpl in Hu; try done.
  - destruct Hu. parse_kind. read_values Hw. read_keys. by rewrite !head_value.
  - destruct Hu. parse_kind. read_values Hw. read_keys. by rewrite !head_value.
  - parse_kind. read_values Hw. read_keys. by rewrite !head_value.
  - parse_kind. read_values Hw. read_keys. by rewrite !head_value.
  - destruct Hu as (? & ? & ? & ? & ?). parse_kind.
    destruct t as [t|]; read_values Hw; read_keys; rewrite !head_value; [|done].
    by destruct t.
  - destruct Hu. parse_kind. read_values Hw. read_keys. by rewrite !head_value.
  - destruct Hu as (? & Hl & Hl'). parse_kind.
    read_values Hw. read_keys. by rewrite !head_value.
  - destruct Hu as (Hk & Hnk & Hps). unfold parseQuery, kind_of, kinds in *.
    repeat (rewrite decide_False by set_solver). unfold parseCustomQuery, queryItems. cbn [map params fst snd].
    rewrite (proj2 Hk). f_equal. induction Hps as [|[a b] ps [Ha Hb] Hps IH]; [done|].
    cbn [map fst snd] in *. by rewrite (proj2 Ha), (proj2 Hb), IH.
Qed.

(** A URI is read back from the text it is written as, its JID with its query and all
    parameters, for texts QUrlQuery keeps as they are. *)
Theorem uri_roundtrip u : plain_words -> match u_query u with Some q => plain_query q | None => True end ->
  url_parse (url_encoded (uri_url u)) = Some (uri_url u) ->
  uri_fromString (uri_toString u) = inr u.
Proof.
  intros Hw Hu Hp. unfold uri_fromString, uri_toString. rewrite Hp. destruct u as [j [q|]]; cbn in Hu |- *; [|done].
  rewrite serialized. cbn [queryItems map fst snd]. rewrite (proj2 (proj1 Hw)), decide_False by tauto.
  rewrite (proj2 (plain_kind q Hw Hu)).
  rewrite <-serialized, parse_back by done. done.
Qed.
End UriTheory.

(** A QUrl for texts without delimiters. *)
Definition join_pair (p : string * string) : string :=
  if decide (p.2 = "") then p.1 else p.1 +:+ "=" +:+ p.2.
Definition split_pair (s : string) : string * string :=
  match Jid.split "="%char s with [k; v] => (k, v) | _ => (s, "") end.
Definition sample_url : UrlTypes := {|
  url_parse s :=
    match Jid.split ":"%char s with
    | [sc; rest] =>
        match Jid.split "?"%char rest with
        | [p; q] => Some {| scheme := sc; path := p; items := map split_pair (Jid.split ";"%char q) |}
        | _ => Some {| scheme := sc; path := rest; items := [] |}
        end
    | _ => None
    end;
  url_encoded u := scheme u +:+ ":" +:+ path u +:+
    (if decide (items u = []) then "" else "?" +:+ String.concat ";" (map join_pair (items u)));
  stored s := s; fullyDecoded s := s; prettyDecoded s := s |}.
Lemma uri_roundtrip_witness :
  let u := {| u_jid := "romeo@montague.net"; u_query := Some (UMessage "Test" "" "" "7" "" (Some MChat)) |} in
  uri_fromString (H := sample_url) (uri_toString (H := sample_url) u) = inr u.
Proof.
  intros u. apply (uri_roundtrip (H := sample_url) u); [repeat constructor|repeat constructor|]. by vm_compute.
Defined.
Example uri_text : uri_toString (H := sample_url)
  {| u_jid := "a@b"; u_query := Some (UTrustMessage "e" ["k1"; "k2"] ["k3"]) |} =
  "xmpp:a@b?trust-message;encryption=e;trust=k1;trust=k2;distrust=k3".
Proof. by vm_compute. Qed.
