(* ===== verification/MovedManager.v ===== *)
(** * Moved accounts (QXmppMovedManager.cpp)

    A contact that moved to a new account names its old one when it asks for a
    subscription. The manager lets the old JID pass only if the old account's
    statement, an item of its publish-subscribe node or the URI of a gone
    account, names the new one. The request of the item is an asynchronous
    operation: its result is an argument of the continuation. *)
From S2P Require Import Prelude Utils Dom Base64 XmlCodec StreamManagement SaslXml Stanza DataForm TransferIq Presence RosterIq Uri.

(** ** The item (QXmppMovedItem) *)

(** The tests and the parser of the payload of an item. *)
Definition movedItem_isItem (payload : Dom) : bool :=
  if negb (bool_decide (tagName payload = "moved")) || negb (bool_decide (namespaceURI payload = ns_moved)) then false
  else bool_decide (tagName (firstChildElement payload "" "") = "new-jid").
Definition movedItem_parse (payload : Dom) : string := domText (firstChildElement payload "new-jid" "").
Definition movedItem_toXml (newJid : string) : list Item :=
  if decide (newJid = "") then [] else [Element ("moved", ns_moved) [TextElementN "new-jid" newJid]].

Lemma movedItem_back newJid : newJid <> "" ->
  exists d, seg "" (movedItem_toXml newJid) = [d] /\ movedItem_isItem d = true /\ movedItem_parse d = newJid.
Proof.
  intros Hne. unfold movedItem_toXml. rewrite decide_False by done. rewrite seg_Element. eexists. split; [done|].
  cbn [concat]. rewrite app_nil_r, seg_TextElementN. unfold movedItem_isItem, movedItem_parse. split; [by vm_compute|].
  rewrite firstChildElement_find, any_own by discriminate. by rewrite default_found, text_of_text.
Qed.

(** ** The manager *)

(** The result of the request of the item: the item's JID, or an error that may
    come from a stanza. *)
Inductive StatementResult `{QtTypes} :=
  | StatementItem (newJid : string)
  | StatementError (e : option StanzaError.Error).
Inductive MovedResult := MovedSuccess | MovedMismatch | MovedRequestError.

Record MovedManager := { supportedByServer : bool; supportedChanges : nat }.
#[export] Instance MovedManager_eta : Eta MovedManager := fun m =>
  {| supportedByServer := supportedByServer m; supportedChanges := supportedChanges m |}.

Section Moved.
Context `{QtTypes} `{MujiContent} `{UrlTypes}.

Definition movedJidsMatch (newBareJid pepBareJid : string) : MovedResult :=
  if decide (newBareJid = pepBareJid) then MovedSuccess else MovedMismatch.

(** The JID the error of a gone account redirects to. *)
Definition goneJid (e : StanzaError.Error) : string :=
  if decide (StanzaError.condition e <> Gone) then ""
  else match uri_fromString (StanzaError.redirectionUri e) with inr u => u_jid u | inl _ => "" end.
Definition verifyStatement (newBareJid : string) (r : StatementResult) : MovedResult :=
  match r with
  | StatementItem newJid => movedJidsMatch newBareJid newJid
  | StatementError (Some e) =>
      if decide (goneJid e = "") then MovedRequestError else movedJidsMatch newBareJid (goneJid e)
  | StatementError None => MovedRequestError
  end.

(** processSubscriptionRequest, given the roster's entry of the old JID: an
    answer, or the item to request and the presence to process with it. *)
Inductive Processed := Ready (p : Presence) | RequestItem (oldJid newBareJid : string) (p : Presence).
Definition processSubscriptionRequest (entry : RosterItem) (p : Presence) : Processed :=
  match ri_type entry with
  | SubFrom | SubBoth => RequestItem (oldJid p) (Jid.jidToBareJid (from_ (p_stanza p))) p
  | _ => Ready (p <| oldJid := "" |>)
  end.
(** The continuation: the presence, and whether a warning is logged. *)
Definition statementVerified (r : StatementResult) (newBareJid : string) (p : Presence) : Presence * bool :=
  match verifyStatement newBareJid r with
  | MovedSuccess => (p, false)
  | _ => (p <| oldJid := "" |>, true)
  end.

(** notifyContact's stanza. *)
Definition notifyContact (contactBareJid oldBareJid reason : string) : Presence :=
  (newPresence Subscribe) <| p_stanza ::= fun s => s <| to_ := Jid.jidToBareJid contactBareJid |> |>
    <| statusText := reason |> <| oldJid := oldBareJid |>.

(** ** Support by the server *)

Definition setSupportedByServer (b : bool) (m : MovedManager) : MovedManager :=
  if decide (supportedByServer m = b) then m else m <| supportedByServer := b |> <| supportedChanges ::= S |>.
Definition moved_handleDiscoInfo (domain from : string) (features : list string) (m : MovedManager) : MovedManager :=
  if decide (from = "" \/ from = domain)
  then setSupportedByServer (bool_decide (ns_moved ∈ features)) m else m.
Definition resetCachedData (m : MovedManager) : MovedManager := setSupportedByServer false m.
(** The slot of connected: [newStream] if the stream state is NewStream. *)
Definition moved_connected (newStream : bool) (m : MovedManager) : MovedManager :=
  if newStream then resetCachedData m else m.
End Moved.

(** ** Properties *)

Section MovedTheory.
Context `{QtTypes} `{MujiContent} `{UrlTypes}.

(** The old account itself says that it moved to [newBareJid]. *)
Definition statement_names (newBareJid : string) (r : StatementResult) : Prop :=
  match r with
  | StatementItem newJid => newJid = newBareJid
  | StatementError (Some e) => StanzaError.condition e = Gone /\ newBareJid <> "" /\
      exists u, uri_fromString (StanzaError.redirectionUri e) = inr u /\ u_jid u = newBareJid
  | StatementError None => False
  end.
Lemma verify_names newBareJid r : verifyStatement newBareJid r = MovedSuccess -> statement_names newBareJid r.
Proof.
  destruct r as [j|[e|]]; simpl; [unfold movedJidsMatch; by case_decide| |done].
  unfold goneJid. destruct (decide (StanzaError.condition e <> Gone)) as [Hg|Hg].
  { by rewrite decide_True. }
  assert (StanzaError.condition e = Gone) as Hg' by (destruct (StanzaError.condition e); try done; exfalso; apply Hg; discriminate).
  case_decide as Hj; [done|]. unfold movedJidsMatch. case_decide as Hm; [|done]. intros _.
  destruct (uri_fromString (StanzaError.redirectionUri e)) as [er|u]; [done|].
  split; [done|]. split; [by rewrite Hm|]. by exists u.
Qed.
Lemma names_verify newBareJid r : statement_names newBareJid r -> verifyStatement newBareJid r = MovedSuccess.
Proof.
  destruct r as [j|[e|]]; simpl; unfold movedJidsMatch; [intros ->; by rewrite decide_True| |done].
  intros (Hg & Hne & u & Hu & Hj). unfold goneJid. rewrite (decide_False (P := _ <> Gone)) by tauto.
  rewrite Hu, Hj. by rewrite decide_False, decide_True.
Qed.
Lemma verified_old r newBareJid p : oldJid (statementVerified r newBareJid p).1 <> "" ->
  statementVerified r newBareJid p = (p, false) /\ statement_names newBareJid r.
Proof.
  unfold statementVerified. destruct (verifyStatement newBareJid r) eqn:Hv; simpl; try done.
  intros _. split; [done|]. by apply verify_names.
Qed.
End MovedTheory.
