(* ===== verification/RosterManager.v ===== *)
(** * The roster manager (QXmppRosterManager.cpp)

    The cached roster and the presences of its contacts. The maps are finite
    maps; the order of a QMap's keys is not kept. The client's configuration
    and extensions are variables, its state of the stream an argument of the
    slots that read it. Requests whose continuation the manager runs later are
    counted or listed in its state. Slots connected to its signals run as
    events after them. *)
From S2P Require Import Prelude Utils Dom Base64 XmlCodec StreamManagement SaslXml Stanza DataForm TransferIq Presence RosterIq Uri MovedManager.

Inductive StreamManagementState := NoStreamManagement | NewStream | ResumedStream.
#[export] Instance StreamManagementState_eq_dec : EqDecision StreamManagementState.
Proof. solve_decision. Defined.

Inductive RosterOutput `{QtTypes} `{MujiContent} :=
  | SendPresence (p : Presence)
  | SendRoster (iq : Iq RosterIq)
  | SendResult (iq : Iq (list QXmppElement))
  | RequestStatement (oldJid : string)
  | RosterReceived
  | ItemAdded (bareJid : string) | ItemChanged (bareJid : string) | ItemRemoved (bareJid : string)
  | PresenceChanged (bareJid resource : string)
  | SubscriptionReceived (bareJid : string)
  | SubscriptionRequestReceived (bareJid : string) (p : Presence)
  | SubscriptionRemoved (bareJid : string)
  | InvalidOldJid (from oldJid : string).

Record RosterManager `{QtTypes} `{MujiContent} := {
  entries : gmap string RosterItem; presences : gmap string (gmap string Presence); isRosterReceived : bool;
  rosterRequests : nat;                               (* requestRoster tasks not finished *)
  verifications : list (option (string * Presence));  (* requests of statements, and those finished *)
  ro_out : list RosterOutput }.
#[global] Arguments RosterManager {_ _}.

Section RosterManager.
Context `{QtTypes} `{MujiContent} `{UrlTypes}.
(** The user's JID, QXmppConfiguration::autoAcceptSubscriptions and whether the
    client has a QXmppMovedManager. *)
Variable jid : string.
Variable autoAcceptSubscriptions : bool.
Variable hasMovedManager : bool.
(** What the unset member of a stanza error holds. *)
Variable memory : Z.

#[export] Instance RosterManager_eta : Eta RosterManager := fun m =>
  {| entries := entries m; presences := presences m; isRosterReceived := isRosterReceived m;
     rosterRequests := rosterRequests m; verifications := verifications m; ro_out := ro_out m |}.
Definition newRoster : RosterManager :=
  {| entries := ∅; presences := ∅; isRosterReceived := false; rosterRequests := 0; verifications := []; ro_out := [] |}.
Definition r_clear (m : RosterManager) : RosterManager :=
  m <| entries := ∅ |> <| presences := ∅ |> <| isRosterReceived := false |>.
Definition r_emit (os : list RosterOutput) (m : RosterManager) : RosterManager := m <| ro_out ::= fun l => l ++ os |>.

(** ** Stanzas to send *)

Definition presence_to (t : PresenceType) (to reason : string) : Presence :=
  (newPresence t) <| p_stanza ::= fun s => s <| to_ := to |> |> <| statusText := reason |>.
Definition roster_iq (t : IqType) (from : string) (c : RosterIq) : Iq RosterIq :=
  Build_Iq (noStanza <| from_ := from |>) t c.
Definition roster_set (i : RosterItem) : RosterOutput :=
  SendRoster (roster_iq IqSet "" {| r_items := [i]; r_version := ""; r_mixAnnotate := false |}).

Definition acceptSubscription (bareJid reason : string) : RosterManager -> RosterManager :=
  r_emit [SendPresence (presence_to Subscribed bareJid reason)].
Definition refuseSubscription (bareJid reason : string) : RosterManager -> RosterManager :=
  r_emit [SendPresence (presence_to Unsubscribed bareJid reason)].
Definition subscribe (bareJid reason : string) : RosterManager -> RosterManager :=
  r_emit [SendPresence (presence_to Subscribe (Jid.jidToBareJid bareJid) reason)].
Definition unsubscribe (bareJid reason : string) : RosterManager -> RosterManager :=
  r_emit [SendPresence (presence_to Unsubscribe (Jid.jidToBareJid bareJid) reason)].
Definition addItem (bareJid name : string) (groups : gset string) : RosterManager -> RosterManager :=
  r_emit [roster_set (newItem <| ri_bareJid := bareJid |> <| ri_name := name |> <| ri_groups := groups |> <| ri_type := SubNotSet |>)].
Definition removeItem (bareJid : string) : RosterManager -> RosterManager :=
  r_emit [roster_set (newItem <| ri_bareJid := bareJid |> <| ri_type := SubRemove |>)].
(** None is the error, or the false of the deprecated method. *)
Definition renameItem (bareJid name : string) (m : RosterManager) : option RosterManager :=
  match entries m !! bareJid with
  | None => None
  | Some i =>
      let i := i <| ri_name := name |> in
      let i := if decide (ri_ask i = "") then i else i <| ri_ask := "" |> in
      Some (r_emit [roster_set i] m)
  end.

Definition requestRoster (m : RosterManager) : RosterManager :=
  r_emit [SendRoster (roster_iq IqGet jid {| r_items := []; r_version := ""; r_mixAnnotate := true |})] m.

(** ** The roster *)

Definition q_connected (sm : StreamManagementState) (authenticated : bool) (m : RosterManager) : RosterManager :=
  let m := if decide (sm <> ResumedStream) then r_clear m else m in
  if negb (isRosterReceived m) && authenticated then (requestRoster m) <| rosterRequests ::= S |> else m.
Definition insert_item (es : gmap string RosterItem) (i : RosterItem) : gmap string RosterItem := <[ri_bareJid i := i]> es.
(** The continuation of the request, with the element of the response or its error. *)
Definition rosterResponse (r : option Dom) (m : RosterManager) : RosterManager :=
  match rosterRequests m with
  | O => m
  | S n =>
      let m := m <| rosterRequests := n |> in
      match r with
      | None => m
      | Some el =>
          let iq := iq_parse (T := RosterIq) memory el in
          r_emit [RosterReceived]
            (m <| entries := foldl insert_item ∅ (r_items (iq_content iq)) |> <| isRosterReceived := true |>)
      end
  end.
Definition q_disconnected (sm : StreamManagementState) (m : RosterManager) : RosterManager :=
  if decide (sm = NoStreamManagement) then r_clear m else m.

(** An item of a push. *)
Definition push_item (m : RosterManager) (i : RosterItem) : RosterManager :=
  let j := ri_bareJid i in
  if decide (ri_type i = SubRemove) then
    match entries m !! j with
    | Some _ => r_emit [ItemRemoved j] (m <| entries ::= delete j |>)
    | None => m
    end
  else r_emit [match entries m !! j with None => ItemAdded j | Some _ => ItemChanged j end]
         (m <| entries ::= <[j := i]> |>).
Definition is_roster_iq (el : Dom) : bool := bool_decide (iqPayloadXmlTag el = ("query", ns_roster)).
(** Whether the stanza is from the user's account. *)
Definition from_account (el : Dom) : bool :=
  let from := attribute el "from" in
  bool_decide (from = "") || bool_decide (Jid.jidToBareJid from = Jid.jidToBareJid jid).
Definition roster_handleStanza (el : Dom) (m : RosterManager) : RosterManager * bool :=
  if negb (is_roster_iq el) then (m, false)
  else if negb (from_account el) then (m, false)
  else
    let iq := iq_parse (T := RosterIq) memory el in
    match iq_type iq with
    | IqSet =>
        let m := r_emit [SendResult (Build_Iq (noStanza <| id_ := id_ (iq_stanza iq) |>) IqResult [])] m in
        (foldl push_item m (r_items (iq_content iq)), true)
    | _ => (m, true)
    end.

(** ** Presences and subscription requests *)

Definition getRosterEntry (bareJid : string) (m : RosterManager) : RosterItem := default newItem (entries m !! bareJid).
Definition notifyOnSubscriptionRequest (bareJid : string) (p : Presence) : RosterManager -> RosterManager :=
  r_emit [SubscriptionReceived bareJid; SubscriptionRequestReceived bareJid p].
Definition handleSubscriptionRequest (bareJid : string) (p : Presence) (m : RosterManager) : RosterManager :=
  if autoAcceptSubscriptions then subscribe bareJid "" (acceptSubscription bareJid "" m)
  else if hasMovedManager && has (oldJid p) then
    match processSubscriptionRequest (getRosterEntry (oldJid p) m) p with
    | Ready p => notifyOnSubscriptionRequest bareJid p m
    | RequestItem old _ p =>
        r_emit [RequestStatement old] (m <| verifications ::= fun l => l ++ [Some (bareJid, p)] |>)
    end
  else notifyOnSubscriptionRequest bareJid (p <| oldJid := "" |>) m.
(** The continuation of the i-th request of a statement. *)
Definition statementResult (i : nat) (r : StatementResult) (m : RosterManager) : RosterManager :=
  match verifications m !! i with
  | Some (Some (bareJid, p)) =>
      let m := m <| verifications ::= <[i := None]> |> in
      let '(p', warning) := statementVerified r (Jid.jidToBareJid (from_ (p_stanza p))) p in
      let m := if warning then r_emit [InvalidOldJid (from_ (p_stanza p)) (oldJid p)] m else m in
      notifyOnSubscriptionRequest bareJid p' m
  | _ => m
  end.

Definition q_presenceReceived (p : Presence) (m : RosterManager) : RosterManager :=
  let from := from_ (p_stanza p) in
  let bareJid := Jid.jidToBareJid from in
  let resource := Jid.jidToResource from in
  if decide (bareJid = "") then m
  else match p_type p with
  | Available =>
      r_emit [PresenceChanged bareJid resource]
        (m <| presences ::= fun ps => <[bareJid := <[resource := p]> (default ∅ (ps !! bareJid))]> ps |>)
  | Unavailable =>
      r_emit [PresenceChanged bareJid resource]
        (m <| presences ::= fun ps => <[bareJid := delete resource (default ∅ (ps !! bareJid))]> ps |>)
  | Subscribe => handleSubscriptionRequest bareJid p m
  | Unsubscribe => r_emit [SubscriptionRemoved bareJid] m
  | _ => m
  end.

(** ** What the application reads *)

Definition getRosterBareJids (m : RosterManager) : list string := (map_to_list (entries m)).*1.
Definition getResources (bareJid : string) (m : RosterManager) : list string :=
  match presences m !! bareJid with Some ps => (map_to_list ps).*1 | None => [] end.
Definition getAllPresencesForBareJid (bareJid : string) (m : RosterManager) : gmap string Presence :=
  default ∅ (presences m !! bareJid).
Definition getPresence (bareJid resource : string) (m : RosterManager) : Presence :=
  match presences m !! bareJid with
  | Some ps => match ps !! resource with Some p => p | None => newPresence Unavailable end
  | None => newPresence Unavailable
  end.

(** ** Export and import *)

Definition exportItem (i : RosterItem) : option RosterItem :=
  if ri_isMixChannel i then None else Some (i <| ri_ask := "" |>).
(** The continuation of requestRoster in exportData. *)
Definition exportData (iq : Iq RosterIq) : list RosterItem := omap exportItem (r_items (iq_content iq)).

(** importData: the counter and the promise its responses share. *)
Inductive ImportState := Importing (counter : Z) | ImportDone (error : option string).
Definition importRequests (items : list RosterItem) : list RosterOutput := map roster_set items.
Definition importData (items : list RosterItem) : ImportState :=
  match items with [] => ImportDone None | _ => Importing (i32 (Z.of_nat (length items))) end.
Definition importResponse (s : ImportState) (error : option string) : ImportState :=
  match s with
  | ImportDone _ => s
  | Importing n =>
      match error with
      | Some e => ImportDone (Some e)
      | None => if i32 (n - 1) =? 0 then ImportDone None else Importing (i32 (n - 1))
      end
  end.

(** ** Events *)

Inductive RosterEvent :=
  | EConnected (sm : StreamManagementState) (authenticated : bool)
  | EDisconnected (sm : StreamManagementState)
  | ERosterResponse (r : option Dom)
  | EStanza (el : Dom)
  | EPresence (p : Presence)
  | EStatement (i : nat) (r : StatementResult)
  | EAccept (bareJid reason : string) | ERefuse (bareJid reason : string)
  | ESubscribe (bareJid reason : string) | EUnsubscribe (bareJid reason : string)
  | EAdd (bareJid name : string) (groups : gset string) | ERemove (bareJid : string)
  | ERename (bareJid name : string) | EExport.
Definition roster_step (m : RosterManager) (e : RosterEvent) : RosterManager :=
  match e with
  | EConnected sm a => q_connected sm a m
  | EDisconnected sm => q_disconnected sm m
  | ERosterResponse r => rosterResponse r m
  | EStanza el => (roster_handleStanza el m).1
  | EPresence p => q_presenceReceived p m
  | EStatement i r => statementResult i r m
  | EAccept j s => acceptSubscription j s m
  | ERefuse j s => refuseSubscription j s m
  | ESubscribe j s => subscribe j s m
  | EUnsubscribe j s => unsubscribe j s m
  | EAdd j n g => addItem j n g m
  | ERemove j => removeItem j m
  | ERename j n => default m (renameItem j n m)
  | EExport => requestRoster m
  end.
Definition roster_run (es : list RosterEvent) (m : RosterManager) : RosterManager := foldl roster_step m es.
End RosterManager.

(** ** Properties *)

Section RosterTheory.
Context `{QtTypes} `{MujiContent} `{UrlTypes}.
Context (jid : string) (autoAccept hasMoved : bool) (memory : Z).
Implicit Types m : RosterManager.
Notation step := (roster_step jid autoAccept hasMoved memory).
Notation run := (roster_run jid autoAccept hasMoved memory).

Lemma run_snoc es e m : run (es ++ [e]) m = step (run es m) e.
Proof. unfold roster_run. by rewrite foldl_app. Qed.

(** An operation that leaves the requests of statements alone and reports no
    subscription request. *)
Definition no_request (o : RosterOutput) : Prop :=
  match o with SubscriptionRequestReceived _ _ | RequestStatement _ => False | _ => True end.
Definition no_report (o : RosterOutput) : Prop := match o with SubscriptionRequestReceived _ _ => False | _ => True end.
(** The accounts whose statements were requested, in the order of the requests. *)
Definition statements (os : list RosterOutput) : list string :=
  omap (fun o => match o with RequestStatement j => Some j | _ => None end) os.
Lemma statements_app os os' : statements (os ++ os') = statements os ++ statements os'.
Proof. apply omap_app. Qed.
Lemma statements_none os : Forall no_request os -> statements os = [].
Proof. unfold statements. induction 1 as [|o os Ho Hos IH]; [done|]. cbn [omap list_omap]. rewrite IH. by destruct o. Qed.
Definition unasking m m' : Prop :=
  verifications m' = verifications m /\ exists os, ro_out m' = ro_out m ++ os /\ Forall no_request os.
Lemma unasking_refl m : unasking m m.
Proof. split; [done|]. exists []. by rewrite app_nil_r. Qed.
Lemma unasking_trans m1 m2 m3 : unasking m1 m2 -> unasking m2 m3 -> unasking m1 m3.
Proof.
  intros [Hv1 (o1 & Ho1 & Hf1)] [Hv2 (o2 & Ho2 & Hf2)]. split; [congruence|].
  exists (o1 ++ o2). split; [by rewrite Ho2, Ho1, app_assoc|]. by apply Forall_app.
Qed.
Lemma unasking_emit os m : Forall no_request os -> unasking m (r_emit os m).
Proof. intros Hos. split; [done|]. by exists os. Qed.
Lemma unasking_push m i : unasking m (push_item m i).
Proof.
  unfold push_item. case_decide.
  - destruct (entries m !! ri_bareJid i); [|apply unasking_refl]. split; [done|]. eexists. by split; [|repeat constructor].
  - split; [done|]. eexists. split; [done|]. constructor; [|done]. by destruct (entries m !! ri_bareJid i).
Qed.
Lemma unasking_pushes l m : unasking m (foldl push_item m l).
Proof.
  revert m. induction l as [|i l IH]; intros m; [apply unasking_refl|]. simpl. eapply unasking_trans; [apply unasking_push|apply IH].
Qed.
Lemma unasking_handle el m : unasking m (roster_handleStanza jid memory el m).1.
Proof.
  unfold roster_handleStanza. destruct (negb (is_roster_iq el)); [apply unasking_refl|].
  destruct (negb (from_account jid el)); [apply unasking_refl|].
  destruct (iq_type _); try apply unasking_refl. eapply unasking_trans; [|apply unasking_pushes].
  apply unasking_emit. by repeat constructor.
Qed.
Definition is_request (e : RosterEvent) : bool := match e with EPresence _ | EStatement _ _ => true | _ => false end.
Lemma unasking_step m e : is_request e = false -> unasking m (step m e).
Proof.
  destruct e; intros He; try done; cbn [roster_step];
    try (apply unasking_emit; by repeat constructor).
  - unfold q_connected. case_decide; [destruct (negb _ && _)|destruct (negb _ && _)];
      (split; [done|]); (eexists; split; [done|]; by repeat constructor) || (exists []; by rewrite app_nil_r).
  - unfold q_disconnected. case_decide; [|apply unasking_refl]. split; [done|]. exists []. by rewrite app_nil_r.
  - unfold rosterResponse. destruct (rosterRequests m); [apply unasking_refl|]. destruct r.
    + split; [done|]. eexists. split; [done|]. by repeat constructor.
    + split; [done|]. exists []. by rewrite app_nil_r.
  - apply unasking_handle.
  - unfold renameItem. destruct (entries m !! bareJid); [|apply unasking_refl].
    apply unasking_emit. by repeat constructor.
Qed.

#[local] Ltac same_statements := left; split; [done|]; cbn; by rewrite ?statements_app, ?app_nil_r.
Lemma presence_effect m p : let m' := step m (EPresence p) in
  (forall b q, SubscriptionRequestReceived b q ∈ ro_out m' ->
     SubscriptionRequestReceived b q ∈ ro_out m \/ oldJid q = "") /\
  (verifications m' = verifications m /\ statements (ro_out m') = statements (ro_out m) \/
   verifications m' = verifications m ++ [Some (Jid.jidToBareJid (from_ (p_stanza p)), p)] /\
   statements (ro_out m') = statements (ro_out m) ++ [oldJid p] /\
   p_type p = Subscribe /\ ri_type (getRosterEntry (oldJid p) m) ∈ [SubFrom; SubBoth]).
Proof.
  cbn [roster_step]. unfold q_presenceReceived. case_decide; [by split; [auto|left]|].
  assert (forall b b' q q', SubscriptionRequestReceived b q ∈
    ro_out m ++ [SubscriptionReceived b'; SubscriptionRequestReceived b' q'] -> oldJid q' = "" ->
    SubscriptionRequestReceived b q ∈ ro_out m \/ oldJid q = "") as Hn.
  { intros b b' q q' Hin Hq. apply elem_of_app in Hin as [Hin|Hin]; [by left|].
    apply elem_of_cons in Hin as [|Hin]; [done|]. apply list_elem_of_singleton in Hin as [= -> ->]. by right. }
  assert (forall b q os, SubscriptionRequestReceived b q ∈ ro_out m ++ os -> Forall no_report os ->
    SubscriptionRequestReceived b q ∈ ro_out m \/ oldJid q = "") as Hq.
  { intros b q os Hin Hos. apply elem_of_app in Hin as [Hin|Hin]; [by left|].
    rewrite Forall_forall in Hos. by apply Hos in Hin. }
  destruct (p_type p) eqn:Ht; try (by split; [auto|left]);
    try (split; [intros b q Hin; eapply Hq; [exact Hin|by repeat constructor]|same_statements]).
  unfold handleSubscriptionRequest. destruct autoAccept.
  { split; [|same_statements]. intros b q Hin. unfold subscribe, acceptSubscription, r_emit in Hin. cbn in Hin.
    rewrite <-app_assoc in Hin. eapply Hq; [exact Hin|by repeat constructor]. }
  destruct (hasMoved && has (oldJid p)).
  - unfold processSubscriptionRequest. destruct (ri_type (getRosterEntry (oldJid p) m)) eqn:He;
      try (split; [intros b q Hin; eapply Hn; [exact Hin|done]|same_statements]);
      (split; [intros b q Hin; eapply Hq; [exact Hin|by repeat constructor]|right; split_and!; [done| |done|set_solver]];
       cbn; by rewrite statements_app).
  - split; [|same_statements]. intros b q Hin. eapply Hn; [exact Hin|done].
Qed.
Lemma statement_effect m i r : let m' := step m (EStatement i r) in
  (forall b q, SubscriptionRequestReceived b q ∈ ro_out m' ->
     SubscriptionRequestReceived b q ∈ ro_out m \/ oldJid q = "" \/
     verifications m !! i = Some (Some (b, q)) /\ statement_names (Jid.jidToBareJid (from_ (p_stanza q))) r) /\
  (forall k x, verifications m' !! k = Some (Some x) -> verifications m !! k = Some (Some x)) /\
  length (verifications m') = length (verifications m) /\ statements (ro_out m') = statements (ro_out m).
Proof.
  cbn [roster_step]. unfold statementResult.
  destruct (verifications m !! i) as [[[b p]|]|] eqn:Hi; [|by split_and!; auto..].
  pose proof (verified_old r (Jid.jidToBareJid (from_ (p_stanza p))) p) as Hv.
  destruct (statementVerified r (Jid.jidToBareJid (from_ (p_stanza p))) p) as [p' w] eqn:Hs. simpl in Hv.
  split; [|split].
  - intros b' q Hin.
    assert (SubscriptionRequestReceived b' q ∈ ro_out m \/ b' = b /\ q = p') as [Ho|[-> ->]].
    { destruct w; cbn in Hin; repeat (apply elem_of_app in Hin as [Hin|Hin]); auto;
        repeat (apply elem_of_cons in Hin as [Hin|Hin]; [try done; injection Hin as -> ->; auto|]); by apply elem_of_nil in Hin. }
    { by left. }
    right. destruct (decide (oldJid p' = "")) as [Ho|Ho]; [by left|]. right.
    destruct (Hv Ho) as [[= -> ->] Hn]. by split.
  - intros k x Hk. assert (<[i := None]> (verifications m) !! k = Some (Some x)) as Hk' by by destruct w.
    destruct (decide (k = i)) as [->|Hne].
    + rewrite list_lookup_insert_eq in Hk' by by eapply lookup_lt_Some. done.
    + by rewrite list_lookup_insert_ne in Hk' by done.
  - destruct w; cbn; by rewrite length_insert, ?statements_app, ?app_nil_r.
Qed.

(** A request for a subscription of a contact whose old account the user lets see
    presences, answered by a statement of that account. *)
Definition asked (es : list RosterEvent) (b : string) (p : Presence) : Prop := exists e1 e2,
  es = e1 ++ EPresence p :: e2 /\ p_type p = Subscribe /\ b = Jid.jidToBareJid (from_ (p_stanza p)) /\
  ri_type (getRosterEntry (oldJid p) (run e1 newRoster)) ∈ [SubFrom; SubBoth].
Definition proved (es : list RosterEvent) (b : string) (p : Presence) : Prop := exists e1 e2 i r,
  es = e1 ++ EStatement i r :: e2 /\ asked e1 b p /\
  statements (ro_out (run e1 newRoster)) !! i = Some (oldJid p) /\ statement_names b r.
Lemma asked_snoc es e b p : asked es b p -> asked (es ++ [e]) b p.
Proof. intros (e1 & e2 & -> & Hr). exists e1, (e2 ++ [e]). by rewrite <-app_assoc. Qed.
Lemma proved_snoc es e b p : proved es b p -> proved (es ++ [e]) b p.
Proof. intros (e1 & e2 & i & r & -> & Hr). exists e1, (e2 ++ [e]), i, r. by rewrite <-app_assoc. Qed.

(** The [i]-th verification waits for the statement that was requested [i]-th. *)
Definition waiting m : Prop := length (verifications m) = length (statements (ro_out m)) /\
  forall i b p, verifications m !! i = Some (Some (b, p)) -> statements (ro_out m) !! i = Some (oldJid p).
Lemma waiting_run es : waiting (run es newRoster).
Proof.
  induction es as [|e es [Hl Hw]] using rev_ind; [by split; [done|intros i b p Hi]|].
  rewrite run_snoc. set (m := run es newRoster) in *. destruct (is_request e) eqn:He.
  - destruct e as [| | | |p|i r| | | | | | | |]; try done.
    + destruct (presence_effect m p) as [_ [[Hv Hs]|(Hv & Hs & _)]].
      { unfold waiting. by rewrite Hv, Hs. }
      unfold waiting. rewrite Hv, Hs, !length_app. split; [cbn; lia|]. intros k b q Hk.
      apply lookup_app_Some in Hk as [Hk|[Hge Hk]].
      * apply lookup_app_l_Some. by eapply Hw.
      * rewrite lookup_app_r by lia. rewrite Hl in Hk. apply list_lookup_singleton_Some in Hk as [-> [= <- <-]]. done.
    + destruct (statement_effect m i r) as (_ & Hv & Hlen & Hs). split; [congruence|]. intros k b q Hk.
      rewrite Hs. by eapply Hw, Hv.
  - destruct (unasking_step m e He) as [Hv (os & Ho & Hos)]. unfold waiting.
    by rewrite Hv, Ho, statements_app, (statements_none os Hos), app_nil_r.
Qed.
Lemma verified_run es :
  (forall i b p, verifications (run es newRoster) !! i = Some (Some (b, p)) -> asked es b p) /\
  (forall b p, SubscriptionRequestReceived b p ∈ ro_out (run es newRoster) -> oldJid p <> "" -> proved es b p).
Proof.
  induction es as [|e es [IHv IHo]] using rev_ind.
  { split; [by intros i b p Hi|]. intros b p Hin. by apply elem_of_nil in Hin. }
  pose proof (waiting_run es) as [_ Hwait].
  rewrite run_snoc. set (m := run es newRoster) in *. destruct (is_request e) eqn:He.
  - destruct e as [| | | |p|i r| | | | | | | |]; try done.
    + destruct (presence_effect m p) as [Ho Hv]. split.
      * intros k b q Hk. destruct Hv as [[Hv _]|(Hv & _ & Ht & Hr)]; rewrite Hv in Hk; [by eapply asked_snoc, IHv|].
        apply lookup_app_Some in Hk as [Hk|[_ Hk]]; [by eapply asked_snoc, IHv|].
        apply list_lookup_singleton_Some in Hk as [_ [= <- <-]]. by exists es, [].
      * intros b q Hin Hne. apply Ho in Hin as [Hin|Hq]; [by apply proved_snoc, IHo|done].
    + destruct (statement_effect m i r) as (Ho & Hv & _). split.
      * intros k b q Hk. by eapply asked_snoc, IHv, Hv.
      * intros b q Hin Hne. apply Ho in Hin as [Hin|[Hq|[Hi Hn]]]; [by apply proved_snoc, IHo|done|].
        exists es, [], i, r. split; [done|]. pose proof (IHv _ _ _ Hi) as Ha. split; [done|].
        split; [by eapply Hwait|]. destruct Ha as (? & ? & ? & ? & -> & ?). done.
  - destruct (unasking_step m e He) as [Hv (os & Ho & Hos)]. split.
    + intros k b q Hk. rewrite Hv in Hk. by eapply asked_snoc, IHv.
    + intros b q Hin Hne. rewrite Ho in Hin. apply elem_of_app in Hin as [Hin|Hin]; [by apply proved_snoc, IHo|].
      rewrite Forall_forall in Hos. by apply Hos in Hin.
Qed.

(** C9: In every run, an old JID that is passed to the application with a subscription request is
    proved: the roster let the old account see the user's presence when the request came, and the
    answer to a request for the statement of that very old account, which came later, names the
    sender: the [i]-th answer belongs to the [i]-th request that was sent. *)
Theorem old_jid_verified es b p : SubscriptionRequestReceived b p ∈ ro_out (run es newRoster) ->
  oldJid p <> "" -> proved es b p.
Proof. apply verified_run. Qed.

(** *** The cached presences *)

Definition cached (b r : string) (m : RosterManager) : option Presence := presences m !! b ≫= (fun ps => ps !! r).
(** What an event says about the presence of a resource: that it is available,
    that it is not, or nothing. *)
Definition about (b r : string) (e : RosterEvent) : option (option Presence) :=
  match e with
  | EConnected sm _ => if decide (sm <> ResumedStream) then Some None else None
  | EDisconnected sm => if decide (sm = NoStreamManagement) then Some None else None
  | EPresence p =>
      if decide (Jid.jidToBareJid (from_ (p_stanza p)) = b /\ b <> "" /\ Jid.jidToResource (from_ (p_stanza p)) = r) then
        match p_type p with Available => Some (Some p) | Unavailable => Some None | _ => None end
      else None
  | _ => None
  end.

Lemma push_presences m l : presences (foldl push_item m l) = presences m.
Proof.
  revert m. induction l as [|i l IH]; intros m; [done|]. simpl. rewrite IH. unfold push_item.
  case_decide; [|done]. by destruct (entries m !! ri_bareJid i).
Qed.
Lemma handle_presences el m : presences (roster_handleStanza jid memory el m).1 = presences m.
Proof.
  unfold roster_handleStanza. repeat case_match; try done. simpl. by rewrite push_presences.
Qed.
Lemma subscription_presences b p m :
  presences (handleSubscriptionRequest autoAccept hasMoved b p m) = presences m.
Proof.
  unfold handleSubscriptionRequest. destruct autoAccept; [done|]. destruct (hasMoved && has (oldJid p)); [|done].
  unfold processSubscriptionRequest. by destruct (ri_type _).
Qed.
Lemma statement_presences i r m : presences (statementResult i r m) = presences m.
Proof.
  unfold statementResult. destruct (verifications m !! i) as [[[b p]|]|]; [|done..].
  destruct (statementVerified _ _ _) as [p' []]; done.
Qed.
Lemma cached_update b r j (m : RosterManager) (f : gmap string Presence -> gmap string Presence) :
  cached b r (m <| presences ::= fun ps => <[j := f (default ∅ (ps !! j))]> ps |>) =
  if decide (j = b) then f (default ∅ (presences m !! b)) !! r else cached b r m.
Proof.
  unfold cached. simpl. case_decide as Hj; [subst; by rewrite lookup_insert_eq|].
  by rewrite lookup_insert_ne.
Qed.
Lemma cached_default b r m : cached b r m = default ∅ (presences m !! b) !! r.
Proof. unfold cached. destruct (presences m !! b); [done|]. simpl. by rewrite lookup_empty. Qed.

Lemma presence_cached b r m p :
  cached b r (q_presenceReceived autoAccept hasMoved p m) =
  match about b r (EPresence p) with Some o => o | None => cached b r m end.
Proof.
  unfold q_presenceReceived, about. set (j := Jid.jidToBareJid _). set (s := Jid.jidToResource _).
  destruct (decide (j = "")) as [Hj|Hj]; [rewrite decide_False; [done|naive_solver]|].
  destruct (p_type p) eqn:Ht; try (by case_decide).
  - change (cached b r (m <| presences ::= fun ps => <[j := <[s := p]> (default ∅ (ps !! j))]> ps |>) =
      match (if decide (j = b /\ b <> "" /\ s = r) then Some (Some p) else None) with
      | Some o => o | None => cached b r m end).
    rewrite (cached_update b r j).
    destruct (decide (j = b)) as [<-|Hb]; [|by rewrite decide_False by naive_solver].
    destruct (decide (s = r)) as [<-|Hr]; [rewrite decide_True by done; by rewrite lookup_insert_eq|].
    rewrite decide_False by naive_solver. by rewrite lookup_insert_ne, cached_default.
  - change (cached b r (m <| presences ::= fun ps => <[j := delete s (default ∅ (ps !! j))]> ps |>) =
      match (if decide (j = b /\ b <> "" /\ s = r) then Some None else None) with
      | Some o => o | None => cached b r m end).
    rewrite (cached_update b r j).
    destruct (decide (j = b)) as [<-|Hb]; [|by rewrite decide_False by naive_solver].
    destruct (decide (s = r)) as [<-|Hr]; [rewrite decide_True by done; by rewrite lookup_delete_eq|].
    rewrite decide_False by naive_solver. by rewrite lookup_delete_ne, cached_default.
  - unfold cached. rewrite subscription_presences. by case_decide.
Qed.
Lemma step_cached b r m e :
  cached b r (step m e) = match about b r e with Some o => o | None => cached b r m end.
Proof.
  destruct e; cbn [roster_step about]; try done.
  - unfold q_connected. case_decide; by destruct (negb _ && _).
  - unfold q_disconnected. by case_decide.
  - unfold rosterResponse. destruct (rosterRequests m); [done|]. by destruct r0.
  - unfold cached. by rewrite handle_presences.
  - apply presence_cached.
  - unfold cached. by rewrite statement_presences.
  - unfold renameItem. by destruct (entries m !! bareJid).
Qed.

(** C32: In every run, the presence of a contact's resource is the one its last
    available presence carried, and unavailable if an unavailable presence or the loss of the
    session came after it. *)
Theorem presence_is_last es b r :
  getPresence b r (run es newRoster) =
    default (newPresence Unavailable) (mjoin (last (omap (about b r) es))) /\
  (r ∈ getResources b (run es newRoster) <-> is_Some (mjoin (last (omap (about b r) es)))).
Proof.
  assert (cached b r (run es newRoster) = mjoin (last (omap (about b r) es))) as Hc.
  { induction es as [|e es IH] using rev_ind; [done|]. rewrite run_snoc, step_cached, omap_app.
    cbn [omap list_omap]. destruct (about b r e); [by rewrite last_snoc|by rewrite app_nil_r]. }
  rewrite <-Hc. unfold getPresence, getResources, cached. destruct (presences (run es newRoster) !! b) as [ps|]; simpl.
  - split; [by destruct (ps !! r)|]. rewrite list_elem_of_fmap. split.
    + intros ([r' p] & -> & Hin). apply elem_of_map_to_list in Hin. by exists p.
    + intros [p Hp]. exists (r, p). split; [done|]. by apply elem_of_map_to_list.
  - split; [done|]. split; [intros Hin; by apply elem_of_nil in Hin|by intros [? ?]].
Qed.

(** *** Well-formedness *)

Definition entries_typed (es : gmap string RosterItem) : Prop := map_Forall (fun j i => ri_bareJid i = j) es.
Definition roster_wf (m : RosterManager) : Prop :=
  entries_typed (entries m) /\
  forall b r p, cached b r m = Some p -> b <> "" /\ p_type p = Available /\
    Jid.jidToBareJid (from_ (p_stanza p)) = b /\ Jid.jidToResource (from_ (p_stanza p)) = r.

Lemma typed_items l es : entries_typed es -> entries_typed (foldl insert_item es l).
Proof. revert es. induction l as [|i l IH]; intros es Hes; [done|]. apply IH. by apply map_Forall_insert_2. Qed.
Lemma typed_push m i : entries_typed (entries m) -> entries_typed (entries (push_item m i)).
Proof.
  intros Hm. unfold push_item. case_decide; [|by apply map_Forall_insert_2].
  destruct (entries m !! ri_bareJid i); [|done]. by apply map_Forall_delete.
Qed.
Lemma typed_pushes l m : entries_typed (entries m) -> entries_typed (entries (foldl push_item m l)).
Proof. revert m. induction l as [|i l IH]; intros m Hm; [done|]. by apply IH, typed_push. Qed.
Lemma typed_empty : entries_typed ∅.
Proof. apply map_Forall_empty. Qed.
Lemma typed_presence p m : entries (q_presenceReceived autoAccept hasMoved p m) = entries m.
Proof.
  unfold q_presenceReceived, handleSubscriptionRequest, processSubscriptionRequest.
  repeat case_match; done.
Qed.
Lemma typed_step m e : entries_typed (entries m) -> entries_typed (entries (step m e)).
Proof.
  intros Hm. destruct e; cbn [roster_step]; try done.
  - unfold q_connected. case_decide; (destruct (negb _ && _); try done; apply typed_empty).
  - unfold q_disconnected. case_decide; [apply typed_empty|done].
  - unfold rosterResponse. destruct (rosterRequests m); [done|]. destruct r; [|done]. apply typed_items, typed_empty.
  - unfold roster_handleStanza. repeat case_match; try done. by apply typed_pushes.
  - by rewrite typed_presence.
  - unfold statementResult. destruct (verifications m !! i) as [[[b p]|]|]; [|done..].
    by destruct (statementVerified _ _ _) as [p' []].
  - unfold renameItem. by destruct (entries m !! bareJid).
Qed.

(** C31: The maps are well-formed in every run: an item is stored under its own
    JID, and a presence is an available one, stored under the bare JID and the resource it
    came from. *)
Theorem roster_typed es : roster_wf (run es newRoster).
Proof.
  induction es as [|e es [He Hp] ] using rev_ind; [by split|]. rewrite run_snoc. split; [by apply typed_step|].
  intros b r p. rewrite step_cached. destruct (about b r e) as [o|] eqn:Ha; [|by apply Hp]. intros ->.
  destruct e; cbn [about] in Ha; repeat case_decide; try done. destruct (p_type p0) eqn:Ht; try done.
  injection Ha as ->. destruct_and?. done.
Qed.

(** *** Who may change the roster *)






(** *** Imports *)

Lemma importing_done e rs : foldl importResponse (ImportDone e) rs = ImportDone e.
Proof. by induction rs. Qed.
Lemma importing n rs : Z.of_nat (length rs) = n -> 0 < n < 2 ^ 31 ->
  foldl importResponse (Importing n) rs = ImportDone (head (omap (fun e => e) rs)).
Proof.
  revert n. induction rs as [|[e|] rs IH]; intros n Hl Hn; simpl in *; [lia|apply importing_done|].
  unfold i32 in *. rewrite iwrap_small by lia. destruct (Z.eqb_spec (n - 1) 0) as [Hz|Hz].
  - destruct rs; [done|simpl in Hl; lia].
  - rewrite IH by lia. done.
Qed.
(** An import sends one request for each item and finishes when all were answered, with
    the first error of the responses, or at once when there is nothing to import. *)
Theorem import_result items rs : Z.of_nat (length items) < 2 ^ 31 -> length rs = length items ->
  length (importRequests items) = length items /\
  foldl importResponse (importData items) rs = ImportDone (head (omap (fun e => e) rs)).
Proof.
  intros Hb Hl. split; [apply length_map|]. destruct items as [|i items]; [by destruct rs|].
  unfold importData, i32. rewrite iwrap_small by (simpl in *; lia). apply importing; simpl in *; lia.
Qed.
End RosterTheory.

Lemma import_result_witness :
  let items := [newItem <| ri_bareJid := "a@b" |>; newItem <| ri_bareJid := "c@b" |>] in
  length (importRequests (H := text_types) (H0 := sample_muji) items) = length items /\
  foldl importResponse (importData items) [None; Some "x"] = ImportDone (Some "x").
Proof. intros items. apply (import_result (H := text_types) (H0 := sample_muji) items [None; Some "x"]); [done|reflexivity]. Defined.

(** A contact that moved from old@a to new@b. *)
Definition moved_request : @Presence text_types sample_muji :=
  (presence_to (H := text_types) (H0 := sample_muji) Subscribe "me@c" "") <| p_stanza ::= fun s => s <| from_ := "new@b" |> |>
    <| oldJid := "old@a" |>.
Definition roster_push (i : RosterItem) : Dom :=
  onStream (iq_toXml (roster_iq (H := text_types) IqSet "" {| r_items := [i]; r_version := ""; r_mixAnnotate := false |})).
Definition moved_run : list (@RosterEvent text_types sample_muji) :=
  [EStanza (roster_push (newItem <| ri_bareJid := "old@a" |> <| ri_type := SubBoth |>));
   EPresence moved_request; EStatement 0 (StatementItem "new@b")].
Lemma old_jid_verified_witness :
  proved (H1 := sample_url) "me@c/x" false true 0 moved_run "new@b" moved_request.
Proof.
  apply (old_jid_verified (H1 := sample_url) "me@c/x" false true 0); [|done].
  apply list_elem_of_In. vm_compute. tauto.
Defined.

