(* ===== verification/RosterSession.v ===== *)
(** * A roster and its server

    The roster manager of a client and the roster its server keeps, joined by
    the ordered stream of stanzas to the client, through lost, resumed and new
    sessions. The server answers a request with its roster and from then on
    pushes every change (RFC 6121); stanzas are the elements the library's own
    codec writes. A session that is not resumed loses what was under way:
    OutgoingIqManager cancels its requests before the slot of connected runs. *)
From S2P Require Import Prelude Utils Dom Base64 XmlCodec StreamManagement SaslXml Stanza DataForm TransferIq Presence RosterIq Uri MovedManager RosterManager.

Inductive ToClient := Response (el : Dom) | Push (el : Dom).

Record RosterSession `{QtTypes} `{MujiContent} := {
  rs_client : RosterManager; rs_server : gmap string RosterItem;
  rs_asked : nat;                 (* requests the server has not answered *)
  rs_interested : bool;           (* the server answered one in this session *)
  rs_queue : list ToClient }.
#[global] Arguments RosterSession {_ _}.

Section RosterSession.
Context `{QtTypes} `{MujiContent}.
Variable jid : string.
Variable memory : Z.
#[export] Instance RosterSession_eta : Eta RosterSession := fun s =>
  {| rs_client := rs_client s; rs_server := rs_server s; rs_asked := rs_asked s;
     rs_interested := rs_interested s; rs_queue := rs_queue s |}.

Definition newSession : RosterSession :=
  {| rs_client := newRoster; rs_server := ∅; rs_asked := 0; rs_interested := false; rs_queue := [] |}.

(** ** The server *)

Definition server_iq (t : IqType) (l : list RosterItem) : Dom :=
  onStream (iq_toXml (Build_Iq {| to_ := jid; from_ := Jid.jidToBareJid jid; id_ := "push"; lang := ""; error_ := None;
                                  extendedAddresses := [] |}
    t {| r_items := l; r_version := ""; r_mixAnnotate := false |})).
Definition roster_items (r : gmap string RosterItem) : list RosterItem := (map_to_list r).*2.
Definition push (i : RosterItem) (s : RosterSession) : RosterSession :=
  if rs_interested s then s <| rs_queue ::= fun q => q ++ [Push (server_iq IqSet [i])] |> else s.

Inductive SessionEvent :=
  | SChange (i : RosterItem)            (* any change of an item *)
  | SRemove (bareJid : string)
  | SAnswer
  | SDeliver
  | SLost (sm : StreamManagementState)
  | SOpen (resumed sm : bool) (authenticated : bool).

(** The requests of [m] on their way after a slot ran. *)
Definition client_slot (f : RosterManager -> RosterManager) (s : RosterSession) : RosterSession :=
  let c := f (rs_client s) in
  s <| rs_client := c |> <| rs_asked ::= fun n => (n + (rosterRequests c - rosterRequests (rs_client s)))%nat |>.
Definition deliver (x : ToClient) (m : RosterManager) : RosterManager :=
  match x with
  | Response el => rosterResponse memory (Some el) m
  | Push el => (roster_handleStanza jid memory el m).1
  end.
(** OutgoingIqManager::cancelAll. *)
Definition cancelled (m : RosterManager) : RosterManager :=
  Nat.iter (rosterRequests m) (rosterResponse memory None) m.

Definition session_step (s : RosterSession) (e : SessionEvent) : RosterSession :=
  match e with
  | SChange i => push i (s <| rs_server ::= <[ri_bareJid i := i]> |>)
  | SRemove j => push (newItem <| ri_bareJid := j |> <| ri_type := SubRemove |>) (s <| rs_server ::= delete j |>)
  | SAnswer =>
      match rs_asked s with
      | O => s
      | S n => s <| rs_asked := n |> <| rs_interested := true |>
                 <| rs_queue ::= fun q => q ++ [Response (server_iq IqResult (roster_items (rs_server s)))] |>
      end
  | SDeliver =>
      match rs_queue s with
      | [] => s
      | x :: q => s <| rs_client ::= deliver x |> <| rs_queue := q |>
      end
  | SLost sm => s <| rs_client ::= q_disconnected sm |>
  | SOpen true _ a => client_slot (q_connected jid ResumedStream a) s
  | SOpen false sm a =>
      client_slot (q_connected jid (if sm then NewStream else NoStreamManagement) a)
        (s <| rs_client ::= cancelled |> <| rs_asked := 0%nat |> <| rs_interested := false |> <| rs_queue := [] |>)
  end.
Definition session_run (es : list SessionEvent) : RosterSession := foldl session_step newSession es.

(** The items a server keeps: a subscription is not "remove", and only channels
    have a participant id. *)
Definition server_event_ok (e : SessionEvent) : Prop :=
  match e with SChange i => ri_type i <> SubRemove /\ item_ok i | _ => True end.
(** The server's roster, which does not depend on the client. *)
Definition server_after (es : list SessionEvent) : gmap string RosterItem :=
  foldl (fun r e => match e with SChange i => <[ri_bareJid i := i]> r | SRemove j => delete j r | _ => r end) ∅ es.
End RosterSession.

(** ** Properties *)

Section SessionTheory.
Context `{QtTypes} `{MujiContent}.
Context (jid : string) (memory : Z).
Implicit Types (m : RosterManager) (q : list ToClient) (v : option (gmap string RosterItem)).
Notation srv := (server_iq jid).

(** *** What a stanza of the server says *)

Lemma server_items t l : all_ok l ->
  iq_type (iq_parse (T := RosterIq) memory (srv t l)) = t /\
  r_items (iq_content (iq_parse (T := RosterIq) memory (srv t l))) = l.
Proof. intros Hl. unfold server_iq. rewrite iq_roundtrip by (split; [exact Hl|by split_and!]). done. Qed.
Lemma server_stanza t l : exists a c,
  srv t l = Elem "iq" ns_jabber_client a ([Elem "query" ns_roster [] c] ++ []) /\
  find_attr "from" a = (if decide (Jid.jidToBareJid jid = "") then None else Some (Jid.jidToBareJid jid)).
Proof.
  unfold server_iq. rewrite iq_written by done. eexists _, _. split.
  - cbn [toXmlElementFromChild RosterIq_content iq_content]. rewrite seg_Element. cbn [concat]. rewrite app_nil_r.
    rewrite !atts_app, atts_Children. done.
  - cbn [iq_stanza to_ from_ id_ iq_type]. codec_norm. done.
Qed.
Lemma server_push l m : all_ok l ->
  exists m', (roster_handleStanza jid memory (srv IqSet l) m).1 = foldl push_item m' l /\
    entries m' = entries m /\ isRosterReceived m' = isRosterReceived m /\ rosterRequests m' = rosterRequests m.
Proof.
  intros Hl. destruct (server_items IqSet l Hl) as [Ht Hi]. unfold roster_handleStanza.
  destruct (server_stanza IqSet l) as (a & c & He & Hf).
  assert (is_roster_iq (srv IqSet l) = true) as -> by by rewrite He.
  assert (from_account jid (srv IqSet l) = true) as ->.
  { unfold from_account. rewrite He, attribute_eq, Hf, default_opt_attr.
    rewrite (Jid.bare_of_bare (Jid.jidToBareJid jid)) by apply Jid.bare_no_slash.
    rewrite (bool_decide_eq_true_2 (Jid.jidToBareJid jid = Jid.jidToBareJid jid)) by done. apply orb_true_r. }
  cbn [negb]. rewrite Ht, Hi. by eexists.
Qed.

(** *** The effect of the queue *)

Definition view (m : RosterManager) : option (gmap string RosterItem) :=
  if isRosterReceived m then Some (entries m) else None.
Definition push_entry (es : gmap string RosterItem) (i : RosterItem) : gmap string RosterItem :=
  if decide (ri_type i = SubRemove) then delete (ri_bareJid i) es else <[ri_bareJid i := i]> es.
Definition items_of (el : Dom) : list RosterItem := r_items (iq_content (iq_parse (T := RosterIq) memory el)).
Definition effect (v : option (gmap string RosterItem)) (x : ToClient) : option (gmap string RosterItem) :=
  match x with
  | Response el => Some (foldl insert_item ∅ (items_of el))
  | Push el => (fun es => foldl push_entry es (items_of el)) <$> v
  end.
Definition message_ok (x : ToClient) : Prop :=
  match x with
  | Response el => exists l, el = srv IqResult l /\ all_ok l
  | Push el => exists l, el = srv IqSet l /\ all_ok l
  end.
Fixpoint responses (q : list ToClient) : nat :=
  match q with [] => 0 | Response _ :: q => S (responses q) | Push _ :: q => responses q end.

Lemma push_item_view m i : entries (push_item m i) = push_entry (entries m) i /\
  isRosterReceived (push_item m i) = isRosterReceived m /\ rosterRequests (push_item m i) = rosterRequests m.
Proof.
  unfold push_item, push_entry. case_decide; [|done].
  destruct (entries m !! ri_bareJid i) eqn:Hi; [done|]. by rewrite delete_id.
Qed.
Lemma push_items_view l m : entries (foldl push_item m l) = foldl push_entry (entries m) l /\
  isRosterReceived (foldl push_item m l) = isRosterReceived m /\ rosterRequests (foldl push_item m l) = rosterRequests m.
Proof.
  revert m. induction l as [|i l IH]; intros m; [done|]. simpl.
  destruct (push_item_view m i) as (He & Hr & Hn), (IH (push_item m i)) as (He' & Hr' & Hn').
  by rewrite He', Hr', Hn', He, Hr, Hn.
Qed.

Lemma deliver_view x m : message_ok x -> (responses [x] <= rosterRequests m)%nat ->
  view (deliver jid memory x m) = effect (view m) x /\
  (rosterRequests (deliver jid memory x m) + responses [x] = rosterRequests m)%nat.
Proof.
  destruct x as [el|el]; intros (l & -> & Hl) Hn; cbn [deliver effect].
  - unfold rosterResponse. destruct (rosterRequests m) as [|n]; [cbn in Hn; lia|]. split; [done|]. cbn. lia.
  - destruct (server_push l m Hl) as (m' & Hp & He & Hr & Hq). rewrite Hp.
    destruct (push_items_view l m') as (He' & Hr' & Hq'). unfold view. rewrite He', Hr', Hq', He, Hr, Hq.
    unfold items_of. rewrite (proj2 (server_items IqSet l Hl)). split; [|cbn; lia]. by destruct (isRosterReceived m).
Qed.
Lemma effects_from_none q e : foldl effect None q = Some e -> forall v, foldl effect v q = Some e.
Proof.
  induction q as [|[el|el] q IH]; intros He v; [done|exact He|]. simpl in *.
  destruct v; by apply IH.
Qed.
Lemma responses_app q q' : responses (q ++ q') = (responses q + responses q')%nat.
Proof. induction q as [|[el|el] q IH]; simpl; lia. Qed.

(** *** The server's roster *)

Lemma insert_items l (es : gmap string RosterItem) :
  foldl insert_item es l = foldl (fun r x => <[x.1 := x.2]> r) es (map (fun i => (ri_bareJid i, i)) l).
Proof. revert es. induction l as [|i l IH]; intros es; [done|]. simpl. by rewrite IH. Qed.
Lemma roster_back r : entries_typed r -> foldl insert_item ∅ (roster_items r) = r.
Proof.
  intros Hr. rewrite insert_items. unfold roster_items. rewrite <-list_fmap_compose.
  assert (((fun i => (ri_bareJid i, i)) ∘ snd) <$> map_to_list r = map_to_list r) as ->.
  { rewrite <-(list_fmap_id (map_to_list r)) at 2. apply list_fmap_ext. intros k [j i] Hk.
    apply list_elem_of_lookup_2, elem_of_map_to_list in Hk. simpl. by rewrite (Hr j i Hk). }
  rewrite fold_insert; [by rewrite list_to_map_to_list, (right_id_L ∅ (∪))|apply NoDup_fst_map_to_list|].
  intros x _. apply lookup_empty.
Qed.
Lemma roster_items_ok r : map_Forall (fun _ i => item_ok i) r -> all_ok (roster_items r).
Proof.
  intros Hr. unfold roster_items, all_ok. apply Forall_fmap, Forall_forall. intros [j i] Hin.
  apply elem_of_map_to_list in Hin. by apply (Hr j i).
Qed.

(** *** The invariant *)

(** A state the server's roster has been in. *)
Definition was (es : list SessionEvent) (r : gmap string RosterItem) : Prop :=
  exists n, (n <= length es)%nat /\ r = server_after (take n es).
Definition session_inv (es : list SessionEvent) (s : RosterSession) : Prop :=
  Forall message_ok (rs_queue s) /\
  rosterRequests (rs_client s) = (rs_asked s + responses (rs_queue s))%nat /\
  (rs_server s = server_after es /\ entries_typed (rs_server s) /\ map_Forall (fun _ i => item_ok i) (rs_server s)) /\
  (forall k r, foldl effect (view (rs_client s)) (take k (rs_queue s)) = Some r -> was es r) /\
  (forall r, foldl effect (view (rs_client s)) (rs_queue s) = Some r -> r = rs_server s /\ rs_interested s = true).

Lemma was_snoc es e r : was es r -> was (es ++ [e]) r.
Proof. intros (n & Hn & ->). exists n. rewrite length_app, take_app_le by lia. split; [simpl; lia|done]. Qed.
Lemma was_now es : was es (server_after es).
Proof. exists (length es). by rewrite firstn_all. Qed.
Lemma was_take_snoc es e v q x :
  (forall k r, foldl effect v (take k q) = Some r -> was es r) ->
  (forall r, foldl effect v (q ++ [x]) = Some r -> was (es ++ [e]) r) ->
  forall k r, foldl effect v (take k (q ++ [x])) = Some r -> was (es ++ [e]) r.
Proof.
  intros Hq Hx k r Hr. destruct (decide (k <= length q)%nat) as [Hk|Hk].
  - rewrite take_app_le in Hr by done. by eapply was_snoc, Hq.
  - rewrite take_ge in Hr by (rewrite length_app; simpl; lia). by apply Hx.
Qed.

(** A change of the server's roster and the push it sends. *)
Lemma push_inv es e s i r' :
  session_inv es s -> item_ok i -> r' = server_after (es ++ [e]) -> entries_typed r' ->
  map_Forall (fun _ i => item_ok i) r' -> r' = push_entry (rs_server s) i ->
  session_inv (es ++ [e]) (push jid i (s <| rs_server := r' |>)).
Proof.
  intros (Hq & Hn & (Hs & _ & _) & Hk & Hv) Hi Hr Ht Hok Hp. unfold push. cbn [rs_interested upd].
  destruct (rs_interested s) eqn:Hint.
  - assert (message_ok (Push (srv IqSet [i]))) as Hm by (exists [i]; split; [done|by repeat constructor]).
    assert (forall r, foldl effect (view (rs_client s)) (rs_queue s ++ [Push (srv IqSet [i])]) = Some r -> r = r') as Hlast.
    { intros r. rewrite foldl_app. cbn [foldl effect]. unfold items_of.
      rewrite (proj2 (server_items IqSet [i] ltac:(by repeat constructor))).
      destruct (foldl effect (view (rs_client s)) (rs_queue s)) as [r0|] eqn:H0'; [|done]. cbn [fmap option_fmap option_map foldl].
      intros [= <-]. destruct (Hv r0 eq_refl) as [-> _]. done. }
    split; [apply Forall_app; split; [exact Hq|by constructor]|]. split; [|split; [|split]].
    + cbn. rewrite responses_app. cbn. lia.
    + done.
    + cbn. apply was_take_snoc; [exact Hk|]. intros r Hl. apply Hlast in Hl as ->. rewrite Hr. apply was_now.
    + cbn. intros r Hl. split; [by apply Hlast|done].
  - assert (foldl effect (view (rs_client s)) (rs_queue s) = None) as Hnone.
    { destruct (foldl effect (view (rs_client s)) (rs_queue s)) as [r0|] eqn:H0'; [|done].
      destruct (Hv r0 eq_refl) as [_ Hc]. congruence. }
    split; [exact Hq|]. split; [exact Hn|]. split; [done|]. split; cbn.
    + intros k r Hl. by eapply was_snoc, Hk.
    + intros r Hl. congruence.
Qed.

Lemma server_snoc es e : server_after (es ++ [e]) =
  match e with SChange i => <[ri_bareJid i := i]> (server_after es) | SRemove j => delete j (server_after es) | _ => server_after es end.
Proof. unfold server_after. by rewrite foldl_app. Qed.
Lemma answer_inv es s : session_inv es s -> session_inv (es ++ [SAnswer]) (session_step jid memory s SAnswer).
Proof.
  intros (Hq & Hn & (Hs & Ht & Hok) & Hk & Hv). cbn [session_step].
  destruct (rs_asked s) as [|n] eqn:Ha.
  { split; [exact Hq|]. split; [lia|]. split; [by rewrite server_snoc|]. split; [|exact Hv].
    intros k r Hl. by eapply was_snoc, Hk. }
  pose proof (roster_items_ok _ Hok) as Hall. pose proof (proj2 (server_items IqResult _ Hall)) as Hit.
  assert (message_ok (Response (srv IqResult (roster_items (rs_server s))))) as Hmsg by by eexists.
  set (el := srv IqResult (roster_items (rs_server s))) in *. clearbody el. fold (items_of el) in Hit.
  split; [|split; [|split; [|split]]]; cbn.
  - apply Forall_app. split; [exact Hq|by constructor].
  - rewrite responses_app. cbn. lia.
  - by rewrite server_snoc.
  - apply was_take_snoc; [exact Hk|]. intros r. rewrite foldl_app. cbn [foldl effect]. unfold items_of.
    fold (items_of el). rewrite Hit, roster_back by exact Ht. intros [= <-].
    rewrite Hs. apply was_snoc, was_now.
  - intros r. rewrite foldl_app. cbn [foldl effect]. unfold items_of.
    fold (items_of el). rewrite Hit, roster_back by exact Ht. by intros [= <-].
Qed.
Lemma deliver_inv es s : session_inv es s -> session_inv (es ++ [SDeliver]) (session_step jid memory s SDeliver).
Proof.
  intros (Hq & Hn & (Hs & Ht & Hok) & Hk & Hv). cbn [session_step].
  destruct (rs_queue s) as [|x q] eqn:Hqe.
  { split; [by rewrite Hqe|]. rewrite Hqe. split; [exact Hn|]. split; [by rewrite server_snoc|]. split; [|exact Hv].
    intros k r Hl. by eapply was_snoc, (Hk k). }
  apply Forall_cons in Hq as [Hx Hq].
  assert (responses [x] + responses q = responses (x :: q))%nat as Hr by by destruct x.
  destruct (deliver_view x (rs_client s) Hx ltac:(lia)) as [Hview Hreq].
  split; [exact Hq|]. split; [cbn; lia|]. split; [by rewrite server_snoc|]. split; cbn.
  - intros k r. rewrite Hview. intros Hl. by eapply was_snoc, (Hk (S k)).
  - intros r. rewrite Hview. intros Hl. by apply Hv.
Qed.
Lemma cancelled_view n m : let m' := Nat.iter n (rosterResponse memory None) m in
  rosterRequests m' = (rosterRequests m - n)%nat /\ view m' = view m.
Proof.
  induction n as [|n [IHn IHv]]; [simpl; split; [lia|done]|]. simpl. unfold rosterResponse at 1 3.
  destruct (rosterRequests (Nat.iter n _ m)) as [|k] eqn:Hk; cbn; (split; [lia|done]).
Qed.
Lemma connected_view sm a m : let m' := q_connected jid sm a m in
  view m' = (if decide (sm = ResumedStream) then view m else None) /\ (rosterRequests m <= rosterRequests m')%nat.
Proof.
  unfold q_connected. case_decide as Hd; case_decide as Hd'; try tauto;
    destruct (negb _ && _); cbn; (split; [done|lia]).
Qed.
Lemma open_inv es s resumed sm a : session_inv es s ->
  session_inv (es ++ [SOpen resumed sm a]) (session_step jid memory s (SOpen resumed sm a)).
Proof.
  intros (Hq & Hn & (Hs & Ht & Hok) & Hk & Hv). destruct resumed; cbn [session_step]; unfold client_slot.
  - destruct (connected_view ResumedStream a (rs_client s)) as [Hview Hreq]. rewrite decide_True in Hview by done.
    split; [exact Hq|]. split; [cbn; lia|]. split; [by rewrite server_snoc|]. cbn. rewrite Hview. split.
    + intros k r Hl. by eapply was_snoc, Hk.
    + exact Hv.
  - cbn [rs_client upd]. set (c := cancelled memory (rs_client s)).
    destruct (cancelled_view (rosterRequests (rs_client s)) (rs_client s)) as [Hc _]. fold c in Hc.
    destruct (connected_view (if sm then NewStream else NoStreamManagement) a c) as [Hview Hreq].
    rewrite decide_False in Hview by by destruct sm.
    split; [constructor|]. split; [cbn; unfold c, cancelled in *; lia|]. split; [by rewrite server_snoc|]. cbn. rewrite Hview. split.
    + intros k r Hl. by rewrite take_nil in Hl.
    + done.
Qed.
Lemma lost_inv es s sm : session_inv es s -> session_inv (es ++ [SLost sm]) (session_step jid memory s (SLost sm)).
Proof.
  intros (Hq & Hn & (Hs & Ht & Hok) & Hk & Hv). cbn [session_step]. unfold q_disconnected.
  assert (forall v, v = None \/ v = view (rs_client s) ->
    (forall k r, foldl effect v (take k (rs_queue s)) = Some r -> was es r) /\
    (forall r, foldl effect v (rs_queue s) = Some r -> r = rs_server s /\ rs_interested s = true)) as Hw.
  { intros v [->| ->]; [|done]. split; [intros k r Hl; by eapply Hk, effects_from_none|intros r Hl; by eapply Hv, effects_from_none]. }
  split; [exact Hq|]. split; [cbn; by case_decide|]. split; [by rewrite server_snoc|]. cbn.
  destruct (Hw (view (if decide (sm = NoStreamManagement) then r_clear (rs_client s) else rs_client s))) as [Hw1 Hw2].
  { case_decide; [by left|by right]. }
  split; [|exact Hw2]. intros k r Hl. by eapply was_snoc, Hw1.
Qed.

Lemma session_ok es : Forall server_event_ok es -> session_inv es (session_run jid memory es).
Proof.
  induction es as [|e es IH] using rev_ind; intros Hes.
  { split; [constructor|]. split; [done|]. split; [|split]; [|by intros k r; cbn; rewrite take_nil|done].
    by split_and!. }
  apply Forall_app in Hes as [Hes [He _]%Forall_cons]. specialize (IH Hes).
  unfold session_run. rewrite foldl_app. cbn [foldl]. fold (session_run jid memory es).
  pose proof IH as (_ & _ & (Hs & Ht & Hok) & _).
  destruct e as [i|j| | |sm|resumed sm a].
  - destruct He as [Hne Hi]. cbn [session_step]. apply (push_inv es (SChange i) (session_run jid memory es)); try done.
    + by rewrite server_snoc, Hs.
    + by apply map_Forall_insert_2.
    + by apply map_Forall_insert_2.
    + unfold push_entry. by rewrite decide_False.
  - cbn [session_step]. apply (push_inv es (SRemove j) (session_run jid memory es)); try done.
    + by rewrite server_snoc, Hs.
    + by apply map_Forall_delete.
    + by apply map_Forall_delete.
  - by apply answer_inv.
  - by apply deliver_inv.
  - by apply lost_inv.
  - by apply open_inv.
Qed.

(** C8: The client's roster refines the server's. In every run, with lost, resumed and new
    sessions in between, once the roster was received it is a state the server's roster has
    been in, and it is the server's present roster when no stanza is under way. *)
Theorem roster_in_sync es : Forall server_event_ok es ->
  let s := session_run jid memory es in
  isRosterReceived (rs_client s) = true ->
  was es (entries (rs_client s)) /\
  (rs_queue s = [] -> entries (rs_client s) = server_after es).
Proof.
  intros Hes s Hr. destruct (session_ok es Hes) as (_ & _ & (Hs & _) & Hk & Hv). fold s in Hs, Hk, Hv.
  unfold view in Hk, Hv. rewrite Hr in Hk, Hv. split; [by apply (Hk 0%nat)|].
  intros Hq. rewrite Hq in Hv. destruct (Hv _ eq_refl) as [-> _]. exact Hs.
Qed.
End SessionTheory.

(** A roster that changes before the answer, between the sessions and after it. *)
Definition sample_events : list SessionEvent :=
  let i j n := newItem <| ri_bareJid := j |> <| ri_name := n |> <| ri_type := SubBoth |> in
  [SChange (i "a@x" "A"); SOpen false true true; SAnswer; SChange (i "b@x" "B"); SDeliver; SLost NewStream;
   SRemove "a@x"; SOpen true true true; SDeliver; SDeliver].
Lemma roster_in_sync_witness :
  let s := session_run (H := text_types) (H0 := sample_muji) "me@x/r" 0 sample_events in
  isRosterReceived (rs_client s) = true /\ entries (rs_client s) = server_after sample_events.
Proof.
  intros s. assert (isRosterReceived (rs_client s) = true) as Hr by by vm_compute.
  split; [exact Hr|]. apply (roster_in_sync (H := text_types) (H0 := sample_muji) "me@x/r" 0 sample_events);
    [by repeat constructor|exact Hr|by vm_compute].
Defined.
Example sample_roster : server_after sample_events !! "b@x" <> None /\ server_after sample_events !! "a@x" = None.
Proof. by vm_compute. Qed.

