(* ===== verification/TransferJob.v ===== *)
(** * Jobs of file transfers (QXmppTransferManager.cpp: QXmppTransferJob and
      its subclasses)

    A job with its device and socket, and its operations as functions of the
    job, the counter of stanza ids and what was emitted, which a [World] holds.
    A stateChanged signal calls the manager's slot at once; the queued
    _q_terminated is counted in [queued] and runs as an event. A null
    dereference has no result. Sockets are Qt's: how many bytes a socket still
    has to write is set by the events. *)
From S2P Require Import Prelude DataStream Utils Dom Base64 XmlCodec StreamManagement SaslXml SaslClient Stanza DataForm TransferIq.

(** ** Devices (QIODevice) *)

(** [dev_read n] is read(buffer, n), whose error is [None]; [dev_write] is the
    number of bytes written, or none for -1. *)
Class IODevice (Dev : Type) := {
  isOpen : Dev -> bool;
  isReadable : Dev -> bool;
  isWritable : Dev -> bool;
  isSequential : Dev -> bool;
  bytesAvailable : Dev -> Z;
  dev_read : Z -> Dev -> option string * Dev;
  dev_write : string -> Dev -> option Z * Dev;
  dev_close : Dev -> Dev;
  dev_reset : Dev -> Dev;
}.

(** The size of a byte array. *)
Definition slen (s : string) : Z := Z.of_nat (String.length s).

(** ** The data of a job *)

Inductive Direction := IncomingDirection | OutgoingDirection.
#[export] Instance Direction_eq_dec : EqDecision Direction.
Proof. solve_decision. Defined.
Inductive JobError := NoError | AbortError | FileAccessError | FileCorruptError | ProtocolError.
#[export] Instance JobError_eq_dec : EqDecision JobError.
Proof. solve_decision. Defined.
(** The methods are flags: InBandMethod 1, SocksMethod 2. *)
Definition NoMethod : Z := 0.
Definition InBandMethod : Z := 1.
Definition SocksMethod : Z := 2.
Definition AnyMethod : Z := 3.
Inductive State := OfferState | StartState | TransferState | FinishedState.
#[export] Instance State_eq_dec : EqDecision State.
Proof. solve_decision. Defined.

(** A socket of a bytestream: what was written to it and how much of that is
    still buffered. *)
Record Socket := { sk_open : bool; sk_written : string; bytesToWrite : Z }.
#[export] Instance Socket_eta : Eta Socket := fun s =>
  {| sk_open := sk_open s; sk_written := sk_written s; bytesToWrite := bytesToWrite s |}.
Definition newSocket : Socket := {| sk_open := true; sk_written := ""; bytesToWrite := 0 |}.
Definition sk_write (s : string) (k : Socket) : Socket :=
  if sk_open k then k <| sk_written ::= fun w => w +:+ s |> <| bytesToWrite ::= Z.add (slen s) |> else k.

Definition noHost : StreamHost := {| sh_host := ""; sh_jid := ""; sh_port := 0; sh_zeroconf := "" |}.

Record Job `{QtTypes} {Dev : Type} := {
  direction : Direction; jid : string; sid : string; offerId : string; requestId : string;
  blockSize : Z; done_ : Z; error : JobError; hashed : string; iodevice : option Dev;
  method : Z; mimeType : string; state : State; deviceIsOwn : bool; fileInfo : FileInfo;
  ibbSequence : Z;
  socksSocket : option Socket; socksProxy : StreamHost;
  candidateHost : StreamHost; candidateClient : option Socket;
  streamCandidates : list StreamHost; streamOfferId : string; streamOfferFrom : string;
  (* connections: the manager's slots of stateChanged and error, how often
     bytesWritten starts _q_sendData, and the queued calls of _q_terminated *)
  stateSlot : bool; errorSlot : bool; sendSlots : nat; queued : nat }.
Arguments Job {_} Dev.

(** ** What the transfers send and emit *)

Inductive Packet `{QtTypes} :=
  | PPlain (iq : Iq (list QXmppElement)) | POpen (iq : Iq IbbOpen) | PData (iq : Iq IbbData)
  | PClose (iq : Iq IbbClose) | PBytes (iq : Iq ByteStream) | PInitiation (iq : Iq StreamInitiation).
Definition packet_toXml `{QtTypes} (p : Packet) : Item :=
  match p with
  | PPlain iq => iq_toXml iq | POpen iq => iq_toXml iq | PData iq => iq_toXml iq
  | PClose iq => iq_toXml iq | PBytes iq => iq_toXml iq | PInitiation iq => iq_toXml iq
  end.

(** Signals carry the session id of their job. *)
Inductive Output `{QtTypes} :=
  | Sent (p : Packet) | StateChanged (s : string) (st : State) | ErrorEmitted (s : string) (e : JobError)
  | Finished (s : string) | JobFinished (s : string) | JobStarted (s : string) | FileReceived (s : string)
  | Progress (s : string) (n total : Z) | ConnectTo (h : StreamHost) (hostName : string)
  | LocalFileUrlChanged (url : string).

(** A job with what its operations share with the other jobs. *)
Record World `{QtTypes} {Dev : Type} := { job : Job Dev; ids : Z; out : list Output }.
Arguments World {_} Dev.

Section Jobs.
Context `{QtTypes} `{Crypto} {Dev : Type} `{IODevice Dev}.
(** What the unset size of a stanza error holds, and QString::toLatin1. *)
Variable memory : Z.
Variable toLatin1 : string -> string.
(** client->configuration().jid(). *)
Variable ownJid : string.

#[export] Instance Job_eta : Eta (Job Dev) := fun j =>
  {| direction := direction j; jid := jid j; sid := sid j; offerId := offerId j; requestId := requestId j;
     blockSize := blockSize j; done_ := done_ j; error := error j; hashed := hashed j; iodevice := iodevice j;
     method := method j; mimeType := mimeType j; state := state j; deviceIsOwn := deviceIsOwn j;
     fileInfo := fileInfo j; ibbSequence := ibbSequence j; socksSocket := socksSocket j;
     socksProxy := socksProxy j; candidateHost := candidateHost j; candidateClient := candidateClient j;
     streamCandidates := streamCandidates j; streamOfferId := streamOfferId j;
     streamOfferFrom := streamOfferFrom j; stateSlot := stateSlot j; errorSlot := errorSlot j;
     sendSlots := sendSlots j; queued := queued j |}.
#[export] Instance World_eta : Eta (World Dev) := fun w => {| job := job w; ids := ids w; out := out w |}.

Definition newJob (d : Direction) (jid : string) : Job Dev :=
  {| direction := d; jid := jid; sid := ""; offerId := ""; requestId := ""; blockSize := 16384;
     done_ := 0; error := NoError; hashed := ""; iodevice := None; method := NoMethod; mimeType := "";
     state := OfferState; deviceIsOwn := false; fileInfo := noFile; ibbSequence := 0;
     socksSocket := None; socksProxy := noHost; candidateHost := noHost; candidateClient := None;
     streamCandidates := []; streamOfferId := ""; streamOfferFrom := "";
     stateSlot := false; errorSlot := false; sendSlots := 0; queued := 0 |}.

(** ** Sending *)

Definition emit (o : Output) (w : World Dev) : World Dev := w <| out ::= fun l => l ++ [o] |>.
Definition on_job (f : Job Dev -> Job Dev) (w : World Dev) : World Dev := w <| job ::= f |>.

(** The constructor of an IQ takes a new id, which the code may replace. *)
Definition newStanza (from to_jid id : string) (err : option StanzaError.Error) : Stanza :=
  {| to_ := to_jid; from_ := from; id_ := id; lang := ""; error_ := err; extendedAddresses := [] |}.
Definition nextId (w : World Dev) : string * World Dev :=
  let '(id, n) := Random.generateSequentialStanzaId (ids w) in (id, w <| ids := n |>).
(** A request of the job: its id becomes the job's requestId. *)
Definition request {T} (mk : Iq T -> Packet) (t : IqType) (to_jid : string) (content : T) (w : World Dev) : World Dev :=
  let '(id, w) := nextId w in
  emit (Sent (mk (Build_Iq (newStanza "" to_jid id None) t content))) (on_job (fun j => j <| requestId := id |>) w).
(** A response, to the IQ with the given sender and id. *)
Definition respond {T} (mk : Iq T -> Packet) (t : IqType) (err : option StanzaError.Error)
    (to_jid id : string) (content : T) (w : World Dev) : World Dev :=
  emit (Sent (mk (Build_Iq (newStanza "" to_jid id err) t content))) (nextId w).2.
Definition stanza_error (t : StanzaError.Type_) (c : Condition) (code : Z) : StanzaError.Error :=
  (StanzaError.error_of memory t c "") <| StanzaError.code := code |>.
Definition respond_error (t : StanzaError.Type_) (c : Condition) (code : Z) (to_jid id : string)
    (w : World Dev) : World Dev :=
  respond PPlain IqError (Some (stanza_error t c code)) to_jid id [] w.
Definition respond_result (to_jid id : string) (w : World Dev) : World Dev :=
  respond PPlain IqResult None to_jid id [] w.

(** ** QXmppTransferJob *)

Definition terminate (cause : JobError) (w : World Dev) : World Dev :=
  if decide (state (job w) = FinishedState) then w
  else on_job (fun j =>
    j <| error := cause |> <| state := FinishedState |>
      <| iodevice ::= fun d => if deviceIsOwn j then dev_close <$> d else d |>
      <| socksSocket ::= fun s => (fun k => k <| sk_open := false |>) <$> s |>
      <| queued ::= S |>) w.
Definition abort : World Dev -> World Dev := terminate AbortError.

(** _q_jobStateChanged, the manager's slot of incoming jobs: it answers the offer. *)
Definition q_jobStateChanged (st : State) (w : World Dev) : World Dev :=
  if negb (stateSlot (job w)) then w
  else if decide (direction (job w) <> IncomingDirection) then w
  else
    let w := on_job (fun j => j <| stateSlot := false |>) w in
    let j := job w in
    if bool_decide (st <> StartState) || match iodevice j with Some d => negb (isWritable d) | None => true end then
      terminate AbortError (respond_error StanzaError.Cancel Forbidden 403 (jid j) (offerId j) w)
    else
      let w := on_job (fun j => j <| errorSlot := true |>) w in
      let v := if decide (method j = InBandMethod) then VString ns_ibb
               else if decide (method j = SocksMethod) then VString ns_bytestreams else VNull in
      emit (JobStarted (sid j))
        (respond PInitiation IqResult None (jid j) (offerId j)
           {| si_form := newForm Submit [newField ListSingleField "stream-method" v false];
              si_file := noFile; si_mimeType := ""; si_profile := FileTransfer; si_id := "" |} w).

Definition setState (st : State) (w : World Dev) : World Dev :=
  if decide (state (job w) = st) then w
  else
    let w := on_job (fun j => j <| state := st |>) w in
    emit (StateChanged (sid (job w)) st) (q_jobStateChanged st w).

(** accept(iodevice) and accept(filePath), with the file that was opened for
    writing, if it was. *)
Definition mayAccept (j : Job Dev) : bool :=
  bool_decide (direction j = IncomingDirection) && bool_decide (state j = OfferState)
  && negb (bool_decide (is_Some (iodevice j))).
Definition accept (dev : Dev) (w : World Dev) : World Dev :=
  if mayAccept (job w) then setState StartState (on_job (fun j => j <| iodevice := Some dev |>) w) else w.
Definition accept_path (filePath : string) (file : option Dev) (w : World Dev) : World Dev :=
  if mayAccept (job w) then
    match file with
    | None => abort w
    | Some f => setState StartState
        (emit (LocalFileUrlChanged filePath) (on_job (fun j => j <| iodevice := Some f |>) w))
    end
  else w.

(** _q_jobError and _q_terminated, which the event loop calls later. *)
Definition q_jobError (e : JobError) (w : World Dev) : World Dev :=
  if errorSlot (job w) && bool_decide (direction (job w) = OutgoingDirection)
     && bool_decide (method (job w) = InBandMethod) && bool_decide (e = AbortError)
  then request PClose IqSet (jid (job w)) {| ic_sid := sid (job w) |} w
  else w.
Definition q_terminated (w : World Dev) : World Dev :=
  match queued (job w) with
  | O => w
  | S n =>
      let w := on_job (fun j => j <| queued := n |>) w in
      let st := state (job w) in
      let w := emit (StateChanged (sid (job w)) st) (q_jobStateChanged st w) in
      let w := if decide (error (job w) = NoError) then w
               else emit (ErrorEmitted (sid (job w)) (error (job w))) (q_jobError (error (job w)) w) in
      emit (JobFinished (sid (job w))) (emit (Finished (sid (job w))) w)
  end.

(** ** QXmppTransferIncomingJob *)

Definition fileSize (j : Job Dev) : Z := fi_size (fileInfo j).

(** streamHash. *)
Definition streamHash (sid initiatorJid targetJid : string) : string :=
  toHex_ (hash QSha1 (toLatin1 (sid +:+ initiatorJid +:+ targetJid))).

Definition dataCorrupt (j : Job Dev) : bool :=
  (negb (fileSize j =? 0) && negb (done_ j =? fileSize j))
  || (negb (bool_decide (fi_hash (fileInfo j) = "")) && negb (bool_decide (hash QMd5 (hashed j) = fi_hash (fileInfo j)))).
Definition checkData (w : World Dev) : World Dev :=
  if dataCorrupt (job w) then terminate FileCorruptError w else terminate NoError w.

Definition connectToNextHost (w : World Dev) : World Dev :=
  let j := job w in
  match streamCandidates j with
  | [] =>
      let none := {| bs_mode := ModeNone; bs_sid := ""; bs_activate := ""; bs_streamHosts := []; bs_streamHostUsed := "" |} in
      terminate ProtocolError
        (respond PBytes IqError (Some (stanza_error StanzaError.Cancel ItemNotFound 404))
           (streamOfferFrom j) (streamOfferId j) none w)
  | h :: hs =>
      emit (ConnectTo h (streamHash (sid j) (jid j) ownJid))
        (on_job (fun j => j <| candidateHost := h |> <| streamCandidates := hs |>
                            <| candidateClient := Some newSocket |>) w)
  end.
Definition connectToHosts (iq : Iq ByteStream) (w : World Dev) : World Dev :=
  connectToNextHost (on_job (fun j => j <| streamCandidates := bs_streamHosts (iq_content iq) |>
    <| streamOfferId := id_ (iq_stanza iq) |> <| streamOfferFrom := from_ (iq_stanza iq) |>) w).

(** The write, and whether it succeeded. *)
Definition writeData (data : string) (w : World Dev) : option (bool * World Dev) :=
  let j := job w in
  match iodevice j with
  | None => None
  | Some d =>
      let '(written, d') := dev_write data d in
      let w := on_job (fun j => j <| iodevice := Some d' |>) w in
      match written with
      | None => Some (false, w)
      | Some n =>
          let w := on_job (fun j => j <| done_ ::= Z.add n |>
            <| hashed ::= fun h => if decide (fi_hash (fileInfo j) = "") then h else h +:+ data |>) w in
          Some (true, emit (Progress (sid (job w)) (done_ (job w)) (fileSize (job w))) w)
      end
  end.

Definition q_candidateReady (w : World Dev) : World Dev :=
  match candidateClient (job w) with
  | None => w
  | Some client =>
      let w := setState TransferState w in
      let w := on_job (fun j => j <| socksSocket := Some client |> <| candidateClient := None |>) w in
      let j := job w in
      respond PBytes IqResult None (streamOfferFrom j) (streamOfferId j)
        {| bs_mode := ModeNone; bs_sid := sid j; bs_activate := ""; bs_streamHosts := [];
           bs_streamHostUsed := sh_jid (candidateHost j) |} w
  end.
(** Of the socket, or of the timer. *)
Definition q_candidateDisconnected (w : World Dev) : World Dev :=
  match candidateClient (job w) with
  | None => w
  | Some _ => connectToNextHost (on_job (fun j => j <| candidateClient := None |>) w)
  end.
Definition incoming_q_disconnected (w : World Dev) : World Dev :=
  if decide (state (job w) = FinishedState) then w else checkData w.
(** With what the socket has received. *)
Definition q_receiveData (data : string) (w : World Dev) : option (World Dev) :=
  if decide (state (job w) <> TransferState) then Some w
  else if decide (direction (job w) <> IncomingDirection) then Some w
  else
    _ ← socksSocket (job w);
    '(_, w) ← writeData data w;
    Some (if negb (fileSize (job w) =? 0) && (fileSize (job w) <=? done_ (job w)) then checkData w else w).

(** ** QXmppTransferOutgoingJob *)

Definition connectToProxy (w : World Dev) : World Dev :=
  let j := job w in
  emit (ConnectTo (socksProxy j) (streamHash (sid j) ownJid (jid j)))
    (on_job (fun j => j <| socksSocket := Some newSocket |>) w).

Definition q_sendData (w : World Dev) : option (World Dev) :=
  let j := job w in
  if decide (state j <> TransferState) then Some w
  else
    k ← socksSocket j;
    if 2 * blockSize j <? bytesToWrite k then Some w
    else if negb (fileSize j =? 0) && (fileSize j <=? done_ j) then
      Some (if decide (bytesToWrite k = 0) then terminate NoError w else w)
    else
      d ← iodevice j;
      let '(buffer, d') := dev_read (blockSize j) d in
      let w := on_job (fun j => j <| iodevice := Some d' |>) w in
      match buffer with
      | None => Some (terminate FileAccessError w)
      | Some b =>
          let w := on_job (fun j => j <| socksSocket := Some (sk_write b k) |> <| done_ ::= Z.add (slen b) |>) w in
          Some (emit (Progress (sid j) (done_ (job w)) (fileSize j)) w)
      end.
(** Each start connects the slots once more. *)
Definition startSending (w : World Dev) : option (World Dev) :=
  q_sendData (on_job (fun j => j <| sendSlots ::= S |>) (setState TransferState w)).
Definition outgoing_q_disconnected (w : World Dev) : World Dev :=
  let j := job w in
  if decide (state j = FinishedState) then w
  else if negb (fileSize j =? 0) && negb (done_ j =? fileSize j) then terminate ProtocolError w
  else terminate NoError w.
Definition q_proxyReady (w : World Dev) : World Dev :=
  let j := job w in
  let '(id, w) := nextId w in
  emit (Sent (PBytes (Build_Iq (newStanza ownJid (sh_jid (socksProxy j)) id None) IqSet
    {| bs_mode := ModeNone; bs_sid := sid j; bs_activate := jid j; bs_streamHosts := [];
       bs_streamHostUsed := "" |})))
    (on_job (fun j => j <| requestId := id |>) w).
(** bytesWritten: the socket has [left] bytes still to write; every connected
    slot runs. *)
Fixpoint repeat_ (n : nat) (f : World Dev -> option (World Dev)) (w : World Dev) : option (World Dev) :=
  match n with O => Some w | S n' => w ← f w; repeat_ n' f w end.
Definition bytesWritten (left : Z) (w : World Dev) : option (World Dev) :=
  let w := on_job (fun j => j <| socksSocket ::= fun s => (fun k => k <| bytesToWrite := left |>) <$> s |>) w in
  repeat_ (sendSlots (job w)) q_sendData w.
(** readyRead of the device. *)
Definition deviceReadyRead (w : World Dev) : option (World Dev) :=
  repeat_ (sendSlots (job w)) q_sendData w.
End Jobs.
