(* ===== verification/TransferManager.v ===== *)
(** * The file transfer manager (QXmppTransferManager.cpp)

    The jobs of a manager and the IQs it answers. Jobs are found by their
    place in the list, as the code finds them by walking it. What is not
    handled here is received as a plain IQ when it is a response, as
    QXmppOutgoingClient::handleStanza does. The slots connected to
    fileReceived run as events after it. *)
From S2P Require Import Prelude DataStream Utils Dom Base64 XmlCodec StreamManagement SaslXml SaslClient Stanza DataForm TransferIq TransferJob.

Record Manager `{QtTypes} {Dev : Type} := {
  ibbBlockSize : Z; jobs : list (Job Dev); proxy : string; proxyOnly : bool; serverPort : Z;
  supportedMethods : Z; m_ids : Z; m_out : list Output }.
Arguments Manager {_} Dev.

Section Manager.
Context `{QtTypes} `{Crypto} {Dev : Type} `{IODevice Dev}.
Variable memory : Z.
Variable toLatin1 : string -> string.
Variable ownJid : string.
(** QXmppIceComponent::discoverAddresses, and whether fileReceived is connected. *)
Variable addresses : list string.
Variable hasReceiver : bool.

#[export] Instance Manager_eta : Eta (Manager Dev) := fun m =>
  {| ibbBlockSize := ibbBlockSize m; jobs := jobs m; proxy := proxy m; proxyOnly := proxyOnly m;
     serverPort := serverPort m; supportedMethods := supportedMethods m; m_ids := m_ids m; m_out := m_out m |}.

Definition newManager (port : Z) : Manager Dev :=
  {| ibbBlockSize := 4096; jobs := []; proxy := ""; proxyOnly := false; serverPort := port;
     supportedMethods := AnyMethod; m_ids := 0; m_out := [] |}.

(** setProxy, setProxyOnly and setSupportedMethods. *)
Definition setProxy (proxyJid : string) (m : Manager Dev) : Manager Dev := m <| proxy := proxyJid |>.
Definition setProxyOnly (b : bool) (m : Manager Dev) : Manager Dev := m <| proxyOnly := b |>.
Definition setSupportedMethods (methods : Z) (m : Manager Dev) : Manager Dev := m <| supportedMethods := methods |>.

(** ** Jobs of the list *)

Definition world (m : Manager Dev) (j : Job Dev) : World Dev := {| job := j; ids := m_ids m; out := m_out m |}.
Definition put (i : nat) (w : World Dev) (m : Manager Dev) : Manager Dev :=
  m <| jobs ::= <[i := job w]> |> <| m_ids := ids w |> <| m_out := out w |>.
(** An operation of the i-th job. *)
Definition on_nth (i : nat) (f : World Dev -> option (World Dev)) (m : Manager Dev) : option (Manager Dev) :=
  match jobs m !! i with
  | Some j => w ← f (world m j); Some (put i w m)
  | None => Some m
  end.
Definition on_nth' (i : nat) (f : World Dev -> World Dev) (m : Manager Dev) : option (Manager Dev) :=
  on_nth i (fun w => Some (f w)) m.

(** getJobByRequestId and getIncomingJobBySid: the place and the job. *)
Definition getJobByRequestId (d : Direction) (from id : string) (m : Manager Dev) : option (nat * Job Dev) :=
  list_find (fun j => direction j = d /\ jid j = from /\ requestId j = id) (jobs m).
Definition getIncomingJobBySid (from s : string) (m : Manager Dev) : option (nat * Job Dev) :=
  list_find (fun j => direction j = IncomingDirection /\ jid j = from /\ sid j = s) (jobs m).

(** ** Answers without a job *)

Definition m_send (p : string -> Packet) (m : Manager Dev) : Manager Dev :=
  let '(id, n) := Random.generateSequentialStanzaId (m_ids m) in
  m <| m_ids := n |> <| m_out ::= fun l => l ++ [Sent (p id)] |>.
Definition m_emit (o : Output) (m : Manager Dev) : Manager Dev := m <| m_out ::= fun l => l ++ [o] |>.
Definition refuse (t : StanzaError.Type_) (c : Condition) (code : Z) (s : Stanza) (m : Manager Dev) : Manager Dev :=
  m_send (fun _ => PPlain (Build_Iq
    (newStanza "" (from_ s) (id_ s) (Some (stanza_error memory t c code))) IqError [])) m.
(** An error without a code, as in-band bytestreams use them. *)
Definition refuse_ibb (t : StanzaError.Type_) (c : Condition) (s : Stanza) (m : Manager Dev) : option (Manager Dev) :=
  Some (refuse t c 0 s m).

(** ** SOCKS5 bytestreams *)

Definition socksServerSendOffer (port : Z) (pOnly : bool) (w : World Dev) : World Dev :=
  let j := job w in
  let own := if pOnly then [] else
    map (fun a => {| sh_jid := ownJid; sh_host := a; sh_port := port; sh_zeroconf := "" |}) addresses in
  let hosts := own ++ (if decide (sh_jid (socksProxy j) = "") then [] else [socksProxy j]) in
  match hosts with
  | [] => terminate ProtocolError w
  | _ => request PBytes IqSet (jid j)
      {| bs_mode := ModeNone; bs_sid := sid j; bs_activate := ""; bs_streamHosts := hosts; bs_streamHostUsed := "" |} w
  end.

Definition byteStreamResponseReceived {T} (iq : Iq T) (m : Manager Dev) : option (Manager Dev) :=
  match getJobByRequestId IncomingDirection (from_ (iq_stanza iq)) (id_ (iq_stanza iq)) m with
  | Some (i, j) =>
      if decide (method j = SocksMethod /\ state j = StartState) then
        if decide (iq_type iq = IqError) then on_nth' i (terminate ProtocolError) m else Some m
      else Some m
  | None => Some m
  end.
Definition byteStreamResultReceived (iq : Iq ByteStream) (m : Manager Dev) : option (Manager Dev) :=
  match getJobByRequestId OutgoingDirection (from_ (iq_stanza iq)) (id_ (iq_stanza iq)) m with
  | Some (i, j) =>
      if decide (method j = SocksMethod /\ state j = StartState) then
        if decide (bs_streamHostUsed (iq_content iq) = sh_jid (socksProxy j))
        then on_nth' i (connectToProxy toLatin1 ownJid) m
        else match socksSocket j with
             | None => on_nth' i (terminate ProtocolError) m
             | Some _ => on_nth i (startSending memory) m
             end
      else Some m
  | None => Some m
  end.
Definition byteStreamSetReceived (iq : Iq ByteStream) (m : Manager Dev) : option (Manager Dev) :=
  match getIncomingJobBySid (from_ (iq_stanza iq)) (bs_sid (iq_content iq)) m with
  | Some (i, j) =>
      if decide (method j = SocksMethod /\ state j = StartState)
      then on_nth' i (connectToHosts memory toLatin1 ownJid iq) m
      else Some (refuse StanzaError.Auth NotAcceptable 406 (iq_stanza iq) m)
  | None => Some (refuse StanzaError.Auth NotAcceptable 406 (iq_stanza iq) m)
  end.
Definition byteStreamIqReceived (iq : Iq ByteStream) (m : Manager Dev) : option (Manager Dev) :=
  let other := match iq_type iq with
               | IqResult => byteStreamResultReceived iq m
               | IqSet => byteStreamSetReceived iq m
               | _ => Some m
               end in
  match bs_streamHosts (iq_content iq), iq_type iq with
  | host :: _, IqResult =>
      match list_find (fun j => sh_jid (socksProxy j) = from_ (iq_stanza iq) /\ requestId j = id_ (iq_stanza iq)) (jobs m) with
      | Some (i, _) => on_nth' i (fun w => socksServerSendOffer (serverPort m) (proxyOnly m)
                                     (on_job (fun j => j <| socksProxy := host |>) w)) m
      | None => other
      end
  | _, _ => other
  end.
Definition q_socksServerConnected (socket : Socket) (hostName : string) (port : Z) (m : Manager Dev) : option (Manager Dev) :=
  match list_find (fun j => hostName = streamHash toLatin1 (sid j) ownJid (jid j) /\ port = 0) (jobs m) with
  | Some (i, _) => on_nth' i (on_job (fun j => j <| socksSocket := Some socket |>)) m
  | None => Some m
  end.

(** ** In-band bytestreams *)

Definition ibbCloseIqReceived (iq : Iq IbbClose) (m : Manager Dev) : option (Manager Dev) :=
  let s := iq_stanza iq in
  match getIncomingJobBySid (from_ s) (ic_sid (iq_content iq)) m with
  | Some (i, j) =>
      if decide (method j = InBandMethod)
      then on_nth' i (fun w => checkData (respond_result (from_ s) (id_ s) w)) m
      else refuse_ibb StanzaError.Cancel ItemNotFound s m
  | None => refuse_ibb StanzaError.Cancel ItemNotFound s m
  end.
(** The result of the write is not looked at. The sequence is an int. *)
Definition ibbDataIqReceived (iq : Iq IbbData) (m : Manager Dev) : option (Manager Dev) :=
  let s := iq_stanza iq in
  match getIncomingJobBySid (from_ s) (id_sid (iq_content iq)) m with
  | Some (i, j) =>
      if decide (method j = InBandMethod /\ state j = TransferState) then
        if decide (id_sequence (iq_content iq) <> ibbSequence j)
        then refuse_ibb StanzaError.Cancel UnexpectedRequest s m
        else on_nth i (fun w =>
               '(_, w) ← writeData (id_payload (iq_content iq)) w;
               Some (respond_result (from_ s) (id_ s)
                       (on_job (fun j => j <| ibbSequence ::= fun n => i32 (n + 1) |>) w))) m
      else refuse_ibb StanzaError.Cancel ItemNotFound s m
  | None => refuse_ibb StanzaError.Cancel ItemNotFound s m
  end.
Definition ibbOpenIqReceived (iq : Iq IbbOpen) (m : Manager Dev) : option (Manager Dev) :=
  let s := iq_stanza iq in
  match getIncomingJobBySid (from_ s) (io_sid (iq_content iq)) m with
  | Some (i, j) =>
      if decide (method j = InBandMethod) then
        if ibbBlockSize m <? io_blockSize (iq_content iq)
        then refuse_ibb StanzaError.Modify ResourceConstraint s m
        else on_nth' i (fun w => respond_result (from_ s) (id_ s)
               (setState memory TransferState
                  (on_job (fun j => j <| blockSize := i32 (io_blockSize (iq_content iq)) |>) w))) m
      else refuse_ibb StanzaError.Cancel ItemNotFound s m
  | None => refuse_ibb StanzaError.Cancel ItemNotFound s m
  end.

Definition closeStream (cause : JobError) (w : World Dev) : World Dev :=
  terminate cause (request PClose IqSet (jid (job w)) {| ic_sid := sid (job w) |} w).
(** The sequence on the wire is a quint16, the job's an int. *)
Definition sendBlock (w : World Dev) : option (World Dev) :=
  d ← iodevice (job w);
  let '(r, d') := dev_read (blockSize (job w)) d in
  let buffer := default "" r in
  let w := setState memory TransferState (on_job (fun j => j <| iodevice := Some d' |>) w) in
  let j := job w in
  if decide (buffer = "") then Some (closeStream NoError w)
  else
    let w := on_job (fun j => j <| ibbSequence ::= fun n => i32 (n + 1) |>) w in
    let w := request PData IqSet (jid j)
      {| id_sid := sid j; id_sequence := u16 (ibbSequence j); id_payload := buffer |} w in
    let w := on_job (fun j => j <| done_ ::= Z.add (slen buffer) |>) w in
    Some (emit (Progress (sid j) (done_ (job w)) (fileSize j)) w).
Definition ibbResponseReceived {T} (iq : Iq T) (m : Manager Dev) : option (Manager Dev) :=
  match getJobByRequestId OutgoingDirection (from_ (iq_stanza iq)) (id_ (iq_stanza iq)) m with
  | Some (i, j) =>
      if decide (method j = InBandMethod /\ state j <> FinishedState) then
        d ← iodevice j;
        if negb (isOpen d) then Some m
        else match iq_type iq with
             | IqResult => on_nth i sendBlock m
             | IqError => on_nth' i (closeStream ProtocolError) m
             | _ => Some m
             end
      else Some m
  | None => Some m
  end.

(** ** Responses that no other component expects *)

Inductive IqCase := FromProxy | IbbResponse | BytesResponse | Cancelled.
(** The first job the loop of _q_iqReceived stops at, and why. *)
Definition iq_case {T} (iq : Iq T) (j : Job Dev) : option IqCase :=
  let from := from_ (iq_stanza iq) in
  let id := id_ (iq_stanza iq) in
  if decide (direction j = OutgoingDirection /\ sh_jid (socksProxy j) = from /\ requestId j = id) then Some FromProxy
  else if decide (jid j = from /\ requestId j = id) then
    if decide (direction j = OutgoingDirection /\ method j = InBandMethod) then Some IbbResponse
    else if decide (direction j = IncomingDirection /\ method j = SocksMethod) then Some BytesResponse
    else if decide (direction j = OutgoingDirection /\ iq_type iq = IqError) then Some Cancelled
    else None
  else None.
Fixpoint find_case {T} (iq : Iq T) (k : nat) (js : list (Job Dev)) : option (nat * IqCase) :=
  match js with
  | [] => None
  | j :: js => match iq_case iq j with Some c => Some (k, c) | None => find_case iq (S k) js end
  end.
Definition proxyResponse {T} (iq : Iq T) (port : Z) (pOnly : bool) (w : World Dev) : option (World Dev) :=
  match socksSocket (job w), iq_type iq with
  | Some _, IqResult => startSending memory w
  | Some _, IqError => Some (terminate ProtocolError w)
  | None, IqError => Some (socksServerSendOffer port pOnly w)
  | _, _ => Some w
  end.
Definition q_iqReceived {T} (iq : Iq T) (m : Manager Dev) : option (Manager Dev) :=
  match find_case iq 0 (jobs m) with
  | Some (i, FromProxy) => on_nth i (proxyResponse iq (serverPort m) (proxyOnly m)) m
  | Some (_, IbbResponse) => ibbResponseReceived iq m
  | Some (_, BytesResponse) => byteStreamResponseReceived iq m
  | Some (i, Cancelled) => on_nth' i (terminate AbortError) m
  | None => Some m
  end.

(** ** Stream initiation *)

Definition option_list (methods : Z) : list ListOption :=
  (if Z.land methods InBandMethod =? 0 then [] else [{| op_label := ""; op_value := ns_ibb |}]) ++
  (if Z.land methods SocksMethod =? 0 then [] else [{| op_label := ""; op_value := ns_bytestreams |}]).
(** sendFile: the job, whether it is one of the manager's or already failed.
    [hash] is what generateStanzaHash returns. *)
Definition sendFile (hash jid_ : string) (device : option Dev) (fi : FileInfo) (sid_ : string)
    (m : Manager Dev) : option (Job Dev) * Manager Dev :=
  if decide (Jid.jidToResource jid_ = "") then (None, m)
  else
    let j := (newJob OutgoingDirection jid_)
      <| sid := if decide (sid_ = "") then hash else sid_ |> <| fileInfo := fi |> <| iodevice := device |> in
    if negb (match device with Some d => isReadable d | None => false end)
    then (Some (job (terminate FileAccessError (world m j))), m)
    else if supportedMethods m =? 0 then (Some (job (terminate ProtocolError (world m j))), m)
    else
      let f := (newField ListSingleField "stream-method" VNull false) <| options := option_list (supportedMethods m) |> in
      let w := request PInitiation IqSet jid_
        {| si_form := newForm Form [f]; si_file := fi; si_mimeType := ""; si_profile := FileTransfer; si_id := sid j |}
        (world m (j <| errorSlot := true |>)) in
      let w := emit (JobStarted (sid j)) w in
      (Some (job w), m <| jobs ::= fun js => js ++ [job w] |> <| m_ids := ids w |> <| m_out := out w |>).

(** sendFile(filePath): what QFileInfo says and the file, if it could be opened
    for reading. It is hashed in pieces unless it is sequential. *)
Fixpoint hash_file (fuel : nat) (d : Dev) (acc : string) : string * Dev :=
  match fuel with
  | O => (acc, d)
  | S n =>
      if 0 <? bytesAvailable d then
        let '(r, d') := dev_read 16384 d in hash_file n d' (acc +:+ default "" r)
      else (acc, d)
  end.
Definition sendFile_path (fuel : nat) (hash_ jid_ filePath : string) (file : option Dev) (info : FileInfo)
    (m : Manager Dev) : option (Manager Dev) :=
  if decide (Jid.jidToResource jid_ = "") then Some m
  else
    let '(device, fi) := match file with
      | Some d => if isSequential d then (Some d, info)
                  else let '(content, d') := hash_file fuel d "" in
                       (Some (dev_reset d'), {| fi_date := fi_date info; fi_hash := hash QMd5 content;
                          fi_name := fi_name info; fi_description := fi_description info; fi_size := fi_size info |})
      | None => (None, info)
      end in
    let n := length (jobs m) in
    let '(j, m) := sendFile hash_ jid_ device fi "" m in
    match j with
    | None => None
    | Some _ => on_nth' n (fun w => on_job (fun j => j <| deviceIsOwn := true |>)
                                     (emit (LocalFileUrlChanged filePath) w)) m
    end.

Definition streamInitiationResultReceived (iq : Iq StreamInitiation) (m : Manager Dev) : option (Manager Dev) :=
  match getJobByRequestId OutgoingDirection (from_ (iq_stanza iq)) (id_ (iq_stanza iq)) m with
  | Some (i, j) =>
      if decide (state j = OfferState) then
        let select mt f :=
          if decide (key f = "stream-method") then
            let v := variant_toString (value f) in
            if bool_decide (v = ns_ibb) && negb (Z.land (supportedMethods m) InBandMethod =? 0) then InBandMethod
            else if bool_decide (v = ns_bytestreams) && negb (Z.land (supportedMethods m) SocksMethod =? 0)
            then SocksMethod else mt
          else mt in
        let mt := foldl select (method j) (fields (si_form (iq_content iq))) in
        on_nth' i (fun w =>
          let w := setState memory StartState (on_job (fun j => j <| method := mt |>) w) in
          let j := job w in
          if decide (method j = InBandMethod) then
            let w := on_job (fun j => j <| blockSize := ibbBlockSize m |>) w in
            request POpen IqSet (jid j) {| io_sid := sid j; io_blockSize := ibbBlockSize m |} w
          else if decide (method j = SocksMethod) then
            if decide (proxy m = "") then socksServerSendOffer (serverPort m) (proxyOnly m) w
            else
              let w := on_job (fun j => j <| socksProxy ::= fun h =>
                {| sh_host := sh_host h; sh_jid := proxy m; sh_port := sh_port h; sh_zeroconf := sh_zeroconf h |} |>) w in
              request PBytes IqGet (proxy m)
                {| bs_mode := ModeNone; bs_sid := sid j; bs_activate := ""; bs_streamHosts := []; bs_streamHostUsed := "" |} w
          else terminate ProtocolError w) m
      else Some m
  | None => Some m
  end.

Definition offeredMethods (f : DataForm) : Z :=
  foldl (fun mt fd =>
    if decide (key fd = "stream-method") then
      foldl (fun mt o => if decide (op_value o = ns_ibb) then Z.lor mt InBandMethod
                         else if decide (op_value o = ns_bytestreams) then Z.lor mt SocksMethod else mt)
        mt (options fd)
    else mt) NoMethod (fields f).
Definition streamInitiationSetReceived (iq : Iq StreamInitiation) (m : Manager Dev) : option (Manager Dev) :=
  let s := iq_stanza iq in
  let c := iq_content iq in
  match si_profile c with
  | ProfileNone => Some (refuse StanzaError.Cancel BadRequest 400 s m)
  | FileTransfer =>
      if negb hasReceiver then Some (refuse StanzaError.Cancel Forbidden 403 s m)
      else
        let shared := Z.land (offeredMethods (si_form c)) (supportedMethods m) in
        let j := (newJob IncomingDirection (from_ s))
          <| offerId := id_ s |> <| sid := si_id c |> <| mimeType := si_mimeType c |> <| fileInfo := si_file c |> in
        if negb (Z.land shared SocksMethod =? 0) || negb (Z.land shared InBandMethod =? 0) then
          let mt := if negb (Z.land shared SocksMethod =? 0) then SocksMethod else InBandMethod in
          (* the constructor of the unused response takes an id *)
          Some (m_emit (FileReceived (si_id c))
            (m <| m_ids ::= fun n => (Random.generateSequentialStanzaId n).2 |>
               <| jobs ::= fun js => js ++ [j <| method := mt |> <| stateSlot := true |>] |>))
        else Some (refuse StanzaError.Cancel BadRequest 400 s m)
  end.
Definition streamInitiationIqReceived (iq : Iq StreamInitiation) (m : Manager Dev) : option (Manager Dev) :=
  match iq_type iq with
  | IqResult => streamInitiationResultReceived iq m
  | IqSet => streamInitiationSetReceived iq m
  | _ => Some m
  end.

(** ** The stanzas of the client *)

(** handleStanza: whether the stanza was one of the manager's. *)
Definition handleStanza (el : Dom) (m : Manager Dev) : option (bool * Manager Dev) :=
  let tag := iqPayloadXmlTag el in
  let handled := fmap (M := option) (pair true) in
  if decide (tag = ("close", ns_ibb)) then handled (ibbCloseIqReceived (iq_parse memory el) m)
  else if decide (tag = ("data", ns_ibb)) then handled (ibbDataIqReceived (iq_parse memory el) m)
  else if decide (tag = ("open", ns_ibb)) then handled (ibbOpenIqReceived (iq_parse memory el) m)
  else if decide (tag = ("query", ns_bytestreams)) then handled (byteStreamIqReceived (iq_parse memory el) m)
  else if decide (tag = ("si", ns_stream_initiation)) then handled (streamInitiationIqReceived (iq_parse memory el) m)
  else Some (false, m).
(** A stanza of the stream: responses that are not handled are received as plain IQs. *)
Definition receive (el : Dom) (m : Manager Dev) : option (Manager Dev) :=
  '(handled, m) ← handleStanza el m;
  if (negb handled && bool_decide (tagName el = "iq")
      && (bool_decide (attribute el "type" = "result") || bool_decide (attribute el "type" = "error")))%bool
  then q_iqReceived (iq_parse (T := list QXmppElement) memory el) m else Some m.

(** _q_jobDestroyed. *)
Definition q_jobDestroyed (i : nat) (m : Manager Dev) : Manager Dev := m <| jobs ::= delete i |>.

(** ** Runs *)

(** What happens to a manager: stanzas and bytestreams of others, what the
    application does with its jobs, and the events of their sockets. *)
Inductive JobEvent :=
  | Accept (d : Dev) | AcceptPath (path : string) (d : option Dev) | Abort | Terminated
  | CandidateReady | CandidateDisconnected | Received (data : string) | IncomingDisconnected
  | ProxyReady | BytesWritten (left : Z) | DeviceReadyRead | OutgoingDisconnected.
Definition job_step (e : JobEvent) (w : World Dev) : option (World Dev) :=
  match e with
  | Accept d => Some (accept memory d w)
  | AcceptPath path d => Some (accept_path memory path d w)
  | Abort => Some (abort w)
  | Terminated => Some (q_terminated memory w)
  | CandidateReady => Some (q_candidateReady memory w)
  | CandidateDisconnected => Some (q_candidateDisconnected memory toLatin1 ownJid w)
  | Received data => q_receiveData data w
  | IncomingDisconnected => Some (incoming_q_disconnected w)
  | ProxyReady => Some (q_proxyReady ownJid w)
  | BytesWritten left => bytesWritten left w
  | DeviceReadyRead => deviceReadyRead w
  | OutgoingDisconnected => Some (outgoing_q_disconnected w)
  end.
(** The slots of incoming jobs are those of incoming jobs only. *)
Definition event_for (d : Direction) (e : JobEvent) : bool :=
  match e with
  | CandidateReady | CandidateDisconnected | Received _ | IncomingDisconnected => bool_decide (d = IncomingDirection)
  | ProxyReady | BytesWritten _ | DeviceReadyRead | OutgoingDisconnected => bool_decide (d = OutgoingDirection)
  | _ => true
  end.
Inductive Event :=
  | Stanza_ (el : Dom) | OfJob (i : nat) (e : JobEvent)
  | SendFile (hash jid_ : string) (d : option Dev) (fi : FileInfo) (sid_ : string)
  | SendPath (fuel : nat) (hash jid_ path : string) (d : option Dev) (fi : FileInfo)
  | SocksConnected (k : Socket) (hostName : string) (port : Z)
  | JobDestroyed (i : nat)
  | SetProxy (proxyJid : string) | SetProxyOnly (b : bool) | SetSupportedMethods (methods : Z).
Definition step (e : Event) (m : Manager Dev) : option (Manager Dev) :=
  match e with
  | Stanza_ el => receive el m
  | OfJob i e =>
      match jobs m !! i with
      | Some j => if event_for (direction j) e then on_nth i (job_step e) m else Some m
      | None => Some m
      end
  | SendFile hash jid_ d fi sid_ => Some (sendFile hash jid_ d fi sid_ m).2
  | SendPath fuel hash jid_ path d fi => sendFile_path fuel hash jid_ path d fi m
  | SocksConnected k hostName port => q_socksServerConnected k hostName port m
  | JobDestroyed i => Some (q_jobDestroyed i m)
  | SetProxy proxyJid => Some (setProxy proxyJid m)
  | SetProxyOnly b => Some (setProxyOnly b m)
  | SetSupportedMethods methods => Some (setSupportedMethods methods m)
  end.
Definition run (es : list Event) (m : Manager Dev) : option (Manager Dev) :=
  foldl (fun m e => m ← m; step e m) (Some m) es.
End Manager.

(** ** Properties *)

(** *** What a received file is *)

(** Devices that append what they take of the data they are given, which may be a part of it,
    or fail and stay as they were. *)
Class AppendDevice (Dev : Type) `{IODevice Dev} := {
  content : Dev -> string;
  write_law s d : match dev_write s d with
    | (Some n, d') => exists t u, s = t +:+ u /\ n = slen t /\ content d' = content d +:+ t
    | (None, d') => content d' = content d
    end;
  close_law d : content (dev_close d) = content d;
}.
(** Every write takes all of its data. *)
Definition writes_all (Dev : Type) `{IODevice Dev} : Prop :=
  forall s d n d', dev_write s d = (Some n, d') -> n = slen s.
(** Data that arrived in blocks, and what a device has taken of the blocks. *)
Inductive stored : string -> string -> Prop :=
  | stored_nothing : stored "" ""
  | stored_block r w t u : stored r w -> stored (r +:+ (t +:+ u)) (w +:+ t).
Lemma stored_length r w : stored r w -> slen w <= slen r.
Proof. unfold slen. induction 1; rewrite ?text_app_length; lia. Qed.
Lemma text_app_full t u : slen t = slen (t +:+ u) -> u = "".
Proof. unfold slen. rewrite text_app_length. destruct u; [done|]. simpl. lia. Qed.
Lemma full_write {Dev} `{AppendDevice Dev} s d d' : dev_write s d = (Some (slen s), d') ->
  content d' = content d +:+ s.
Proof.
  intros Hw. pose proof (write_law s d) as Hl. rewrite Hw in Hl. destruct Hl as (t & u & -> & Hn & Hc).
  symmetry in Hn. apply text_app_full in Hn as ->. by rewrite text_app_nil.
Qed.

Section Received.
Context `{QtTypes} `{Crypto} {Dev : Type} `{AppendDevice Dev}.
Variable memory : Z.
Variable toLatin1 : string -> string.
Variable ownJid : string.
Variable addresses : list string.
Variable hasReceiver : bool.

Implicit Types (w : World Dev) (j : Job Dev) (m : Manager Dev).

(** What a job has received, and what its device has at its end of that. *)
Definition received_data (j : Job Dev) (received written : string) : Prop :=
  stored received written /\ (writes_all Dev -> written = received) /\
  done_ j = slen written /\ (fi_hash (fileInfo j) <> "" -> hashed j = received) /\
  match iodevice j with
  | Some d => exists base, content d = base +:+ written
  | None => received = "" /\ written = ""
  end.
Definition received_file (j : Job Dev) (received written : string) : Prop :=
  received_data j received written /\
  (fi_size (fileInfo j) <> 0 -> slen written = fi_size (fileInfo j)) /\
  (fi_hash (fileInfo j) <> "" -> hash QMd5 received = fi_hash (fileInfo j)).

Definition incoming_ok (j : Job Dev) : Prop :=
  direction j = IncomingDirection ->
  (exists received written, received_data j received written) /\
  (state j = FinishedState -> error j = NoError -> dataCorrupt j = false).

(** An operation keeps the direction of its job and the invariant. *)
Definition preserves (w w' : World Dev) : Prop :=
  direction (job w') = direction (job w) /\ (incoming_ok (job w) -> incoming_ok (job w')).

Lemma preserves_refl w : preserves w w.
Proof. by split. Qed.
Lemma preserves_trans w1 w2 w3 : preserves w1 w2 -> preserves w2 w3 -> preserves w1 w3.
Proof. intros [Hd1 H1'] [Hd2 H2']. split; [by rewrite Hd2|auto]. Qed.

(** The fields the invariant is about. *)
Definition core (j : Job Dev) := (direction j, done_ j, hashed j, iodevice j, fileInfo j, state j, error j).
Lemma preserves_core w w' : core (job w') = core (job w) -> preserves w w'.
Proof.
  unfold core. intros [= Hd Hn Hh Hi Hf Hs He].
  unfold preserves, incoming_ok, received_data, dataCorrupt, fileSize.
  rewrite Hd, Hn, Hh, Hi, Hf, Hs, He. tauto.
Qed.
Lemma preserves_outgoing w w' :
  direction (job w) = OutgoingDirection -> direction (job w') = OutgoingDirection -> preserves w w'.
Proof. intros Hd Hd'. split; [congruence|]. intros _ Hin. congruence. Qed.

Lemma preserves_emit o w : preserves w (emit o w).
Proof. by apply preserves_core. Qed.
Lemma preserves_respond {T} mk t err to_jid id (c : T) w : preserves w (respond mk t err to_jid id c w).
Proof. by apply preserves_core. Qed.
Lemma preserves_request {T} mk t to_jid (c : T) w : preserves w (request mk t to_jid c w).
Proof. by apply preserves_core. Qed.

Lemma preserves_terminate cause w :
  cause <> NoError \/ dataCorrupt (job w) = false -> preserves w (terminate cause w).
Proof.
  intros Hc. unfold terminate. case_decide as Hs; [apply preserves_refl|]. split; [done|].
  intros Hok Hd. destruct (Hok Hd) as [(r & t & Hst & Hall & Hn & Hh & Hi) _]. split.
  - exists r, t. do 4 (split; [done|]). cbn.
    destruct (iodevice (job w)) as [d|]; [|by destruct deviceIsOwn].
    destruct deviceIsOwn; cbn; [by rewrite close_law|done].
  - cbn. intros _ He. by destruct Hc.
Qed.
Lemma preserves_checkData w : preserves w (checkData w).
Proof.
  unfold checkData. destruct (dataCorrupt (job w)) eqn:Hc; apply preserves_terminate; auto.
Qed.

Lemma preserves_live (f : Job Dev -> Job Dev) st w : st <> FinishedState ->
  core (f (job w)) = core ((job w) <| state := st |>) -> preserves w (on_job f w).
Proof.
  intros Hst Hcore. unfold core in Hcore. cbn in Hcore. injection Hcore as Hd Hn Hh Hi Hf Hs He.
  unfold preserves, incoming_ok, received_data, on_job. cbn. rewrite Hd, Hn, Hh, Hi, Hf, Hs.
  split; [done|]. intros Hok Hdir. destruct (Hok Hdir) as [Hdata _]. by split.
Qed.

Lemma preserves_jobStateChanged st w : preserves w (q_jobStateChanged memory st w).
Proof.
  unfold q_jobStateChanged. destruct stateSlot; [|apply preserves_refl]. cbn [negb].
  case_decide; [apply preserves_refl|]. cbv zeta.
  eapply preserves_trans; [apply (preserves_core w (on_job (fun j => j <| stateSlot := false |>) w)); done|].
  destruct (_ || _).
  - eapply preserves_trans; [|apply preserves_terminate; by left]. apply preserves_respond.
  - eapply preserves_trans; [|apply preserves_emit].
    eapply preserves_trans; [|apply preserves_respond]. by apply preserves_core.
Qed.
Lemma preserves_setState st w : st <> FinishedState -> preserves w (setState memory st w).
Proof.
  intros Hst. unfold setState. case_decide; [apply preserves_refl|]. cbv zeta.
  eapply preserves_trans; [by apply (preserves_live (fun j => j <| state := st |>) st)|].
  eapply preserves_trans; [apply preserves_jobStateChanged|apply preserves_emit].
Qed.
Lemma preserves_terminated w : preserves w (q_terminated memory w).
Proof.
  unfold q_terminated. destruct (queued (job w)) as [|n]; [apply preserves_refl|]. cbv zeta.
  set (w1 := on_job _ w). eapply preserves_trans; [by apply (preserves_core w w1)|].
  set (w2 := emit _ (q_jobStateChanged _ _ _)).
  assert (preserves w1 w2) as H12.
  { eapply preserves_trans; [apply preserves_jobStateChanged|apply preserves_emit]. }
  eapply preserves_trans; [exact H12|].
  eapply preserves_trans; [|apply preserves_emit]. eapply preserves_trans; [|apply preserves_emit].
  case_decide; [apply preserves_refl|]. eapply preserves_trans; [|apply preserves_emit].
  unfold q_jobError. case_match; [apply preserves_request|apply preserves_refl].
Qed.

(** A device is given to a job that has none and has not started. *)
Lemma preserves_device d w : mayAccept (job w) = true -> preserves w (on_job (fun j => j <| iodevice := Some d |>) w).
Proof.
  intros Hm. unfold mayAccept in Hm. bools.
  match goal with Hi : ~ is_Some _ |- _ => apply eq_None_not_Some in Hi as Hnone end.
  split; [done|]. intros Hok Hd. destruct (Hok Hd) as [(r & t & Hst & Hall & Hn & Hh & Hi') Hfin]. cbn.
  split; [|exact Hfin]. unfold received_data in *. rewrite Hnone in Hi'. destruct Hi' as [-> ->].
  exists "", "". cbn. do 4 (split; [done|]). exists (content d). by rewrite text_app_nil.
Qed.
Lemma preserves_accept d w : preserves w (accept memory d w).
Proof.
  unfold accept. destruct (mayAccept (job w)) eqn:Hm; [|apply preserves_refl].
  eapply preserves_trans; [by apply preserves_device|]. by apply preserves_setState.
Qed.
Lemma preserves_accept_path path file w : preserves w (accept_path memory path file w).
Proof.
  unfold accept_path. destruct (mayAccept (job w)) eqn:Hm; [|apply preserves_refl].
  destruct file as [d|]; [|apply preserves_terminate; by left].
  eapply preserves_trans; [by apply (preserves_device d)|].
  eapply preserves_trans; [apply preserves_emit|]. by apply preserves_setState.
Qed.
Lemma preserves_connectToNextHost w : preserves w (connectToNextHost memory toLatin1 ownJid w).
Proof.
  unfold connectToNextHost. destruct (streamCandidates (job w)) as [|h hs].
  - eapply preserves_trans; [|apply preserves_terminate; by left]. apply preserves_respond.
  - by apply preserves_core.
Qed.

Lemma writeData_live s w b w' : state (job w) <> FinishedState ->
  writeData s w = Some (b, w') -> preserves w w' /\ state (job w') = state (job w).
Proof.
  intros Hs. unfold writeData. destruct (iodevice (job w)) as [d|] eqn:Hd; [|done].
  pose proof (write_law s d) as Hlaw. destruct (dev_write s d) as [[n|] d'] eqn:Hdw; intros [= <- <-].
  - destruct Hlaw as (t & u & -> & -> & Hc). cbn. split; [|done]. split; [done|]. intros Hok Hin. cbn.
    destruct (Hok Hin) as [(r & w0 & Hst & Hall & Hn & Hh & Hi) _]. split; [|intros Hf; by destruct Hs].
    exists (r +:+ (t +:+ u)), (w0 +:+ t). split_and!; cbn.
    + by constructor.
    + intros Hw. rewrite (Hall Hw). apply Hw in Hdw. apply text_app_full in Hdw as ->. by rewrite text_app_nil.
    + unfold slen in *. rewrite Hn, text_app_length. lia.
    + intros Hne. rewrite decide_False by done. by rewrite Hh.
    + rewrite Hd in Hi. destruct Hi as [base Hb]. exists base. by rewrite Hc, Hb, text_app_assoc.
  - split; [|done]. split; [done|]. intros Hok Hin. cbn.
    destruct (Hok Hin) as [(r & w0 & Hst & Hall & Hn & Hh & Hi) _]. split; [|intros Hf; by destruct Hs].
    exists r, w0. split_and!; cbn; [done..|]. rewrite Hd in Hi. destruct Hi as [base Hb]. exists base. by rewrite Hlaw.
Qed.
Lemma preserves_receiveData s w w' : q_receiveData s w = Some w' -> preserves w w'.
Proof.
  unfold q_receiveData. case_decide as Hs; [intros [= <-]; apply preserves_refl|].
  case_decide; [intros [= <-]; apply preserves_refl|].
  destruct (socksSocket (job w)); [cbn|done]. destruct (writeData s w) as [[b w1]|] eqn:Hw; [|done].
  cbn. intros [= <-]. apply writeData_live in Hw as [Hp _]; [|by rewrite Hs].
  eapply preserves_trans; [exact Hp|]. destruct (_ && _); [apply preserves_checkData|apply preserves_refl].
Qed.
Lemma preserves_candidateReady w : preserves w (q_candidateReady memory w).
Proof.
  unfold q_candidateReady. destruct (candidateClient (job w)); [|apply preserves_refl].
  eapply preserves_trans; [by apply (preserves_setState TransferState)|]. cbv zeta.
  eapply preserves_trans; [|apply preserves_respond]. by apply preserves_core.
Qed.

(** *** Outgoing jobs stay outgoing *)

Lemma direction_setState st w : direction (job (setState memory st w)) = direction (job w).
Proof.
  destruct (decide (st = FinishedState)) as [->|]; [|by apply preserves_setState].
  unfold setState. case_decide; [done|]. cbn. by rewrite (proj1 (preserves_jobStateChanged _ _)).
Qed.
Lemma direction_terminate cause w : direction (job (terminate cause w)) = direction (job w).
Proof. unfold terminate. by case_decide. Qed.
Lemma direction_sendData w w' : q_sendData w = Some w' -> direction (job w') = direction (job w).
Proof.
  unfold q_sendData. case_decide; [by intros [= <-]|].
  destruct (socksSocket (job w)) as [k|]; [cbn|done]. destruct (_ <? bytesToWrite k); [by intros [= <-]|].
  destruct (_ && _).
  - intros [= <-]. case_decide; [apply direction_terminate|done].
  - destruct (iodevice (job w)) as [d|]; [cbn|done].
    destruct (dev_read _ d) as [[b|] d']; intros [= <-]; [done|]. etrans; [apply direction_terminate|done].
Qed.
Lemma direction_startSending w w' : startSending memory w = Some w' -> direction (job w') = direction (job w).
Proof. intros Hs%direction_sendData. rewrite Hs. apply direction_setState. Qed.
Lemma direction_repeat n w w' : repeat_ n q_sendData w = Some w' -> direction (job w') = direction (job w).
Proof.
  revert w. induction n as [|n IH]; intros w; simpl; [by intros [= <-]|].
  destruct (q_sendData w) as [w1|] eqn:Hw; [|done]. cbn. intros Hr%IH. rewrite Hr. by apply direction_sendData.
Qed.
Lemma direction_sendBlock w w' : sendBlock memory w = Some w' -> direction (job w') = direction (job w).
Proof.
  unfold sendBlock. destruct (iodevice (job w)) as [d|]; [cbn|done].
  destruct (dev_read _ d) as [r d']. set (w1 := on_job _ w).
  pose proof (direction_setState TransferState w1) as Hd. case_decide; intros [= <-].
  - unfold closeStream. by rewrite direction_terminate.
  - done.
Qed.

Lemma preserves_job_step e w w' : event_for (direction (job w)) e = true ->
  job_step memory toLatin1 ownJid e w = Some w' -> preserves w w'.
Proof.
  destruct e; cbn [job_step event_for]; intros He Hs; try apply bool_decide_eq_true in He;
    try (injection Hs as <-).
  - apply preserves_accept.
  - apply preserves_accept_path.
  - apply preserves_terminate; by left.
  - apply preserves_terminated.
  - apply preserves_candidateReady.
  - unfold q_candidateDisconnected. destruct (candidateClient (job w)); [|apply preserves_refl].
    eapply preserves_trans; [|apply preserves_connectToNextHost]. by apply preserves_core.
  - by eapply preserves_receiveData.
  - unfold incoming_q_disconnected. case_decide; [apply preserves_refl|apply preserves_checkData].
  - by apply preserves_core.
  - apply preserves_outgoing; [done|]. by rewrite (direction_repeat _ _ _ Hs).
  - apply preserves_outgoing; [done|]. by rewrite (direction_repeat _ _ _ Hs).
  - apply preserves_outgoing; [done|]. unfold outgoing_q_disconnected.
    repeat case_match; by rewrite ?direction_terminate.
Qed.

(** *** The manager *)

Definition jobs_ok m : Prop := Forall incoming_ok (jobs m).
(** A handler keeps the invariant of every job. *)
Definition keeps (r : option (Manager Dev)) : Prop := match r with Some m => jobs_ok m | None => True end.

Lemma keeps_nth i f m : jobs_ok m ->
  (forall j w', jobs m !! i = Some j -> f (world m j) = Some w' -> preserves (world m j) w') ->
  keeps (on_nth i f m).
Proof.
  intros Hok Hf. unfold on_nth. destruct (jobs m !! i) as [j|] eqn:Hj; [|exact Hok].
  destruct (f (world m j)) as [w'|] eqn:Hw; [cbn|done].
  apply Forall_insert; [exact Hok|]. apply (Hf j w' eq_refl Hw).
  by eapply Forall_lookup in Hok.
Qed.
Lemma keeps_nth' i f m : jobs_ok m -> (forall j, jobs m !! i = Some j -> preserves (world m j) (f (world m j))) ->
  keeps (on_nth' i f m).
Proof. intros Hok Hf. apply keeps_nth; [done|]. intros j w' Hj [= <-]. by apply Hf. Qed.
Lemma keeps_refuse t c code s m : jobs_ok m -> keeps (Some (refuse memory t c code s m)).
Proof. done. Qed.
Lemma keeps_same m : jobs_ok m -> keeps (Some m).
Proof. done. Qed.
Hint Resolve keeps_refuse keeps_same : core.

Lemma preserves_offer port pOnly w : preserves w (socksServerSendOffer ownJid addresses port pOnly w).
Proof.
  unfold socksServerSendOffer. case_match; [apply preserves_terminate; by left|apply preserves_request].
Qed.
Lemma keeps_bytesResponse {T} (iq : Iq T) m : jobs_ok m -> keeps (byteStreamResponseReceived iq m).
Proof.
  intros Hok. unfold byteStreamResponseReceived. destruct (getJobByRequestId _ _ _ _) as [[i j]|]; [|done].
  case_decide; [|done]. case_decide; [|done].
  apply keeps_nth'; [done|]. intros j' _. apply preserves_terminate; by left.
Qed.
Lemma request_direction d from id m i j : getJobByRequestId d from id m = Some (i, j) ->
  jobs m !! i = Some j /\ direction j = d.
Proof. intros (Hi & (Hd & _) & _)%list_find_Some. by split. Qed.
Lemma keeps_bytes iq m : jobs_ok m ->
  keeps (byteStreamIqReceived memory toLatin1 ownJid addresses iq m).
Proof.
  intros Hok. unfold byteStreamIqReceived. set (other := match iq_type iq with IqError => _ | _ => _ end).
  assert (keeps other) as Hother.
  { unfold other. destruct (iq_type iq); [done|done|..].
    - unfold byteStreamSetReceived. destruct (getIncomingJobBySid _ _ _) as [[i j]|]; [|done].
      case_decide; [|done]. apply keeps_nth'; [done|]. intros j' _.
      unfold connectToHosts. eapply preserves_trans; [|apply preserves_connectToNextHost].
      by apply preserves_core.
    - unfold byteStreamResultReceived. destruct (getJobByRequestId _ _ _ _) as [[i j]|] eqn:Hj; [|done].
      apply request_direction in Hj as [Hj Hd]. case_decide; [|done].
      case_decide.
      + apply keeps_nth'; [done|]. intros j' _. by apply preserves_core.
      + destruct (socksSocket j).
        * apply keeps_nth; [done|]. intros j' w' Hj' Hw. rewrite Hj in Hj'. injection Hj' as <-.
          apply preserves_outgoing; [done|]. by rewrite (direction_startSending _ _ Hw).
        * apply keeps_nth'; [done|]. intros j' _. apply preserves_terminate; by left. }
  destruct (bs_streamHosts (iq_content iq)) as [|host hs]; [done|]. destruct (iq_type iq); try done.
  destruct (list_find _ _) as [[i j]|]; [|done]. apply keeps_nth'; [done|]. intros j' _.
  eapply preserves_trans; [|apply preserves_offer]. by apply preserves_core.
Qed.
Lemma keeps_close iq m : jobs_ok m -> keeps (ibbCloseIqReceived memory iq m).
Proof.
  intros Hok. unfold ibbCloseIqReceived. destruct (getIncomingJobBySid _ _ _) as [[i j]|]; [|done].
  case_decide; [|done]. apply keeps_nth'; [done|]. intros j' _.
  eapply preserves_trans; [|apply preserves_checkData]. apply preserves_respond.
Qed.
Lemma keeps_data iq m : jobs_ok m -> keeps (ibbDataIqReceived memory iq m).
Proof.
  intros Hok. unfold ibbDataIqReceived. destruct (getIncomingJobBySid _ _ _) as [[i j]|] eqn:Hj; [|done].
  apply list_find_Some in Hj as (Hj & _). case_decide as Hs; [|done]. case_decide; [done|].
  apply keeps_nth; [done|]. intros j' w' Hj' Hw. rewrite Hj in Hj'. injection Hj' as <-.
  destruct (writeData _ _) as [[b w1]|] eqn:Hd; [|done]. cbn in Hw. injection Hw as <-.
  apply writeData_live in Hd as [Hp _]; [|cbn; by rewrite (proj2 Hs)].
  eapply preserves_trans; [exact Hp|]. eapply preserves_trans; [|apply preserves_respond]. by apply preserves_core.
Qed.
Lemma keeps_open iq m : jobs_ok m -> keeps (ibbOpenIqReceived memory iq m).
Proof.
  intros Hok. unfold ibbOpenIqReceived. destruct (getIncomingJobBySid _ _ _) as [[i j]|]; [|done].
  case_decide; [|done]. case_match; [done|]. apply keeps_nth'; [done|]. intros j' _.
  eapply preserves_trans; [|apply preserves_respond].
  eapply preserves_trans; [|by apply preserves_setState]. by apply preserves_core.
Qed.
Lemma keeps_ibbResponse {T} (iq : Iq T) m : jobs_ok m -> keeps (ibbResponseReceived memory iq m).
Proof.
  intros Hok. unfold ibbResponseReceived. destruct (getJobByRequestId _ _ _ _) as [[i j]|] eqn:Hj; [|done].
  apply request_direction in Hj as [Hj Hd]. case_decide; [|done]. destruct (iodevice j) as [d|]; [cbn|done].
  destruct (negb _); [done|]. destruct (iq_type iq); try done.
  - apply keeps_nth'; [done|]. intros j' Hj'. rewrite Hj in Hj'. injection Hj' as <-.
    apply preserves_outgoing; [done|]. unfold closeStream. by rewrite direction_terminate.
  - apply keeps_nth; [done|]. intros j' w' Hj' Hw. rewrite Hj in Hj'. injection Hj' as <-.
    apply preserves_outgoing; [done|]. by rewrite (direction_sendBlock _ _ Hw).
Qed.

Lemma find_case_lookup {T} (iq : Iq T) js k i c : find_case iq k js = Some (i, c) ->
  exists n j, i = (k + n)%nat /\ js !! n = Some j /\ iq_case iq j = Some c.
Proof.
  revert k. induction js as [|j js IH]; intros k; simpl; [done|].
  destruct (iq_case iq j) as [c'|] eqn:Hc.
  - intros [= <- <-]. exists 0%nat, j. split; [lia|]. by split.
  - intros (n & j' & -> & Hn & Hc')%IH. exists (S n), j'. split; [lia|]. by split.
Qed.
Lemma keeps_iq {T} (iq : Iq T) m : jobs_ok m -> keeps (q_iqReceived memory ownJid addresses iq m).
Proof.
  intros Hok. unfold q_iqReceived. destruct (find_case iq 0 (jobs m)) as [[i c]|] eqn:Hc; [|done].
  apply find_case_lookup in Hc as (n & j & -> & Hj & Hcase). destruct c.
  - apply keeps_nth; [done|]. intros j' w' Hj' Hw. simpl in Hj'. rewrite Hj in Hj'. injection Hj' as <-.
    assert (direction j = OutgoingDirection) as Hd.
    { unfold iq_case in Hcase. repeat case_decide; naive_solver. }
    unfold proxyResponse in Hw. destruct (socksSocket _), (iq_type iq); try (injection Hw as <-).
    1: apply preserves_terminate; by left.
    3: apply preserves_outgoing; [done|]; by rewrite (direction_startSending _ _ Hw).
    3: apply preserves_offer.
    all: apply preserves_refl.
  - by apply keeps_ibbResponse.
  - by apply keeps_bytesResponse.
  - apply keeps_nth'; [done|]. intros j' _. apply preserves_terminate; by left.
Qed.

Lemma new_incoming_ok (j : Job Dev) : iodevice j = None -> done_ j = 0 -> hashed j = "" -> state j = OfferState ->
  incoming_ok j.
Proof.
  intros Hi Hn Hh Hs _. split; [|by rewrite Hs]. exists "", "". unfold received_data. rewrite Hn, Hh, Hi.
  by split_and!; [constructor|..].
Qed.
Lemma keeps_initiation iq m : jobs_ok m ->
  keeps (streamInitiationIqReceived memory ownJid addresses hasReceiver iq m).
Proof.
  intros Hok. unfold streamInitiationIqReceived. destruct (iq_type iq); try done.
  - unfold streamInitiationSetReceived. destruct (si_profile _); [done|].
    destruct (negb hasReceiver); [done|]. destruct (_ || _); [|done].
    apply Forall_app. split; [exact Hok|]. apply Forall_singleton. by apply new_incoming_ok.
  - unfold streamInitiationResultReceived. destruct (getJobByRequestId _ _ _ _) as [[i j]|]; [|done].
    case_decide; [|done]. apply keeps_nth'; [done|]. intros j' _. set (w1 := setState _ _ _).
    assert (preserves (world m j') w1) as Hp.
    { eapply preserves_trans; [|by apply preserves_setState]. by apply preserves_core. }
    cbv zeta. case_decide; [|case_decide]; [..|eapply preserves_trans; [exact Hp|apply preserves_terminate; by left]].
    + eapply preserves_trans; [exact Hp|]. eapply preserves_trans; [|apply preserves_request]. by apply preserves_core.
    + case_decide; (eapply preserves_trans; [exact Hp|]); [apply preserves_offer|].
      eapply preserves_trans; [|apply preserves_request]. by apply preserves_core.
Qed.
Lemma keeps_receive el m : jobs_ok m ->
  keeps (receive memory toLatin1 ownJid addresses hasReceiver el m).
Proof.
  intros Hok. unfold receive.
  assert (match handleStanza memory toLatin1 ownJid addresses hasReceiver el m with
          | Some (_, m') => jobs_ok m' | None => True end) as Hh.
  { assert (forall r, keeps r -> match fmap (M := option) (pair true) r with
            | Some (_, m') => jobs_ok m' | None => True end) as Hpair by (by intros [r|]).
    unfold handleStanza. repeat case_decide; [..|done]; apply Hpair;
      auto using keeps_close, keeps_data, keeps_open, keeps_bytes, keeps_initiation. }
  destruct (handleStanza _ _ _ _ _ el m) as [[b m']|]; [cbn|done].
  case_match; [by apply keeps_iq|done].
Qed.

Lemma sendFile_ok hash_ jid_ d fi sid_ m : jobs_ok m -> jobs_ok (sendFile hash_ jid_ d fi sid_ m).2.
Proof.
  intros Hok. unfold sendFile. case_decide; [done|]. destruct (negb _); [done|].
  destruct (supportedMethods m =? 0); [done|]. apply Forall_app. split; [exact Hok|].
  apply Forall_singleton. by intros Hd.
Qed.
Lemma transfer_step_ok e m : jobs_ok m -> keeps (step memory toLatin1 ownJid addresses hasReceiver e m).
Proof.
  intros Hok. destruct e as [el|i e|h j d fi s|fuel h j p d fi|k h p|i|p|b|mt]; cbn [step]; [..|done|done|done].
  - by apply keeps_receive.
  - destruct (jobs m !! i) as [j|] eqn:Hj; [|done]. destruct (event_for (direction j) e) eqn:He; [|done].
    apply keeps_nth; [done|]. intros j' w' Hj' Hw. rewrite Hj in Hj'. injection Hj' as <-.
    by eapply preserves_job_step.
  - by apply sendFile_ok.
  - unfold sendFile_path. case_decide; [done|]. destruct (match d with Some _ => _ | None => _ end) as [dev fi'].
    pose proof (sendFile_ok h j dev fi' "" m Hok) as Hs. destruct (sendFile h j dev fi' "" m) as [[jb|] m1]; [|done].
    apply keeps_nth'; [done|]. intros j' _. by apply preserves_core.
  - unfold q_socksServerConnected. destruct (list_find _ _) as [[i j]|]; [|done].
    apply keeps_nth'; [done|]. intros j' _. by apply preserves_core.
  - unfold keeps, jobs_ok, q_jobDestroyed. cbn. by apply Forall_delete.
Qed.
Lemma run_ok es m m' : jobs_ok m ->
  run memory toLatin1 ownJid addresses hasReceiver es m = Some m' -> jobs_ok m'.
Proof.
  unfold run. revert m. induction es as [|e es IH]; intros m Hok; cbn [foldl]; [by intros [= <-]|].
  pose proof (transfer_step_ok e m Hok) as Hs. cbn [mbind option_bind].
  destruct (step _ _ _ _ _ e m) as [m1|]; [by apply IH|].
  intros Hr. exfalso. clear -Hr. induction es; [done|auto].
Qed.

(** C6: A file that is reported as received without an error has the MD5 hash of the offer in the
    data that arrived, and its size in the data its device has taken of that, where the offer
    gave them. A device may take less of a block than it is given; if no write is short, what
    the device ends with is the data that arrived, so it has the size and the hash of the offer. *)
Theorem transfer_received_file es port m j :
  run memory toLatin1 ownJid addresses hasReceiver es (newManager port) = Some m ->
  j ∈ jobs m -> direction j = IncomingDirection -> state j = FinishedState -> error j = NoError ->
  exists received written, received_file j received written.
Proof.
  intros Hr Hj Hd Hs He. assert (jobs_ok m) as Hok by (eapply run_ok; [|exact Hr]; by apply Forall_nil).
  unfold jobs_ok in Hok. rewrite Forall_forall in Hok.
  destruct (Hok j Hj Hd) as [(r & w & Hst & Hall & Hn & Hh & Hi) Hfin].
  exists r, w. split; [by split_and!|]. specialize (Hfin Hs He). unfold dataCorrupt, fileSize in Hfin.
  apply orb_false_iff in Hfin as [Hsize Hhash]. rewrite Hn in Hsize. split.
  - intros Hne. rewrite (proj2 (Z.eqb_neq _ 0) Hne) in Hsize. cbn in Hsize. bools. done.
  - intros Hne. rewrite bool_decide_eq_false_2 in Hhash by done. cbn in Hhash. bools. by rewrite <-Hh.
Qed.
End Received.

(** ** Files *)

Inductive Mode_ := NotOpen | ReadOnly | WriteOnly.
#[export] Instance Mode_eq_dec : EqDecision Mode_.
Proof. solve_decision. Defined.
Record File := { f_text : string; f_rest : string; f_mode : Mode_ }.
Fixpoint split_text (n : nat) (t : string) : string * string :=
  match n, t with
  | S n, String c t => let '(a, b) := split_text n t in (String c a, b)
  | _, _ => ("", t)
  end.
Lemma split_text_ok n t : t = (split_text n t).1 +:+ (split_text n t).2 /\
  String.length (split_text n t).1 = Nat.min n (String.length t).
Proof.
  revert t. induction n as [|n IH]; intros [|c t]; simpl; [done..|].
  destruct (IH t) as [Ht Hl]. destruct (split_text n t) as [a b]. simpl in *. split; [by rewrite Ht at 1|by rewrite Hl].
Qed.
#[export] Instance File_device : IODevice File := {
  isOpen f := negb (bool_decide (f_mode f = NotOpen));
  isReadable f := bool_decide (f_mode f = ReadOnly);
  isWritable f := bool_decide (f_mode f = WriteOnly);
  isSequential _ := false;
  bytesAvailable f := slen (f_rest f);
  dev_read n f := match f_mode f with
    | ReadOnly => let '(a, b) := split_text (Z.to_nat n) (f_rest f) in
                  (Some a, {| f_text := f_text f; f_rest := b; f_mode := ReadOnly |})
    | _ => (None, f) end;
  dev_write t f := match f_mode f with
    | WriteOnly => (Some (slen t), {| f_text := f_text f +:+ t; f_rest := f_rest f; f_mode := WriteOnly |})
    | _ => (None, f) end;
  dev_close f := {| f_text := f_text f; f_rest := ""; f_mode := NotOpen |};
  dev_reset f := {| f_text := f_text f; f_rest := f_text f; f_mode := f_mode f |};
}.
#[export] Instance File_append : AppendDevice File.
Proof.
  exists f_text; [|done]. intros t f. cbn. destruct (f_mode f); [done..|].
  exists t, "". by rewrite text_app_nil.
Defined.

(** *** A received file *)

Definition sample_request {T} (id : string) (t : IqType) (c : T) : @Iq text_types T :=
  Build_Iq (newStanza "romeo@montague.example/orchard" "" id None) t c.
Definition sample_events (text : string) : list (Event (H := text_types) (Dev := File)) :=
  [Stanza_ (onStream (iq_toXml (sample_request "1" IqSet
     {| si_form := newForm Form [(newField ListSingleField "stream-method" VNull false)
          <| options := [{| op_label := ""; op_value := ns_ibb |}] |>];
        si_file := {| fi_date := "" : @QDateTime text_types; fi_hash := hash (Crypto := sample_crypto) QMd5 text;
                      fi_name := "letter.txt"; fi_description := ""; fi_size := slen text |};
        si_mimeType := ""; si_profile := FileTransfer; si_id := "sid1" |})));
   OfJob 0 (Accept {| f_text := "Act 2: "; f_rest := ""; f_mode := WriteOnly |});
   Stanza_ (onStream (iq_toXml (sample_request "2" IqSet {| io_sid := "sid1"; io_blockSize := 4096 |})));
   Stanza_ (onStream (iq_toXml (sample_request "3" IqSet {| id_sid := "sid1"; id_sequence := 0; id_payload := text |})));
   Stanza_ (onStream (iq_toXml (sample_request "4" IqSet {| ic_sid := "sid1" |})))].
Lemma transfer_received_file_witness :
  let m := default (newManager 0) (run (H := text_types) (H0 := sample_crypto) 0 id "juliet@capulet.example" [] true
             (sample_events "But soft") (newManager 0)) in
  exists j received written, jobs m = [j] /\ received_file (H0 := sample_crypto) j received written.
Proof.
  intros m. exists (hd (newJob IncomingDirection "") (jobs m)).
  destruct (transfer_received_file (H := text_types) (H0 := sample_crypto) 0 id "juliet@capulet.example" [] true
    (sample_events "But soft") 0 m (hd (newJob IncomingDirection "") (jobs m))) as (r & w & Hd); try (by vm_compute).
  - rewrite list_elem_of_lookup. exists 0%nat. by vm_compute.
  - exists r, w. split; [by vm_compute|exact Hd].
Defined.

(** *** A device that takes a part of a block *)

(** A file whose disk takes three characters of a block. *)
Record ShortFile := { sf_file : File }.
#[export] Instance ShortFile_device : IODevice ShortFile := {
  isOpen f := isOpen (sf_file f); isReadable f := isReadable (sf_file f); isWritable f := isWritable (sf_file f);
  isSequential _ := false; bytesAvailable f := bytesAvailable (sf_file f);
  dev_read n f := let '(r, d) := dev_read n (sf_file f) in (r, {| sf_file := d |});
  dev_write t f := let '(r, d) := dev_write (split_text 3 t).1 (sf_file f) in (r, {| sf_file := d |});
  dev_close f := {| sf_file := dev_close (sf_file f) |};
  dev_reset f := {| sf_file := dev_reset (sf_file f) |};
}.
#[export] Instance ShortFile_append : AppendDevice ShortFile.
Proof.
  exists (fun f => f_text (sf_file f)); [|done]. intros t [f]. cbn -[split_text].
  destruct (split_text_ok 3 t) as [Ht _]. destruct (split_text 3 t) as [a b]. cbn [fst snd] in *.
  destruct (f_mode f); [done..|]. exists a, b. by split.
Defined.
(** An offer with a hash and without a size. *)
Definition hash_only_events (text : string) : list (Event (H := text_types) (Dev := ShortFile)) :=
  [Stanza_ (onStream (iq_toXml (sample_request "1" IqSet
     {| si_form := newForm Form [(newField ListSingleField "stream-method" VNull false)
          <| options := [{| op_label := ""; op_value := ns_ibb |}] |>];
        si_file := {| fi_date := "" : @QDateTime text_types; fi_hash := hash (Crypto := sample_crypto) QMd5 text;
                      fi_name := "letter.txt"; fi_description := ""; fi_size := 0 |};
        si_mimeType := ""; si_profile := FileTransfer; si_id := "sid1" |})));
   OfJob 0 (Accept {| sf_file := {| f_text := "Act 2: "; f_rest := ""; f_mode := WriteOnly |} |});
   Stanza_ (onStream (iq_toXml (sample_request "2" IqSet {| io_sid := "sid1"; io_blockSize := 4096 |})));
   Stanza_ (onStream (iq_toXml (sample_request "3" IqSet {| id_sid := "sid1"; id_sequence := 0; id_payload := text |})));
   Stanza_ (onStream (iq_toXml (sample_request "4" IqSet {| ic_sid := "sid1" |})))].
(** A short write goes unnoticed when the offer has no size: the hash is that of the data that
    arrived, and the job finishes without an error though its device has only a part of it. *)
Theorem transfer_short_write :
  exists m j, run (H := text_types) (H0 := sample_crypto) 0 id "juliet@capulet.example" [] true
      (hash_only_events "But soft") (newManager 0) = Some m /\
    jobs m = [j] /\ state j = FinishedState /\ error j = NoError /\
    option_map content (iodevice j) = Some "Act 2: But".
Proof.
  eexists _, _. split; [vm_compute; reflexivity|]. by split_and!.
Qed.
