(* ===== verification/TransferSession.v ===== *)
(** * A file transfer between two clients (QXmppTransferManager.cpp)

    The managers of two clients whose stanzas reach each other through a
    server, which stamps the sender. A round hands over what each has sent, in
    order; since a job has one request in flight, no other order changes what
    they do. The theorems run a whole in-band transfer, from the offer to the
    close, over the text of its stanzas. *)
From S2P Require Import Prelude DataStream Utils Dom Base64 XmlCodec StreamManagement SaslXml SaslClient Stanza DataForm TransferIq TransferJob TransferManager.

(** ** Two managers *)

Section Network.
Context `{QtTypes} `{Crypto} {Dev : Type} `{IODevice Dev}.
Variable memory : Z.
Variable toLatin1 : string -> string.
(** The addresses of a client's host and whether its application receives files. *)
Record Client := { c_jid : string; c_addresses : list string; c_receives : bool }.
Variables alice bob : Client.

Definition stamp_stanza (from : string) (s : Stanza) : Stanza :=
  {| to_ := to_ s; from_ := from; id_ := id_ s; lang := lang s; error_ := error_ s;
     extendedAddresses := extendedAddresses s |}.
Definition stamp_iq {T} (from : string) (iq : Iq T) : Iq T :=
  Build_Iq (stamp_stanza from (iq_stanza iq)) (iq_type iq) (iq_content iq).
Definition stamp (from : string) (p : Packet) : Packet :=
  match p with
  | PPlain iq => PPlain (stamp_iq from iq) | POpen iq => POpen (stamp_iq from iq)
  | PData iq => PData (stamp_iq from iq) | PClose iq => PClose (stamp_iq from iq)
  | PBytes iq => PBytes (stamp_iq from iq) | PInitiation iq => PInitiation (stamp_iq from iq)
  end.

(** One client receives what the other has sent. *)
Definition client_receive (c : Client) : Dom -> Manager Dev -> option (Manager Dev) :=
  receive memory toLatin1 (c_jid c) (c_addresses c) (c_receives c).
Fixpoint deliver (from : string) (to : Client) (os : list Output) (m : Manager Dev) : option (Manager Dev) :=
  match os with
  | [] => Some m
  | Sent p :: os => m ← client_receive to (onStream (packet_toXml (stamp from p))) m; deliver from to os m
  | _ :: os => deliver from to os m
  end.
Definition flushed (m : Manager Dev) : Manager Dev := m <| m_out := [] |>.
Definition Net : Type := Manager Dev * Manager Dev.
Definition round (n : Net) : option Net :=
  let '(a, b) := n in
  b' ← deliver (c_jid alice) bob (m_out a) b;
  a' ← deliver (c_jid bob) alice (m_out b') (flushed a);
  Some (a', flushed b').
Fixpoint rounds (k : nat) (n : Net) : option Net :=
  match k with O => Some n | S k => n ← round n; rounds k n end.

Lemma rounds_app k l n n' : rounds k n = Some n' -> rounds (k + l) n = rounds l n'.
Proof.
  revert n. induction k as [|k IH]; intros n; simpl; [by intros [= ->]|].
  destruct (round n); [apply IH|done].
Qed.
Lemma rounds_one n n' : round n = Some n' -> rounds 1 n = Some n'.
Proof. intros Hr. simpl. by rewrite Hr. Qed.
End Network.

(** ** The stanzas of the protocol, as they are received *)

Section Receiving.
Context `{QtTypes} `{Crypto} {Dev : Type} `{IODevice Dev}.
Variable memory : Z.
Variable toLatin1 : string -> string.
Variable ownJid : string.
Variable addresses : list string.
Variable hasReceiver : bool.
Notation receive := (receive (Dev := Dev) memory toLatin1 ownJid addresses hasReceiver).

Lemma payload_tag {T} `{IqCodec T} (iq : Iq T) tag ns a c :
  tag <> "" -> seg ns_jabber_client (toXmlElementFromChild (iq_content iq)) = [Elem tag ns a c] ->
  iqPayloadXmlTag (onStream (iq_toXml iq)) = (tag, ns).
Proof.
  intros Ht Hseg. destruct (iq_dom iq) as (err & _ & _ & ->). rewrite Hseg.
  unfold iqPayloadXmlTag. cbn [tagName]. rewrite decide_True by done.
  rewrite firstChildElement_find. cbn [app find_child]. unfold child_matches.
  done.
Qed.
Lemma receive_handled {T} `{IqCodec T} (iq : Iq T) m m' :
  handleStanza memory toLatin1 ownJid addresses hasReceiver (onStream (iq_toXml iq)) m = (pair true) <$> m' ->
  receive (onStream (iq_toXml iq)) m = m'.
Proof. intros Hh. unfold TransferManager.receive. rewrite Hh. by destruct m'. Qed.

Lemma receive_open (iq : Iq IbbOpen) m : iq_ok memory iq ->
  receive (onStream (iq_toXml iq)) m = ibbOpenIqReceived memory iq m.
Proof.
  intros Hok. apply receive_handled. unfold handleStanza.
  rewrite (payload_tag iq "open" ns_ibb _ _ ltac:(done) ltac:(apply seg_Element)).
  rewrite !decide_False by (intros [=]). rewrite decide_True by done. by rewrite iq_roundtrip.
Qed.
Lemma receive_data (iq : Iq IbbData) m : iq_ok memory iq ->
  receive (onStream (iq_toXml iq)) m = ibbDataIqReceived memory iq m.
Proof.
  intros Hok. apply receive_handled. unfold handleStanza.
  rewrite (payload_tag iq "data" ns_ibb _ _ ltac:(done) ltac:(apply seg_Element)).
  rewrite !decide_False by (intros [=]). rewrite decide_True by done. by rewrite iq_roundtrip.
Qed.
Lemma receive_close (iq : Iq IbbClose) m : iq_ok memory iq ->
  receive (onStream (iq_toXml iq)) m = ibbCloseIqReceived memory iq m.
Proof.
  intros Hok. apply receive_handled. unfold handleStanza.
  rewrite (payload_tag iq "close" ns_ibb _ _ ltac:(done) ltac:(apply seg_Element)).
  rewrite decide_True by done. by rewrite iq_roundtrip.
Qed.
Lemma receive_initiation (iq : Iq StreamInitiation) m : iq_ok memory iq ->
  receive (onStream (iq_toXml iq)) m = streamInitiationIqReceived memory ownJid addresses hasReceiver iq m.
Proof.
  intros Hok. apply receive_handled. unfold handleStanza.
  rewrite (payload_tag iq "si" ns_stream_initiation _ _ ltac:(done) ltac:(apply seg_Element)).
  rewrite !decide_False by (intros [=]). rewrite decide_True by done. by rewrite iq_roundtrip.
Qed.

(** A response without a payload is received as a plain IQ, of which its sender, id and type
    are looked at. *)
Lemma iq_case_same {T T'} (iq : Iq T) (iq' : Iq T') (j : Job Dev) :
  from_ (iq_stanza iq') = from_ (iq_stanza iq) -> id_ (iq_stanza iq') = id_ (iq_stanza iq) ->
  iq_type iq' = iq_type iq -> iq_case iq' j = iq_case iq j.
Proof. intros Hf Hi Ht. unfold iq_case. by rewrite Hf, Hi, Ht. Qed.
Lemma find_case_same {T T'} (iq : Iq T) (iq' : Iq T') k (js : list (Job Dev)) :
  from_ (iq_stanza iq') = from_ (iq_stanza iq) -> id_ (iq_stanza iq') = id_ (iq_stanza iq) ->
  iq_type iq' = iq_type iq -> find_case iq' k js = find_case iq k js.
Proof.
  intros Hf Hi Ht. revert k. induction js as [|j js IH]; intros k; simpl; [done|].
  rewrite (iq_case_same iq iq') by done. destruct (iq_case iq j); [done|apply IH].
Qed.
Lemma iqReceived_same {T T'} (iq : Iq T) (iq' : Iq T') (m : Manager Dev) :
  from_ (iq_stanza iq') = from_ (iq_stanza iq) -> id_ (iq_stanza iq') = id_ (iq_stanza iq) ->
  iq_type iq' = iq_type iq ->
  q_iqReceived memory ownJid addresses iq' m = q_iqReceived memory ownJid addresses iq m.
Proof.
  intros Hf Hi Ht. unfold q_iqReceived. rewrite (find_case_same iq iq') by done.
  unfold ibbResponseReceived, byteStreamResponseReceived, proxyResponse. by rewrite Hf, Hi, Ht.
Qed.

Lemma receive_plain (iq : Iq (list QXmppElement)) (m : Manager Dev) :
  iq_content iq = [] -> iq_type iq = IqResult \/ iq_type iq = IqError ->
  receive (onStream (iq_toXml iq)) m = q_iqReceived memory ownJid addresses iq m.
Proof.
  intros Hc Ht. rewrite iq_written by by rewrite Hc. rewrite Hc. cbn [toXmlElementFromChild Extensions_content map concat].
  rewrite seg_nil, app_nil_l. set (a := _ ++ _). set (err := seg _ _).
  assert (attribute (Elem "iq" ns_jabber_client a err) "type" = toString (iq_type iq)) as Htype.
  { unfold a. rewrite attribute_eq. codec_norm. done. }
  assert (handleStanza memory toLatin1 ownJid addresses hasReceiver (Elem "iq" ns_jabber_client a err) m = Some (false, m)) as Hh.
  { assert (iqPayloadXmlTag (Elem "iq" ns_jabber_client a err) = ("", "") \/
            iqPayloadXmlTag (Elem "iq" ns_jabber_client a err) = ("error", ns_jabber_client)) as Htag.
    { destruct (error_item_seg (iq_stanza iq)) as [He|(x & y & He)]; subst err; rewrite He; [by left|by right]. }
    unfold handleStanza. by destruct Htag as [-> | ->]; rewrite !decide_False by (intros [=]). }
  unfold TransferManager.receive. rewrite Hh. cbn [mbind option_bind negb tagName].
  rewrite Htype, bool_decide_eq_true_2 by done.
  assert ((bool_decide (toString (iq_type iq) = "result") || bool_decide (toString (iq_type iq) = "error"))%bool = true) as ->
    by by destruct Ht as [-> | ->].
  cbn [andb]. apply iqReceived_same; unfold iq_parse, stanza_parse; cbn [iq_stanza iq_type from_ id_].
  - unfold a. rewrite attribute_eq. codec_norm. done.
  - unfold a. rewrite attribute_eq. codec_norm. done.
  - rewrite Htype, iq_type_back. done.
Qed.
End Receiving.

(** ** Devices that work *)

(** A file that is read from its position to its end. *)
Class SourceDevice (Dev : Type) `{IODevice Dev} := {
  source : Dev -> Prop;                  (* open for reading, without errors *)
  source_open d : source d -> isOpen d = true /\ isReadable d = true;
  remaining : Dev -> string;
  read_law n d : source d -> 0 < n -> exists block rest d',
    dev_read n d = (Some block, d') /\ remaining d = block +:+ rest /\ remaining d' = rest /\
    slen block = Z.min n (slen (remaining d)) /\ source d';
}.
(** A device that takes all it is given while it is ready. *)
Class SinkDevice (Dev : Type) `{AppendDevice Dev} := {
  ready : Dev -> Prop;
  ready_writable d : ready d -> isWritable d = true;
  ready_law s d : ready d -> exists d', dev_write s d = (Some (slen s), d') /\ ready d';
}.

(** ** In-band transfers *)

Section Transfer.
Context `{QtTypes} `{Crypto} {Dev : Type} `{SourceDevice Dev} `{!AppendDevice Dev} `{!SinkDevice Dev}.
Variable memory : Z.
Variable toLatin1 : string -> string.
Variables alice bob : Client.
(** The transfer: its session, the file that is offered and what the receiver's
    device held before. *)
Variable s : string.
Variable fi : FileInfo.
Variable base : string.
Notation receiveA := (client_receive memory toLatin1 alice).
Notation receiveB := (client_receive memory toLatin1 bob).
Notation round := (round (Dev := Dev) memory toLatin1 alice bob).
Implicit Types (a b m : Manager Dev) (d : Dev) (j : Job Dev).

Definition packets (os : list Output) : list Packet := omap (fun o => match o with Sent p => Some p | _ => None end) os.
Lemma deliver_packets from to os m :
  deliver memory toLatin1 from to os m = deliver memory toLatin1 from to (map Sent (packets os)) m.
Proof.
  revert m. induction os as [|o os IH]; intros m; [done|]. destruct o; simpl; try apply IH.
  destruct (client_receive _ _ to _ m); [apply IH|done].
Qed.
Lemma deliver_one from to os m p : packets os = [p] ->
  deliver memory toLatin1 from to os m = client_receive memory toLatin1 to (onStream (packet_toXml (stamp from p))) m.
Proof. intros Hp. rewrite deliver_packets, Hp. simpl. by destruct (client_receive _ _ _ _ m). Qed.
Lemma deliver_none from to os m : packets os = [] -> deliver memory toLatin1 from to os m = Some m.
Proof. intros Hp. by rewrite deliver_packets, Hp. Qed.

(** The sender's job, about to read block [k] or having sent block [k - 1]. *)
Definition sender_job (st : State) (d : Dev) (k : Z) (rid : string) j : Prop :=
  direction j = OutgoingDirection /\ jid j = c_jid bob /\ sid j = s /\ sh_jid (socksProxy j) = "" /\
  method j = InBandMethod /\ state j = st /\ requestId j = rid /\ iodevice j = Some d /\
  ibbSequence j = k /\ blockSize j = 4096.
Definition closing_job (cause : JobError) (rid : string) j : Prop :=
  direction j = OutgoingDirection /\ jid j = c_jid bob /\ sh_jid (socksProxy j) = "" /\ method j = InBandMethod /\
  state j = FinishedState /\ error j = cause /\ requestId j = rid.

Definition data_iq (rid : string) (k : Z) (block : string) : Packet :=
  PData (Build_Iq (newStanza "" (c_jid bob) rid None) IqSet
    {| id_sid := s; id_sequence := u16 k; id_payload := block |}).
Definition close_iq (rid : string) : Packet :=
  PClose (Build_Iq (newStanza "" (c_jid bob) rid None) IqSet {| ic_sid := s |}).

(** What the sender does next: another block, or the end of the stream. *)
Definition next (d : Dev) (k : Z) j (os : list Output) : Prop := exists rid block rest,
  remaining d = block +:+ rest /\ slen block = Z.min 4096 (slen (remaining d)) /\
  if decide (block = "") then closing_job NoError rid j /\ packets os = [close_iq rid]
  else exists d', sender_job TransferState d' (i32 (k + 1)) rid j /\ source d' /\ remaining d' = rest /\
         packets os = [data_iq rid k block].

Lemma response_case {T} (iq : Iq T) j st d k rid :
  sender_job st d k rid j -> c_jid bob <> "" -> from_ (iq_stanza iq) = c_jid bob -> id_ (iq_stanza iq) = rid ->
  iq_case iq j = Some IbbResponse.
Proof.
  intros (Hd & Hj & _ & Hp & Hm & _ & Hr & _) Hb Hf Hi. unfold iq_case. rewrite Hp, Hf, Hi.
  rewrite decide_False by (intros (_ & He & _); by rewrite <-He in Hb). by rewrite !decide_True.
Qed.
Lemma packets_app os os' : packets (os ++ os') = packets os ++ packets os'.
Proof. apply omap_app. Qed.
Lemma jobStateChanged_outgoing st (w : World Dev) : direction (job w) = OutgoingDirection ->
  q_jobStateChanged memory st w = w.
Proof. intros Hd. unfold q_jobStateChanged. case_match; [done|]. by rewrite decide_True by by rewrite Hd. Qed.
Lemma setState_outgoing st (w : World Dev) : direction (job w) = OutgoingDirection ->
  exists os, packets os = [] /\ setState memory st w =
    {| job := (job w) <| state := st |>; ids := ids w; out := out w ++ os |}.
Proof.
  intros Hd. unfold setState. case_decide as Hs.
  - exists []. split; [done|]. rewrite app_nil_r. destruct w as [[] ? ?]. cbn in *. by subst.
  - exists [StateChanged (sid (job w)) st]. split; [done|]. cbv zeta. by rewrite jobStateChanged_outgoing.
Qed.
Lemma sendBlock_next d k rid st w : sender_job st d k rid (job w) -> st <> FinishedState -> source d ->
  packets (out w) = [] -> exists w', sendBlock memory w = Some w' /\ next d k (job w') (out w').
Proof.
  intros (Hd & Hj & Hs & Hp & Hm & Hst & Hr & Hdev & Hk & Hbs) Hnf Ho Hout.
  destruct (read_law 4096 d Ho) as (block & rest & d' & Hread & Hrem & Hrem' & Hlen & Ho'); [lia|].
  unfold sendBlock. rewrite Hdev. cbn [mbind option_bind]. rewrite Hbs, Hread. cbn [default].
  set (w1 := on_job _ w).
  destruct (setState_outgoing TransferState w1) as (os & Hos & ->); [done|].
  unfold Datatypes.id. destruct (decide (block = "")) as [He|He].
  - eexists. split; [reflexivity|]. eexists _, block, rest. split; [done|]. split; [done|].
    rewrite decide_True by done. unfold closeStream, terminate. rewrite decide_False by done.
    split; [by split_and!|]. cbn. rewrite !packets_app, Hout, Hos. unfold close_iq. by rewrite Hs, Hj.
  - eexists. split; [reflexivity|]. eexists _, block, rest. split; [done|]. split; [done|].
    rewrite decide_False by done. exists d'. split; [|split; [done|split; [done|]]].
    + split_and!; cbn; try done. by rewrite Hk.
    + cbn. rewrite !packets_app, Hout, Hos. cbn. unfold data_iq. by rewrite Hs, Hj, Hk.
Qed.

(** *** The sender's side of a round *)

Definition result_iq (rid : string) : Packet := PPlain (Build_Iq (newStanza "" (c_jid alice) rid None) IqResult []).
Definition error_iq (rid : string) (e : StanzaError.Error) : Packet :=
  PPlain (Build_Iq (newStanza "" (c_jid alice) rid (Some e)) IqError []).

Lemma put_one (w : World Dev) j m : jobs m = [j] -> jobs (put 0 w m) = [job w] /\ m_out (put 0 w m) = out w.
Proof. intros Hj. unfold put. cbn. by rewrite Hj. Qed.
Lemma alice_request j m d k rid st : jobs m = [j] -> sender_job st d k rid j ->
  getJobByRequestId OutgoingDirection (c_jid bob) rid m = Some (0%nat, j).
Proof.
  intros Hm (Hd & Hj & _ & _ & _ & _ & Hr & _). unfold getJobByRequestId. rewrite Hm. cbn.
  by rewrite decide_True.
Qed.
Lemma alice_response (iq : Iq (list QXmppElement)) j a d k rid st :
  jobs a = [j] -> sender_job st d k rid j -> c_jid bob <> "" ->
  iq_content iq = [] -> iq_type iq = IqResult \/ iq_type iq = IqError ->
  from_ (iq_stanza iq) = c_jid bob -> id_ (iq_stanza iq) = rid ->
  receiveA (onStream (iq_toXml iq)) a = ibbResponseReceived memory iq a.
Proof.
  intros Ha Hj Hb Hc Ht Hf Hi. unfold client_receive. rewrite receive_plain by done.
  unfold q_iqReceived. rewrite Ha. cbn [find_case]. by rewrite (response_case iq j st d k rid).
Qed.
Lemma alice_result j a d k rid st :
  jobs a = [j] -> sender_job st d k rid j -> st <> FinishedState -> source d -> c_jid bob <> "" ->
  packets (m_out a) = [] ->
  exists a' j', receiveA (onStream (packet_toXml (stamp (c_jid bob) (result_iq rid)))) a = Some a' /\
    jobs a' = [j'] /\ next d k j' (m_out a').
Proof.
  intros Ha Hj Hst Ho Hb Hp. cbn [result_iq stamp packet_toXml].
  rewrite (alice_response _ j a d k rid st) by (try done; by left).
  unfold ibbResponseReceived. cbn [stamp_iq iq_stanza stamp_stanza newStanza from_ id_ iq_type].
  rewrite (alice_request j a d k rid st) by done.
  pose proof Hj as (_ & _ & _ & _ & Hm & Hs & _ & Hd & _).
  rewrite decide_True by (by rewrite Hs). rewrite Hd. cbn [mbind option_bind]. rewrite (proj1 (source_open d Ho)). cbn [negb].
  unfold on_nth. rewrite Ha. cbn [lookup list_lookup].
  destruct (sendBlock_next d k rid st (world a j)) as (w' & Hw & Hn); [done..|].
  rewrite Hw. eexists _, (job w'). split; [reflexivity|]. destruct (put_one w' j a Ha) as [-> ->]. by split.
Qed.
Lemma alice_error j a d k rid st e :
  jobs a = [j] -> sender_job st d k rid j -> st <> FinishedState -> source d -> c_jid bob <> "" ->
  packets (m_out a) = [] ->
  exists a' j' rid', receiveA (onStream (packet_toXml (stamp (c_jid bob) (error_iq rid e)))) a = Some a' /\
    jobs a' = [j'] /\ closing_job ProtocolError rid' j' /\ packets (m_out a') = [close_iq rid'].
Proof.
  intros Ha Hj Hst Ho Hb Hp. cbn [error_iq stamp packet_toXml].
  rewrite (alice_response _ j a d k rid st) by (try done; by right).
  unfold ibbResponseReceived. cbn [stamp_iq iq_stanza stamp_stanza newStanza from_ id_ iq_type].
  rewrite (alice_request j a d k rid st) by done.
  destruct Hj as (Hdir & Hjid & Hsid & Hpr & Hm & Hs & _ & Hd & _).
  rewrite decide_True by (by rewrite Hs). rewrite Hd. cbn [mbind option_bind]. rewrite (proj1 (source_open d Ho)). cbn [negb].
  unfold on_nth', on_nth. rewrite Ha. cbn [lookup list_lookup mbind option_bind].
  eexists _, _, _. split; [reflexivity|]. edestruct put_one as [-> ->]; [exact Ha|]. split; [done|].
  unfold closeStream, terminate. rewrite decide_False by (cbn; congruence).
  split; [by split_and!|]. cbn. rewrite packets_app, Hp. unfold close_iq. cbn. by rewrite Hjid, Hsid.
Qed.
Lemma alice_closed j a cause rid : jobs a = [j] -> closing_job cause rid j -> c_jid bob <> "" ->
  receiveA (onStream (packet_toXml (stamp (c_jid bob) (result_iq rid)))) a = Some a.
Proof.
  intros Ha (Hd & Hj & Hp & Hm & Hs & He & Hr) Hb. cbn [result_iq stamp packet_toXml].
  unfold client_receive. rewrite receive_plain by (try done; by left).
  unfold q_iqReceived. rewrite Ha. cbn [find_case]. unfold iq_case.
  cbn [stamp_iq iq_stanza stamp_stanza newStanza from_ id_ iq_type]. rewrite Hp.
  rewrite decide_False by (intros (_ & He' & _); by rewrite <-He' in Hb). rewrite !decide_True by done.
  unfold ibbResponseReceived. cbn [stamp_iq iq_stanza stamp_stanza newStanza from_ id_ iq_type].
  unfold getJobByRequestId. rewrite Ha. cbn. rewrite decide_True by done. cbn.
  by rewrite decide_False by tauto.
Qed.

(** *** The receiver's side of a round *)

Definition receiver_job (st : State) (k : Z) (data : string) j : Prop :=
  direction j = IncomingDirection /\ jid j = c_jid alice /\ sid j = s /\ method j = InBandMethod /\
  state j = st /\ fileInfo j = fi /\ ibbSequence j = k /\ deviceIsOwn j = false /\
  done_ j = slen data /\ (fi_hash fi <> "" -> hashed j = data) /\
  exists d, iodevice j = Some d /\ ready d /\ content d = base +:+ data.

Lemma bob_job st k data j m : jobs m = [j] -> receiver_job st k data j ->
  getIncomingJobBySid (c_jid alice) s m = Some (0%nat, j).
Proof.
  intros Hm (Hd & Hj & Hs & _). unfold getIncomingJobBySid. rewrite Hm. cbn. by rewrite decide_True.
Qed.
Lemma bob_data k data j b rid block :
  jobs b = [j] -> receiver_job TransferState k data j -> packets (m_out b) = [] -> 0 <= k < 2 ^ 16 ->
  exists b' j', receiveB (onStream (packet_toXml (stamp (c_jid alice) (data_iq rid k block)))) b = Some b' /\
    jobs b' = [j'] /\ receiver_job TransferState (i32 (k + 1)) (data +:+ block) j' /\
    packets (m_out b') = [result_iq rid].
Proof.
  intros Hb Hj Hp Hk. cbn [data_iq stamp packet_toXml]. unfold client_receive.
  assert (u16 k = k) as Hu by (by apply uwrap_small).
  rewrite receive_data by (split; [cbn; by rewrite Hu|done]).
  unfold ibbDataIqReceived. cbn [stamp_iq iq_stanza stamp_stanza newStanza from_ id_ iq_content id_sid id_sequence id_payload].
  rewrite (bob_job TransferState k data j b) by done.
  destruct Hj as (Hd & Hjid & Hsid & Hm & Hs & Hf & Hseq & Hown & Hdone & Hhash & d & Hdev & Hr & Hc).
  rewrite decide_True by done. rewrite Hu, decide_False by (rewrite Hseq; tauto).
  unfold on_nth. rewrite Hb. cbn [lookup list_lookup]. unfold writeData. cbn [job world]. rewrite Hdev.
  destruct (ready_law block d Hr) as (d' & Hw & Hr'). pose proof (full_write _ _ _ Hw) as Hc'.
  rewrite Hw in *. cbn [mbind option_bind].
  eexists _, _. split; [reflexivity|]. edestruct put_one as [-> ->]; [exact Hb|]. split; [reflexivity|].
  split; [|cbn; by rewrite !packets_app, Hp].
  split_and!; cbn; try done.
  - by rewrite Hseq.
  - rewrite Hdone. unfold slen. rewrite text_app_length. lia.
  - rewrite Hf. intros Hne. rewrite decide_False by done. by rewrite Hhash.
  - exists d'. split; [done|]. split; [done|]. by rewrite Hc', Hc, text_app_assoc.
Qed.
Lemma bob_refuses k data j b rid block :
  jobs b = [j] -> receiver_job TransferState k data j -> packets (m_out b) = [] -> u16 k <> k ->
  exists b' e, receiveB (onStream (packet_toXml (stamp (c_jid alice) (data_iq rid k block)))) b = Some b' /\
    jobs b' = [j] /\ packets (m_out b') = [error_iq rid e].
Proof.
  intros Hb Hj Hp Hk. cbn [data_iq stamp packet_toXml]. unfold client_receive.
  pose proof (uwrap_range 16 k) as Hu.
  rewrite receive_data by (split; [cbn; apply Hu; lia|done]).
  unfold ibbDataIqReceived. cbn [stamp_iq iq_stanza stamp_stanza newStanza from_ id_ iq_content id_sid id_sequence id_payload].
  rewrite (bob_job TransferState k data j b) by done.
  destruct Hj as (Hd & Hjid & Hsid & Hm & Hs & Hf & Hseq & _).
  rewrite decide_True by done. rewrite decide_True by (by rewrite Hseq).
  eexists _, _. split; [reflexivity|]. split; [exact Hb|]. cbn. rewrite packets_app, Hp. reflexivity.
Qed.
Lemma bob_close k data j b rid :
  jobs b = [j] -> receiver_job TransferState k data j -> packets (m_out b) = [] ->
  exists b' j', receiveB (onStream (packet_toXml (stamp (c_jid alice) (close_iq rid)))) b = Some b' /\
    jobs b' = [j'] /\ receiver_job FinishedState k data j' /\ packets (m_out b') = [result_iq rid] /\
    error j' = if dataCorrupt j then FileCorruptError else NoError.
Proof.
  intros Hb Hj Hp. cbn [close_iq stamp packet_toXml]. unfold client_receive.
  rewrite receive_close by done.
  unfold ibbCloseIqReceived. cbn [stamp_iq iq_stanza stamp_stanza newStanza from_ id_ iq_content ic_sid].
  rewrite (bob_job TransferState k data j b) by done.
  destruct Hj as (Hd & Hjid & Hsid & Hm & Hs & Hf & Hseq & Hown & Hdone & Hhash & Hdev).
  rewrite decide_True by done. unfold on_nth', on_nth. rewrite Hb. cbn [lookup list_lookup mbind option_bind].
  eexists _, _. split; [reflexivity|]. edestruct put_one as [-> ->]; [exact Hb|]. split; [reflexivity|].
  unfold checkData. change (dataCorrupt (job (respond_result _ _ _))) with (dataCorrupt j).
  split; [|split].
  - destruct (dataCorrupt j); unfold terminate; rewrite decide_False by (cbn; congruence);
      split_and!; cbn; try done; rewrite Hown; done.
  - destruct (dataCorrupt j); unfold terminate; rewrite decide_False by (cbn; congruence);
      cbn; by rewrite !packets_app, Hp.
  - destruct (dataCorrupt j); unfold terminate; by rewrite decide_False by (cbn; congruence).
Qed.

(** *** Rounds *)

Lemma round_step a b p b1 q a1 :
  packets (m_out a) = [p] -> receiveB (onStream (packet_toXml (stamp (c_jid alice) p))) b = Some b1 ->
  packets (m_out b1) = [q] -> receiveA (onStream (packet_toXml (stamp (c_jid bob) q))) (flushed a) = Some a1 ->
  round (a, b) = Some (a1, flushed b1).
Proof.
  intros Hp Hb Hq Ha. unfold TransferSession.round. rewrite (deliver_one _ _ _ _ p Hp), Hb.
  cbn [mbind option_bind]. by rewrite (deliver_one _ _ _ _ q Hq), Ha.
Qed.

(** Block [k] is on its way, and the receiver has those before it. *)
Definition in_flight (k : Z) (data : string) (d : Dev) (block : string) (n : Net) : Prop :=
  exists ja jb rid, jobs n.1 = [ja] /\ sender_job TransferState d (i32 (k + 1)) rid ja /\ source d /\
    packets (m_out n.1) = [data_iq rid k block] /\
    jobs n.2 = [jb] /\ receiver_job TransferState k data jb /\ packets (m_out n.2) = [].
(** The close is on its way. *)
Definition is_closing (cause : JobError) (k : Z) (data : string) (n : Net) : Prop :=
  exists ja jb rid, jobs n.1 = [ja] /\ closing_job cause rid ja /\ packets (m_out n.1) = [close_iq rid] /\
    jobs n.2 = [jb] /\ receiver_job TransferState k data jb /\ packets (m_out n.2) = [].
(** Both jobs have finished and nothing is on its way. *)
Definition finished (causeA causeB : JobError) (data : string) (n : Net) : Prop :=
  exists ja jb d, jobs n.1 = [ja] /\ state ja = FinishedState /\ error ja = causeA /\ packets (m_out n.1) = [] /\
    jobs n.2 = [jb] /\ state jb = FinishedState /\ error jb = causeB /\ packets (m_out n.2) = [] /\
    iodevice jb = Some d /\ content d = base +:+ data.
(** After the receiver has [data], the sender has read on from [d]. *)
Definition phase (k : Z) (data : string) (d : Dev) (n : Net) : Prop := exists block rest,
  remaining d = block +:+ rest /\ slen block = Z.min 4096 (slen (remaining d)) /\
  if decide (block = "") then is_closing NoError k data n
  else exists d', in_flight k data d' block n /\ remaining d' = rest.

Hypothesis bob_named : c_jid bob <> "".

Lemma round_data k data d block n : in_flight k data d block n -> 0 <= k < 2 ^ 16 ->
  exists n', round n = Some n' /\ phase (k + 1) (data +:+ block) d n'.
Proof.
  intros (ja & jb & rid & Ha & Hja & Ho & Hp & Hb & Hjb & Hq) Hk. destruct n as [a b]. cbn [fst snd] in *.
  destruct (bob_data k data jb b rid block) as (b1 & jb' & Hb1 & Hjobs & Hjb' & Hout); [done..|].
  destruct (alice_result ja (flushed a) d (i32 (k + 1)) rid TransferState) as (a1 & ja' & Ha1 & Hja1 & Hn); [done..|].
  exists (a1, flushed b1). split; [by eapply round_step|].
  assert (i32 (k + 1) = k + 1) as Hi by (apply iwrap_small; lia). rewrite Hi in *.
  destruct Hn as (rid' & bl & rest & Hrem & Hlen & Hcase). exists bl, rest. split; [done|]. split; [done|].
  case_decide as He.
  - destruct Hcase as [Hc Hpk]. exists ja', jb', rid'. by split_and!.
  - destruct Hcase as (d' & Hs & Ho' & Hr & Hpk). exists d'. split; [|done]. exists ja', jb', rid'. by split_and!.
Qed.
Lemma round_refused k data d block n : in_flight k data d block n -> u16 k <> k ->
  exists n', round n = Some n' /\ is_closing ProtocolError k data n'.
Proof.
  intros (ja & jb & rid & Ha & Hja & Ho & Hp & Hb & Hjb & Hq) Hk. destruct n as [a b]. cbn [fst snd] in *.
  destruct (bob_refuses k data jb b rid block) as (b1 & e & Hb1 & Hjobs & Hout); [done..|].
  destruct (alice_error ja (flushed a) d (i32 (k + 1)) rid TransferState e) as (a1 & ja' & rid' & Ha1 & Hja1 & Hc & Hpk); [done..|].
  exists (a1, flushed b1). split; [by eapply round_step|]. exists ja', jb, rid'. by split_and!.
Qed.
Lemma round_close cause k data n : is_closing cause k data n ->
  exists n' , round n = Some n' /\
    finished cause (if (negb (fi_size fi =? 0) && negb (slen data =? fi_size fi))
                       || (negb (bool_decide (fi_hash fi = "")) && negb (bool_decide (hash QMd5 data = fi_hash fi)))
                    then FileCorruptError else NoError) data n'.
Proof.
  intros (ja & jb & rid & Ha & Hja & Hp & Hb & Hjb & Hq). destruct n as [a b]. cbn [fst snd] in *.
  destruct (bob_close k data jb b rid) as (b1 & jb' & Hb1 & Hjobs & Hjb' & Hout & He); [done..|].
  exists (flushed a, flushed b1). split.
  { eapply round_step; [done..|]. by eapply alice_closed. }
  destruct Hjb' as (_ & _ & _ & _ & Hst & _ & _ & _ & _ & _ & d & Hd & Hr & Hc).
  destruct Hja as (_ & _ & _ & _ & Hs & Hca & _).
  exists ja, jb', d. split_and!; try done. cbn. rewrite He.
  destruct Hjb as (_ & _ & _ & _ & _ & Hf & _ & _ & Hn & Hh & _). unfold dataCorrupt, fileSize. rewrite Hf, Hn.
  destruct (decide (fi_hash fi = "")) as [He'|He']; [by rewrite (bool_decide_eq_true_2 (fi_hash fi = ""))|].
  by rewrite Hh.
Qed.

(** The sender goes on until the file ends or the sequence leaves its 16 bits. *)
Lemma transfer_loop size : forall k data d n, (String.length (remaining d) <= size)%nat ->
  phase k data d n -> slen data = 4096 * k \/ (remaining d = "" /\ slen data <= 4096 * k) -> 0 <= k <= 2 ^ 16 ->
  exists r n', rounds memory toLatin1 alice bob r n = Some n' /\
    ((exists k', is_closing NoError k' (data +:+ remaining d) n' /\ slen (data +:+ remaining d) <= 4096 * 2 ^ 16) \/
     (exists data' d' block, in_flight (2 ^ 16) data' d' block n' /\ slen data' = 4096 * 2 ^ 16 /\ block <> "" /\
        data +:+ remaining d = data' +:+ block +:+ remaining d')).
Proof.
  induction size as [|size IH]; intros k data d n Hsize (block & rest & Hrem & Hlen & Hcase) Hdata Hk.
  all: assert (slen (data +:+ remaining d) = slen data + slen (remaining d)) as Happ
    by (unfold slen; rewrite text_app_length; lia).
  all: destruct (decide (block = "")) as [He|He].
  1, 3: assert (remaining d = "") as Hr
    by (destruct (remaining d); [done|]; subst block; unfold slen in Hlen; cbn [String.length] in Hlen; lia).
  1, 2: exists 0%nat, n; split; [done|]; left; exists k; rewrite Hr, text_app_nil; split; [done|]; lia.
  - destruct block; [done|]. rewrite Hrem in Hsize. simpl in Hsize. lia.
  - destruct Hcase as (d' & Hfl & Hrest). destruct Hdata as [Hdata|[Hr _]].
    2: { rewrite Hr in Hrem. by destruct block. }
    destruct (decide (k = 2 ^ 16)) as [->|Hne].
    { exists 0%nat, n. split; [done|]. right. exists data, d', block. rewrite Hrest, Hrem. by split_and!. }
    destruct (round_data k data d' block n Hfl) as (n1 & Hr1 & Hp1); [lia|].
    destruct (IH (k + 1) (data +:+ block) d' n1) as (r & n' & Hrun & Hres).
    + rewrite Hrest. rewrite Hrem, text_app_length in Hsize. destruct block; [done|]. simpl in Hsize. lia.
    + done.
    + assert (slen (data +:+ block) = slen data + slen block) as Hl by (unfold slen; rewrite text_app_length; lia).
      assert (slen (remaining d) = slen block + slen rest) as Hl'
        by (unfold slen; rewrite Hrem, text_app_length; lia).
      destruct (decide (rest = "")) as [->|Hrne]; [right; split; [done|lia]|left].
      assert (0 < slen rest) by (unfold slen; destruct rest; [done|simpl; lia]). lia.
    + lia.
    + exists (1 + r)%nat, n'. rewrite (rounds_app _ _ _ _ 1 r n n1) by by apply rounds_one. split; [done|].
      replace (data +:+ remaining d) with ((data +:+ block) +:+ remaining d'); [exact Hres|].
      by rewrite Hrest, Hrem, text_app_assoc.
Qed.

(** *** The offer and its acceptance *)

Hypothesis null_date : datetimeIsValid nullDateTime = false.
Definition file_ok (f : FileInfo) : Prop :=
  if file_isNull f then f = noFile else date_ok (fi_date f) /\ 0 <= fi_size f < 2 ^ 63.
Hypothesis fi_ok : file_ok fi.
Hypothesis bob_receives : c_receives bob = true.

Lemma noFile_ok : file_ok noFile.
Proof. unfold file_ok, file_isNull, noFile. cbn. by rewrite null_date. Qed.
Lemma initiation_content_ok c t v : si_form c = newForm t [v] -> t <> FormNone ->
  field_ok v -> file_ok (si_file c) -> content_ok c.
Proof.
  intros Hform Ht Hv Hf. split; [exact Hf|]. rewrite Hform.
  unfold form_isNull, newForm. cbn [df_type]. rewrite bool_decide_eq_false_2 by done.
  constructor; [exact Hv|constructor].
Qed.

(** The offer; a value that was never set is written as no value, and read as an empty one. *)
Definition offer_iq (rid : string) (v : QVariant) : Packet :=
  PInitiation (Build_Iq (newStanza "" (c_jid bob) rid None) IqSet
    {| si_form := newForm Form [(newField ListSingleField "stream-method" v false)
         <| options := [{| op_label := ""; op_value := ns_ibb |}] |>];
       si_file := fi; si_mimeType := ""; si_profile := FileTransfer; si_id := s |}).
Lemma offer_written rid : packet_toXml (stamp (c_jid alice) (offer_iq rid VNull)) =
  packet_toXml (stamp (c_jid alice) (offer_iq rid (VString ""))).
Proof. reflexivity. Qed.

(** The job of an offer that was not answered. *)
Definition offered_job (rid : string) : Job Dev :=
  (newJob IncomingDirection (c_jid alice)) <| offerId := rid |> <| sid := s |> <| fileInfo := fi |>
    <| method := InBandMethod |> <| stateSlot := true |>.
Lemma bob_offered rid b : supportedMethods b = AnyMethod ->
  exists b', receiveB (onStream (packet_toXml (stamp (c_jid alice) (offer_iq rid VNull)))) b = Some b' /\ jobs b' = jobs b ++ [offered_job rid] /\ m_out b' = m_out b ++ [FileReceived s] /\ ibbBlockSize b' = ibbBlockSize b.
Proof.
  intros Hm. rewrite offer_written. cbn [offer_iq stamp packet_toXml]. unfold client_receive.
  rewrite receive_initiation.
  2: { split; [|done]. eapply initiation_content_ok; [reflexivity|done| |exact fi_ok].
       split; [by eexists|]. split; [done|]. split; [constructor|done]. }
  rewrite bob_receives. unfold streamInitiationIqReceived, streamInitiationSetReceived.
  cbn [stamp_iq iq_type iq_content si_profile negb]. rewrite Hm.
  eexists. split; [reflexivity|]. by split_and!.
Qed.

(** The acceptance: the device is there, and the answer names the method. *)
Definition accepted_iq (rid : string) : Packet :=
  PInitiation (Build_Iq (newStanza "" (c_jid alice) rid None) IqResult
    {| si_form := newForm Submit [newField ListSingleField "stream-method" (VString ns_ibb) false];
       si_file := noFile; si_mimeType := ""; si_profile := FileTransfer; si_id := "" |}).
Lemma jobStateChanged_accepts d (w : World Dev) : stateSlot (job w) = true -> direction (job w) = IncomingDirection ->
  method (job w) = InBandMethod -> iodevice (job w) = Some d -> isWritable d = true ->
  exists i, q_jobStateChanged memory StartState w =
    {| job := (job w) <| stateSlot := false |> <| errorSlot := true |>; ids := i;
       out := (out w ++ [Sent (PInitiation (Build_Iq (newStanza "" (jid (job w)) (offerId (job w)) None) IqResult
         {| si_form := newForm Submit [newField ListSingleField "stream-method" (VString ns_ibb) false];
            si_file := noFile; si_mimeType := ""; si_profile := FileTransfer; si_id := "" |}))])
         ++ [JobStarted (sid (job w))] |}.
Proof.
  intros Hs Hd Hm Hdev Hw. destruct w as [j i o]. cbn [job out ids] in *.
  eexists. unfold q_jobStateChanged. cbn [job]. rewrite Hs. cbn [negb]. rewrite decide_False by tauto.
  cbv zeta. set (w' := on_job _ {| job := j; ids := i; out := o |}).
  assert (iodevice (job w') = Some d) as -> by done. assert (method (job w') = InBandMethod) as -> by done.
  rewrite Hw, bool_decide_eq_false_2 by tauto. cbn [orb negb]. rewrite decide_True by done. reflexivity.
Qed.
Lemma accept_offered rid d (w : World Dev) : job w = offered_job rid -> isWritable d = true -> exists w',
  accept memory d w = w' /\
  job w' = (offered_job rid) <| iodevice := Some d |> <| state := StartState |> <| stateSlot := false |> <| errorSlot := true |> /\
  packets (out w') = packets (out w) ++ [accepted_iq rid].
Proof.
  intros Hj Hw. unfold accept. assert (mayAccept (job w) = true) as -> by by rewrite Hj.
  set (w1 := on_job _ w). unfold setState. rewrite decide_False by (subst w1; cbn; by rewrite Hj). cbv zeta.
  set (w2 := on_job _ w1).
  assert (job w2 = (offered_job rid) <| iodevice := Some d |> <| state := StartState |>) as Hj2
    by (subst w2 w1; cbn; by rewrite Hj).
  destruct (jobStateChanged_accepts d w2) as [i Hq]; [by rewrite Hj2..|done|].
  rewrite Hq, Hj2. eexists. split; [reflexivity|]. split; [reflexivity|].
  cbn [emit out upd World_eta]. rewrite !packets_app. cbn [packets omap list_omap]. rewrite !app_nil_r. reflexivity.
Qed.
Lemma bob_accepts rid d b : jobs b = [offered_job rid] -> ready d -> content d = base -> packets (m_out b) = [] ->
  exists b' j, on_nth' 0 (accept memory d) b = Some b' /\ jobs b' = [j] /\ receiver_job StartState 0 "" j /\
    stateSlot j = false /\ packets (m_out b') = [accepted_iq rid] /\ ibbBlockSize b' = ibbBlockSize b.
Proof.
  intros Hb Hr Hc Hp. unfold on_nth', on_nth. rewrite Hb. cbn [lookup list_lookup mbind option_bind].
  destruct (accept_offered rid d (world b (offered_job rid))) as (w' & -> & Hj & Ho); [done|by apply ready_writable|].
  eexists _, _. split; [reflexivity|]. destruct (put_one w' _ b Hb) as [-> ->]. rewrite Hj, Ho. split; [reflexivity|].
  split; [|split; [done|split; [cbn [world out]; by rewrite Hp|done]]].
  split_and!; try reflexivity. exists d. split; [done|]. split; [done|]. by rewrite Hc, text_app_nil.
Qed.

(** *** The stream is opened *)

Definition offering_job (d : Dev) (rid : string) j : Prop :=
  direction j = OutgoingDirection /\ jid j = c_jid bob /\ sid j = s /\ sh_jid (socksProxy j) = "" /\
  method j = NoMethod /\ state j = OfferState /\ requestId j = rid /\ iodevice j = Some d /\ ibbSequence j = 0.
Definition open_iq (rid : string) : Packet :=
  POpen (Build_Iq (newStanza "" (c_jid bob) rid None) IqSet {| io_sid := s; io_blockSize := 4096 |}).

Lemma alice_accepted d rid j a : jobs a = [j] -> offering_job d rid j -> packets (m_out a) = [] ->
  supportedMethods a = InBandMethod -> ibbBlockSize a = 4096 ->
  exists a' j' rid', receiveA (onStream (packet_toXml (stamp (c_jid bob) (accepted_iq rid)))) a = Some a' /\
    jobs a' = [j'] /\ sender_job StartState d 0 rid' j' /\ packets (m_out a') = [open_iq rid'].
Proof.
  intros Ha (Hd & Hj & Hs & Hp & Hm & Hst & Hr & Hdev & Hk) Hout Hmeth Hbs.
  cbn [accepted_iq stamp packet_toXml]. unfold client_receive.
  rewrite receive_initiation.
  2: { split; [|done]. eapply initiation_content_ok; [reflexivity|done| |exact noFile_ok].
       split; [by eexists|]. split; [done|]. by split; [constructor|]. }
  unfold streamInitiationIqReceived. cbn [stamp_iq iq_type]. unfold streamInitiationResultReceived.
  cbn [stamp_iq iq_stanza stamp_stanza newStanza from_ id_ iq_content si_form].
  assert (getJobByRequestId OutgoingDirection (c_jid bob) rid a = Some (0%nat, j)) as ->.
  { unfold getJobByRequestId. rewrite Ha. cbn. by rewrite decide_True. }
  rewrite decide_True by done. cbv zeta. cbn [newForm fields foldl newField key value variant_toString].
  rewrite Hmeth. rewrite (decide_True (P := "stream-method" = "stream-method")) by done.
  rewrite bool_decide_eq_true_2 by done. cbn [andb Z.land InBandMethod Pos.land Z.eqb negb].
  unfold on_nth', on_nth. rewrite Ha. cbn [lookup list_lookup mbind option_bind].
  set (w1 := on_job _ (world a j)).
  destruct (setState_outgoing StartState w1) as (os & Hos & ->); [done|].
  rewrite decide_True by done. rewrite Hbs. cbn [job].
  eexists _, _, _. split; [reflexivity|]. edestruct put_one as [-> ->]; [exact Ha|]. split; [reflexivity|].
  split; [split_and!; try reflexivity; cbn; done|].
  cbn. rewrite !packets_app, Hout, Hos. unfold open_iq. by rewrite Hs, Hj.
Qed.

Lemma setState_unconnected st (w : World Dev) : stateSlot (job w) = false -> exists os, packets os = [] /\
  setState memory st w = {| job := (job w) <| state := st |>; ids := ids w; out := out w ++ os |}.
Proof.
  intros Hs. unfold setState. case_decide as Hst.
  - exists []. split; [done|]. rewrite app_nil_r. destruct w as [[] ? ?]. cbn in *. by subst.
  - exists [StateChanged (sid (job w)) st]. split; [done|]. cbv zeta. unfold q_jobStateChanged.
    set (w1 := on_job _ w). assert (stateSlot (job w1) = false) as -> by exact Hs. done.
Qed.
Lemma bob_open rid j b : jobs b = [j] -> receiver_job StartState 0 "" j -> stateSlot j = false ->
  packets (m_out b) = [] -> ibbBlockSize b = 4096 ->
  exists b' j', receiveB (onStream (packet_toXml (stamp (c_jid alice) (open_iq rid)))) b = Some b' /\
    jobs b' = [j'] /\ receiver_job TransferState 0 "" j' /\ packets (m_out b') = [result_iq rid].
Proof.
  intros Hb Hj Hslot Hp Hbs. cbn [open_iq stamp packet_toXml]. unfold client_receive.
  rewrite receive_open by (split; [cbn; lia|done]).
  unfold ibbOpenIqReceived. cbn [stamp_iq iq_stanza stamp_stanza newStanza from_ id_ iq_content io_sid io_blockSize].
  rewrite (bob_job StartState 0 "" j b) by done.
  destruct Hj as (Hd & Hjid & Hsid & Hm & Hs & Hf & Hseq & Hown & Hdone & Hhash & Hdev).
  rewrite decide_True by done. rewrite Hbs. cbn [Z.ltb Z.compare Pos.compare Pos.compare_cont].
  unfold on_nth', on_nth. rewrite Hb. cbn [lookup list_lookup mbind option_bind].
  set (w1 := on_job _ (world b j)).
  destruct (setState_unconnected TransferState w1) as (os & Hos & ->); [exact Hslot|].
  eexists _, _. split; [reflexivity|]. edestruct put_one as [-> ->]; [exact Hb|]. split; [reflexivity|].
  split; [split_and!; cbn; done|]. cbn. by rewrite !packets_app, Hp, Hos.
Qed.

(** *** The whole transfer *)

(** The sender of an in-band transfer and what it has sent; the receiver before the offer. *)
Definition sending (d : Dev) (port : Z) : Manager Dev :=
  (sendFile s (c_jid bob) (Some d) fi "" ((newManager port) <| supportedMethods := InBandMethod |>)).2.
Definition application_accepts (d : Dev) (n : Net) : option Net :=
  b ← on_nth' 0 (accept memory d) n.2; Some (n.1, b).

Lemma sendFile_offers d m : source d -> Jid.jidToResource (c_jid bob) <> "" ->
  jobs m = [] -> m_out m = [] -> supportedMethods m = InBandMethod ->
  exists j rid i, (sendFile s (c_jid bob) (Some d) fi "" m).2 =
      m <| jobs := [j] |> <| m_ids := i |> <| m_out := [Sent (offer_iq rid VNull); JobStarted s] |> /\
    offering_job d rid j.
Proof.
  intros Hr Hb Hj Ho Hm. unfold sendFile. rewrite decide_False by done. cbv zeta.
  rewrite (decide_True (P := "" = "")) by done. rewrite (proj2 (source_open d Hr)), Hm. cbn [negb InBandMethod Z.eqb].
  unfold request. destruct (nextId _) as [rid w] eqn:Hn.
  assert (out w = [] /\ job w = (newJob OutgoingDirection (c_jid bob)) <| sid := s |> <| fileInfo := fi |>
    <| iodevice := Some d |> <| errorSlot := true |>) as [Hout Hjob].
  { unfold nextId in Hn. destruct (Random.generateSequentialStanzaId _). injection Hn as _ <-. cbn. by rewrite Ho. }
  eexists _, rid, _. split.
  - cbn [snd]. unfold emit, on_job. cbn [out job ids upd World_eta Manager_eta]. rewrite Hout, Hj. reflexivity.
  - rewrite Hjob. by split_and!.
Qed.
Lemma alice_offers d port : source d -> Jid.jidToResource (c_jid bob) <> "" ->
  exists j rid, jobs (sending d port) = [j] /\ offering_job d rid j /\
    packets (m_out (sending d port)) = [offer_iq rid VNull] /\
    supportedMethods (sending d port) = InBandMethod /\ ibbBlockSize (sending d port) = 4096.
Proof.
  intros Hr Hb.
  destruct (sendFile_offers d ((newManager port) <| supportedMethods := InBandMethod |>)) as (j & rid & i & Hs & Hj); [done..|].
  exists j, rid. unfold sending. rewrite Hs. by split_and!.
Qed.

Lemma transfer_opens d dB portA portB : source d -> ready dB -> content dB = base ->
  Jid.jidToResource (c_jid bob) <> "" ->
  exists rid n1 n2 n3, round (sending d portA, newManager portB) = Some n1 /\ jobs n1.2 = [offered_job rid] /\
    application_accepts dB n1 = Some n2 /\ rounds memory toLatin1 alice bob 2 n2 = Some n3 /\ phase 0 "" d n3.
Proof.
  intros Ho Hrdy Hbase Hres.
  destruct (alice_offers d portA Ho Hres) as (ja & rid & Ha & Hja & Hpa & Hma & Hba).
  destruct (bob_offered rid (newManager portB)) as (b1 & Hb1 & Hjb1 & Hob1 & Hbb1); [done|].
  exists rid, (flushed (sending d portA), flushed b1).
  assert (round (sending d portA, newManager portB) = Some (flushed (sending d portA), flushed b1)) as Hround1.
  { unfold TransferSession.round. rewrite (deliver_one _ _ _ _ _ Hpa), Hb1. cbn [mbind option_bind].
    rewrite deliver_none by (rewrite Hob1; done). done. }
  destruct (bob_accepts rid dB (flushed b1)) as (b2 & jb & Hb2 & Hjb2 & Hrj & Hslot & Hob2 & Hbb2); [done..|].
  exists (flushed (sending d portA), b2).
  destruct (alice_accepted d rid ja (flushed (sending d portA))) as (a3 & ja3 & rid3 & Ha3 & Hja3 & Hsj & Hpa3); [done..|].
  destruct (bob_open rid3 jb (flushed b2)) as (b4 & jb4 & Hb4 & Hjb4 & Hrj4 & Hob4); [done..| |].
  { cbn. rewrite Hbb2. cbn. by rewrite Hbb1. }
  destruct (alice_result ja3 (flushed a3) d 0 rid3 StartState) as (a5 & ja5 & Ha5 & Hja5 & Hnext); [done..|].
  exists (a5, flushed b4). split; [exact Hround1|]. split; [by cbn; rewrite Hjb1|].
  split; [unfold application_accepts; cbn [fst snd]; by rewrite Hb2|].
  assert (round (flushed (sending d portA), b2) = Some (a3, flushed b2)) as Hround2.
  { unfold TransferSession.round. rewrite deliver_none by done. cbn [mbind option_bind].
    rewrite (deliver_one _ _ _ _ _ Hob2). change (flushed (flushed (sending d portA))) with (flushed (sending d portA)).
    by rewrite Ha3. }
  split.
  { change 2%nat with (1 + 1)%nat. rewrite (rounds_app _ _ _ _ 1 1 _ _ (rounds_one _ _ _ _ _ _ Hround2)). apply rounds_one. by eapply round_step. }
  destruct Hnext as (rid' & bl & rest & Hrem & Hlen & Hcase). exists bl, rest. split; [done|]. split; [done|].
  case_decide as He.
  - destruct Hcase as [Hc Hpk]. exists ja5, jb4, rid'. by split_and!.
  - destruct Hcase as (d' & Hs & Ho' & Hr & Hpk). exists d'. split; [|done]. exists ja5, jb4, rid'. by split_and!.
Qed.

(** The size and hash of the offer are those of the file, where it gives them. *)
Definition describes (content : string) : Prop :=
  fi_size fi = slen content /\ (fi_hash fi = "" \/ fi_hash fi = hash QMd5 content).

(** C7: A file of up to 65536 blocks that is offered in-band to a client whose application accepts
    it arrives: after finitely many rounds both jobs have finished without an error, nothing is
    on its way, and the file has been appended to the receiver's device. *)
Theorem transfer_in_band d dB portA portB :
  source d -> ready dB -> content dB = base ->
  Jid.jidToResource (c_jid bob) <> "" -> describes (remaining d) -> slen (remaining d) <= 4096 * 2 ^ 16 ->
  exists n1 n2 r n3, round (sending d portA, newManager portB) = Some n1 /\
    application_accepts dB n1 = Some n2 /\ rounds memory toLatin1 alice bob r n2 = Some n3 /\
    finished NoError NoError (remaining d) n3.
Proof.
  intros Ho Hrdy Hbase Hres [Hsize Hhash] Hmax.
  destruct (transfer_opens d dB portA portB) as (rid & n1 & n2 & n3 & Hn1 & _ & Hn2 & Hn3 & Hph); [done..|].
  destruct (transfer_loop (String.length (remaining d)) 0 "" d n3) as (r & n4 & Hr & Hend); [done..|by left|lia|].
  exists n1, n2. destruct Hend as [(k & Hcl & _)|(data & d' & block & _ & Hlen & Hne & Heq)].
  - destruct (round_close NoError k ("" +:+ remaining d) n4 Hcl) as (n5 & Hr5 & Hf).
    exists (2 + (r + 1))%nat, n5. split; [done|]. split; [done|]. split.
    + rewrite (rounds_app _ _ _ _ 2 _ _ _ Hn3), (rounds_app _ _ _ _ r _ _ _ Hr). by apply rounds_one.
    + change ("" +:+ remaining d) with (remaining d) in Hf.
      rewrite Hsize, Z.eqb_refl, andb_false_r in Hf. destruct Hhash as [He|He].
      * by rewrite (bool_decide_eq_true_2 (fi_hash fi = "")) in Hf.
      * rewrite (bool_decide_eq_true_2 (hash QMd5 (remaining d) = _)) in Hf by done. by rewrite andb_false_r in Hf.
  - exfalso. change ("" +:+ remaining d) with (remaining d) in Heq. rewrite Heq in Hmax. unfold slen in *.
    rewrite !text_app_length in Hmax. destruct block; [done|]. simpl in Hmax. lia.
Qed.

(** C20: A larger file never arrives: the receiver counts the blocks in an int, the stanzas number
    them in 16 bits, so it refuses the block after number 65535; both jobs end with an error. *)
Theorem transfer_in_band_limit d dB portA portB :
  source d -> ready dB -> content dB = base ->
  Jid.jidToResource (c_jid bob) <> "" -> describes (remaining d) -> 4096 * 2 ^ 16 < slen (remaining d) ->
  exists n1 n2 r n3 data, round (sending d portA, newManager portB) = Some n1 /\
    application_accepts dB n1 = Some n2 /\ rounds memory toLatin1 alice bob r n2 = Some n3 /\
    slen data = 4096 * 2 ^ 16 /\ finished ProtocolError FileCorruptError data n3.
Proof.
  intros Ho Hrdy Hbase Hres [Hsize Hhash] Hmax.
  destruct (transfer_opens d dB portA portB) as (rid & n1 & n2 & n3 & Hn1 & _ & Hn2 & Hn3 & Hph); [done..|].
  destruct (transfer_loop (String.length (remaining d)) 0 "" d n3) as (r & n4 & Hr & Hend); [done..|by left|lia|].
  exists n1, n2. destruct Hend as [(k & _ & Hle)|(data & d' & block & Hfl & Hlen & Hne & Heq)].
  { change ("" +:+ remaining d) with (remaining d) in Hle. lia. }
  destruct (round_refused _ _ _ _ _ Hfl) as (n5 & Hr5 & Hcl); [by vm_compute|].
  destruct (round_close _ _ _ _ Hcl) as (n6 & Hr6 & Hf).
  exists (2 + (r + (1 + 1)))%nat, n6, data. split; [done|]. split; [done|]. split; [|split; [done|]].
  - rewrite (rounds_app _ _ _ _ 2 _ _ _ Hn3), (rounds_app _ _ _ _ r _ _ _ Hr).
    rewrite (rounds_app _ _ _ _ 1 1 _ _ (rounds_one _ _ _ _ _ _ Hr5)). by apply rounds_one.
  - rewrite (proj2 (Z.eqb_neq (fi_size fi) 0)), (proj2 (Z.eqb_neq (slen data) (fi_size fi))) in Hf by lia. done.
Qed.
End Transfer.

(** ** A transfer nobody accepted *)

Section Unaccepted.
Context `{QtTypes} `{Crypto} {Dev : Type} `{IODevice Dev}.
Variable memory : Z.
Variable toLatin1 : string -> string.
Variables alice bob : Client.
Variable s : string.
Variable fi : FileInfo.
Hypothesis fi_ok : file_ok fi.
Hypothesis bob_receives : c_receives bob = true.
Notation receiveB := (client_receive (Dev := Dev) memory toLatin1 bob).
Notation from_alice p := (onStream (packet_toXml (stamp (c_jid alice) p))).

(** A job without a device. *)
Definition unaccepted (st : State) (slot : bool) (j : Job Dev) : Prop :=
  direction j = IncomingDirection /\ jid j = c_jid alice /\ sid j = s /\ method j = InBandMethod /\
  iodevice j = None /\ state j = st /\ stateSlot j = slot /\ ibbSequence j = 0.
Lemma unaccepted_found st slot j (m : Manager Dev) : jobs m = [j] -> unaccepted st slot j ->
  getIncomingJobBySid (c_jid alice) s m = Some (0%nat, j).
Proof.
  intros Hm (Hd & Hj & Hs & _). unfold getIncomingJobBySid. rewrite Hm. cbn. by rewrite decide_True.
Qed.

Lemma setState_refused (w : World Dev) : unaccepted OfferState true (job w) ->
  unaccepted FinishedState false (job (setState memory TransferState w)).
Proof.
  intros (Hd & Hj & Hs & Hm & Hi & Hst & Hslot & Hseq). unfold setState. rewrite decide_False by (by rewrite Hst).
  cbv zeta. set (w1 := on_job _ w). unfold q_jobStateChanged.
  assert (stateSlot (job w1) = true) as -> by exact Hslot. cbn [negb].
  rewrite decide_False by (cbn; rewrite Hd; tauto). cbv zeta.
  rewrite bool_decide_eq_true_2 by done. cbn [orb].
  set (w2 := respond_error _ _ _ _ _ _ _). unfold terminate. rewrite decide_False by (subst w2; cbn; done).
  split_and!; try done. cbn. rewrite Hi. by destruct deviceIsOwn.
Qed.
Lemma open_unaccepted st slot st' slot' rid j (b : Manager Dev) :
  (forall w : World Dev, unaccepted st slot (job w) -> unaccepted st' slot' (job (setState memory TransferState w))) ->
  jobs b = [j] -> unaccepted st slot j -> ibbBlockSize b = 4096 ->
  exists b' j', receiveB (from_alice (open_iq bob s rid)) b = Some b' /\ jobs b' = [j'] /\
    unaccepted st' slot' j' /\ ibbBlockSize b' = 4096.
Proof.
  intros Hset Hb Hj Hbs. cbn [open_iq stamp packet_toXml]. unfold client_receive.
  rewrite receive_open by (split; [cbn; lia|done]).
  unfold ibbOpenIqReceived. cbn [stamp_iq iq_stanza stamp_stanza newStanza from_ id_ iq_content io_sid io_blockSize].
  rewrite (unaccepted_found st slot j b) by done.
  rewrite decide_True by apply Hj. rewrite Hbs. cbn [Z.ltb Z.compare Pos.compare Pos.compare_cont].
  unfold on_nth', on_nth. rewrite Hb. cbn [lookup list_lookup mbind option_bind].
  set (w1 := on_job _ (world b j)). pose proof (Hset w1 Hj) as Hw.
  eexists _, _. split; [reflexivity|]. edestruct (put_one (Dev := Dev)) as [-> _]; [exact Hb|]. split; [reflexivity|]. by split.
Qed.
Lemma data_unaccepted slot rid block j (b : Manager Dev) : jobs b = [j] -> unaccepted TransferState slot j ->
  receiveB (from_alice (data_iq bob s rid 0 block)) b = None.
Proof.
  intros Hb Hj. cbn [data_iq stamp packet_toXml]. unfold client_receive.
  rewrite receive_data by (split; [split; by vm_compute|done]).
  unfold ibbDataIqReceived. cbn [stamp_iq iq_stanza stamp_stanza newStanza from_ id_ iq_content id_sid id_sequence id_payload].
  rewrite (unaccepted_found TransferState slot j b) by done.
  destruct Hj as (_ & _ & _ & Hm & Hi & Hst & _ & Hseq).
  rewrite decide_True by done. rewrite decide_False by (rewrite Hseq; intros Hne; by apply Hne).
  unfold on_nth. rewrite Hb. cbn [lookup list_lookup]. unfold writeData. cbn [job world]. by rewrite Hi.
Qed.

(** C19: Four stanzas crash a client that receives files: an offer that nobody has accepted yet, two
    requests to open its stream (the first refuses the offer and finishes the job, the second
    revives it) and a block of data, which is written through a null device. *)
Theorem transfer_unaccepted_crash (b : Manager Dev) r1 r2 r3 r4 block :
  jobs b = [] -> supportedMethods b = AnyMethod -> ibbBlockSize b = 4096 ->
  run memory toLatin1 (c_jid bob) (c_addresses bob) true
    (map Stanza_ [from_alice (offer_iq bob s fi r1 VNull); from_alice (open_iq bob s r2);
                  from_alice (open_iq bob s r3); from_alice (data_iq bob s r4 0 block)]) b = None.
Proof.
  intros Hb Hm Hbs.
  destruct (bob_offered (Dev := Dev) memory toLatin1 alice bob s fi fi_ok bob_receives r1 b Hm)
    as (b1 & Hr1 & Hj1 & _ & Hbs1).
  rewrite Hb in Hj1. cbn [app] in Hj1. rewrite Hbs in Hbs1.
  destruct (open_unaccepted OfferState true FinishedState false r2 _ b1 setState_refused Hj1)
    as (b2 & j2 & Hr2 & Hj2 & Hu2 & Hbs2); [by split_and!|done|].
  destruct (open_unaccepted FinishedState false TransferState false r3 j2 b2) as (b3 & j3 & Hr3 & Hj3 & Hu3 & _); [|done..|].
  { intros w Hw. pose proof Hw as (_ & _ & _ & _ & _ & _ & Hslot & _).
    destruct (setState_unconnected memory TransferState w Hslot) as (os & _ & ->).
    unfold unaccepted in *. cbn. naive_solver. }
  pose proof (data_unaccepted false r4 block j3 b3 Hj3 Hu3) as Hr4.
  unfold client_receive in *. rewrite bob_receives in *.
  unfold run. cbn [map foldl mbind option_bind step]. by rewrite Hr1; cbn [mbind option_bind]; rewrite Hr2;
    cbn [mbind option_bind]; rewrite Hr3.
Qed.

(** A server that bounces an offer together with its payload leaves the job waiting for ever. *)
Theorem transfer_bounced_offer (iq : Iq StreamInitiation) (m : Manager Dev) :
  iq_ok memory iq -> iq_type iq = IqError -> client_receive memory toLatin1 alice (onStream (iq_toXml iq)) m = Some m.
Proof.
  intros Hok Ht. unfold client_receive. rewrite receive_initiation by done.
  unfold streamInitiationIqReceived. by rewrite Ht.
Qed.
End Unaccepted.

(** ** Files, and the theorems applied *)

#[export] Instance File_source : SourceDevice File.
Proof.
  exists (fun f => f_mode f = ReadOnly) f_rest.
  - intros f Hf. cbn. by rewrite Hf.
  - intros n f Hf Hn. cbn. rewrite Hf. destruct (split_text_ok (Z.to_nat n) (f_rest f)) as [Ht Hl].
    destruct (split_text (Z.to_nat n) (f_rest f)) as [a b]. cbn in *.
    eexists a, b, _. split; [done|]. split; [done|]. split; [done|]. split; [unfold slen; lia|done].
Defined.
#[export] Instance File_sink : SinkDevice File.
Proof.
  exists (fun f => f_mode f = WriteOnly).
  - intros f Hf. cbn. by rewrite Hf.
  - intros t f Hf. cbn. rewrite Hf. eauto.
Defined.

Definition sample_alice : Client := {| c_jid := "romeo@montague.example/orchard"; c_addresses := []; c_receives := false |}.
Definition sample_bob : Client := {| c_jid := "juliet@capulet.example/balcony"; c_addresses := []; c_receives := true |}.
Definition sample_info (content : string) : @FileInfo text_types := {|
  fi_date := "2025-01-01" : @QDateTime text_types; fi_hash := hash (Crypto := sample_crypto) QMd5 content;
  fi_name := "letter.txt"; fi_description := ""; fi_size := slen content |}.
Definition reading (content : string) : File := {| f_text := content; f_rest := content; f_mode := ReadOnly |}.
Definition writing (base : string) : File := {| f_text := base; f_rest := ""; f_mode := WriteOnly |}.

Lemma transfer_in_band_witness :
  let text := "But soft, what light through yonder window breaks" in
  exists n1 n2 r n3,
    round (H0 := sample_crypto) 0 id sample_alice sample_bob (sending (H := text_types) sample_bob "sid1" (sample_info text) (reading text) 7777, newManager 7778)
      = Some n1 /\
    application_accepts 0 (writing "Act 2: ") n1 = Some n2 /\
    rounds (H0 := sample_crypto) 0 id sample_alice sample_bob r n2 = Some n3 /\
    finished "Act 2: " NoError NoError text n3.
Proof.
  intros text.
  assert (file_ok (sample_info text)) as Hfile by (split; [reflexivity|split; by vm_compute]).
  pose proof (transfer_in_band (H := text_types) (H0 := sample_crypto) (H1 := File_device) (H2 := File_source)
    (AppendDevice0 := File_append) (SinkDevice0 := File_sink) 0 id sample_alice sample_bob "sid1"
    (sample_info text) "Act 2: " ltac:(discriminate) eq_refl Hfile eq_refl (reading text) (writing "Act 2: ") 7777 7778
    eq_refl eq_refl eq_refl ltac:(by vm_compute)) as Hrun.
  apply Hrun; [split; [reflexivity|by right]|by vm_compute].
Defined.

(** A text of [n] characters. *)
Fixpoint blanks (n : nat) : string := match n with O => "" | S n => String " " (blanks n) end.
Lemma blanks_length n : slen (blanks n) = Z.of_nat n.
Proof. unfold slen. induction n as [|n IH]; [done|]. cbn [blanks String.length]. lia. Qed.

Lemma transfer_in_band_limit_witness :
  let text := blanks (Z.to_nat (4096 * 2 ^ 16 + 1)) in
  let info := {| fi_date := "" : @QDateTime text_types; fi_hash := ""; fi_name := "blank.txt";
                 fi_description := ""; fi_size := 4096 * 2 ^ 16 + 1 |} in
  exists n1 n2 r n3 data,
    round (H0 := sample_crypto) 0 id sample_alice sample_bob
      (sending (H := text_types) sample_bob "sid1" info (reading text) 7777, newManager 7778) = Some n1 /\
    application_accepts 0 (writing "") n1 = Some n2 /\
    rounds (H0 := sample_crypto) 0 id sample_alice sample_bob r n2 = Some n3 /\
    slen data = 4096 * 2 ^ 16 /\ finished "" ProtocolError FileCorruptError data n3.
Proof.
  generalize (blanks_length (Z.to_nat (4096 * 2 ^ 16 + 1))). generalize (blanks (Z.to_nat (4096 * 2 ^ 16 + 1))).
  intros long Hlen. rewrite Z2Nat.id in Hlen by lia. intros text info. subst text. rename long into text.
  assert (file_ok info) as Hfile by (split; [reflexivity|split; by vm_compute]).
  pose proof (transfer_in_band_limit (H := text_types) (H0 := sample_crypto) (H1 := File_device) (H2 := File_source)
    (AppendDevice0 := File_append) (SinkDevice0 := File_sink) 0 id sample_alice sample_bob "sid1"
    info "" ltac:(discriminate) eq_refl Hfile eq_refl (reading text) (writing "") 7777 7778
    eq_refl eq_refl eq_refl ltac:(by vm_compute)) as Hrun.
  apply Hrun; change (remaining (reading text)) with text; [split; [by rewrite Hlen|by left]|rewrite Hlen; lia].
Defined.

Lemma transfer_unaccepted_crash_witness :
  let attack := map (Stanza_ (H := text_types) (Dev := File)) (map (fun p => onStream (packet_toXml (stamp (c_jid sample_alice) p)))
    [offer_iq (H := text_types) sample_bob "sid1" (sample_info "text") "1" VNull; open_iq sample_bob "sid1" "2";
     open_iq sample_bob "sid1" "3"; data_iq sample_bob "sid1" "4" 0 "text"]) in
  run (H0 := sample_crypto) (H1 := File_device) 0 id (c_jid sample_bob) [] true attack (newManager 7778) = None.
Proof.
  intros attack. apply (transfer_unaccepted_crash (H0 := sample_crypto) (H1 := File_device) 0 id sample_alice sample_bob "sid1" (sample_info "text"));
    try reflexivity.
  split; [reflexivity|]. split; by vm_compute.
Defined.
