(* ===== verification/IncomingClient.v ===== *)
(** * The server's side of a client's stream (QXmppIncomingClient.cpp, QXmppPasswordChecker.cpp)

    The handlers of QXmppIncomingClient over the events of its socket and of
    its password checker, whose replies come later and in any order. A
    handler that dereferences a null pointer or an empty optional has no
    state after it ([None]). Random resources are a parameter, TLS is the
    socket's. *)
From S2P Require Import Prelude Utils Dom Base64 XmlCodec StreamManagement SaslXml SaslMechanism DigestMd5 SaslClient StreamElements StreamSocket.

Definition ns_client_stanza : string := "jabber:client".
Definition ns_session : string := "urn:ietf:params:xml:ns:xmpp-session".

(** ** Password checkers *)

Record PasswordRequest := { rq_domain : string; rq_username : string; rq_password : string }.
Inductive ReplyError := NoError | AuthorizationError | TemporaryError.
#[export] Instance ReplyError_eq_dec : EqDecision ReplyError.
Proof. solve_decision. Defined.

(** QXmppPasswordChecker: what its replies say once they are finished. *)
Class PasswordChecker := {
  checkPassword : PasswordRequest -> ReplyError;
  getDigest : PasswordRequest -> ReplyError * string;
  hasGetPassword : bool;
}.

(** The default implementations, from getPassword. *)
Section DefaultChecker.
Context `{Crypto}.
Variable getPassword : PasswordRequest -> ReplyError * string.
Definition default_checkPassword (r : PasswordRequest) : ReplyError :=
  let '(error, secret) := getPassword r in
  if decide (error = NoError) then if decide (rq_password r <> secret) then AuthorizationError else NoError
  else error.
Definition default_getDigest (r : PasswordRequest) : ReplyError * string :=
  let '(error, secret) := getPassword r in
  if decide (error = NoError)
  then (NoError, hash QMd5 (rq_username r +:+ ":" +:+ rq_domain r +:+ ":" +:+ secret)) else (error, "").
End DefaultChecker.

Section Incoming.
Context `{QtTypes} `{Crypto} `{PasswordChecker}.
(** [generateStanzaHash length], by the number of calls before it. *)
Variable stanzaHash : Z -> nat -> string.
Variable newNonce : nat -> string.

(** ** State *)

Inductive SaslVersion := SaslV1 | SaslV2.

(** A reply that has not come yet: of checkPassword, or of getDigest with the
    response it will verify. *)
Inductive PendingReply := PasswordReply (r : PasswordRequest) | DigestReply (r : PasswordRequest) (raw : string).

Inductive StreamFeatures := {
  tlsEnabled : bool; bindRequired : bool; sessionEnabled : bool; authMechanisms : list string;
  sasl2Feature : option Sasl2.StreamFeature }.

Inductive Output :=
  | OutOpen (o : StreamOpen) | OutElement (i : Item) | OutFeatures (f : StreamFeatures)
  | OutHostUnknown (host : string) | OutClose | StartTls
  | SigConnected | SigElement (el : Dom) | SigDisconnected.

Record IncomingClient := {
  accepting : bool;                              (* XmppSocket::m_acceptInput *)
  socketConnected : bool;
  encrypted : bool; hasCertificate : bool;       (* the QSslSocket *)
  idleInterval : Z; idleRunning : bool;
  domain : string; jid : string; ic_resource : string;
  hasChecker : bool;
  saslServer : option (ServerBase * SaslServer);
  saslVersion : SaslVersion;
  sasl2AuthRequest : option Sasl2.Authenticate;
  replies : list PendingReply;
  draws : nat;                                   (* random values drawn *)
  outputs : list Output;
}.
#[export] Instance IncomingClient_eta : Eta IncomingClient := fun r =>
  {| accepting := accepting r; socketConnected := socketConnected r; encrypted := encrypted r;
     hasCertificate := hasCertificate r; idleInterval := idleInterval r; idleRunning := idleRunning r;
     domain := domain r; jid := jid r; ic_resource := ic_resource r; hasChecker := hasChecker r;
     saslServer := saslServer r; saslVersion := saslVersion r; sasl2AuthRequest := sasl2AuthRequest r;
     replies := replies r; draws := draws r; outputs := outputs r |}.

Definition out (o : Output) (c : IncomingClient) : IncomingClient :=
  c <| outputs ::= (fun l => l ++ [o]) |>.
(** sendData, which writes to a connected socket. *)
Definition sendOut (o : Output) (c : IncomingClient) : IncomingClient :=
  if socketConnected c then out o c else c.
Definition sendElement {T} `{XmlElement T} (t : T) (c : IncomingClient) : IncomingClient :=
  sendOut (OutElement (toXml t)) c.
Definition closeStream (c : IncomingClient) : IncomingClient :=
  (sendOut OutClose c) <| socketConnected := false |> <| accepting := false |>.
Definition setInactivityTimeout (secs : Z) (c : IncomingClient) : IncomingClient :=
  c <| idleInterval := i32 (secs * 1000) |> <| idleRunning := negb (i32 (secs * 1000) =? 0) |>.
Definition restartIdleTimer (c : IncomingClient) : IncomingClient :=
  if negb (idleInterval c =? 0) then c <| idleRunning := true |> else c.

Definition server_mechanism (s : SaslServer) : string :=
  match s with ServerAnonymous _ => "ANONYMOUS" | ServerDigestMd5 _ => "DIGEST-MD5" | ServerPlain _ => "PLAIN" end.

(** The virtual respond of a server, with the challenge it sets. *)
Definition server_respond (b : ServerBase) (s : SaslServer) (request : string) :
    ServerResponse * string * (ServerBase * SaslServer) :=
  match s with
  | ServerAnonymous n =>
      let '(r, c, n) := anonymous_server_respond n in (r, default "" c, (b, ServerAnonymous n))
  | ServerDigestMd5 d =>
      let '(r, c, b, d) := digest_server_respond b d request in (r, default "" c, (b, ServerDigestMd5 d))
  | ServerPlain n =>
      let '(r, c, b, n) := plain_server_respond b n request in (r, default "" c, (b, ServerPlain n))
  end.

(** ** Authentication *)

Definition checkCredentials (b : ServerBase) (s : SaslServer) (response : string) (c : IncomingClient) :
    IncomingClient :=
  let request p := {| rq_domain := domain c; rq_username := s_username b; rq_password := p |} in
  let ask r := c <| replies ::= (fun l => l ++ [r]) |> in
  match s with
  | ServerPlain _ => ask (PasswordReply (request (s_password b)))
  | ServerDigestMd5 _ => ask (DigestReply (request "") response)
  | ServerAnonymous _ => c
  end.

Definition sendStreamFeatures (c : IncomingClient) : IncomingClient :=
  let tls := negb (encrypted c) && hasCertificate c in
  let mechanisms := "PLAIN" :: (if hasGetPassword then ["DIGEST-MD5"] else []) in
  let f :=
    if negb (bool_decide (jid c = "")) then
      {| tlsEnabled := tls; bindRequired := bool_decide (ic_resource c = ""); sessionEnabled := true;
         authMechanisms := []; sasl2Feature := None |}
    else if hasChecker c then
      {| tlsEnabled := tls; bindRequired := false; sessionEnabled := false; authMechanisms := mechanisms;
         sasl2Feature := Some {| Sasl2.sf_mechanisms := mechanisms;
           Sasl2.bind2Feature := if decide (ic_resource c = "") then Some {| features := [] |} else None;
           Sasl2.sf_fast := None; Sasl2.streamResumptionAvailable := false |} |}
    else {| tlsEnabled := tls; bindRequired := false; sessionEnabled := false; authMechanisms := [];
            sasl2Feature := None |} in
  sendOut (OutFeatures f) c.

Definition sasl1Failure (condition : option ErrorCondition) (c : IncomingClient) : IncomingClient :=
  sendElement {| Sasl.condition := condition; Sasl.failure_text := "" |} c.
Definition sasl2Failure (condition : ErrorCondition) (c : IncomingClient) : IncomingClient :=
  sendElement {| Sasl2.condition := condition; Sasl2.failure_text := "" |} c.

Definition success2 (jid : string) (bound : option Bind2Bound) : Sasl2.Success :=
  {| Sasl2.additionalData := None; Sasl2.authorizationIdentifier := jid; Sasl2.bound := bound;
     Sasl2.smResumed := None; Sasl2.smFailed := None; Sasl2.su_token := None |}.

Definition onSasl2Authenticated (c : IncomingClient) : option IncomingClient :=
  request ← sasl2AuthRequest c;
  let c :=
    match Sasl2.bindRequest request with
    | Some bind =>
        let suffix := stanzaHash 8 (draws c) in
        let resource := if decide (b2_tag bind = "") then suffix else b2_tag bind +:+ "." +:+ suffix in
        let c := c <| draws ::= S |> <| ic_resource := resource |>
                   <| jid := Jid.jidToBareJid (jid c) +:+ "/" +:+ resource |> in
        out SigConnected (sendElement (success2 (jid c) (Some {| b2_smFailed := None; b2_smEnabled := None |})) c)
    | None => sendElement (success2 (jid c) None) c
    end in
  Some (sendStreamFeatures (c <| sasl2AuthRequest := None |>)).

Definition authenticated_jid (b : ServerBase) (c : IncomingClient) : string :=
  s_username b +:+ "@" +:+ domain c.

(** The elements of SASL 2. *)
Definition handleSasl2 (el : Dom) (c : IncomingClient) : option IncomingClient :=
  if negb (hasChecker c) then Some (closeStream (sasl2Failure TemporaryAuthFailure c))
  else
    match fromDom (T := Sasl2.Authenticate) el with
    | Some auth =>
        let c := c <| saslVersion := SaslV2 |> <| sasl2AuthRequest := Some auth |> in
        match createServer (newNonce (draws c)) (Sasl2.mechanism auth) with
        | None => Some (closeStream (sasl2Failure InvalidMechanism (c <| saslServer := None |>)))
        | Some s =>
            let b := {| s_username := ""; s_password := ""; passwordDigest := ""; s_realm := domain c |} in
            let '(result, challenge, (b, s)) := server_respond b s (Sasl2.initialResponse auth) in
            let c := c <| saslServer := Some (b, s) |> <| draws ::= S |> in
            match result with
            | InputNeeded => Some (checkCredentials b s (Sasl2.initialResponse auth) c)
            | Challenge => Some (sendElement {| Sasl2.challenge_data := challenge |} c)
            | _ => Some (closeStream (sasl2Failure NotAuthorized (c <| sasl2AuthRequest := None |>)))
            end
        end
    | None =>
    match fromDom (T := Sasl2.Response) el with
    | Some response =>
        match saslServer c with
        | None => Some (closeStream (sasl2Failure Aborted c))
        | Some (b, s) =>
            let '(result, challenge, (b, s)) := server_respond b s (Sasl2.response_data response) in
            let c := c <| saslServer := Some (b, s) |> in
            match result with
            | InputNeeded => Some (checkCredentials b s (Sasl2.response_data response) c)
            | Succeeded => onSasl2Authenticated (c <| jid := authenticated_jid b c |>)
            | _ => Some (closeStream (sasl2Failure NotAuthorized (c <| sasl2AuthRequest := None |>)))
            end
        end
    | None =>
    match fromDom (T := Sasl2.Abort) el with
    | Some _ => Some (sasl2Failure Aborted (c <| sasl2AuthRequest := None |>))
    | None => Some c
    end end end.

(** The elements of SASL. *)
Definition handleSasl (el : Dom) (c : IncomingClient) : option IncomingClient :=
  if negb (hasChecker c) then Some (closeStream (sasl1Failure (Some TemporaryAuthFailure) c))
  else
    match fromDom (T := Sasl.Auth) el with
    | Some auth =>
        let c := c <| saslVersion := SaslV1 |> <| sasl2AuthRequest := None |> in
        match createServer (newNonce (draws c)) (Sasl.auth_mechanism auth) with
        | None => Some (closeStream (sasl1Failure (Some InvalidMechanism) (c <| saslServer := None |>)))
        | Some s =>
            let b := {| s_username := ""; s_password := ""; passwordDigest := ""; s_realm := domain c |} in
            let '(result, challenge, (b, s)) := server_respond b s (Sasl.auth_value auth) in
            let c := c <| saslServer := Some (b, s) |> <| draws ::= S |> in
            match result with
            | InputNeeded => Some (checkCredentials b s (Sasl.auth_value auth) c)
            | Challenge => Some (sendElement {| Sasl.challenge_value := challenge |} c)
            | _ => Some (closeStream (sasl1Failure None c))
            end
        end
    | None =>
    match fromDom (T := Sasl.Response) el with
    | Some response =>
        match saslServer c with
        | None => Some (closeStream (sasl1Failure None c))
        | Some (b, s) =>
            let '(result, challenge, (b, s)) := server_respond b s (Sasl.response_value response) in
            let c := c <| saslServer := Some (b, s) |> in
            match result with
            | InputNeeded => Some (checkCredentials b s (Sasl.response_value response) c)
            | Succeeded => Some (sendElement Sasl.Build_Success (c <| jid := authenticated_jid b c |>))
            | _ => Some (closeStream (sasl1Failure None c))
            end
        end
    | None => Some c
    end end.

(** ** Stanzas *)

(** SetIq<BindElement>::fromDom: the id and the payload. *)
Definition bindSet_fromDom (el : Dom) : option (string * BindElement) :=
  if bool_decide (tagName el = "iq") && hasAttribute el "id" && bool_decide (attribute el "type" = "set")
  then payload ← parseOptionalElement BindElement (firstChildElement el "" "");
       Some (attribute el "id", payload)
  else None.
(** ResultIq<BindElement>::toXml, the bare result of the session request. *)
Definition bindResult_toXml (id jid : string) : Item :=
  ElementN "iq" [Attribute "id" id; Attribute "type" "result";
                 Child {| be_jid := jid; be_resource := "" |}].
Definition sessionResult_toXml (id to : string) : Item :=
  ElementN "iq" [OptionalAttribute "id" id; OptionalAttribute "to" to; Attribute "type" "result"].

Definition set_attribute (n v : string) (el : Dom) : Dom :=
  match el with Elem t ns a c => Elem t ns (setAttribute n v a) c | Text s => Text s end.

(** The resource a client asked for or a random one. *)
Definition bind (id : string) (b : BindElement) (c : IncomingClient) : IncomingClient :=
  let asked := trimmed (be_resource b) in
  let resource := if decide (asked = "") then stanzaHash 36 (draws c) else asked in
  let c := c <| draws ::= S |> <| ic_resource := resource |>
             <| jid := Jid.jidToBareJid (jid c) +:+ "/" +:+ resource |> in
  out SigConnected (sendOut (OutElement (bindResult_toXml id (jid c))) c).

(** A stanza that is not answered here is passed on with its sender and receiver filled in. *)
Definition relay (el : Dom) (c : IncomingClient) : IncomingClient :=
  let from := attribute el "from" in
  if negb (bool_decide (from = "")) && negb (bool_decide (from = jid c))
     && negb (bool_decide (from = Jid.jidToBareJid (jid c)))
  then c
  else if bool_decide (tagName el = "iq") || bool_decide (tagName el = "message")
          || bool_decide (tagName el = "presence") then
    let full :=
      if decide (attribute el "from" = "") then
        if bool_decide (tagName el = "presence")
           && (bool_decide (attribute el "type" = "subscribe") || bool_decide (attribute el "type" = "subscribed"))
        then set_attribute "from" (Jid.jidToBareJid (jid c)) el
        else set_attribute "from" (jid c) el
      else el in
    let full := if decide (attribute full "to" = "") then set_attribute "to" (domain c) full else full in
    out (SigElement full) c
  else c.

Definition handleClientStanza (el : Dom) (c : IncomingClient) : IncomingClient :=
  if bool_decide (tagName el = "iq") then
    if isElement BindElement (firstChildElement el "" "") then
      match bindSet_fromDom el with
      | Some (id, b) => bind id b c
      | None => relay el c
      end
    else if bool_decide (iqPayloadXmlTag el = ("session", ns_session))
            && bool_decide (attribute el "type" = "set")
    then sendOut (OutElement (sessionResult_toXml (attribute el "id") (jid c))) c
    else relay el c
  else relay el c.

Definition handleStanza (el : Dom) (c : IncomingClient) : option IncomingClient :=
  let c := restartIdleTimer c in
  match fromDom (T := StarttlsRequest) el with
  | Some _ => Some (out StartTls (sendElement Build_StarttlsProceed c))
  | None =>
      let ns := namespaceURI el in
      if decide (ns = ns_sasl_2) then handleSasl2 el c
      else if decide (ns = ns_sasl) then handleSasl el c
      else if decide (ns = ns_client_stanza) then Some (handleClientStanza el c)
      else Some c
  end.

Definition handleStream (stream : StreamOpen) (c : IncomingClient) : IncomingClient :=
  let c := restartIdleTimer c <| saslServer := None |> in
  let c := sendOut (OutOpen {| so_to := so_from stream; so_from := domain c;
             so_id := stanzaHash 36 (draws c); so_version := "1.0"; so_xmlns := ns_client_stanza |}) c in
  let c := c <| draws ::= S |> in
  if decide (so_to stream <> domain c) then closeStream (sendOut (OutHostUnknown (so_to stream)) c)
  else sendStreamFeatures c.

(** ** Replies of the password checker *)

Definition failed (condition : ErrorCondition) (c : IncomingClient) : IncomingClient :=
  closeStream match saslVersion c with
              | SaslV1 => sasl1Failure (Some condition) c
              | SaslV2 => sasl2Failure condition (c <| sasl2AuthRequest := None |>)
              end.

Definition onDigestReply (error : ReplyError) (digest raw : string) (c : IncomingClient) :
    option IncomingClient :=
  '(b, s) ← saslServer c;
  if decide (error = TemporaryError) then Some (failed TemporaryAuthFailure c)
  else
    let '(result, challenge, (b, s)) := server_respond (b <| passwordDigest := digest |>) s raw in
    let c := c <| saslServer := Some (b, s) |> in
    match result with
    | Challenge =>
        Some match saslVersion c with
             | SaslV1 => sendElement {| Sasl.challenge_value := challenge |} c
             | SaslV2 => sendElement {| Sasl2.challenge_data := challenge |} c
             end
    | _ => Some (failed NotAuthorized c)
    end.

Definition onPasswordReply (error : ReplyError) (c : IncomingClient) : option IncomingClient :=
  '(b, s) ← saslServer c;
  match error with
  | NoError =>
      let c := c <| jid := authenticated_jid b c |> in
      match saslVersion c with
      | SaslV1 => Some (sendElement Sasl.Build_Success c)
      | SaslV2 => onSasl2Authenticated c
      end
  | AuthorizationError => Some (failed NotAuthorized c)
  | TemporaryError => Some (failed TemporaryAuthFailure c)
  end.

(** ** Events *)

Inductive IncomingEvent :=
  | EvStream (o : StreamOpen) | EvStanza (el : Dom) | EvStreamClosed
  | EvReply (i : nat)                            (* one of the outstanding replies is finished *)
  | EvTimeout | EvDisconnected.

Definition incoming_step (e : IncomingEvent) (c : IncomingClient) : option IncomingClient :=
  match e with
  | EvStream o => if accepting c then Some (handleStream o c) else Some c
  | EvStanza el => if accepting c then handleStanza el c else Some c
  | EvStreamClosed => if accepting c then Some (closeStream c) else Some c
  | EvReply i =>
      match replies c !! i with
      | None => Some c
      | Some r =>
          let c := c <| replies ::= delete i |> in
          match r with
          | PasswordReply r => onPasswordReply (checkPassword r) c
          | DigestReply r raw => let '(error, digest) := getDigest r in onDigestReply error digest raw c
          end
      end
  | EvTimeout => if idleRunning c then Some (closeStream (c <| idleRunning := false |>)) else Some c
  | EvDisconnected => Some (out SigDisconnected (c <| socketConnected := false |>))
  end.

Fixpoint incoming_run (es : list IncomingEvent) (c : IncomingClient) : option IncomingClient :=
  match es with
  | [] => Some c
  | e :: es => c ← incoming_step e c; incoming_run es c
  end.

Definition isConnected (c : IncomingClient) : bool :=
  socketConnected c && negb (bool_decide (jid c = "")) && negb (bool_decide (ic_resource c = "")).

Definition newIncomingClient (dom : string) (checker certificate : bool) : IncomingClient :=
  {| accepting := true; socketConnected := true; encrypted := false; hasCertificate := certificate;
     idleInterval := 0; idleRunning := false; domain := dom; jid := ""; ic_resource := "";
     hasChecker := checker; saslServer := None; saslVersion := SaslV1; sasl2AuthRequest := None;
     replies := []; draws := 0; outputs := [] |}.
End Incoming.

(** ** Properties *)

Section Theory.
Context `{QtTypes} `{Crypto} `{PasswordChecker}.
Variable stanzaHash : Z -> nat -> string.
Variable newNonce : nat -> string.

Notation incoming_step := (incoming_step stanzaHash newNonce).
Notation incoming_run := (incoming_run stanzaHash newNonce).
Notation handleSasl := (handleSasl newNonce).
Notation handleSasl2 := (handleSasl2 stanzaHash newNonce).
Notation onSasl2Authenticated := (onSasl2Authenticated stanzaHash).

#[local] Arguments fromDom : simpl never.
#[local] Arguments toXml : simpl never.
#[local] Arguments calculateDigest : simpl never.
#[local] Arguments parseMessage : simpl never.
#[local] Arguments serializeMessage : simpl never.

(** *** What a check vouches for *)

(** A response that proves the knowledge of the digest to a server's nonce. *)
Definition verifies (digest raw : string) (s : DigestServer) : Prop :=
  let input := default [] (parseMessage raw) in
  bm_get "response" input =
  calculateDigest "AUTHENTICATE" (bm_get "digest-uri" input) digest (ds_nonce s)
    (bm_get "cnonce" input) (bm_get "nc" input).
#[local] Instance verifies_dec digest raw s : Decision (verifies digest raw s).
Proof. unfold verifies. apply _. Defined.

(** The user an event vouches for: the one of the request whose reply it is, if the checker
    accepts the password, or has a digest that the response of that request proves. *)
Definition vouches (e : IncomingEvent) (c : IncomingClient) : list string :=
  match e with
  | EvReply i =>
      match replies c !! i, saslServer c with
      | Some (PasswordReply r), _ => if decide (checkPassword r = NoError) then [rq_username r] else []
      | Some (DigestReply r raw), Some (_, ServerDigestMd5 s) =>
          let '(error, digest) := getDigest r in
          if decide (error <> TemporaryError /\ digest <> "" /\ verifies digest raw s)
          then [rq_username r] else []
      | _, _ => []
      end
  | _ => []
  end.

(** A client that waits for the reply before it authenticates again or restarts the stream. *)
Definition patient (e : IncomingEvent) (c : IncomingClient) : Prop :=
  match e with
  | EvStanza el => replies c = [] \/ (namespaceURI el <> ns_sasl /\ namespaceURI el <> ns_sasl_2)
  | EvStream _ => replies c = []
  | _ => True
  end.

Fixpoint vouched (es : list IncomingEvent) (c : IncomingClient) : list string :=
  match es with
  | [] => []
  | e :: es => vouches e c ++ match incoming_step e c with Some c => vouched es c | None => [] end
  end.
Fixpoint patient_run (es : list IncomingEvent) (c : IncomingClient) : Prop :=
  match es with
  | [] => True
  | e :: es => patient e c /\ match incoming_step e c with Some c => patient_run es c | None => True end
  end.

(** The address of a vouched user, with or without a resource; before any authentication an
    address without a user. *)
Definition owned (users : list string) (dom j : string) : Prop :=
  j = "" \/ (exists r, j = "/" +:+ r) \/
  exists u, u ∈ users /\
    (j = u +:+ "@" +:+ dom \/ exists r, j = Jid.jidToBareJid (u +:+ "@" +:+ dom) +:+ "/" +:+ r).

Lemma owned_more users users' dom j : owned users dom j -> users ⊆ users' -> owned users' dom j.
Proof. unfold owned. set_solver. Qed.
Lemma owned_bind users dom j r : owned users dom j -> owned users dom (Jid.jidToBareJid j +:+ "/" +:+ r).
Proof.
  intros [->|[[t ->]|(u & Hu & [->|[t ->]])]]; unfold owned.
  - right. left. by exists r.
  - right. left. exists r. change ("/" +:+ t) with ("" +:+ String "/" t).
    by rewrite Jid.bare_of_resource.
  - right. right. exists u. split; [done|]. right. by exists r.
  - right. right. exists u. split; [done|]. right. exists r.
    change ("/" +:+ t) with (String "/" t). rewrite Jid.bare_of_resource; [done|]. apply Jid.bare_no_slash.
Qed.

(** *** The invariant *)

(** A server object that waits for the client. *)
Definition server_ok (users : list string) (b : ServerBase) (s : SaslServer) : Prop :=
  match s with
  | ServerAnonymous n => n <> 0
  | ServerPlain _ => True
  | ServerDigestMd5 d =>
      (ds_step d <> 2 /\ s_password b = "" /\ passwordDigest b = "") \/
      (ds_step d = 2 /\ s_username b ∈ users) \/ 2 < ds_step d
  end.
(** A server object that waits for the checker. *)
Definition waits_for (c : IncomingClient) (p : PendingReply) : Prop :=
  match p, saslServer c with
  | PasswordReply r, Some (b, ServerPlain _) => s_username b = rq_username r
  | DigestReply r raw, Some (b, ServerDigestMd5 d) =>
      ds_step d = 1 /\ s_password b = "" /\
      bm_get "qop" (default [] (parseMessage raw)) = "auth" /\
      bm_get "username" (default [] (parseMessage raw)) = rq_username r
  | _, _ => False
  end.
Definition auth_ok (dom : string) (users : list string) (c : IncomingClient) : Prop :=
  domain c = dom /\ owned users dom (jid c) /\
  match replies c with
  | [] => accepting c = true -> match saslServer c with Some (b, s) => server_ok users b s | None => True end
  | [p] => waits_for c p
  | _ => False
  end.

(** *** One step *)

(** What an answer of a server object leaves behind. *)
Lemma server_respond_ok users b s req r ch b' s' :
  server_ok users b s -> server_respond b s req = (r, ch, (b', s')) ->
  match r with
  | InputNeeded =>
      match s' with
      | ServerPlain _ => True
      | ServerDigestMd5 d =>
          ds_step d = 1 /\ s_password b' = "" /\
          bm_get "qop" (default [] (parseMessage req)) = "auth" /\
          bm_get "username" (default [] (parseMessage req)) = s_username b'
      | ServerAnonymous _ => False
      end
  | Succeeded => s_username b' ∈ users /\ server_ok users b' s'
  | Challenge => server_ok users b' s'
  | Failed => True
  end.
Proof.
  intros Hs Hr. destruct s as [n|d|n]; simpl in Hs, Hr.
  - unfold anonymous_server_respond in Hr. destruct (Z.eqb_spec n 0); [done|].
    by injection Hr as <- <- <- <-.
  - unfold digest_server_respond in Hr. set (input := default [] (parseMessage req)) in *.
    destruct (Z.eqb_spec (ds_step d) 0) as [E0|N0].
    { injection Hr as <- <- <- <-. simpl. left. destruct Hs as [(?&?&?)|[[? ?]|?]]; [|lia|lia].
      rewrite E0. by split_and!. }
    destruct (Z.eqb_spec (ds_step d) 1) as [E1|N1].
    { destruct Hs as [(_ & Hp & Hd)|[[? ?]|?]]; [|lia|lia].
      destruct (decide (bm_get "qop" input <> "auth")) as [Hq|Hq]; [by injection Hr as <- <- <- <-|].
      apply dec_stable in Hq. rewrite decide_True in Hr by by split.
      injection Hr as <- <- <- <-. by split_and!. }
    destruct (Z.eqb_spec (ds_step d) 2) as [E2|N2].
    { injection Hr as <- <- <- <-. simpl. destruct Hs as [(?&?&?)|[[? ?]|?]]; [done| |lia].
      split; [done|]. right. right. rewrite E2. lia. }
    by injection Hr as <- <- <- <-.
  - unfold plain_server_respond in Hr. destruct (Z.eqb_spec n 0); [|by injection Hr as <- <- <- <-].
    destruct (decide (req = "")); [by injection Hr as <- <- <- <-|].
    destruct (split NUL req) as [|? [|? [|? [|? ?]]]]; by injection Hr as <- <- <- <-.
Qed.

(** The parts of the state the invariant speaks of. *)
Definition same (c c' : IncomingClient) : Prop :=
  domain c' = domain c /\ jid c' = jid c /\ replies c' = replies c /\ saslServer c' = saslServer c.

Lemma auth_ok_same dom users c c' : auth_ok dom users c -> same c c' ->
  (accepting c' = true -> accepting c = true) -> auth_ok dom users c'.
Proof.
  intros (Hd & Ho & Hr) (Ed & Ej & Er & Es) Ha. unfold auth_ok. rewrite Ed, Ej, Er.
  split_and!; [done|done|]. destruct (replies c) as [|p [|]]; [rewrite Es; tauto| |done].
  unfold waits_for in *. by rewrite Es.
Qed.
Lemma auth_ok_closed dom users c : domain c = dom -> owned users dom (jid c) -> replies c = [] ->
  auth_ok dom users (closeStream c).
Proof.
  intros Hd Ho Hr. unfold closeStream, sendOut.
  destruct (socketConnected c); unfold auth_ok; simpl; rewrite Hr; by split_and!.
Qed.
Lemma same_sendOut o c : same c (sendOut o c) /\ accepting (sendOut o c) = accepting c.
Proof. unfold sendOut. by destruct (socketConnected c). Qed.
Lemma closed_after dom users (f : IncomingClient -> IncomingClient) c :
  (forall c, same c (f c)) -> domain c = dom -> owned users dom (jid c) -> replies c = [] ->
  auth_ok dom users (closeStream (f c)).
Proof.
  intros Hf Hd Ho Hr. destruct (Hf c) as (Ed & Ej & Er & _). apply auth_ok_closed; congruence.
Qed.
Lemma same_refl c : same c c.
Proof. by split_and!. Qed.
Lemma same_trans c1 c2 c3 : same c1 c2 -> same c2 c3 -> same c1 c3.
Proof. unfold same. intros (?&?&?&?) (?&?&?&?). split_and!; congruence. Qed.
Lemma same_element {T} `{XmlElement T} (t : T) c : same c (sendElement t c).
Proof. apply same_sendOut. Qed.

Lemma element_ok {T} `{XmlElement T} dom users (t : T) c : auth_ok dom users c -> auth_ok dom users (sendElement t c).
Proof.
  intros Hok. eapply auth_ok_same; [exact Hok|apply same_element|]. unfold sendElement.
  by rewrite (proj2 (same_sendOut _ _)).
Qed.

Ltac close_ok := apply closed_after; try done; try (intros; apply same_element).

(** Authentication by a vouched user. *)
Lemma auth_ok_jid dom users c b : auth_ok dom users c -> s_username b ∈ users ->
  auth_ok dom users (c <| jid := authenticated_jid b c |>).
Proof.
  intros (Hd & Ho & Hr) Hu. unfold auth_ok. simpl. split_and!; [done| |exact Hr].
  right. right. exists (s_username b). split; [done|]. left. unfold authenticated_jid. by rewrite Hd.
Qed.
Lemma same_features c : same c (sendStreamFeatures c) /\ accepting (sendStreamFeatures c) = accepting c.
Proof. apply same_sendOut. Qed.

Lemma authenticated2_ok dom users c c' : auth_ok dom users c -> onSasl2Authenticated c = Some c' ->
  auth_ok dom users c'.
Proof.
  intros Ha Hc. unfold IncomingClient.onSasl2Authenticated in Hc.
  destruct (sasl2AuthRequest c) as [request|]; [|done]. injection Hc as <-.
  eapply auth_ok_same; [|apply same_features|by rewrite (proj2 (same_features _))].
  destruct (Sasl2.bindRequest request) as [bind|]; simpl.
  - set (r := if decide _ then _ else _).
    set (c1 := c <| draws ::= S |> <| ic_resource := r |> <| jid := Jid.jidToBareJid (jid c) +:+ "/" +:+ r |>).
    assert (auth_ok dom users c1) as Hc1.
    { destruct Ha as (? & ? & ?). split_and!; try done. by apply owned_bind. }
    eapply auth_ok_same; [exact Hc1| |].
    + unfold sendElement, sendOut. by destruct (socketConnected _).
    + unfold sendElement, sendOut. by destruct (socketConnected _).
  - eapply auth_ok_same; [exact Ha| |]; unfold sendElement, sendOut; by destruct (socketConnected _).
Qed.

(** A request to the checker, after the server object was set. *)
Lemma auth_ok_ask dom users c b s req :
  domain c = dom -> owned users dom (jid c) -> replies c = [] -> saslServer c = Some (b, s) ->
  match s with
  | ServerPlain _ => True
  | ServerDigestMd5 d =>
      ds_step d = 1 /\ s_password b = "" /\
      bm_get "qop" (default [] (parseMessage req)) = "auth" /\
      bm_get "username" (default [] (parseMessage req)) = s_username b
  | ServerAnonymous _ => False
  end -> auth_ok dom users (checkCredentials b s req c).
Proof.
  intros Hd Ho Hr Hs Hok. destruct s as [n|d|n]; [done| |]; unfold auth_ok, checkCredentials; simpl;
    rewrite Hr; simpl; split_and!; try done; unfold waits_for; simpl; by rewrite Hs.
Qed.

(** What both versions do with the answer of a server object. *)
Lemma answer_ok dom users b s req r ch b' s' (c1 : IncomingClient) :
  server_ok users b s -> server_respond b s req = (r, ch, (b', s')) ->
  domain c1 = dom -> owned users dom (jid c1) -> replies c1 = [] -> saslServer c1 = Some (b', s') ->
  (r = InputNeeded -> auth_ok dom users (checkCredentials b' s' req c1)) /\
  (r = Challenge -> auth_ok dom users c1) /\
  (r = Succeeded -> auth_ok dom users c1 /\ s_username b' ∈ users).
Proof.
  intros Hs Hr Hd Ho Hq Hsv. pose proof (server_respond_ok _ _ _ _ _ _ _ _ Hs Hr) as Hok.
  assert (server_ok users b' s' -> auth_ok dom users c1) as Hc.
  { intros Hso. unfold auth_ok. rewrite Hq, Hsv. by split_and!. }
  split_and!; intros ->; [by apply auth_ok_ask|auto|naive_solver].
Qed.

Lemma createServer_ok users nonce m s dom :
  createServer nonce m = Some s ->
  server_ok users {| s_username := ""; s_password := ""; passwordDigest := ""; s_realm := dom |} s \/
  s = ServerAnonymous 0.
Proof.
  unfold createServer. repeat case_decide; intros [= <-]; simpl; auto; left; left; by split_and!.
Qed.

(** A new server object and its first answer. *)
Lemma sasl_start_ok dom users nonce m s req r ch b' s' (c1 : IncomingClient) :
  createServer nonce m = Some s ->
  server_respond {| s_username := ""; s_password := ""; passwordDigest := ""; s_realm := dom |} s req =
    (r, ch, (b', s')) ->
  domain c1 = dom -> owned users dom (jid c1) -> replies c1 = [] -> saslServer c1 = Some (b', s') ->
  (r = InputNeeded -> auth_ok dom users (checkCredentials b' s' req c1)) /\
  (r = Challenge -> auth_ok dom users c1).
Proof.
  intros Hc Hr Hd Ho Hq Hsv.
  destruct (createServer_ok users nonce m s dom Hc) as [Hs| ->].
  - destruct (answer_ok dom users _ _ _ _ _ _ _ c1 Hs Hr Hd Ho Hq Hsv) as (? & ? & _). auto.
  - simpl in Hr. injection Hr as <- <- <- <-. split; discriminate.
Qed.

Lemma handleSasl_ok dom users el c c' : auth_ok dom users c -> replies c = [] -> accepting c = true ->
  handleSasl el c = Some c' -> auth_ok dom users c'.
Proof.
  intros Hok Hq Ha Hc. pose proof Hok as (Hd & Ho & Hsv). rewrite Hq in Hsv. specialize (Hsv Ha). subst dom.
  unfold IncomingClient.handleSasl in Hc. destruct (hasChecker c); simpl in Hc.
  2:{ injection Hc as <-. close_ok. }
  destruct (fromDom (T := Sasl.Auth) el) as [auth|].
  - destruct (createServer _ _) as [s|] eqn:Hcr.
    2:{ injection Hc as <-. close_ok. }
    destruct (server_respond _ s _) as [[r ch] [b' s']] eqn:Hresp.
    match type of Hc with context [checkCredentials _ _ _ ?x] => set (c1 := x) in Hc end.
    destruct (sasl_start_ok (domain c) users _ _ _ _ _ _ _ _ c1 Hcr Hresp eq_refl Ho Hq eq_refl) as [Hi Hch].
    destruct r; injection Hc as <-; auto; try (close_ok).
    eapply auth_ok_same; [by apply Hch|apply same_element|]. unfold sendElement.
    by rewrite (proj2 (same_sendOut _ _)).
  - destruct (fromDom (T := Sasl.Response) el) as [resp|]; [|by injection Hc as <-].
    destruct (saslServer c) as [[b s]|].
    2:{ injection Hc as <-. close_ok. }
    destruct (server_respond b s _) as [[r ch] [b' s']] eqn:Hresp.
    match type of Hc with context [checkCredentials _ _ _ ?x] => set (c1 := x) in Hc end.
    destruct (answer_ok (domain c) users _ _ _ _ _ _ _ c1 Hsv Hresp eq_refl Ho Hq eq_refl) as (Hi & Hch & Hsu).
    destruct r; injection Hc as <-; auto; try (close_ok).
    destruct Hsu as [Hsu Hu]; [done|].
    eapply auth_ok_same; [by apply (auth_ok_jid (domain c) users c1 b')|apply same_element|]. unfold sendElement.
    by rewrite (proj2 (same_sendOut _ _)).
Qed.

Lemma handleSasl2_ok dom users el c c' : auth_ok dom users c -> replies c = [] -> accepting c = true ->
  handleSasl2 el c = Some c' -> auth_ok dom users c'.
Proof.
  intros Hok Hq Ha Hc. pose proof Hok as (Hd & Ho & Hsv). rewrite Hq in Hsv. specialize (Hsv Ha). subst dom.
  unfold IncomingClient.handleSasl2 in Hc. destruct (hasChecker c); simpl in Hc.
  2:{ injection Hc as <-. close_ok. }
  destruct (fromDom (T := Sasl2.Authenticate) el) as [auth|].
  - destruct (createServer _ _) as [s|] eqn:Hcr.
    2:{ injection Hc as <-. close_ok. }
    destruct (server_respond _ s _) as [[r ch] [b' s']] eqn:Hresp.
    match type of Hc with context [checkCredentials _ _ _ ?x] => set (c1 := x) in Hc end.
    destruct (sasl_start_ok (domain c) users _ _ _ _ _ _ _ _ c1 Hcr Hresp eq_refl Ho Hq eq_refl) as [Hi Hch].
    destruct r; injection Hc as <-; auto; try (close_ok).
    eapply auth_ok_same; [by apply Hch|apply same_element|]. unfold sendElement.
    by rewrite (proj2 (same_sendOut _ _)).
  - destruct (fromDom (T := Sasl2.Response) el) as [resp|].
    + destruct (saslServer c) as [[b s]|].
      2:{ injection Hc as <-. close_ok. }
      destruct (server_respond b s _) as [[r ch] [b' s']] eqn:Hresp.
      match type of Hc with context [checkCredentials _ _ _ ?x] => set (c1 := x) in Hc end.
      destruct (answer_ok (domain c) users _ _ _ _ _ _ _ c1 Hsv Hresp eq_refl Ho Hq eq_refl) as (Hi & Hch & Hsu).
      destruct r; try (injection Hc as <-; auto; close_ok).
      destruct Hsu as [Hsu Hu]; [done|]. eapply authenticated2_ok; [|exact Hc].
      by apply (auth_ok_jid (domain c) users c1 b').
    + destruct (fromDom (T := Sasl2.Abort) el); injection Hc as <-; [|done].
      eapply auth_ok_same; [exact Hok|apply (same_trans c (c <| sasl2AuthRequest := None |>)); [by split_and!|apply same_element]|].
      unfold sasl2Failure, sendElement. by rewrite (proj2 (same_sendOut _ _)).
Qed.

Lemma handleClientStanza_ok dom users el c : auth_ok dom users c ->
  auth_ok dom users (handleClientStanza stanzaHash el c).
Proof.
  intros Hok.
  assert (auth_ok dom users (relay el c)) as Hrel.
  { unfold relay. repeat case_match; try done; (eapply auth_ok_same; [exact Hok|by split_and!|done]). }
  unfold handleClientStanza. destruct (bool_decide (tagName el = "iq")); [|done].
  destruct (isElement BindElement _).
  - destruct (bindSet_fromDom el) as [[id b]|]; [|done]. unfold bind.
    set (r := if decide _ then _ else _).
    set (c1 := c <| draws ::= S |> <| ic_resource := r |> <| jid := Jid.jidToBareJid (jid c) +:+ "/" +:+ r |>).
    assert (auth_ok dom users c1) as Hc1.
    { destruct Hok as (? & ? & ?). split_and!; try done. by apply owned_bind. }
    eapply auth_ok_same; [exact Hc1| |]; unfold sendOut; by destruct (socketConnected _).
  - case_match; [|done]. eapply auth_ok_same; [exact Hok|apply same_sendOut|].
    by rewrite (proj2 (same_sendOut _ _)).
Qed.

Lemma same_idle c : same c (restartIdleTimer c) /\ accepting (restartIdleTimer c) = accepting c.
Proof. unfold restartIdleTimer. by destruct (negb _). Qed.

Lemma handleStream_ok dom users o c : auth_ok dom users c -> replies c = [] ->
  auth_ok dom users (handleStream stanzaHash o c).
Proof.
  intros Hok Hq. unfold handleStream.
  set (c1 := (sendOut _ _) <| draws ::= S |>).
  assert (domain c1 = domain c /\ jid c1 = jid c /\ replies c1 = [] /\ saslServer c1 = None) as (Ed & Ej & Er & Es).
  { unfold c1. set (c0 := c <| saslServer := None |>).
    match goal with |- context [sendOut ?o ?x] =>
      destruct (same_trans _ _ _ (proj1 (same_idle c0)) (proj1 (same_sendOut o x))) as (E1 & E2 & E3 & E4) end.
    simpl. rewrite E1, E2, E3, E4. by split_and!. }
  destruct Hok as (Hd & Ho & _). case_decide.
  - apply auth_ok_closed; [|by rewrite (proj1 (proj2 (proj1 (same_sendOut _ _)))), Ej|].
    + by rewrite (proj1 (proj1 (same_sendOut _ _))), Ed.
    + by rewrite (proj1 (proj2 (proj2 (proj1 (same_sendOut _ _))))).
  - eapply auth_ok_same; [|apply same_features|by rewrite (proj2 (same_features _))].
    unfold auth_ok. rewrite Er, Es, Ej, Ed. by split_and!.
Qed.
Lemma server_ok_more users users' b s : server_ok users b s -> users ⊆ users' -> server_ok users' b s.
Proof. destruct s; simpl; set_solver. Qed.
Lemma auth_ok_more dom users users' c : auth_ok dom users c -> users ⊆ users' -> auth_ok dom users' c.
Proof.
  intros (Hd & Ho & Hr) Hu. split_and!; [done|by eapply owned_more|].
  destruct (replies c) as [|? [|]]; [|done|done]. intros Ha. specialize (Hr Ha).
  destruct (saslServer c) as [[b s]|]; [|done]. by eapply server_ok_more.
Qed.
Lemma close_any dom users c : auth_ok dom users c -> auth_ok dom users (closeStream c).
Proof.
  intros Hok. unfold closeStream. eapply auth_ok_same; [exact Hok| |done].
  destruct (same_sendOut OutClose c) as [(? & ? & ? & ?) _]. by split_and!.
Qed.
Lemma failed_ok dom users cond c : domain c = dom -> owned users dom (jid c) -> replies c = [] ->
  auth_ok dom users (failed cond c).
Proof.
  intros. unfold failed. destruct (saslVersion c); [close_ok|].
  apply (closed_after dom users (sasl2Failure cond)); try done. intros. apply same_element.
Qed.

#[local] Arguments server_respond : simpl never.

(** The digest of the checker completes the server object's second step. *)
Lemma digest_completed b d digest raw r ch b' s' :
  ds_step d = 1 -> s_password b = "" -> bm_get "qop" (default [] (parseMessage raw)) = "auth" ->
  server_respond (b <| passwordDigest := digest |>) (ServerDigestMd5 d) raw = (r, ch, (b', s')) ->
  match r with
  | Challenge =>
      digest <> "" /\ verifies digest raw d /\
      s_username b' = bm_get "username" (default [] (parseMessage raw)) /\
      exists d', s' = ServerDigestMd5 d' /\ ds_step d' = 2
  | Succeeded => False
  | _ => True
  end.
Proof.
  intros Hstep Hp Hq. unfold server_respond, digest_server_respond. cbv zeta. rewrite Hstep. simpl.
  rewrite Hq, Hp. simpl. case_decide as He; [by intros [= <- <- <- <-]|].
  case_decide as Hr; intros [= <- <- <- <-]; [done|]. simpl.
  split_and!; [naive_solver|exact Hr|done|]. eexists. split; [done|]. simpl. lia.
Qed.
Lemma onDigestReply_ok dom users c r raw c' : auth_ok dom users c -> replies c = [DigestReply r raw] ->
  onDigestReply (getDigest r).1 (getDigest r).2 raw (c <| replies := [] |>) = Some c' ->
  auth_ok dom (users ++ vouches (EvReply 0) c) c'.
Proof.
  intros (Hd & Ho & Hr) Hq Hc. rewrite Hq in Hr. unfold waits_for in Hr. unfold vouches. rewrite Hq. simpl.
  unfold onDigestReply in Hc. simpl in Hc.
  destruct (saslServer c) as [[b [?|d|?]]|]; try done. destruct Hr as (Hstep & Hp & Hqop & Hun).
  destruct (getDigest r) as [error digest]. simpl in Hc.
  set (us := users ++ _). assert (owned us dom (jid c)) as Ho' by (eapply owned_more; [exact Ho|set_solver]).
  case_decide as He; [injection Hc as <-; by apply failed_ok|].
  match type of Hc with context [server_respond ?x ?y ?z] =>
    destruct (server_respond x y z) as [[res ch] [b' s']] eqn:Hresp end.
  pose proof (digest_completed b d digest raw res ch b' s' Hstep Hp Hqop Hresp) as Hcompl. simpl in Hc.
  destruct res; try (injection Hc as <-; by apply failed_ok).
  destruct Hcompl as (Hne & Hv & Hu & d' & -> & Hd').
  set (c1 := c <| replies := [] |> <| saslServer := Some (b', ServerDigestMd5 d') |>).
  assert (auth_ok dom us c1) as Hok.
  { split_and!; [done|done|]. simpl. intros _. right. left. split; [done|]. rewrite Hu, Hun.
    unfold us. rewrite decide_True by done. set_solver. }
  repeat match type of Hc with context [sendElement _ ?x] => progress change x with c1 in Hc end.
  destruct (saslVersion c); injection Hc as <-; by apply element_ok.
Qed.
Lemma password_accepted_ok dom users c b s c' : auth_ok dom users c -> saslServer c = Some (b, s) ->
  s_username b ∈ users -> onPasswordReply stanzaHash NoError c = Some c' -> auth_ok dom users c'.
Proof.
  intros Hok Hs Hb Hc. unfold onPasswordReply in Hc. rewrite Hs in Hc. cbn [mbind option_bind] in Hc.
  apply (auth_ok_jid _ _ _ b) in Hok; [|done]. set (c1 := c <| jid := _ |>) in *. clearbody c1.
  destruct (saslVersion c1); [injection Hc as <-; by apply element_ok|exact (authenticated2_ok _ _ _ _ Hok Hc)].
Qed.
Lemma onPasswordReply_ok dom users c r c' : auth_ok dom users c -> replies c = [PasswordReply r] ->
  onPasswordReply stanzaHash (checkPassword r) (c <| replies := [] |>) = Some c' ->
  auth_ok dom (users ++ vouches (EvReply 0) c) c'.
Proof.
  intros (Hd & Ho & Hr) Hq Hc. rewrite Hq in Hr. unfold waits_for in Hr. unfold vouches. rewrite Hq. simpl.
  destruct (saslServer c) as [[b [?|?|n]]|] eqn:Hs; try done.
  set (us := users ++ _). assert (owned us dom (jid c)) as Ho' by (eapply owned_more; [exact Ho|set_solver]).
  destruct (checkPassword r) eqn:Hpw;
    try (unfold onPasswordReply in Hc; simpl in Hc; rewrite Hs in Hc; injection Hc as <-; by apply failed_ok).
  apply (password_accepted_ok dom us (c <| replies := [] |>) b (ServerPlain n)); [|exact Hs| |exact Hc].
  - split_and!; [done|done|]. simpl. by rewrite Hs.
  - rewrite Hr. unfold us. rewrite decide_True by done. set_solver.
Qed.

Lemma handleStanza_ok dom users el c c' : auth_ok dom users c -> accepting c = true ->
  patient (EvStanza el) c -> handleStanza stanzaHash newNonce el c = Some c' -> auth_ok dom users c'.
Proof.
  intros Hok Ha Hp Hc. unfold handleStanza in Hc.
  destruct (same_idle c) as [Hsame Hacc]. set (c0 := restartIdleTimer c) in *.
  assert (auth_ok dom users c0) as Hok0 by (eapply auth_ok_same; [exact Hok|exact Hsame|by rewrite Hacc]).
  assert (replies c0 = replies c) as Hq by apply Hsame.
  destruct (fromDom (T := StarttlsRequest) el).
  { injection Hc as <-. eapply auth_ok_same; [exact Hok0|apply same_element|].
    unfold sendElement. by rewrite <-(proj2 (same_sendOut (OutElement (toXml Build_StarttlsProceed)) c0)). }
  simpl in Hp.
  case_decide; [eapply handleSasl2_ok; [exact Hok0|destruct Hp as [? |[? ?]]; congruence|congruence|exact Hc]|].
  case_decide; [eapply handleSasl_ok; [exact Hok0|destruct Hp as [Hp|[? ?]]; [by rewrite Hq|done]|by rewrite Hacc|exact Hc]|].
  case_decide; injection Hc as <-; [by apply handleClientStanza_ok|done].
Qed.

Lemma incoming_step_ok dom users e c c' : auth_ok dom users c -> patient e c ->
  incoming_step e c = Some c' -> auth_ok dom (users ++ vouches e c) c'.
Proof.
  intros Hok Hp Hc. destruct e as [o|el| |i| |]; simpl in Hc;
    try (simpl vouches; rewrite app_nil_r).
  - destruct (accepting c); injection Hc as <-; [by apply handleStream_ok|done].
  - destruct (accepting c) eqn:Ha; [by eapply handleStanza_ok|by injection Hc as <-].
  - destruct (accepting c); injection Hc as <-; [by apply close_any|done].
  - destruct (replies c !! i) as [p|] eqn:Hi.
    2:{ injection Hc as <-. eapply auth_ok_more; [exact Hok|set_solver]. }
    assert (replies c = [p] /\ i = 0%nat) as [Hq ->].
    { destruct Hok as (_ & _ & Hr). destruct (replies c) as [|p' [|]]; [done| |done].
      destruct i; [by injection Hi as <-|done]. }
    replace (delete 0%nat (replies c)) with (@nil PendingReply) in Hc by by rewrite Hq.
    destruct p as [r|r raw].
    + by eapply onPasswordReply_ok.
    + destruct (getDigest r) as [error digest] eqn:Hg. eapply onDigestReply_ok; [done|done|]. by rewrite Hg.
  - destruct (idleRunning c); injection Hc as <-; [|done]. apply close_any.
    eapply auth_ok_same; [exact Hok|by split_and!|done].
  - injection Hc as <-. eapply auth_ok_same; [exact Hok|by split_and!|done].
Qed.
Lemma incoming_run_ok dom es : forall users c c', auth_ok dom users c -> patient_run es c ->
  incoming_run es c = Some c' -> auth_ok dom (users ++ vouched es c) c'.
Proof.
  induction es as [|e es IH]; simpl; intros users c c' Hok Hp Hc.
  - injection Hc as <-. by rewrite app_nil_r.
  - destruct Hp as [Hp Hps]. destruct (incoming_step e c) as [c1|] eqn:Hs; [|done]. simpl in Hc.
    rewrite app_assoc. eapply IH; [|done|done]. by eapply incoming_step_ok.
Qed.

(** *** The stanzas the server is given *)

Lemma attribute_set n v el : tagName el <> "" -> attribute (set_attribute n v el) n = v.
Proof.
  destruct el as [t ns a ch|s]; [|done]. intros _. unfold attribute. simpl.
  induction a as [|[m w] a IH]; simpl; [by rewrite decide_True|].
  case_decide; simpl; [by rewrite decide_True|]. by rewrite decide_False.
Qed.
Lemma attribute_set_other n m v el : n <> m -> attribute (set_attribute n v el) m = attribute el m.
Proof.
  destruct el as [t ns a ch|s]; [|done]. intros Hn. unfold attribute. simpl.
  induction a as [|[k w] a IH]; simpl; [by rewrite decide_False|].
  case_decide; subst; simpl; [by rewrite !decide_False by done|]. by case_decide.
Qed.

(** A stanza in the name of the client. *)
Definition from_client (c : IncomingClient) (el : Dom) : Prop :=
  (attribute el "from" = jid c \/ attribute el "from" = Jid.jidToBareJid (jid c)) /\
  (attribute el "to" = "" -> domain c = "").

(** A step that passes no stanza on. *)
Definition quiet (c c' : IncomingClient) : Prop :=
  exists new, outputs c' = outputs c ++ new /\ forall el, SigElement el ∉ new.

Lemma quiet_base c c' : outputs c' = outputs c -> quiet c c'.
Proof. intros E. exists []. rewrite app_nil_r. split; [done|]. intros el Hin. inversion Hin. Qed.
Lemma quiet_out c x o : (forall el, o <> SigElement el) -> quiet c x -> quiet c (out o x).
Proof.
  intros Ho (new & E & Hn). exists (new ++ [o]). unfold out. simpl. rewrite E, <-app_assoc. split; [done|].
  intros el. specialize (Hn el). specialize (Ho el). set_solver.
Qed.
Lemma quiet_sendOut c x o : (forall el, o <> SigElement el) -> quiet c x -> quiet c (sendOut o x).
Proof. intros Ho Hq. unfold sendOut. destruct (socketConnected x); [by apply quiet_out|done]. Qed.
Lemma quiet_update c x x' : quiet c x -> outputs x' = outputs x -> quiet c x'.
Proof. intros (new & ? & ?) E. exists new. by rewrite E. Qed.
Lemma quiet_element {T} `{XmlElement T} c x (t : T) : quiet c x -> quiet c (sendElement t x).
Proof. by apply quiet_sendOut. Qed.
Lemma quiet_close c x : quiet c x -> quiet c (closeStream x).
Proof. intros Hq. unfold closeStream. eapply quiet_update; [by apply (quiet_sendOut c x OutClose)|done]. Qed.
Lemma quiet_idle c : quiet c (restartIdleTimer c).
Proof. apply quiet_base. unfold restartIdleTimer. by destruct (negb _). Qed.
Lemma quiet_trans c1 c2 c3 : quiet c1 c2 -> quiet c2 c3 -> quiet c1 c3.
Proof.
  intros (n1 & E1 & H1') (n2 & E2 & H2'). exists (n1 ++ n2). rewrite E2, E1, app_assoc. split; [done|].
  set_solver.
Qed.

(** Goes down a state built by outputs and updates. *)
Ltac quiet :=
  repeat first
    [ apply quiet_close | apply quiet_element
    | apply quiet_out; [intros ?; discriminate|] | apply quiet_sendOut; [intros ?; discriminate|]
    | apply quiet_idle | apply quiet_base; reflexivity ].

Lemma quiet_features c x : quiet c x -> quiet c (sendStreamFeatures x).
Proof. by apply quiet_sendOut. Qed.
Lemma quiet_check b s req c x : quiet c x -> quiet c (checkCredentials b s req x).
Proof. by destruct s. Qed.
Lemma quiet_authenticated2 c x c' : quiet c x -> onSasl2Authenticated x = Some c' -> quiet c c'.
Proof.
  intros Hq Hc. unfold IncomingClient.onSasl2Authenticated in Hc.
  destruct (sasl2AuthRequest x) as [request|]; [|done]. injection Hc as <-. apply quiet_features.
  eapply quiet_update; [|reflexivity]. destruct (Sasl2.bindRequest request); [|by apply quiet_element].
  apply quiet_out; [done|]. apply quiet_element. eapply quiet_update; [exact Hq|reflexivity].
Qed.
Lemma quiet_failed cond c x : quiet c x -> quiet c (failed cond x).
Proof.
  intros Hq. unfold failed. apply quiet_close. destruct (saslVersion x); apply quiet_element; [done|].
  eapply quiet_update; [exact Hq|reflexivity].
Qed.
Lemma quiet_sasl el c c' : handleSasl el c = Some c' -> quiet c c'.
Proof.
  unfold IncomingClient.handleSasl. repeat case_match; intros [= <-]; try apply quiet_check; quiet.
Qed.
Lemma quiet_sasl2 el c c' : handleSasl2 el c = Some c' -> quiet c c'.
Proof.
  unfold IncomingClient.handleSasl2.
  repeat case_match; try (intros [= <-]; try apply quiet_check; by quiet).
  apply quiet_authenticated2. quiet.
Qed.
Lemma quiet_stream o c : quiet c (handleStream stanzaHash o c).
Proof.
  unfold handleStream. set (c0 := c <| saslServer := None |>).
  assert (forall o, quiet c ((sendOut (OutOpen o) (restartIdleTimer c0)) <| draws ::= S |>)) as Hq.
  { intros o'. apply (quiet_update c (sendOut (OutOpen o') (restartIdleTimer c0))); [|done].
    apply quiet_sendOut; [done|]. exact (quiet_idle c0). }
  case_decide; [apply quiet_close; apply quiet_sendOut; [done|]|apply quiet_features]; apply Hq.
Qed.
Lemma quiet_reply c x c' p :
  quiet c x -> match p with
  | PasswordReply r => onPasswordReply stanzaHash (checkPassword r) x
  | DigestReply r raw => let '(error, digest) := getDigest r in onDigestReply error digest raw x
  end = Some c' -> quiet c c'.
Proof.
  intros Hq. destruct p as [r|r raw]; [|destruct (getDigest r) as [error digest]].
  - unfold onPasswordReply. destruct (saslServer x) as [[b s]|]; [|done]. simpl.
    destruct (checkPassword r); try (intros [= <-]; by apply quiet_failed).
    case_match; [intros [= <-]; apply quiet_element|intros Ha; eapply quiet_authenticated2; [|exact Ha]];
      (eapply quiet_update; [exact Hq|reflexivity]).
  - unfold onDigestReply. destruct (saslServer x) as [[b s]|]; [|done]. simpl.
    case_decide; [intros [= <-]; by apply quiet_failed|].
    destruct (server_respond _ _ _) as [[r' ch] [b' s']].
    destruct r'; try case_match; intros [= <-]; try apply quiet_failed; try apply quiet_element;
      (eapply quiet_update; [exact Hq|reflexivity]).
Qed.
Lemma tagName_set n v el : tagName (set_attribute n v el) = tagName el.
Proof. by destruct el. Qed.
Lemma relay_signals el c : outputs (relay el c) = outputs c \/
  exists el', outputs (relay el c) = outputs c ++ [SigElement el'] /\ from_client c el'.
Proof.
  unfold relay. destruct (_ && _ && _) eqn:Hf; [by left|].
  destruct (_ || _ || _) eqn:Htag; [right|by left].
  assert (tagName el <> "") as Hne by (intros E; rewrite E in Htag; discriminate).
  set (full := if decide (attribute el "from" = "") then _ else el).
  assert (tagName full <> "" /\ (attribute full "from" = jid c \/ attribute full "from" = Jid.jidToBareJid (jid c)))
    as [Hne' Hfrom].
  { unfold full. destruct (decide (attribute el "from" = "")) as [Hfe|Hfe].
    { match goal with |- context [if ?b then set_attribute _ _ _ else _] => destruct b end;
        rewrite tagName_set, attribute_set by done; auto. }
    split; [done|]. rewrite (bool_decide_eq_false_2 _ Hfe) in Hf. simpl in Hf.
    apply andb_false_iff in Hf as [Hf|Hf]; apply negb_false_iff, bool_decide_eq_true in Hf; auto. }
  clearbody full. eexists. simpl. split; [reflexivity|]. unfold from_client. destruct (decide (attribute full "to" = "")) as [Hto|Hto].
  - rewrite attribute_set by done. by rewrite attribute_set_other.
  - by split.
Qed.

Definition signals_ok (c c' : IncomingClient) : Prop :=
  exists new, outputs c' = outputs c ++ new /\ forall el, SigElement el ∈ new -> from_client c el.
Lemma quiet_signals c c' : quiet c c' -> signals_ok c c'.
Proof. intros (new & E & Hn). exists new. split; [done|]. intros el Hin. by destruct (Hn el). Qed.
Lemma relay_signals_ok el c : signals_ok c (relay el c).
Proof.
  destruct (relay_signals el c) as [E|(el' & E & Hf)]; [by apply quiet_signals, quiet_base|].
  exists [SigElement el']. split; [done|]. intros e Hin. apply list_elem_of_singleton in Hin. by injection Hin as ->.
Qed.
Lemma client_stanza_signals el c : signals_ok c (handleClientStanza stanzaHash el c).
Proof.
  unfold handleClientStanza. repeat case_match; try apply relay_signals_ok; apply quiet_signals; [|quiet].
  unfold bind. apply quiet_out; [done|]. apply quiet_sendOut; [done|]. by apply quiet_base.
Qed.

(** C5: Every stanza a stream hands on to its server names as its sender the address of the
    client or its bare address, and has a receiver. *)
Theorem incoming_sender_authentic e c c' : incoming_step e c = Some c' ->
  exists new, outputs c' = outputs c ++ new /\ forall el, SigElement el ∈ new ->
    (attribute el "from" = jid c \/ attribute el "from" = Jid.jidToBareJid (jid c)) /\
    (attribute el "to" = "" -> domain c = "").
Proof.
  change (incoming_step e c = Some c' -> signals_ok c c'). intros Hc.
  destruct e as [o|el| |i| |]; simpl in Hc.
  - destruct (accepting c); injection Hc as <-; apply quiet_signals; [apply quiet_stream|by apply quiet_base].
  - destruct (accepting c); [|injection Hc as <-; by apply quiet_signals, quiet_base].
    unfold handleStanza in Hc. destruct (same_idle c) as [(Ed & Ej & _) _].
    pose proof (quiet_idle c) as Hq. assert (outputs (restartIdleTimer c) = outputs c) as Eo
      by (unfold restartIdleTimer; by destruct (negb _)).
    set (c0 := restartIdleTimer c) in *. clearbody c0.
    repeat case_match; try (injection Hc as <-; apply quiet_signals; by quiet).
    + apply quiet_signals. eapply quiet_trans; [exact Hq|]. by eapply quiet_sasl2.
    + apply quiet_signals. eapply quiet_trans; [exact Hq|]. by eapply quiet_sasl.
    + injection Hc as <-. destruct (client_stanza_signals el c0) as (new & E & Hn).
      exists new. rewrite E, Eo. split; [done|]. intros x Hin. unfold from_client. rewrite <-Ed, <-Ej. by apply Hn.
  - destruct (accepting c); injection Hc as <-; apply quiet_signals; quiet.
  - destruct (replies c !! i) as [p|]; [|injection Hc as <-; by apply quiet_signals, quiet_base].
    apply quiet_signals. apply (quiet_reply c (c <| replies ::= delete i |>) c' p); [by apply quiet_base|exact Hc].
  - destruct (idleRunning c); injection Hc as <-; apply quiet_signals; quiet.
  - injection Hc as <-. apply quiet_signals. quiet.
Qed.

(** C4: Let a client wait for each reply of the password checker before it authenticates again
    or restarts its stream. If its address names an account, it is the address, with or without
    a resource, of a user the checker vouched for: one whose password it accepted, or whose
    digest the client proved to the server's nonce. As long as nobody was vouched for, the
    address names no account: it is empty, or "/" and a resource, which a client gets that binds
    without having authenticated. *)
Theorem incoming_authenticated_user dom checker certificate es c' :
  let c := newIncomingClient dom checker certificate in
  patient_run es c -> incoming_run es c = Some c' ->
  (Jid.jidToBareJid (jid c') <> "" -> exists u, u ∈ vouched es c /\
     (jid c' = u +:+ "@" +:+ dom \/ exists r, jid c' = Jid.jidToBareJid (u +:+ "@" +:+ dom) +:+ "/" +:+ r)) /\
  (vouched es c = [] -> jid c' = "" \/ exists r, jid c' = "/" +:+ r).
Proof.
  intros c Hp Hr.
  assert (owned (vouched es c) dom (jid c')) as Ho.
  { apply (incoming_run_ok dom es [] c c'); [|done|done]. split_and!; [done|by left|done]. }
  destruct Ho as [->|[[r ->]|(u & Hu & Hj)]].
  - split; [done|by left].
  - split; [|intros _; right; by exists r].
    change ("/" +:+ r) with ("" +:+ String "/" r). by rewrite Jid.bare_of_resource.
  - split; [intros _; by exists u|]. intros E. rewrite E in Hu. by apply not_elem_of_nil in Hu.
Qed.
End Theory.

(** ** Examples *)

Section Examples.
Context `{QtTypes} `{Crypto} `{PasswordChecker}.
Variable stanzaHash : Z -> nat -> string.
Variable newNonce : nat -> string.

Definition sasl_auth (mechanism data : string) : Dom :=
  Elem "auth" ns_sasl [("mechanism", mechanism)] [Text data].
Definition sasl2_auth (mechanism data : string) : Dom :=
  Elem "authenticate" ns_sasl_2 [("mechanism", mechanism)]
    [Elem "initial-response" ns_sasl_2 [] [Text data]].
Definition request (username password : string) : PasswordRequest :=
  {| rq_domain := "example.org"; rq_username := username; rq_password := password |}.
Definition new_stream : StreamOpen :=
  {| so_to := "example.org"; so_from := ""; so_id := ""; so_version := "1.0"; so_xmlns := "jabber:client" |}.

(** C24: A reply authenticates the user of the latest request, not the one it is about: a
    client that sends a second request before the first is answered is given the second's
    user name with the first's password. *)
Theorem incoming_reply_of_another_request :
  checkPassword (request "me" "pw") = NoError ->
  checkPassword (request "admin" "x") = AuthorizationError ->
  let c := newIncomingClient "example.org" true false in
  let es := [EvStanza (sasl_auth "PLAIN" "AG1lAHB3"); EvStanza (sasl_auth "PLAIN" "AGFkbWluAHg=");
             EvReply 0] in
  vouched stanzaHash newNonce es c = ["me"] /\
  exists c', incoming_run stanzaHash newNonce es c = Some c' /\ jid c' = "admin@example.org" /\
    last (outputs c') = Some (OutElement (toXml Sasl.Build_Success)).
Proof.
  intros Hme Hadmin. vm_compute in Hme, Hadmin. split; [vm_compute; by rewrite Hme|].
  vm_compute. rewrite Hme. by eexists.
Qed.
(** A reply that comes after the client has restarted its stream, or aborted its request, is
    handled with a server object, or a request, that is gone. *)
Theorem incoming_late_reply :
  let c := newIncomingClient "example.org" true false in
  incoming_run stanzaHash newNonce
    [EvStanza (sasl_auth "PLAIN" "AG1lAHB3"); EvStream new_stream; EvReply 0] c = None /\
  (checkPassword (request "me" "pw") = NoError ->
   incoming_run stanzaHash newNonce
     [EvStanza (sasl2_auth "PLAIN" "AG1lAHB3"); EvStanza (Elem "abort" ns_sasl_2 [] []); EvReply 0] c = None).
Proof. split; [reflexivity|]. intros Hme. vm_compute in Hme. vm_compute. by rewrite Hme. Qed.

(** A client that has not authenticated binds a resource and is reported as connected, and its
    stanzas are handed on. *)
Theorem incoming_unauthenticated :
  let c := newIncomingClient "example.org" true false in
  let message := Elem "message" "jabber:client" [("to", "me@example.org")] [] in
  exists c', incoming_run stanzaHash newNonce
    [EvStanza (Elem "iq" "jabber:client" [("id", "1"); ("type", "set")]
      [Elem "bind" "urn:ietf:params:xml:ns:xmpp-bind" [] [Elem "resource" "urn:ietf:params:xml:ns:xmpp-bind" [] [Text "r"]]]);
     EvStanza message] c = Some c' /\
  jid c' = "/r" /\ isConnected c' = true /\
  drop 1 (outputs c') = [SigConnected; SigElement (set_attribute "from" "/r" message)].
Proof. eexists. split; [vm_compute; reflexivity|]. by split_and!. Qed.
End Examples.

(** ** Logging in *)

Section Login.
Context `{QtTypes} `{Crypto} `{PasswordChecker}.
Variable stanzaHash : Z -> nat -> string.
Variable newNonce : nat -> string.

#[local] Arguments fromDom : simpl never.
#[local] Arguments serializeXml : simpl never.

Definition plain_message (user password : string) : string :=
  String NUL (user +:+ String NUL password).
Definition plain_auth (user password : string) : Dom :=
  serializeXml (toXml {| Sasl.auth_mechanism := "PLAIN"; Sasl.auth_value := plain_message user password |}).
Definition bind_request (id resource : string) : Dom :=
  Elem "iq" "jabber:client" [("id", id); ("type", "set")]
    [serializeXml (toXml {| be_jid := ""; be_resource := resource |})].

Lemma plain_auth_shape user password : namespaceURI (plain_auth user password) = ns_sasl /\
  fromDom (T := StarttlsRequest) (plain_auth user password) = None /\
  fromDom (plain_auth user password) =
    Some {| Sasl.auth_mechanism := "PLAIN"; Sasl.auth_value := plain_message user password |}.
Proof. split_and!; [reflexivity|reflexivity|]. by apply codec_roundtrip. Qed.
Lemma bind_request_shape id resource : tagName (bind_request id resource) = "iq" /\
  isElement BindElement (firstChildElement (bind_request id resource) "" "") = true /\
  bindSet_fromDom (bind_request id resource) = Some (id, {| be_jid := ""; be_resource := resource |}).
Proof. split_and!; [reflexivity|reflexivity|]. by destruct resource. Qed.

Lemma step_auth user password c :
  has_char NUL user = false -> has_char NUL password = false ->
  accepting c = true -> hasChecker c = true -> replies c = [] -> idleInterval c = 0 ->
  incoming_step stanzaHash newNonce (EvStanza (plain_auth user password)) c =
  Some (c <| saslVersion := SaslV1 |> <| sasl2AuthRequest := None |>
    <| saslServer := Some ({| s_username := user; s_password := password; passwordDigest := "";
                              s_realm := domain c |}, ServerPlain 1) |>
    <| draws ::= S |>
    <| replies := [PasswordReply {| rq_domain := domain c; rq_username := user; rq_password := password |}] |>).
Proof.
  intros Hu Hp Ha Hch Hr Hi. destruct (plain_auth_shape user password) as (Hns & Htls & Hauth).
  unfold incoming_step, handleStanza, restartIdleTimer. rewrite Ha, Hi. cbn [negb Z.eqb].
  rewrite Htls, Hns. cbn [decide]. change (ns_sasl = ns_sasl_2) with (ns_sasl = "urn:xmpp:sasl:2").
  rewrite (decide_False (P := ns_sasl = _)) by discriminate. rewrite decide_True by done.
  unfold handleSasl. rewrite Hch, Hauth. cbn [negb Sasl.auth_mechanism Sasl.auth_value].
  change (createServer _ "PLAIN") with (Some (ServerPlain 0)). cbn [server_respond].
  set (b := {| s_username := "" |}).
  assert (plain_server_respond b 0 (plain_message user password) =
    (InputNeeded, Some "", b <| s_username := user |> <| s_password := password |>, 1)) as ->.
  { unfold plain_server_respond, plain_message. cbn -[split NUL String.append]. by rewrite split_plain. }
  simpl. by rewrite Hr.
Qed.
Lemma step_bind id resource c :
  accepting c = true -> idleInterval c = 0 ->
  incoming_step stanzaHash newNonce (EvStanza (bind_request id resource)) c =
  Some (bind stanzaHash id {| be_jid := ""; be_resource := resource |} c).
Proof.
  intros Ha Hi. destruct (bind_request_shape id resource) as (Htag & Hel & Hset).
  unfold incoming_step, handleStanza, restartIdleTimer. rewrite Ha, Hi. cbn [negb Z.eqb].
  change (fromDom (T := StarttlsRequest) (bind_request id resource)) with (@None StarttlsRequest).
  change (namespaceURI (bind_request id resource)) with "jabber:client". cbn [decide].
  rewrite !(decide_False (P := "jabber:client" = _)) by discriminate. rewrite decide_True by done.
  unfold handleClientStanza. by rewrite Htag, Hel, Hset.
Qed.

Definition open_stream (dom : string) : StreamOpen :=
  {| so_to := dom; so_from := ""; so_id := ""; so_version := "1.0"; so_xmlns := ns_client_stanza |}.

Lemma step_open dom c :
  accepting c = true -> socketConnected c = true -> idleInterval c = 0 -> domain c = dom -> exists o1 o2,
  incoming_step stanzaHash newNonce (EvStream (open_stream dom)) c =
  Some (c <| saslServer := None |> <| draws ::= S |> <| outputs ::= (fun l => l ++ [o1; o2]) |>).
Proof.
  intros Ha Hs Hi Hd. destruct c; simpl in *. subst.
  unfold incoming_step, handleStream, restartIdleTimer, sendOut, sendStreamFeatures, sendOut, out. simpl.
  rewrite decide_False by naive_solver. simpl. eexists _, _. by rewrite <-app_assoc.
Qed.

Lemma step_reply (c : IncomingClient) r b s : replies c = [PasswordReply r] -> saslServer c = Some (b, s) -> saslVersion c = SaslV1 ->
  incoming_step stanzaHash newNonce (EvReply 0) c =
  let c := c <| replies := [] |> in
  Some match checkPassword r with
       | NoError => sendElement Sasl.Build_Success (c <| jid := authenticated_jid b c |>)
       | AuthorizationError => failed NotAuthorized c
       | TemporaryError => failed TemporaryAuthFailure c
       end.
Proof.
  intros Hr Hs Hv. unfold incoming_step. rewrite Hr. cbn -[onPasswordReply]. rewrite Hr.
  unfold onPasswordReply. simpl. rewrite Hs, Hv. by destruct (checkPassword r).
Qed.

Lemma run_step e es (c c1 : IncomingClient) : incoming_step stanzaHash newNonce e c = Some c1 ->
  incoming_run stanzaHash newNonce (e :: es) c = incoming_run stanzaHash newNonce es c1.
Proof. intros E. simpl. by rewrite E. Qed.
Lemma run_app es es' (c c1 : IncomingClient) : incoming_run stanzaHash newNonce es c = Some c1 ->
  incoming_run stanzaHash newNonce (es ++ es') c = incoming_run stanzaHash newNonce es' c1.
Proof.
  revert c. induction es as [|e es IH]; simpl; intros c Hc; [by injection Hc as ->|].
  destruct (incoming_step _ _ e c) as [c2|]; [|done]. by apply IH.
Qed.

(** What the client of a log-in sends, with the reply of the checker. *)
Definition auth_events (dom user password : string) : list IncomingEvent :=
  [EvStream (open_stream dom); EvStanza (plain_auth user password); EvReply 0].
Definition bind_events (dom id resource : string) : list IncomingEvent :=
  [EvStream (open_stream dom); EvStanza (bind_request id resource)].

Definition bound_resource (resource : string) (n : nat) : string :=
  if decide (trimmed resource = "") then stanzaHash 36 n else trimmed resource.

(** After the reply. *)
Lemma run_auth dom user password :
  has_char NUL user = false -> has_char NUL password = false -> exists c o1 o2,
  incoming_run stanzaHash newNonce (auth_events dom user password) (newIncomingClient dom true false) =
    Some match checkPassword {| rq_domain := dom; rq_username := user; rq_password := password |} with
         | NoError => sendElement Sasl.Build_Success (c <| jid := user +:+ "@" +:+ dom |>)
         | AuthorizationError => failed NotAuthorized c
         | TemporaryError => failed TemporaryAuthFailure c
         end /\
  accepting c = true /\ socketConnected c = true /\ idleInterval c = 0 /\ domain c = dom /\ jid c = "" /\
  saslVersion c = SaslV1 /\ draws c = 2%nat /\ outputs c = [o1; o2].
Proof.
  intros Hu Hp. unfold auth_events. set (c0 := newIncomingClient dom true false).
  destruct (step_open dom c0 eq_refl eq_refl eq_refl eq_refl) as (o1 & o2 & Ho).
  rewrite (run_step _ _ _ _ Ho). clear Ho.
  erewrite run_step by (apply step_auth; try done; reflexivity).
  erewrite run_step by (eapply step_reply; reflexivity).
  eexists _, o1, o2. split; [reflexivity|]. by split_and!.
Qed.
Lemma run_bind dom id resource (c : IncomingClient) :
  accepting c = true -> socketConnected c = true -> idleInterval c = 0 -> domain c = dom ->
  let bound := Jid.jidToBareJid (jid c) +:+ "/" +:+ bound_resource resource (S (draws c)) in
  exists c' o1 o2, incoming_run stanzaHash newNonce (bind_events dom id resource) c = Some c' /\
    jid c' = bound /\ socketConnected c' = true /\
    outputs c' = outputs c ++ [o1; o2; OutElement (bindResult_toXml id bound); SigConnected].
Proof.
  intros Ha Hs Hi Hd. cbv zeta. unfold bind_events.
  destruct (step_open dom c Ha Hs Hi Hd) as (o1 & o2 & Ho). rewrite (run_step _ _ _ _ Ho). clear Ho.
  erewrite run_step by (apply step_bind; done). eexists _, o1, o2. split; [reflexivity|].
  destruct c. simpl in *. subst. simpl. rewrite <-!app_assoc. by split_and!.
Qed.

(** C36: A user whose password the checker accepts logs in: it is told of its success, and the
    resource it binds, or a random one, completes its address; a user whose password is
    refused is told so and the stream is closed. *)
Theorem incoming_plain_login dom user password id resource :
  has_char NUL user = false -> has_char NUL password = false ->
  let c := newIncomingClient dom true false in
  let bound := Jid.jidToBareJid (user +:+ "@" +:+ dom) +:+ "/" +:+ bound_resource resource 3 in
  match checkPassword {| rq_domain := dom; rq_username := user; rq_password := password |} with
  | NoError => exists c' before between,
      incoming_run stanzaHash newNonce (auth_events dom user password ++ bind_events dom id resource) c
        = Some c' /\
      jid c' = bound /\ socketConnected c' = true /\
      outputs c' = before ++ [OutElement (toXml Sasl.Build_Success)] ++ between ++
                   [OutElement (bindResult_toXml id bound); SigConnected]
  | error => exists c' before,
      incoming_run stanzaHash newNonce (auth_events dom user password) c = Some c' /\
      jid c' = "" /\ accepting c' = false /\
      outputs c' = before ++
        [OutElement (toXml {| Sasl.condition := Some match error with TemporaryError => TemporaryAuthFailure
                                                                  | _ => NotAuthorized end;
                              Sasl.failure_text := "" |}); OutClose]
  end.
Proof.
  intros Hu Hp. cbv zeta.
  destruct (run_auth dom user password Hu Hp) as (c & o1 & o2 & Hrun & Ha & Hs & Hi & Hd & Hj & Hv & Hdr & Ho).
  destruct (checkPassword _).
  - rewrite (run_app _ _ _ _ Hrun). clear Hrun. set (x := sendElement _ _).
    destruct (run_bind dom id resource x) as (c' & o3 & o4 & -> & Hjb & Hsb & Hob);
      try (unfold x; destruct c; simpl in *; by subst).
    exists c', [o1; o2], [o3; o4]. rewrite Hjb, Hsb, Hob. unfold x. destruct c. simpl in *. subst. by split_and!.
  - eexists _, [o1; o2]. split; [exact Hrun|]. destruct c. simpl in *. subst. by split_and!.
  - eexists _, [o1; o2]. split; [exact Hrun|]. destruct c. simpl in *. subst. by split_and!.
Qed.
End Login.

(** ** Witnesses *)

(** A checker with one user. *)
Definition one_user : PasswordChecker := {|
  checkPassword r := if decide (rq_username r = "me" /\ rq_password r = "pw") then NoError else AuthorizationError;
  getDigest r := (AuthorizationError, "");
  hasGetPassword := false |}.
Definition sample_hash (length : Z) (n : nat) : string := "random".
Definition sample_nonce (n : nat) : string := "nonce".
Definition sample_login : list (@IncomingEvent) :=
  [EvStream new_stream; EvStanza (sasl_auth "PLAIN" "AG1lAHB3"); EvReply 0].

Lemma incoming_authenticated_user_witness :
  exists c', @incoming_run text_types sample_crypto one_user sample_hash sample_nonce sample_login
    (newIncomingClient "example.org" true false) = Some c' /\ jid c' = "me@example.org" /\
    exists u, u ∈ @vouched text_types sample_crypto one_user sample_hash sample_nonce sample_login
                    (newIncomingClient "example.org" true false) /\
      (jid c' = u +:+ "@example.org" \/
       exists r, jid c' = Jid.jidToBareJid (u +:+ "@example.org") +:+ "/" +:+ r).
Proof.
  eexists. split; [vm_compute; reflexivity|]. split; [reflexivity|].
  apply (@incoming_authenticated_user text_types sample_crypto one_user sample_hash sample_nonce
    "example.org" true false sample_login).
  - vm_compute. tauto.
  - vm_compute. reflexivity.
  - discriminate.
Defined.
Lemma incoming_plain_login_witness :
  exists c', @incoming_run text_types sample_crypto one_user sample_hash sample_nonce
    (auth_events "example.org" "me" "pw" ++ bind_events "example.org" "1" "r")
    (newIncomingClient "example.org" true false) = Some c' /\ socketConnected c' = true.
Proof.
  destruct (@incoming_plain_login text_types sample_crypto one_user sample_hash sample_nonce
    "example.org" "me" "pw" "1" "r" eq_refl eq_refl) as (c' & before & between & Hr & Hj & Hs & _).
  exists c'. split; [exact Hr|exact Hs].
Defined.
Lemma incoming_sender_authentic_witness :
  exists c' new, @incoming_step text_types sample_crypto one_user sample_hash sample_nonce
    (EvStanza (Elem "message" "jabber:client" [] [])) (newIncomingClient "example.org" true false) = Some c' /\
    outputs c' = new /\ forall el, SigElement el ∈ new -> attribute el "to" = "" -> "example.org" = "".
Proof.
  eexists _, _. split; [reflexivity|]. split; [reflexivity|].
  destruct (@incoming_sender_authentic text_types sample_crypto one_user sample_hash sample_nonce
    (EvStanza (Elem "message" "jabber:client" [] [])) (newIncomingClient "example.org" true false) _ eq_refl)
    as (new & E & Hn).
  change (outputs (newIncomingClient "example.org" true false)) with (@nil Output) in E.
  intros el Hel. apply (Hn el). rewrite app_nil_l in E. by rewrite <-E.
Defined.
Lemma incoming_reply_of_another_request_witness :
  exists c', @incoming_run text_types sample_crypto one_user sample_hash sample_nonce
    [EvStanza (sasl_auth "PLAIN" "AG1lAHB3"); EvStanza (sasl_auth "PLAIN" "AGFkbWluAHg="); EvReply 0]
    (newIncomingClient "example.org" true false) = Some c' /\ jid c' = "admin@example.org".
Proof.
  destruct (@incoming_reply_of_another_request text_types sample_crypto one_user sample_hash sample_nonce
    eq_refl eq_refl) as (_ & c' & Hr & Hj & _).
  exists c'. split; [exact Hr|exact Hj].
Defined.
Lemma incoming_late_reply_witness :
  @incoming_run text_types sample_crypto one_user sample_hash sample_nonce
    [EvStanza (sasl2_auth "PLAIN" "AG1lAHB3"); EvStanza (Elem "abort" ns_sasl_2 [] []); EvReply 0]
    (newIncomingClient "example.org" true false) = None.
Proof. exact (proj2 (@incoming_late_reply text_types sample_crypto one_user sample_hash sample_nonce) eq_refl). Defined.
