(* ===== verification/Hashing.v ===== *)
(** * Hashing of files (QXmppHashing.cpp, QXmppHash.cpp)

    The generator that reads a device into one buffer while every hash
    processes the other one, its jobs run by a thread pool. A job runs and
    then reports, and the last report of a round starts the next round: the
    pool may take any job at any time, so an execution is a list of choices.
    QCryptographicHash and the device are classes with their documented laws. *)
From S2P Require Import Prelude Dom.

(** ** Algorithms *)

Inductive HashAlgorithm :=
  | HUnknown | Md2 | Md5 | Shake128 | Shake256 | Sha1 | Sha224 | Sha256 | Sha384 | Sha512
  | Sha3_256 | Sha3_512 | Blake2b_256 | Blake2b_512.
#[export] Instance HashAlgorithm_eq_dec : EqDecision HashAlgorithm.
Proof. solve_decision. Defined.
#[export] Instance HashAlgorithm_data : EnumData HashAlgorithm := {
  enum_value a := match a with HUnknown => 0 | Md2 => 1 | Md5 => 2 | Shake128 => 3 | Shake256 => 4
    | Sha1 => 5 | Sha224 => 6 | Sha256 => 7 | Sha384 => 8 | Sha512 => 9 | Sha3_256 => 10
    | Sha3_512 => 11 | Blake2b_256 => 12 | Blake2b_512 => 13 end;
  Values := [(HUnknown, ""); (Md2, "md2"); (Md5, "md5"); (Shake128, "shake128"); (Shake256, "shake256");
    (Sha1, "sha-1"); (Sha224, "sha-224"); (Sha256, "sha-256"); (Sha384, "sha-384"); (Sha512, "sha-512");
    (Sha3_256, "sha3-256"); (Sha3_512, "sha3-512"); (Blake2b_256, "blake2b-256"); (Blake2b_512, "blake2b-512")] }.

(** QCryptographicHash::Algorithm, as of Qt 6.6. *)
Module Qt.
Inductive Algorithm :=
  | Md4 | Md5 | Sha1 | Sha224 | Sha256 | Sha384 | Sha512
  | Keccak_224 | Keccak_256 | Keccak_384 | Keccak_512
  | Sha3_224 | Sha3_256 | Sha3_384 | Sha3_512
  | Blake2b_160 | Blake2b_256 | Blake2b_384 | Blake2b_512
  | Blake2s_128 | Blake2s_160 | Blake2s_224 | Blake2s_256 | NumAlgorithms.
End Qt.

Definition toHashAlgorithm (a : Qt.Algorithm) : HashAlgorithm :=
  match a with
  | Qt.Md4 | Qt.Keccak_224 | Qt.Keccak_256 | Qt.Keccak_384 | Qt.Keccak_512 | Qt.Sha3_224 | Qt.Sha3_384
  | Qt.Blake2b_160 | Qt.Blake2b_384 | Qt.Blake2s_128 | Qt.Blake2s_160 | Qt.Blake2s_224 | Qt.Blake2s_256
  | Qt.NumAlgorithms => HUnknown
  | Qt.Md5 => Md5
  | Qt.Sha1 => Sha1
  | Qt.Sha224 => Sha224
  | Qt.Sha256 => Sha256
  | Qt.Sha384 => Sha384
  | Qt.Sha512 => Sha512
  | Qt.Sha3_256 => Sha3_256
  | Qt.Sha3_512 => Sha3_512
  | Qt.Blake2b_256 => Blake2b_256
  | Qt.Blake2b_512 => Blake2b_512
  end.
Definition toCryptograhicHashAlgorithm (a : HashAlgorithm) : option Qt.Algorithm :=
  match a with
  | HUnknown | Md2 | Shake128 | Shake256 => None
  | Md5 => Some Qt.Md5
  | Sha1 => Some Qt.Sha1
  | Sha224 => Some Qt.Sha224
  | Sha256 => Some Qt.Sha256
  | Sha384 => Some Qt.Sha384
  | Sha512 => Some Qt.Sha512
  | Sha3_256 => Some Qt.Sha3_256
  | Sha3_512 => Some Qt.Sha3_512
  | Blake2b_256 => Some Qt.Blake2b_256
  | Blake2b_512 => Some Qt.Blake2b_512
  end.
Definition isHashingAlgorithmSecure (a : HashAlgorithm) : bool :=
  match a with
  | HUnknown | Md2 | Md5 | Shake128 | Shake256 | Sha1 => false
  | Sha224 | Sha256 | Sha384 | Sha512 | Sha3_256 | Sha3_512 | Blake2b_256 | Blake2b_512 => true
  end.
Definition hashPriority (a : HashAlgorithm) : Z :=
  match a with
  | HUnknown => 0 | Md2 => 1 | Md5 => 2 | Shake128 => 3 | Shake256 => 4 | Sha1 => 5 | Sha224 => 6
  | Sha256 => 7 | Sha384 => 8 | Sha512 => 9 | Sha3_256 => 10 | Blake2b_256 => 11 | Sha3_512 => 12
  | Blake2b_512 => 13
  end.

Record QXmppHash := { h_algorithm : HashAlgorithm; h_hash : string }.

(** ** Qt's hashes and devices *)

Class CryptoHash := {
  Hasher : Type;
  newHasher : Qt.Algorithm -> Hasher;
  addData : Hasher -> string -> Hasher;
  hasherResult : Hasher -> string;
}.
(** Adding data in pieces is adding all of it. *)
Class StreamingHash `{CryptoHash} := {
  addData_nil h : addData h "" = h;
  addData_app h a b : addData (addData h a) b = addData h (a +:+ b);
}.
Definition digest `{CryptoHash} (a : Qt.Algorithm) (data : string) : string :=
  hasherResult (addData (newHasher a) data).

(** A QIODevice that is read: [dev_read d n] are at most [n] bytes, none when it failed;
    [dev_readAll] is what QCryptographicHash::addData(QIODevice * ) reads. *)
Class ReadDevice := {
  Dev : Type;
  dev_isReadable : Dev -> bool;   (* open for reading *)
  dev_isSequential : Dev -> bool;
  dev_size : Dev -> Z;
  dev_seek0 : Dev -> Dev;
  dev_read : Dev -> Z -> option string * Dev;
  dev_readAll : Dev -> option string * Dev;
  dev_atEnd : Dev -> bool;
}.
Class ReadDeviceLaws `{ReadDevice} := {
  dev_rest : Dev -> string;   (* from the position of the device to its end *)
  dev_whole : Dev -> string;
  rest_seek0 d : dev_rest (dev_seek0 d) = dev_whole d;
  whole_seek0 d : dev_whole (dev_seek0 d) = dev_whole d;
  rest_read d n s d' : dev_read d n = (Some s, d') -> dev_rest d = s +:+ dev_rest d';
  whole_readAll d s d' : dev_readAll d = (Some s, d') -> s = dev_rest d /\ dev_whole d' = dev_whole d;
  rest_atEnd d : dev_atEnd d = true <-> dev_rest d = "";
  read_progress d n s d' : 0 < n -> dev_rest d <> "" -> dev_read d n = (Some s, d') -> s <> "";
}.

(** ** The generator *)

Definition PROCESS_SYNC_MAX_SIZE : Z := 32 * 1024.
Definition BUFFER_SIZE : Z := 512 * 1024.

Inductive HashingResult := Hashes (hs : list QXmppHash) | HashCancelled | HashError (e : string).

Section Generator.
Context `{CryptoHash} `{ReadDevice}.

Definition deviceSize (d : Dev) : option Z :=
  if negb (dev_isSequential d) && (0 <=? dev_size d) then Some (dev_size d) else None.

Definition hash_result (a : Qt.Algorithm) (h : Hasher) : QXmppHash :=
  {| h_algorithm := toHashAlgorithm a; h_hash := hasherResult h |}.
(** QXmppError::fromIoDevice. *)
Variable errorOf : Dev -> string.
Fixpoint calculateHashesSync (d : Dev) (algorithms : list Qt.Algorithm) (results : list QXmppHash) : HashingResult :=
  match algorithms with
  | [] => Hashes results
  | a :: algorithms =>
      match dev_readAll (dev_seek0 d) with
      | (None, d) => HashError (errorOf d)
      | (Some s, d) =>
          calculateHashesSync d algorithms (results ++ [hash_result a (addData (newHasher a) s)])
      end
  end.

(** A std::vector of bytes. *)
Record Buffer := { capacity : Z; bytes : string }.
Definition reserved (n : Z) : Buffer := {| capacity := n; bytes := "" |}.

Inductive Job := BufferReader | HashProcessor (i : nat).
#[export] Instance Job_eq_dec : EqDecision Job.
Proof. solve_decision. Defined.
(** A job of the pool that has still to run, or that has run and will report. *)
Inductive Phase := Queued | Ran.
#[export] Instance Phase_eq_dec : EqDecision Phase.
Proof. solve_decision. Defined.

Record Generator := {
  m_errorOccurred : bool;
  m_readingFinished : bool;
  m_data : Dev;
  m_readBuffer : Buffer;
  m_processBuffer : Buffer;
  m_runningJobs : Z;
  m_hashProcessors : list (Qt.Algorithm * Hasher);
  pool : list (Job * Phase);
  reported : list HashingResult;   (* the calls of m_reportResult *)
  deleted : bool;                  (* deleteLater was called *)
}.
#[export] Instance Generator_eta : Eta Generator := fun g =>
  {| m_errorOccurred := m_errorOccurred g; m_readingFinished := m_readingFinished g; m_data := m_data g;
     m_readBuffer := m_readBuffer g; m_processBuffer := m_processBuffer g; m_runningJobs := m_runningJobs g;
     m_hashProcessors := m_hashProcessors g; pool := pool g; reported := reported g; deleted := deleted g |}.

Definition newGenerator (d : Dev) (algorithms : list Qt.Algorithm) : Generator :=
  let small := match deviceSize d with Some size => size <=? 2 * BUFFER_SIZE | None => false end in
  {| m_errorOccurred := false; m_readingFinished := false; m_data := d;
     m_readBuffer := reserved (if small then dev_size d else BUFFER_SIZE);
     m_processBuffer := reserved (if small then 0 else BUFFER_SIZE);
     m_runningJobs := 1;
     m_hashProcessors := map (fun a => (a, newHasher a)) algorithms;
     pool := [(BufferReader, Queued)]; reported := []; deleted := false |}.

Definition finish (g : Generator) : Generator :=
  g <| reported ::= fun l => l ++ [Hashes (map (fun p => hash_result p.1 p.2) (m_hashProcessors g))] |>.
Definition start (j : Job) : Job * Phase := (j, Queued).
Definition startNextIteration (cancelled : bool) (g : Generator) : Generator :=
  if m_errorOccurred g then g <| deleted := true |>
  else if m_readingFinished g then (finish g) <| deleted := true |>
  else if cancelled then g <| reported ::= fun l => l ++ [HashCancelled] |> <| deleted := true |>
  else
    let finished := dev_atEnd (m_data g) in
    let n := length (m_hashProcessors g) in
    g <| m_readingFinished := finished |>
      <| m_processBuffer := m_readBuffer g |> <| m_readBuffer := m_processBuffer g |>
      <| m_runningJobs := if finished then Z.of_nat n else Z.of_nat n + 1 |>
      <| pool ::= fun l => l ++ (if finished then [] else [start BufferReader])
           ++ map (fun i => start (HashProcessor i)) (seq 0 n) |>.
(** [cancelled]: what isCancelled answers if it is asked. *)
Definition reportJobFinished (cancelled : bool) (g : Generator) : Generator :=
  let g := g <| m_runningJobs ::= fun n => n - 1 |> in
  if m_runningJobs g =? 0 then startNextIteration cancelled g else g.

(** What a job does before it reports. *)
Definition read_buffer (g : Generator) : Generator :=
  match dev_read (m_data g) (capacity (m_readBuffer g)) with
  | (None, d) =>
      g <| m_data := d |> <| m_readBuffer ::= fun b => {| capacity := capacity b; bytes := "" |} |>
        <| m_errorOccurred := true |> <| reported ::= fun l => l ++ [HashError (errorOf d)] |>
  | (Some s, d) =>
      g <| m_data := d |> <| m_readBuffer ::= fun b => {| capacity := capacity b; bytes := s |} |>
  end.
Definition process_buffer (i : nat) (g : Generator) : Generator :=
  g <| m_hashProcessors ::= alter (fun p => (p.1, addData p.2 (bytes (m_processBuffer g)))) i |>.
Definition run_job (j : Job) : Generator -> Generator :=
  match j with BufferReader => read_buffer | HashProcessor i => process_buffer i end.

(** The pool goes on with the [k]-th of its jobs. *)
Record Choice := { which : nat; cancelled : bool }.
Definition step (c : Choice) (g : Generator) : option Generator :=
  match pool g !! which c with
  | Some (j, Queued) => Some ((run_job j g) <| pool := <[which c := (j, Ran)]> (pool g) |>)
  | Some (j, Ran) => Some (reportJobFinished (cancelled c) (g <| pool := delete (which c) (pool g) |>))
  | None => None
  end.
Fixpoint execute (cs : list Choice) (g : Generator) : option Generator :=
  match cs with
  | [] => Some g
  | c :: cs => match step c g with Some g => execute cs g | None => None end
  end.

(** HashGenerator::calculateHashes: a result at once, or a generator. *)
Definition calculateHashes (d : Dev) (algorithms : list HashAlgorithm) : option (HashingResult + Generator) :=
  match mapM toCryptograhicHashAlgorithm algorithms with
  | None => None   (* dereferences an empty optional *)
  | Some qtAlgorithms =>
      Some (
        if negb (dev_isReadable d) then inl (HashError "Input data is not opened for reading.")
        else
          match deviceSize d with
          | Some size =>
              if uwrap 64 (Z.of_nat (length algorithms) * size) <=? PROCESS_SYNC_MAX_SIZE
              then inl (calculateHashesSync d qtAlgorithms [])
              else inr (newGenerator d qtAlgorithms)
          | None => inr (newGenerator d qtAlgorithms)
          end)
  end.
End Generator.
Arguments Generator {_ _}.

(** ** Verification *)

Inductive HashVerificationResult :=
  NoStrongHashes | NotMatching | Verified | VerifyCancelled | VerifyError (e : string).

Definition isInvalid (h : QXmppHash) : Prop :=
  h_hash h = "" \/ isHashingAlgorithmSecure (h_algorithm h) = false.
#[export] Instance isInvalid_dec h : Decision (isInvalid h).
Proof. unfold isInvalid. apply _. Defined.
Definition byPriority (a b : QXmppHash) : Prop := hashPriority (h_algorithm a) <= hashPriority (h_algorithm b).
#[export] Instance byPriority_dec : RelDecision byPriority.
Proof. intros a b. unfold byPriority. apply _. Defined.
(** The hash that is checked. Among hashes of one algorithm std::sort may leave any at the end. *)
Definition expectedHash (hashes : list QXmppHash) : option QXmppHash :=
  last (merge_sort byPriority (filter (fun h => ~ isInvalid h) hashes)).
Definition verifyResult (result : HashingResult) (expected : QXmppHash) : option HashVerificationResult :=
  match result with
  | Hashes (actual :: _) => Some (if decide (h_hash actual = h_hash expected) then Verified else NotMatching)
  | Hashes [] => None   (* asserted not to happen *)
  | HashCancelled => Some VerifyCancelled
  | HashError e => Some (VerifyError e)
  end.

(** ** The pool *)

Section Pool.
Notation Pool := (list (Job * Phase)).
Implicit Types l : Pool.

Lemma pool_split l k j ph : l !! k = Some (j, ph) ->
  l = take k l ++ (j, ph) :: drop (S k) l /\ length (take k l) = k.
Proof.
  intros Hk. split; [by rewrite take_drop_middle|]. apply length_take_le.
  apply Nat.lt_le_incl. by apply lookup_lt_Some in Hk.
Qed.
Lemma pool_run l k j : l !! k = Some (j, Queued) -> NoDup l.*1 -> forall x ph,
  (x, ph) ∈ <[k := (j, Ran)]> l <-> (x <> j /\ (x, ph) ∈ l) \/ (x = j /\ ph = Ran).
Proof.
  intros Hk Hnd x ph. rewrite insert_take_drop by by apply lookup_lt_Some in Hk.
  destruct (pool_split _ _ _ _ Hk) as [Hl Hlen].
  set (a := take k l) in *. set (b := drop (S k) l) in *. rewrite Hl in Hnd |- *. rewrite fmap_app, fmap_cons in Hnd. simpl in Hnd.
  apply NoDup_app in Hnd as (_ & Ha & Hb). apply NoDup_cons in Hb as [Hb _].
  assert (forall q, (j, q) ∉ a) as Ha'.
  { intros q Hin. apply (Ha j); [by apply (list_elem_of_fmap_2 fst _ (j, q))|]. by left. }
  assert (forall q, (j, q) ∉ b) as Hb'.
  { intros q Hin. apply Hb. by apply (list_elem_of_fmap_2 fst _ (j, q)). }
  rewrite !elem_of_app, !elem_of_cons. destruct (decide (x = j)) as [->|Hne].
  - split; [|intros [[? _]|[_ ->]]; [done|by right; left]].
    intros [Hin|[[= ->]|Hin]]; [by destruct (Ha' ph)|by right|by destruct (Hb' ph)].
  - split; [|intros [[_ [Hin|[[= ? _]|Hin]]]|[? _]]; by auto].
    intros [Hin|[[= ? _]|Hin]]; by auto 6.
Qed.
Lemma pool_report l k j : l !! k = Some (j, Ran) -> NoDup l.*1 -> forall x ph,
  (x, ph) ∈ delete k l <-> x <> j /\ (x, ph) ∈ l.
Proof.
  intros Hk Hnd x ph. destruct (pool_split _ _ _ _ Hk) as [Hl Hlen].
  set (a := take k l) in *. set (b := drop (S k) l) in *. rewrite Hl in Hnd |- *.
  rewrite <-Hlen, delete_middle. rewrite fmap_app, fmap_cons in Hnd. simpl in Hnd.
  apply NoDup_app in Hnd as (_ & Ha & Hb). apply NoDup_cons in Hb as [Hb _].
  rewrite !elem_of_app, !elem_of_cons. split; [|intros [? [?|[[= ? _]|?]]]; by auto].
  intros Hin. split; [|tauto]. intros ->. destruct Hin as [Hin|Hin].
  - apply (Ha j); [by apply (list_elem_of_fmap_2 fst _ (j, ph))|]. by left.
  - apply Hb. by apply (list_elem_of_fmap_2 fst _ (j, ph)).
Qed.
Lemma pool_run_jobs l k j : l !! k = Some (j, Queued) -> (<[k := (j, Ran)]> l).*1 = l.*1.
Proof.
  intros Hk. rewrite list_fmap_insert. apply list_insert_id. by rewrite list_lookup_fmap, Hk.
Qed.
Lemma pool_report_jobs l k : NoDup l.*1 -> NoDup (delete k l).*1.
Proof.
  intros Hnd. rewrite list_fmap_delete. eapply sublist_NoDup; [exact Hnd|]. apply sublist_delete.
Qed.
End Pool.

(** ** Every execution of the pool *)

Section Proofs.
Context `{StreamingHash} `{ReadDeviceLaws}.
Variable errorOf : Dev -> string.
Variables (d0 : Dev) (algorithms : list Qt.Algorithm).
Implicit Types g : Generator.

Notation isQueued j l := (bool_decide ((j, Queued) ∈ l)).

(** What a hash has been given: all that was read before, and the buffer once it has processed it. *)
Definition fed (l : list (Job * Phase)) (i : nat) (done_ processed : string) : string :=
  if isQueued (HashProcessor i) l then done_ else done_ +:+ processed.
(** What is still in the device or in the buffer it is read into. *)
Definition unread g : string :=
  if m_readingFinished g then ""
  else if isQueued BufferReader (pool g) then dev_rest (m_data g)
  else bytes (m_readBuffer g) +:+ dev_rest (m_data g).

Record counted g : Prop := {
  c_nodup : NoDup (pool g).*1;
  c_jobs : m_runningJobs g = Z.of_nat (length (pool g));
}.
Record live g (done_ : string) : Prop := {
  r_counted : counted g;
  r_error : m_errorOccurred g = false;
  r_reported : reported g = [];
  r_deleted : deleted g = false;
  r_length : length (m_hashProcessors g) = length algorithms;
  r_hashes i a : algorithms !! i = Some a -> m_hashProcessors g !! i =
    Some (a, addData (newHasher a) (fed (pool g) i done_ (bytes (m_processBuffer g))));
  r_text : dev_rest d0 = done_ +:+ bytes (m_processBuffer g) +:+ unread g;
  r_finished : m_readingFinished g = true -> BufferReader ∉ (pool g).*1 /\ dev_rest (m_data g) = "";
  r_capacity : 0 < capacity (m_readBuffer g) \/ 0 < capacity (m_processBuffer g);
  r_capacities : 0 <= capacity (m_readBuffer g) /\ 0 <= capacity (m_processBuffer g);
}.
Record running g (done_ : string) : Prop := { r_live : live g done_; r_pool : pool g <> [] }.
Record failed g : Prop := {
  f_counted : counted g;
  f_error : m_errorOccurred g = true;
  f_reported : exists e, reported g = [HashError e];
  f_reader : (BufferReader, Queued) ∉ pool g;
  f_deleted : deleted g = bool_decide (pool g = []);
}.
Definition hashes_of (data : string) : HashingResult :=
  Hashes (map (fun a => {| h_algorithm := toHashAlgorithm a; h_hash := digest a data |}) algorithms).
Record over g : Prop := {
  o_deleted : deleted g = true;
  o_pool : pool g = [];
  o_reported : reported g = [HashCancelled] \/ reported g = [hashes_of (dev_rest d0)];
}.
Definition invariant g : Prop := (exists done_, running g done_) \/ failed g \/ over g.

Definition startable : Prop :=
  algorithms <> [] /\ (deviceSize d0 <> Some 0).

Lemma unread_data g : m_readingFinished g = false -> dev_rest (m_data g) = "" ->
  unread g = if isQueued BufferReader (pool g) then "" else bytes (m_readBuffer g).
Proof. unfold unread. intros -> ->. by rewrite text_app_nil. Qed.

Lemma new_running : startable -> running (newGenerator d0 algorithms) "".
Proof.
  intros [Ha Hs]. split; [|done]. split; try done.
  - split; [|done]. apply NoDup_singleton.
  - cbn. by rewrite length_map.
  - intros i a Hi. cbn. rewrite list_lookup_fmap, Hi. cbn. unfold fed.
    case_bool_decide as Hq; cbn in Hq; by rewrite addData_nil.
  - left. cbn. unfold deviceSize in *. destruct (negb _ && _)%bool eqn:Hd; [|done]. bools.
    assert (dev_size d0 <> 0) by congruence. destruct (_ <=? _); [lia|done].
  - cbn. unfold deviceSize in *. destruct (negb _ && _)%bool eqn:Hd; [|done]. bools.
    destruct (_ <=? _); cbn; unfold BUFFER_SIZE; lia.
Qed.

Ltac members := cbn [m_errorOccurred m_readingFinished m_data m_readBuffer m_processBuffer m_runningJobs
  m_hashProcessors pool reported deleted upd].

(** *** A job runs *)

Lemma counted_run g k j g' : counted g -> pool g !! k = Some (j, Queued) ->
  pool g' = <[k := (j, Ran)]> (pool g) -> m_runningJobs g' = m_runningJobs g -> counted g'.
Proof.
  intros [Hnd Hc] Hk Hp Hr. split; rewrite Hp.
  - by rewrite pool_run_jobs.
  - by rewrite length_insert, Hr.
Qed.
Lemma queued_run g k j x : counted g -> pool g !! k = Some (j, Queued) ->
  isQueued x (<[k := (j, Ran)]> (pool g)) = negb (bool_decide (x = j)) && isQueued x (pool g).
Proof.
  intros [Hnd _] Hk. apply eq_true_iff_eq. rewrite andb_true_iff, negb_true_iff, !bool_decide_eq_true,
    bool_decide_eq_false, pool_run by done. naive_solver.
Qed.
Lemma is_queued g k j : pool g !! k = Some (j, Queued) -> isQueued j (pool g) = true.
Proof. intros Hk. apply bool_decide_eq_true. by eapply list_elem_of_lookup_2. Qed.

Lemma run_nonempty g k j p : pool g !! k = Some (j, Queued) -> <[k := p]> (pool g) <> [].
Proof. intros Hk Hp. apply (f_equal length) in Hp. rewrite length_insert in Hp. by destruct (pool g). Qed.

Lemma run_read g k done_ : running g done_ -> pool g !! k = Some (BufferReader, Queued) ->
  invariant ((read_buffer errorOf g) <| pool := <[k := (BufferReader, Ran)]> (pool g) |>).
Proof.
  intros Hg Hk. pose proof (r_counted _ _ (r_live _ _ Hg)) as Hc. unfold read_buffer.
  destruct (dev_read (m_data g) (capacity (m_readBuffer g))) as [[s|] d] eqn:Hr.
  - left. exists done_. destruct Hg as [[] Hp]. split; [|by eapply run_nonempty]. split; cbn; try done.
    + by eapply counted_run.
    + intros i a Hi. rewrite (r_hashes0 i a) by done. unfold fed. by rewrite (queued_run g) by done.
    + rewrite r_text0. do 2 f_equal. unfold unread. cbn. destruct (m_readingFinished g); [done|].
      rewrite (queued_run g), (is_queued g k) by done. cbn. by apply rest_read in Hr.
    + intros Hf. apply r_finished0 in Hf as [Hf _]. destruct Hf.
      apply (list_elem_of_fmap_2 fst _ (BufferReader, Queued)). by eapply list_elem_of_lookup_2.
  - right. left. destruct Hg as [[] Hp]. split; cbn; try done.
    + by eapply counted_run.
    + rewrite r_reported0. by eexists.
    + rewrite pool_run by (done || apply Hc). naive_solver.
    + rewrite r_deleted0. symmetry. apply bool_decide_eq_false. by eapply run_nonempty.
Qed.

Lemma run_process g k i done_ : running g done_ -> pool g !! k = Some (HashProcessor i, Queued) ->
  running ((process_buffer i g) <| pool := <[k := (HashProcessor i, Ran)]> (pool g) |>) done_.
Proof.
  intros Hg Hk. pose proof (r_counted _ _ (r_live _ _ Hg)) as Hc. destruct Hg as [[] Hp].
  split; [|by eapply run_nonempty]. split; cbn; try done.
  - by eapply counted_run.
  - by rewrite length_alter.
  - intros i' a Hi. unfold fed. rewrite (queued_run g) by done. destruct (decide (i' = i)) as [->|Hne].
    + rewrite list_lookup_alter_eq, (r_hashes0 i a) by done. cbn [fmap option_fmap option_map fst snd].
      unfold fed. rewrite (is_queued g k) by done.
      rewrite (bool_decide_eq_true_2 (HashProcessor i = _)) by done. cbn [negb andb]. by rewrite addData_app.
    + rewrite list_lookup_alter_ne by congruence. rewrite (r_hashes0 i' a) by done. unfold fed.
      by rewrite (bool_decide_eq_false_2 (HashProcessor i' = _)) by congruence.
  - rewrite r_text0. do 2 f_equal. unfold unread. cbn. rewrite (queued_run g) by done.
    by rewrite (bool_decide_eq_false_2 (BufferReader = _)).
  - intros Hf. rewrite pool_run_jobs by done. auto.
Qed.

Lemma failed_run g k j : failed g -> pool g !! k = Some (j, Queued) ->
  failed ((run_job errorOf j g) <| pool := <[k := (j, Ran)]> (pool g) |>).
Proof.
  intros [Hc He Hr Hq Hd] Hk. destruct j as [|i].
  - destruct Hq. by eapply list_elem_of_lookup_2.
  - split; cbn; try done.
    + by eapply counted_run.
    + rewrite pool_run by (done || apply Hc). naive_solver.
    + rewrite Hd. apply bool_decide_ext. by rewrite <-!length_zero_iff_nil, length_insert.
Qed.

(** *** A job reports *)

Lemma report_pool g k j : counted g -> pool g !! k = Some (j, Ran) ->
  counted ((g <| pool := delete k (pool g) |>) <| m_runningJobs ::= fun n => n - 1 |>) /\
  (m_runningJobs g - 1 = 0 <-> delete k (pool g) = []) /\
  forall x, isQueued x (delete k (pool g)) = isQueued x (pool g).
Proof.
  intros [Hnd Hc] Hk. pose proof (lookup_lt_Some _ _ _ Hk) as Hlt.
  assert (Z.of_nat (length (delete k (pool g))) = m_runningJobs g - 1) as Hl.
  { rewrite length_delete by by eexists. lia. }
  split; [split; cbn; [by apply pool_report_jobs|lia]|]. split.
  - rewrite <-length_zero_iff_nil. lia.
  - intros x. apply bool_decide_ext. rewrite (pool_report _ _ j) by done. split; [tauto|].
    intros Hin. split; [|done]. intros ->.
    assert ((j, Ran) ∈ pool g) by by eapply list_elem_of_lookup_2.
    apply list_elem_of_lookup in Hin as [k' Hk'].
    assert (k' = k) as ->; [|congruence].
    eapply NoDup_lookup; [exact Hnd|by rewrite list_lookup_fmap, Hk'|by rewrite list_lookup_fmap, Hk].
Qed.

Lemma fed_over l i a b : l = [] -> fed l i a b = a +:+ b.
Proof. intros ->. done. Qed.

Definition round_jobs (finished : bool) (n : nat) : list (Job * Phase) :=
  (if finished then [] else [start BufferReader]) ++ map (fun i => start (HashProcessor i)) (seq 0 n).
Lemma round_jobs_names finished n : (round_jobs finished n).*1 =
  (if finished then [] else [BufferReader]) ++ map HashProcessor (seq 0 n).
Proof.
  unfold round_jobs. rewrite fmap_app. f_equal; [by destruct finished|].
  rewrite <-list_fmap_compose. done.
Qed.
Lemma round_jobs_nodup finished n : NoDup (round_jobs finished n).*1.
Proof.
  rewrite round_jobs_names. apply NoDup_app. split_and!.
  - destruct finished; [apply NoDup_nil_2|apply NoDup_singleton].
  - intros x Hx Hy. apply list_elem_of_fmap in Hy as (i & -> & _). destruct finished; by set_solver.
  - apply NoDup_fmap_2; [by intros ?? [=]|apply NoDup_seq].
Qed.
Lemma round_jobs_length finished n : length (round_jobs finished n) = ((if finished then 0 else 1) + n)%nat.
Proof. unfold round_jobs. rewrite length_app, length_map, length_seq. by destruct finished. Qed.
Lemma round_jobs_reader finished n : isQueued BufferReader (round_jobs finished n) = negb finished.
Proof.
  apply eq_true_iff_eq. rewrite bool_decide_eq_true, negb_true_iff. unfold round_jobs.
  rewrite elem_of_app, list_elem_of_fmap. destruct finished; cbn; set_solver.
Qed.
Lemma round_jobs_processor finished n i : (i < n)%nat ->
  isQueued (HashProcessor i) (round_jobs finished n) = true.
Proof.
  intros Hi. apply bool_decide_eq_true. unfold round_jobs. rewrite elem_of_app. right.
  apply list_elem_of_fmap. exists i. split; [done|]. apply elem_of_seq. lia.
Qed.

Lemma live_report g k j done_ : running g done_ -> pool g !! k = Some (j, Ran) ->
  live ((g <| pool := delete k (pool g) |>) <| m_runningJobs ::= fun n => n - 1 |>) done_.
Proof.
  intros [Hg _] Hk. destruct (report_pool g k j (r_counted _ _ Hg) Hk) as (Hc & _ & Hq).
  destruct Hg. split; cbn; try done.
  - intros i a Hi. rewrite (r_hashes0 i a Hi). unfold fed. by rewrite Hq.
  - rewrite r_text0. do 2 f_equal. unfold unread. cbn. by rewrite Hq.
  - intros Hf. destruct (r_finished0 Hf) as [Hr ?]. split; [|done]. intros Hin. apply Hr.
    apply list_elem_of_fmap in Hin as ([x ph] & -> & Hin).
    apply (pool_report _ _ j) in Hin as [_ Hin]; [|done|apply r_counted0].
    by apply (list_elem_of_fmap_2 fst _ (x, ph)).
Qed.

(** When a round is over every hash has had the buffer of the round. *)
Lemma live_over g done_ : live g done_ -> pool g = [] -> m_readingFinished g = true -> over (finish g <| deleted := true |>).
Proof.
  intros [] Hp Hf. split; [done..|]. right. unfold finish. members. rewrite r_reported0. cbn [app].
  unfold hashes_of. do 2 f_equal. apply list_eq. intros i. rewrite !list_lookup_fmap.
  destruct (algorithms !! i) as [a|] eqn:Hi.
  - rewrite (r_hashes0 i a Hi). cbn. unfold hash_result, digest, fed. rewrite Hp. do 4 f_equal.
    rewrite r_text0. unfold unread. rewrite Hf. by rewrite text_app_nil.
  - apply lookup_ge_None in Hi. by rewrite (proj2 (lookup_ge_None (m_hashProcessors g) i)) by (rewrite r_length0; exact Hi).
Qed.
Lemma live_next g done_ : live g done_ -> algorithms <> [] -> pool g = [] -> m_readingFinished g = false ->
  m_errorOccurred g = false -> running (startNextIteration false g) (done_ +:+ bytes (m_processBuffer g)).
Proof.
  intros [] Halg Hp Hf _. unfold startNextIteration. rewrite r_error0, Hf. cbv iota zeta.
  set (fin := dev_atEnd (m_data g)). rewrite r_length0.
  change (_ ++ map _ _) with (round_jobs fin (length algorithms)).
  split; [split|]; members; rewrite ?Hp, ?app_nil_l; try done.
  - split; members; rewrite ?Hp, ?app_nil_l; [apply round_jobs_nodup|]. rewrite round_jobs_length. destruct fin; cbn; lia.
  - intros i a Hi. rewrite (r_hashes0 i a Hi). unfold fed. rewrite ?Hp, ?app_nil_l, round_jobs_processor; [done|].
    by eapply lookup_lt_Some.
  - rewrite r_text0, text_app_assoc. do 2 f_equal. unfold unread. members.
    rewrite Hf, ?Hp, ?app_nil_l, round_jobs_reader. change (isQueued BufferReader []) with false.
    cbv iota. f_equal. destruct fin eqn:Hfin; [|done]. by apply rest_atEnd.
  - intros Hfin. split; [|by apply rest_atEnd]. rewrite Hfin, round_jobs_names. cbn.
    rewrite list_elem_of_fmap. by intros (? & ? & _).
  - tauto.
  - tauto.
  - destruct fin; [|done]. by destruct algorithms.
Qed.
Lemma next_round g c done_ : live g done_ -> algorithms <> [] -> pool g = [] ->
  invariant (startNextIteration c g).
Proof.
  intros Hg Halg Hp. pose proof (r_error _ _ Hg) as He. pose proof (r_reported _ _ Hg) as Hr.
  destruct (m_readingFinished g) eqn:Hf.
  - right. right. unfold startNextIteration. rewrite He, Hf. by apply live_over with done_.
  - destruct c; [|left; eexists; by apply live_next].
    right. right. unfold startNextIteration. rewrite He, Hf. split; [done..|]. left. members. by rewrite Hr.
Qed.
Lemma running_report g k j done_ c : running g done_ -> algorithms <> [] -> pool g !! k = Some (j, Ran) ->
  invariant (reportJobFinished c (g <| pool := delete k (pool g) |>)).
Proof.
  intros Hg Halg Hk. pose proof (live_report g k j done_ Hg Hk) as Hl.
  destruct (report_pool g k j (r_counted _ _ (r_live _ _ Hg)) Hk) as (_ & Hz & _).
  unfold reportJobFinished. cbv zeta. revert Hl. set (g1 := (_ <| pool := _ |>) <| m_runningJobs ::= _ |>).
  change (m_runningJobs g - 1) with (m_runningJobs g1) in Hz. change (delete k (pool g)) with (pool g1) in Hz.
  clearbody g1. intros Hl. destruct (m_runningJobs g1 =? 0) eqn:Hrun; bools.
  - apply next_round with done_; tauto.
  - left. exists done_. split; [done|tauto].
Qed.

Lemma failed_next g c : counted g -> m_errorOccurred g = true -> (exists e, reported g = [HashError e]) ->
  pool g = [] -> failed (startNextIteration c g).
Proof.
  intros [Hn Hc] He Hr Hp. unfold startNextIteration. rewrite He. split; members; try done.
  - by rewrite Hp; apply not_elem_of_nil.
  - by rewrite Hp.
Qed.
Lemma failed_report g k j c : failed g -> pool g !! k = Some (j, Ran) ->
  failed (reportJobFinished c (g <| pool := delete k (pool g) |>)).
Proof.
  intros [Hc He Hr Hq Hd] Hk. destruct (report_pool g k j Hc Hk) as (Hc' & Hz & Hq').
  assert ((BufferReader, Queued) ∉ delete k (pool g)) as Hnq.
  { rewrite (pool_report _ _ j) by (done || apply Hc). tauto. }
  assert (pool g <> []) as Hne by (intros Hn; by rewrite Hn in Hk). rewrite bool_decide_eq_false_2 in Hd by done.
  unfold reportJobFinished. cbv zeta. revert Hc'. set (g1 := (g <| pool := _ |>) <| m_runningJobs ::= _ |>).
  change (m_runningJobs g - 1) with (m_runningJobs g1) in Hz. change (delete k (pool g)) with (pool g1) in Hz, Hnq.
  change (m_errorOccurred g) with (m_errorOccurred g1) in He. change (reported g) with (reported g1) in Hr.
  change (deleted g) with (deleted g1) in Hd. clearbody g1.
  intros Hc'. destruct (m_runningJobs g1 =? 0) eqn:Hrun; bools; [by apply failed_next; tauto|].
  split; try done. rewrite Hd. symmetry. apply bool_decide_eq_false. tauto.
Qed.

Lemma step_invariant g c g' : algorithms <> [] -> invariant g -> step errorOf c g = Some g' -> invariant g'.
Proof.
  intros Ha Hi. unfold step. destruct (pool g !! which c) as [[j []]|] eqn:Hk; [| |done]; intros [= <-].
  - destruct Hi as [[d Hg]|[Hf|Ho]].
    + destruct j as [|i]; [by apply run_read with d|]. left. exists d. by apply run_process.
    + right. left. by apply failed_run.
    + by rewrite (o_pool _ Ho) in Hk.
  - destruct Hi as [[d Hg]|[Hf|Ho]].
    + by apply running_report with j d.
    + right. left. by apply failed_report with j.
    + by rewrite (o_pool _ Ho) in Hk.
Qed.
Lemma execute_invariant g cs g' : algorithms <> [] -> invariant g -> execute errorOf cs g = Some g' -> invariant g'.
Proof.
  intros Ha. revert g. induction cs as [|c cs IH]; intros g Hi; simpl; [by intros [= <-]|].
  destruct (step errorOf c g) as [g1|] eqn:Hs; [|done]. apply IH. by eapply step_invariant.
Qed.

(** *** Every execution ends *)

Definition work (l : list (Job * Phase)) : Z :=
  foldr (fun p n => (match p.2 with Queued => 2 | Ran => 1 end) + n) 0 l.
Lemma work_app l l' : work (l ++ l') = work l + work l'.
Proof. induction l as [|p l IH]; simpl; [done|]. unfold work in *. simpl. lia. Qed.
Lemma work_run l k j : l !! k = Some (j, Queued) -> work (<[k := (j, Ran)]> l) = work l - 1.
Proof.
  intros Hk. destruct (pool_split _ _ _ _ Hk) as [Hl _].
  rewrite insert_take_drop by by apply lookup_lt_Some in Hk. rewrite Hl at 3. rewrite !work_app. simpl. lia.
Qed.
Lemma work_report l k j : l !! k = Some (j, Ran) -> work (delete k l) = work l - 1.
Proof.
  intros Hk. destruct (pool_split _ _ _ _ Hk) as [Hl Hlen]. rewrite Hl.
  rewrite <-Hlen at 1. rewrite delete_middle, !work_app. simpl. lia.
Qed.
Lemma work_round finished n : work (round_jobs finished n) = (if finished then 0 else 2) + 2 * Z.of_nat n.
Proof.
  unfold round_jobs. rewrite work_app.
  assert (forall a, work (map (fun i => start (HashProcessor i)) (seq a n)) = 2 * Z.of_nat n) as ->.
  { induction n as [|n IH]; intros a; [done|]. cbn [seq map]. unfold work in *. cbn [foldr]. rewrite IH. simpl. lia. }
  by destruct finished.
Qed.
Lemma work_nonneg l : 0 <= work l.
Proof. induction l as [|[j []] l IH]; simpl; unfold work in *; simpl; lia. Qed.

Definition size_of (s : string) : Z := Z.of_nat (String.length s).
Definition none_left (b : Buffer) : Z := if capacity b =? 0 then 1 else 0.
(** How many rounds are left at most, twice, and one more when the buffer was filled in this one. *)
Definition rounds g : Z :=
  if m_errorOccurred g || deleted g || m_readingFinished g then 0
  else if isQueued BufferReader (pool g) then
    if decide (dev_rest (m_data g) = "") then 2
    else 2 * (2 * size_of (dev_rest (m_data g)) + none_left (m_readBuffer g)) + 2
  else if decide (dev_rest (m_data g) = "") then 1
  else 2 * (2 * size_of (dev_rest (m_data g)) + none_left (m_processBuffer g)) + 3.
Definition steps_left g : Z :=
  rounds g * (2 * Z.of_nat (length algorithms) + 3) + work (pool g).

Lemma size_app a b : size_of (a +:+ b) = size_of a + size_of b.
Proof. unfold size_of. rewrite text_app_length. lia. Qed.
Lemma size_pos s : s <> "" -> 0 < size_of s.
Proof. unfold size_of. destruct s; [done|]. simpl. lia. Qed.
Lemma size_nonneg s : 0 <= size_of s.
Proof. unfold size_of. lia. Qed.
Lemma rounds_nonneg g : 0 <= rounds g.
Proof.
  unfold rounds, none_left. pose proof (size_nonneg (dev_rest (m_data g))).
  repeat (case_match; try lia).
Qed.
Lemma steps_left_nonneg g : 0 <= steps_left g.
Proof. unfold steps_left. pose proof (rounds_nonneg g). pose proof (work_nonneg (pool g)). nia. Qed.

Lemma rounds_run_process g k i done_ : running g done_ -> pool g !! k = Some (HashProcessor i, Queued) ->
  rounds ((process_buffer i g) <| pool := <[k := (HashProcessor i, Ran)]> (pool g) |>) = rounds g.
Proof.
  intros Hg Hk. unfold rounds. cbn [m_errorOccurred deleted m_readingFinished pool m_data m_readBuffer m_processBuffer process_buffer upd].
  rewrite (queued_run g) by (done || apply (r_counted _ _ (r_live _ _ Hg))).
  by rewrite (bool_decide_eq_false_2 (BufferReader = _)).
Qed.
Lemma rounds_run_read g k done_ : running g done_ -> pool g !! k = Some (BufferReader, Queued) ->
  rounds ((read_buffer errorOf g) <| pool := <[k := (BufferReader, Ran)]> (pool g) |>) < rounds g.
Proof.
  intros Hg Hk. pose proof (r_counted _ _ (r_live _ _ Hg)) as Hc. destruct Hg as [[] Hp]. unfold rounds.
  assert (m_readingFinished g = false) as Hf.
  { destruct (m_readingFinished g); [|done]. destruct (r_finished0 eq_refl) as [Hr _]. destruct Hr.
    apply (list_elem_of_fmap_2 fst _ (BufferReader, Queued)). by eapply list_elem_of_lookup_2. }
  rewrite r_error0, r_deleted0, Hf, (is_queued g k) by done. cbn [orb].
  pose proof (size_nonneg (dev_rest (m_data g))).
  assert (0 <= none_left (m_readBuffer g) <= 1) by (unfold none_left; case_match; lia).
  unfold read_buffer. destruct (dev_read (m_data g) (capacity (m_readBuffer g))) as [[s|] d] eqn:Hr.
  - members.
    rewrite r_error0, r_deleted0, Hf, (queued_run g) by done. cbn [orb].
    rewrite (bool_decide_eq_true_2 (BufferReader = _)) by done. cbn [negb andb].
    pose proof (rest_read _ _ _ _ Hr) as Ht.
    destruct (decide (dev_rest d = "")) as [Hd|Hd]; [destruct (decide (dev_rest (m_data g) = "")); lia|].
    destruct (decide (dev_rest (m_data g) = "")) as [He|He]; [rewrite He in Ht; by destruct s|].
    assert (size_of (dev_rest (m_data g)) = size_of s + size_of (dev_rest d)) as Hs by by rewrite Ht, size_app.
    unfold none_left. destruct (Z.eqb_spec (capacity (m_readBuffer g)) 0) as [Hz|Hz].
    + pose proof (size_nonneg s). destruct (Z.eqb_spec (capacity (m_processBuffer g)) 0); lia.
    + assert (s <> "") as Hne by (eapply read_progress; [|done..]; lia).
      apply size_pos in Hne. destruct (capacity (m_processBuffer g) =? 0); lia.
  - cbn [m_errorOccurred upd orb]. destruct (decide _); lia.
Qed.

Lemma steps_run g j k done_ : running g done_ -> pool g !! k = Some (j, Queued) ->
  steps_left ((run_job errorOf j g) <| pool := <[k := (j, Ran)]> (pool g) |>) < steps_left g.
Proof.
  intros Hg Hk. pose proof (work_run _ _ _ Hk) as Hw. unfold steps_left.
  set (g' := (run_job errorOf j g) <| pool := _ |>).
  change (pool g') with (<[k := (j, Ran)]> (pool g)). rewrite Hw. destruct j as [|i].
  - assert (rounds g' < rounds g) by by apply rounds_run_read with done_. nia.
  - assert (rounds g' = rounds g) as -> by by apply rounds_run_process with done_. lia.
Qed.
Lemma rounds_deleted g : deleted g = true -> rounds g = 0.
Proof. unfold rounds. intros ->. by rewrite orb_true_r. Qed.
Lemma steps_over g : deleted g = true -> pool g = [] -> steps_left g = 0.
Proof. intros Hd Hp. unfold steps_left. by rewrite rounds_deleted, Hp. Qed.
Lemma steps_next g c : m_errorOccurred g = false -> deleted g = false -> pool g = [] ->
  length (m_hashProcessors g) = length algorithms -> 
  steps_left (startNextIteration c g) <= rounds g * (2 * Z.of_nat (length algorithms) + 3).
Proof.
  intros He Hd Hp Hl.
  assert (0 <= rounds g * (2 * Z.of_nat (length algorithms) + 3)) as Hn.
  { apply Z.mul_nonneg_nonneg; [apply rounds_nonneg|lia]. }
  unfold startNextIteration. rewrite He. destruct (m_readingFinished g) eqn:Hf; [by rewrite steps_over|].
  destruct c; [by rewrite steps_over|]. cbv zeta. rewrite Hl. set (fin := dev_atEnd (m_data g)).
  change (_ ++ map _ _) with (round_jobs fin (length algorithms)).
  assert (fin = bool_decide (dev_rest (m_data g) = "")) as Hfin.
  { apply eq_true_iff_eq. rewrite bool_decide_eq_true. apply rest_atEnd. }
  rewrite bool_decide_decide in Hfin. unfold steps_left. members. rewrite Hp, app_nil_l, work_round.
  unfold rounds. members. rewrite ?Hp, He, Hd, ?app_nil_l, round_jobs_reader. rewrite ?Hf. clearbody fin. subst fin.
  change (isQueued BufferReader []) with false. cbn [orb].
  destruct (decide (dev_rest (m_data g) = "")) as [Hr|Hr]; cbn [negb]; lia.
Qed.
Lemma steps_report g j k c done_ : running g done_ -> algorithms <> [] -> pool g !! k = Some (j, Ran) ->
  steps_left (reportJobFinished c (g <| pool := delete k (pool g) |>)) < steps_left g.
Proof.
  intros Hg Halg Hk. destruct (report_pool g k j (r_counted _ _ (r_live _ _ Hg)) Hk) as (_ & Hz & Hq).
  pose proof (work_report _ _ _ Hk) as Hw. unfold reportJobFinished.
  set (g1 := (g <| pool := _ |>) <| m_runningJobs ::= _ |>). cbv zeta.
  assert (rounds g1 = rounds g) as Hr by (unfold rounds, g1; members; by rewrite Hq).
  change (m_runningJobs g1) with (m_runningJobs g - 1).
  destruct (m_runningJobs g - 1 =? 0) eqn:Hrun; bools.
  - apply Hz in Hrun. rewrite Hrun in Hw. change (work []) with 0 in Hw. destruct Hg as [[] Hp].
    pose proof (steps_next g1 c r_error0 r_deleted0 Hrun r_length0) as Hs. rewrite Hr in Hs.
    unfold steps_left at 2. lia.
  - unfold steps_left. rewrite Hr. change (pool g1) with (delete k (pool g)). lia.
Qed.

Lemma failed_run_rounds g : failed g -> rounds g = 0.
Proof. intros [_ He _ _ _]. unfold rounds. by rewrite He. Qed.
Lemma step_decreases g c g' : algorithms <> [] -> invariant g -> step errorOf c g = Some g' ->
  steps_left g' < steps_left g.
Proof.
  intros Ha Hi Hs. unfold step in Hs. destruct (pool g !! which c) as [[j []]|] eqn:Hk; [| |done]; injection Hs as <-.
  - destruct Hi as [[d Hg]|[Hf|Ho]]; [by apply steps_run with d| |by rewrite (o_pool _ Ho) in Hk].
    pose proof (failed_run g _ _ Hf Hk) as Hf'. unfold steps_left. rewrite !failed_run_rounds by done.
    cbn [pool upd]. rewrite (work_run _ _ j) by done. lia.
  - destruct Hi as [[d Hg]|[Hf|Ho]]; [by apply steps_report with j d| |by rewrite (o_pool _ Ho) in Hk].
    pose proof (failed_report g _ _ (cancelled c) Hf Hk) as Hf'. unfold steps_left. rewrite !failed_run_rounds by done.
    unfold reportJobFinished, startNextIteration. cbn [m_errorOccurred upd]. rewrite (f_error _ Hf).
    destruct (_ =? 0); cbn [pool upd]; rewrite (work_report _ _ j) by done; lia.
Qed.
Lemma execution_bounded g cs g' : algorithms <> [] -> invariant g -> execute errorOf cs g = Some g' ->
  Z.of_nat (length cs) <= steps_left g.
Proof.
  intros Ha. revert g. induction cs as [|c cs IH]; intros g Hi; simpl; [intros; apply steps_left_nonneg|].
  destruct (step errorOf c g) as [g1|] eqn:Hs; [|done]. intros He.
  apply IH in He; [|by eapply step_invariant]. apply step_decreases in Hs; [lia|done..].
Qed.

(** *** What is reported *)

Lemma read_reports g : reported (read_buffer errorOf g) = reported g \/
  exists e d, dev_read (m_data g) (capacity (m_readBuffer g)) = (None, d) /\
    reported (read_buffer errorOf g) = reported g ++ [HashError e].
Proof.
  unfold read_buffer. destruct (dev_read _ _) as [[s|] d] eqn:Hr; [by left|]. right. by eexists _, _.
Qed.
Lemma next_reports g c r : r ∈ reported (startNextIteration c g) -> r ∈ reported g \/
  (r = HashCancelled -> c = true) /\ (forall e, r = HashError e -> exists n d, (dev_read d n).1 = None).
Proof.
  unfold startNextIteration. destruct (m_errorOccurred g); [by left|].
  destruct (m_readingFinished g); [|destruct c; [|by left]].
  all: unfold finish; members; rewrite elem_of_app, list_elem_of_singleton.
  all: intros [Hr| ->]; [by left|]; right; split; by intros.
Qed.
Lemma choice_reports g c g' : step errorOf c g = Some g' -> forall r, r ∈ reported g' -> r ∈ reported g \/
  (r = HashCancelled -> cancelled c = true) /\
  (forall e, r = HashError e -> exists n d, (dev_read d n).1 = None).
Proof.
  unfold step. destruct (pool g !! which c) as [[j []]|] eqn:Hk; [| |done]; intros [= <-] r Hr.
  - cbn [reported upd] in Hr. destruct j as [|i]; [|by left]. cbn [run_job] in Hr.
    destruct (read_reports g) as [He|(e & d & Hd & He)]; rewrite He in Hr; [by left|].
    apply elem_of_app in Hr as [Hr|Hr]; [by left|]. apply list_elem_of_singleton in Hr as ->. right.
    split; [done|]. intros ? _. eexists _, _. by rewrite Hd.
  - unfold reportJobFinished in Hr. revert Hr. set (g1 := (g <| pool := delete (which c) (pool g) |>) <| m_runningJobs ::= fun n => n - 1 |>).
    change (reported g) with (reported g1). clearbody g1. cbv zeta.
    destruct (_ =? 0); [|by left]. intros Hr. apply next_reports in Hr. tauto.
Qed.
Lemma execute_reports g cs g' : execute errorOf cs g = Some g' -> forall r, r ∈ reported g' -> r ∈ reported g \/
  (r = HashCancelled -> Exists (fun c => cancelled c = true) cs) /\
  (forall e, r = HashError e -> exists n d, (dev_read d n).1 = None).
Proof.
  revert g. induction cs as [|c cs IH]; intros g; simpl; [intros [= <-]; by left|].
  destruct (step errorOf c g) as [g1|] eqn:Hs; [|done]. intros He r Hr.
  destruct (IH _ He r Hr) as [Hr1|[Hc Hd]].
  - destruct (choice_reports _ _ _ Hs r Hr1) as [?|[Hc Hd]]; [by left|]. right. split; [|done].
    intros Hr'. apply Exists_cons. by left; apply Hc.
  - right. split; [|done]. intros Hr'. apply Exists_cons. by right; apply Hc.
Qed.

Lemma invariant_pool g : invariant g -> pool g <> [] ->
  reported g = [] \/ exists e, reported g = [HashError e].
Proof.
  intros [[d Hg]|[Hf|Ho]] Hp; [left; by apply r_reported with d, Hg|right; apply Hf|by destruct Hp; apply Ho].
Qed.
Lemma invariant_over g : invariant g -> pool g = [] -> exists r, reported g = [r] /\
  (r = hashes_of (dev_rest d0) \/ r = HashCancelled \/ exists e, r = HashError e).
Proof.
  intros [[d Hg]|[Hf|Ho]] Hp.
  - by destruct (r_pool _ _ Hg).
  - destruct (f_reported _ Hf) as [e He]. exists (HashError e). eauto.
  - destruct (o_reported _ Ho); eauto 10.
Qed.

(** What an execution has reported once no job is left. *)
Lemma executed_result cs g : startable -> execute errorOf cs (newGenerator d0 algorithms) = Some g -> pool g = [] ->
  exists r, reported g = [r] /\
    ((forall d n, (dev_read d n).1 <> None) -> Forall (fun c => cancelled c = false) cs ->
     r = hashes_of (dev_rest d0)) /\
    (r = hashes_of (dev_rest d0) \/ r = HashCancelled \/ exists e, r = HashError e).
Proof.
  intros Hs He Hp. pose proof (or_introl (ex_intro _ "" (new_running Hs)) : invariant (newGenerator d0 algorithms)) as Hi.
  pose proof Hs as [Ha _]. pose proof (execute_invariant _ _ _ Ha Hi He) as Hi'.
  destruct (invariant_over g Hi' Hp) as (r & Hr & Hcases). exists r. split; [done|].
  split; [|done]. intros Hd Hc. destruct (execute_reports _ _ _ He r) as [Hin|[Hcan Herr]].
  - rewrite Hr. by left.
  - by apply elem_of_nil in Hin.
  - destruct Hcases as [?|[-> | [e ->]]]; [done| |].
    + destruct (Hcan eq_refl) as [c cs' Hx|c cs' Hx]; apply Forall_cons in Hc as [Hc1 Hc2]; [congruence|].
      clear -Hx Hc2. induction Hx; apply Forall_cons in Hc2 as [? ?]; [congruence|auto].
    + destruct (Herr e eq_refl) as (n & d & Hn). by destruct (Hd d n).
Qed.

(** C13: With at least one algorithm and a device not known to be empty, however the thread pool
    interleaves the jobs: an execution is finite, a job can go on until
    none is left, and then exactly one result was reported. It is the digest of everything the
    device had left, by each algorithm in order, unless a reading failed or the caller cancelled. *)
Theorem hashing_exact cs g : startable -> execute errorOf cs (newGenerator d0 algorithms) = Some g ->
  Z.of_nat (length cs) <= steps_left (newGenerator d0 algorithms) /\
  (pool g <> [] -> (exists c, is_Some (step errorOf c g)) /\
     (reported g = [] \/ exists e, reported g = [HashError e])) /\
  (pool g = [] -> exists r, reported g = [r] /\
     ((forall d n, (dev_read d n).1 <> None) -> Forall (fun c => cancelled c = false) cs ->
      r = hashes_of (dev_rest d0)) /\
     (r = hashes_of (dev_rest d0) \/ r = HashCancelled \/ exists e, r = HashError e)).
Proof.
  intros Hs He. pose proof (or_introl (ex_intro _ "" (new_running Hs)) : invariant (newGenerator d0 algorithms)) as Hi.
  pose proof Hs as [Ha _]. pose proof (execute_invariant _ _ _ Ha Hi He) as Hi'.
  split; [by apply execution_bounded with g|]. split; [|by apply executed_result].
  intros Hp. split; [|by apply invariant_pool]. destruct (pool g) as [|[j ph] l] eqn:Hl; [done|].
  exists {| which := 0; cancelled := false |}. unfold step. cbn [which]. rewrite Hl. by destruct ph.
Qed.
End Proofs.

(** ** Hashing and verifying a file *)

Section Files.
Context `{StreamingHash} `{ReadDeviceLaws}.
Variable errorOf : Dev -> string.

Lemma sync_hashes algorithms d results r : calculateHashesSync errorOf d algorithms results = r ->
  (exists e, r = HashError e) \/
  r = Hashes (results ++ map (fun a => {| h_algorithm := toHashAlgorithm a; h_hash := digest a (dev_whole d) |}) algorithms).
Proof.
  revert d results. induction algorithms as [|a l IH]; intros d results; simpl.
  - intros <-. right. by rewrite app_nil_r.
  - destruct (dev_readAll (dev_seek0 d)) as [[s|] d'] eqn:Hr; [|intros <-; left; by eexists].
    apply whole_readAll in Hr as [-> Hw]. rewrite whole_seek0 in Hw. rewrite rest_seek0.
    intros He. apply IH in He as [?|He]; [by left|]. right. rewrite He, Hw. by rewrite <-app_assoc.
Qed.

(** What calculateHashes gives its caller, at once or in the end. *)
Definition hashing_result (d : Dev) (algorithms : list HashAlgorithm) (r : HashingResult) : Prop :=
  calculateHashes errorOf d algorithms = Some (inl r) \/
  exists g0 cs g, calculateHashes errorOf d algorithms = Some (inr g0) /\
    execute errorOf cs g0 = Some g /\ pool g = [] /\ reported g = [r].

Lemma toQt_back a q : toCryptograhicHashAlgorithm a = Some q -> toHashAlgorithm q = a.
Proof. by destruct a; intros [= <-]. Qed.
Lemma secure_supported a : isHashingAlgorithmSecure a = true -> is_Some (toCryptograhicHashAlgorithm a).
Proof. destruct a; cbn; try done; by eexists. Qed.

Lemma file_hashes d algorithms qts r : mapM toCryptograhicHashAlgorithm algorithms = Some qts -> qts <> [] ->
  dev_rest d = dev_whole d -> hashing_result d algorithms r ->
  r = hashes_of qts (dev_whole d) \/ r = HashCancelled \/ exists e, r = HashError e.
Proof.
  intros Hq Hne Hpos. unfold hashing_result, calculateHashes. rewrite Hq. intros [He|(g0 & cs & g & He & Hx & Hp & Hr)].
  - destruct (dev_isReadable d); cbn [negb] in He; [|injection He as <-; eauto].
    destruct (deviceSize d) as [size|]; [|done]. destruct (_ <=? _); [|done]. injection He as He.
    apply sync_hashes in He as [?| ->]; eauto.
  - destruct (dev_isReadable d); cbn [negb] in He; [|done].
    assert (g0 = newGenerator d qts /\ deviceSize d <> Some 0) as [-> Hs].
    { destruct (deviceSize d) as [size|] eqn:Hs; [|by injection He as <-].
      destruct (_ <=? _) eqn:Hle; [done|]. injection He as <-. split; [done|]. intros [= ->].
      by rewrite Z.mul_0_r in Hle. }
    pose proof (executed_result errorOf d qts cs g (conj Hne Hs) Hx) as Ho.
    destruct (Ho Hp) as (r' & Hr' & _ & Hc). rewrite Hr in Hr'. injection Hr' as <-. by rewrite <-Hpos.
Qed.

Lemma expected_best hashes h : expectedHash hashes = Some h ->
  h ∈ hashes /\ h_hash h <> "" /\ isHashingAlgorithmSecure (h_algorithm h) = true /\
  forall h', h' ∈ hashes -> ~ isInvalid h' -> hashPriority (h_algorithm h') <= hashPriority (h_algorithm h).
Proof.
  unfold expectedHash. intros Hl. set (l := filter _ _) in Hl.
  assert (Transitive byPriority) as Ht by (intros a b c; unfold byPriority; lia).
  assert (Total byPriority) as Htot by (intros a b; unfold byPriority; lia).
  pose proof (StronglySorted_merge_sort byPriority l) as Hs. pose proof (merge_sort_Permutation byPriority l) as Hp.
  apply last_Some in Hl as [m Hm]. rewrite Hm in Hs, Hp.
  assert (h ∈ l) as Hin. { rewrite <-Hp. apply elem_of_app. right. by left. }
  unfold l in Hin. apply list_elem_of_filter in Hin as [Hv Hin]. unfold isInvalid in Hv.
  split; [done|]. split; [tauto|]. split; [destruct (isHashingAlgorithmSecure _); tauto|].
  intros h' Hin' Hv'. assert (h' ∈ l) as Hl'. { by apply list_elem_of_filter. }
  rewrite <-Hp in Hl'. apply elem_of_app in Hl' as [Hl'|Hl'].
  - apply (StronglySorted_app_1_elem_of byPriority m [h] h' h Hs) in Hl'; [done|by left].
  - apply list_elem_of_singleton in Hl' as ->. lia.
Qed.

(** C14: A file is accepted only if it has the digest that was announced for the strongest of the
    algorithms that are secure, however it was read; without such an algorithm nothing is checked. *)
Theorem verified_file d hashes : dev_rest d = dev_whole d ->
  (expectedHash hashes = None <-> Forall isInvalid hashes) /\
  forall h r, expectedHash hashes = Some h -> hashing_result d [h_algorithm h] r ->
    (h ∈ hashes /\ h_hash h <> "" /\ isHashingAlgorithmSecure (h_algorithm h) = true /\
     forall h', h' ∈ hashes -> ~ isInvalid h' -> hashPriority (h_algorithm h') <= hashPriority (h_algorithm h)) /\
    exists q, toCryptograhicHashAlgorithm (h_algorithm h) = Some q /\
      match r with
      | Hashes _ => verifyResult r h =
          Some (if decide (digest q (dev_whole d) = h_hash h) then Verified else NotMatching)
      | HashCancelled => verifyResult r h = Some VerifyCancelled
      | HashError e => verifyResult r h = Some (VerifyError e)
      end.
Proof.
  intros Hpos. split.
  - unfold expectedHash. rewrite last_None. set (l := filter _ _).
    pose proof (merge_sort_Permutation byPriority l) as Hp. split.
    + intros Hm. rewrite Hm in Hp. apply Permutation_nil in Hp. apply Forall_forall. intros h Hh.
      destruct (decide (isInvalid h)) as [|Hv]; [done|]. exfalso.
      assert (h ∈ l) as Hl by by apply list_elem_of_filter. rewrite Hp in Hl. by apply elem_of_nil in Hl.
    + intros Hf. assert (l = []) as Hl.
      { apply filter_none. eapply Forall_impl; [exact Hf|]. simpl. tauto. }
      rewrite Hl in *. by apply Permutation_nil, symmetry.
  - intros h r Hh Hr. pose proof (expected_best _ _ Hh) as Hb. split; [done|].
    destruct Hb as (_ & _ & Hs & _). destruct (secure_supported _ Hs) as [q Hq]. exists q. split; [done|].
    destruct (file_hashes d [h_algorithm h] [q] r) as [-> | [->|[e ->]]]; [by simpl; rewrite Hq|done|done|done| |done|done].
    done.
Qed.
End Files.

(** *** Samples: a hash that keeps its input, a pipe that gives four bytes at a time *)

Definition sample_hash : CryptoHash := {|
  Hasher := string; newHasher _ := ""; addData h s := h +:+ s; hasherResult h := h |}.
Lemma sample_hash_laws : @StreamingHash sample_hash.
Proof. split; intros; cbn; [apply text_app_nil|apply text_app_assoc]. Qed.
Definition sample_pipe : ReadDevice := {|
  Dev := string * string;   (* all of the data, and what is left *)
  dev_isReadable _ := true; dev_isSequential _ := true; dev_size _ := 0;
  dev_seek0 d := (d.1, d.1);
  dev_read d n := let k := if n <? 4 then Z.to_nat n else 4%nat in
    (Some (String.substring 0 k d.2), (d.1, String.substring k (String.length d.2 - k) d.2));
  dev_readAll d := (Some d.2, (d.1, ""));
  dev_atEnd d := bool_decide (d.2 = "") |}.
Lemma substring_split k s : String.substring 0 k s +:+ String.substring k (String.length s - k) s = s.
Proof.
  revert k. induction s as [|c s IH]; intros [|k]; simpl; [done..| |].
  - rewrite append_cons || idtac. assert (forall t, String.substring 0 (String.length t) t = t) as Ht.
    { induction t as [|x t IHt]; [done|]. simpl. by rewrite IHt. }
    by rewrite Ht.
  - rewrite append_cons. by rewrite IH.
Qed.
Lemma sample_pipe_laws : @ReadDeviceLaws sample_pipe.
Proof.
  refine (@Build_ReadDeviceLaws sample_pipe (fun d : string * string => d.2) (fun d : string * string => d.1) _ _ _ _ _ _);
    cbn; try done.
  - intros [w s] n r d' [= <- <-]. cbn. by rewrite substring_split.
  - intros [w s] r d' [= <- <-]. done.
  - intros [w s]. cbn. apply bool_decide_eq_true.
  - intros [w s] n r d' Hn Hs [= <- <-]. cbn in *. destruct s as [|c s]; [done|].
    destruct (n <? 4) eqn:Hk; bools; [|done]. by destruct (Z.to_nat n) eqn:He; [lia|].
Defined.
Definition sample_data : @Dev sample_pipe := ("hello!", "hello!").
Definition choice (n : nat) : Choice := {| which := n; cancelled := false |}.
Lemma hashing_exact_witness :
  let g0 := newGenerator (H := sample_hash) (H0 := sample_pipe) sample_data [Qt.Sha256; Qt.Blake2b_256] in
  let cs := map choice [0; 0; 0; 2; 0; 0; 1; 0; 1; 0; 0; 0]%nat in
  let g := default g0 (execute (fun _ => "read error") cs g0) in
  reported g = [hashes_of (H := sample_hash) [Qt.Sha256; Qt.Blake2b_256] "hello!"] /\
  Z.of_nat (length cs) <= steps_left (H := sample_hash) (H1 := sample_pipe) (H2 := sample_pipe_laws)
     [Qt.Sha256; Qt.Blake2b_256] g0.
Proof.
  intros g0 cs g. split; [by vm_compute|].
  apply (hashing_exact (H := sample_hash) (H0 := sample_hash_laws) (H1 := sample_pipe) (H2 := sample_pipe_laws)
    (fun _ => "read error") sample_data [Qt.Sha256; Qt.Blake2b_256] cs g); [by split|by vm_compute].
Defined.
Lemma verified_file_witness :
  let h := {| h_algorithm := Sha256; h_hash := "hello!" |} in
  let r := hashes_of (H := sample_hash) [Qt.Sha256] "hello!" in
  h ∈ [h; {| h_algorithm := Sha1; h_hash := "x" |}] /\ verifyResult r h = Some Verified.
Proof.
  intros h r.
  destruct (verified_file (H := sample_hash) (H0 := sample_hash_laws) (H1 := sample_pipe) (H2 := sample_pipe_laws)
    (fun _ => "read error") sample_data [h; {| h_algorithm := Sha1; h_hash := "x" |}] eq_refl) as [_ Hv].
  destruct (Hv h r) as [[Hin _] (q & Hq & Hr)]; [by vm_compute| |].
  - right. eexists (newGenerator (H := sample_hash) (H0 := sample_pipe) sample_data [Qt.Sha256]),
      (map choice [0; 0; 1; 0; 1; 0; 0; 0]%nat), _.
    split; [reflexivity|]. split; [by vm_compute|]. by split.
  - split; [exact Hin|]. injection Hq as <-. exact Hr.
Defined.
